(* ===== verification/_CoqProject ===== *)
-Q . S2P
Prelude.v
Frames.v
Types.v
Lifecycle.v
Db.v
Jobs.v
Consolidation.v
Memory.v
MemoryStore.v
Retrieval.v
LifecycleStore.v
Session.v
Metabolism.v
MemoryTiers.v
Json.v
Settings.v
Runner.v
Aegis.v
Registry.v
Engine.v
Identity.v
Awareness.v
Support.v
Client.v
Assembly.v
ToolHandlers.v
Sandbox.v
Socket.v
Server.v
Advisor.v
Dispatcher.v
Daemon.v
Peripheral.v
SessionRunner.v
SessionProps.v
Agent.v
Recovery.v
Dsn.v
Migrate.v
Config.v
App.v
Builders.v
Embeddings.v
Sql.v
Dbwrap.v
StorageSqlite.v
StoragePostgres.v
Portability.v
Backlink.v
PlatformPg.v
PgProps.v
Channels.v
Benchmark.v
Phase1.v
