(* ===== verification/Prelude.v ===== *)
(** * Athena-class agent: a verification development

    The program is a long-running agent written in Go. A session wakes
    ([internal/app]), resolves a lifecycle plan ([internal/lifecycle]), assembles its
    context from identity documents and memory ([internal/assembly],
    [internal/identity], [internal/awareness]), runs the model-and-tools loop behind a
    content gateway ([internal/engine], [internal/aegis], [internal/tools]), archives
    every turn in T2, and is afterwards consolidated into T3 narratives by fenced jobs
    ([internal/metabolism]). T2 logs, T3 narratives, T4 reflections, T5 entities, jobs,
    plans, anchors and the trust registry live in one SQLite file ([internal/platform]); citations between
    records form a graph that carries trust and inference distance ([internal/memory]).

    ** Conventions

    - Fallible code is [result]; code with state is [M S A := S -> S * result A], with
      [let!] for [if err != nil { return }], [try!] where the code inspects the error,
      [wrapM] for [fmt.Errorf("...: %w", err)]. A panic is [None] of an option. Error
      texts are the program's; [errors_Is] walks wrapped errors.
    - Integers are [Z], wrapped at 64 bits by [wrap64] where overflow can matter;
      durations and instants are nanoseconds in [Z]; strings are their bytes; floats
      are binary64 of [SpecFloat], computed and compared as the hardware does.
    - A table is its list of rows, a statement the function its SQL denotes, and the
      driver may fail any statement ([Db.db_fault]); [Db.transact] rolls back.
    - Services outside the repository are parameters: the driver's failures, random
      bytes, the language model, embeddings, Unicode tables, [sort.Slice] on ties,
      [math.Exp] and [math.Pow], Go's map order. Interfaces between components are
      type classes, with their laws in a second class where clients rely on them.

    ** Files

    - [Prelude]: errors, the monad, strings, floats, time, sorting, row updates, tactics.
    - [Frames]: reusable facts about what a computation leaves unchanged.
    - [Types]: records, enums and validity tables of [pkg].
    - [Lifecycle]: [resolver.go] and the classifiers of [app/helpers.go].
    - [Db]: tables, statements, transactions, random IDs ([platform/storage/storage.go]).
    - [Jobs]: [jobs_sqlite.go]; interface [JobStore] with [JobStoreLaws].
    - [Consolidation]: [consolidation_sqlite.go], [metabolism/backlink.go] and the T2
      statements of [platform].
    - [Memory]: [memory/edges.go], [belief.go] and the staleness pass of [retrieve.go];
      interfaces [EdgeStore], [BeliefStore] with [MemoryLaws], which say what an operation
      changes of the graph and that it changes nothing of the rest of the store.
    - [MemoryStore]: the edge and belief statements of [platform/edges.go], the
      [belief_meta] column and RFC 3339 parsing; instance of [MemoryLaws].
    - [Retrieval]: rank fusion, T2 append, convergence window ([memory]).
    - [LifecycleStore]: [lifecycle_sqlite.go], [assembly_sqlite.go] with their CHECKs.
    - [Session]: [internal/session]: state machine, policy file, disclosures.
    - [Metabolism]: [salience.go], [compress.go], [pipeline.go].
    - [MemoryTiers]: the T3, T4, T5 and profile statements of [platform/memory.go], with
      LIKE matching and its escaping; [memory/tier3.go] to [tier5.go] over the interfaces
      [MemoryWriter] and [KGMutationStore].
    - [Json]: the part of [encoding/json] that cuts an object into raw members.
    - [Settings]: [platform/settings.go]; interface [SettingsStore].
    - [Runner]: [runner.go] over any lawful job store, [supervisor.go] as a step relation.
    - [Aegis]: [internal/aegis] and the trust registry of [platform/trust.go].
    - [Registry]: [tools/registry.go], [engine/tools.go].
    - [Engine]: [engine.go], [hooks.go] and the T2 logger of [hooks_phase3.go].
    - [Identity]: [internal/identity] and [platform/identity.go]; [AnchorLaws].
    - [Awareness]: [bridge.go], [grounding.go].
    - [Support]: log levels, events and [emit], [RedactDSN], random IDs, the table
      allowlist.
    - [Client]: [engine/client.go]: requests, the event-stream parser, thinking tags.
    - [Assembly]: [internal/assembly] and the runner's assembly configuration.
    - [ToolHandlers]: the built-in tools ([tools/*_cmds.go], [discover_handler.go]) and
      their registration ([register.go]).
    - [Sandbox], [Socket], [Advisor], [Dispatcher]: the tool socket's side of the program
      ([tools/sandbox.go], [uds.go], [advisor.go], [cli.go]) and its client [cmd/cli].
    - [Server]: the accept loop of [tools/uds.go].
    - [Daemon]: [internal/daemon] and [channels/registry.go].
    - [Peripheral]: [awareness/peripheral.go] and the observing hooks of
      [hooks_phase3.go].
    - [SessionRunner]: [RunSession] of [app/session_runner.go], whole; [SessionProps]: its
      theorems.
    - [Agent]: sessions and metabolism workers interleaved over one store, as a step
      relation into which the calls of [SessionRunner] and [Runner] unfold.
    - [Recovery]: [metabolism/recovery.go] and the job helpers of [jobs.go].
    - [Dsn]: store construction and the driver wrapper ([platform/db.go]); [Migrate]:
      [cmd/migrate]; [Config]: [platform/config.go]; [App]: the composition root
      ([app/app.go], [profile.go], [cmd/agent]).
    - [Builders]: the [New...] functions and chained setters of every package; the records
      the other files write are what the program's chains build.
    - [Embeddings]: the embedding worker and provider ([memory/embeddings.go]).
    - [Sql]: SQL as texts and values over an engine that is a parameter, for both
      dialects; [StorageSqlite], [StoragePostgres]: the job, consolidation, lifecycle and
      assembly stores of [platform/storage], as the texts each sends; [Portability]:
      they ask the same of the engine; [PlatformPg]: the PostgreSQL twins of the tier,
      edge, trust, identity and settings stores; [PgProps]: what those send; [Dbwrap]: the
      adapters that make [database/sql] and pgx one interface; [Backlink]: the first link
      transaction and the job helpers of [metabolism], as texts.
    - [Channels]: the stdin, Discord and forum adapters; [Benchmark]: [internal/benchmark]
      and [cmd/benchmark]; [Phase1]: [app/phase1.go] and [engine/loop.go].

    ** What the theorems show

    - The agent as a whole remembers: however sessions and workers interleave, overtake
      each other, die and restart, a session whose job reads completed has every entry of
      its experience in a stored narrative, and nothing once recorded is lost
      ([Agent.agent_remembers], [Agent.agent_forgets_nothing]). The invariant spans the
      session runner, the job store, the runner, the pipeline and the consolidation store;
      [Agent.calls_are_steps] ties it to the code's calls. Every step of a session or a
      worker is the store's own operation; what is assumed is that the model, the tools,
      the gateway and the other stores do not themselves write jobs, T2 or T3.
    - Consolidation is exactly-once per claim: a superseded worker is fenced, a commit
      is atomic under any driver failure, a completed job leaves nothing uncovered, a
      retry converges, and an external log reaches the compressor only screened or
      bracketed. A failed run leaves every table as it was but the trust registry, which
      live screening writes. The supervisor respects its bound on every interleaving, and
      a nil drain means that the wait group was empty once, no more.
    - The loop is safe and bounded: no tool runs on arguments the gateway refused, the
      history threads every call to its result, and the loop ends, provided its steering
      channel drains (a session has none).
    - A context is delivered only over verified identity documents, with every phase
      accounted for; only identity failures abort.
    - The memory graph: distrust reaches exactly what derives from a source, inference
      distance is a shortest path, decay is idempotent and respects the agent's own
      ratings, fusion ranks soundly, the column codecs round-trip.
    - A session writes its plan, wake facts and manifest before it loops, dispatches
      metabolism last and at most once, and runs under a well-formed plan whatever fails.
    - The stream parser says what the stream says, however it was cut into deltas.
    - Entity search is literal whatever the query; expiry and supersession lose no row;
      reflections keep the agent's words and confidence; proposals change only what the
      agent owns; recall stays in its session.
    - The daemon starts sessions only for screened events; nudges are rationed; the
      sandbox runs only what its mode allows; frames round-trip and an exchange over the
      socket is exact; tier gating holds; the advisor's budget, for one caller and many.
    - Plans follow the documented priorities and satisfy the schema; stores keep their
      invariants along every history; policy files are validated, failing closed.
    - The application is wired over one database or refuses to start; migration applies
      each file once, statement by statement, and stops at the first that fails; a started
      agent has everything its profile asks for.
    - Two dialects, one store: the SQLite and PostgreSQL stores send the same statements up
      to placeholders and time functions, and the PostgreSQL twins write only fixed texts;
      the two driver adapters run every program alike on drivers that answer alike.
    - Some theorems record behaviour that looks unintended ([stale_worker_commits_narrative],
      [fallback_pipeline_is_inert], [drain_nil_misses_submission],
      [Scan_panics_when_lowering_grows], [new_source_stays_at_prior],
      [sequential_terminate_leaves_calls_unanswered], [session_never_verifies_identity],
      [echoes_panic_without_store], [failed_first_boot_disarms_witness_check],
      [unrated_beliefs_go_stale], [dispatch_ignores_policy],
      [fallback_policy_is_the_resolved_profile], [buildMessages_role_and_content],
      [stripThinkingTokens_reassembles], [tool_reflection_is_rated_zero],
      [registered_recall_refuses], [profiles_unreadable], [single_bound_is_lost],
      [supersede_by_itself_hides], [amended_document_unverifiable], [budget_overrun],
      [redirection_escapes], [positional_verbs_fail], [help_commands_unknown],
      [startup_notes_lost], [no_gateway_panics], [manifest_of_unknown_plan],
      [NewStore_refuses_postgres], [migrate_refuses_postgres], [unknown_scheme_is_sqlite],
      [adaptForSQLite_rewrites_data], [failed_NewApp_leaks], [refused_batch_starves_others],
      [recovered_job_keeps_its_lease], [closed_steering_spins],
      [failed_run_scores_its_source], [pgx_lookups_fail_when_empty], [jsonb_hides_stale], [quiet_channel_redelivers],
      [forum_cursor_keeps_its_second], [PrintScores_panics], [partial_judgement_passes],
      [compare_refuses_results], [postgres_fence_refuses], [broken_listener_spins],
      [RedactDSN_limits]).

    ** Fuel

    The loop of the engine has fuel [MaxIterations], and a second fuel for the receives of
    its steering drain, which nothing in the code bounds. [Engine.RunLoop_terminates] shows
    that neither runs out when the channel drains, [Engine.closed_steering_spins] that no
    fuel is enough when it is closed; a session has no such channel and fuel 0 does
    ([SessionProps.session_loop_returns]). The graph searches take fuel as an argument; one more than
    the number of links is enough ([Memory]). The scanner's loop is bounded by the
    length of the text it scans ([Aegis.findAll]). Everything else is structural.

    ** Not modelled

    Log output, and the goroutines that only carry values between channels. Events: [emit]
    and the records are in [Support], but the engine's sink is nil in every configuration
    the program builds, so its loop emits nothing. Helpers that nothing calls: [placeholder]
    and [jsonUpdate] of [platform/edges.go], [RecordDisclosure] of [session/disclosure.go].
    Text cut short only for the log ([truncate] of the client, [truncateSandbox]). The statements of the
    schema files are SQL, given to the migration tool as data; their CHECKs are in the
    stores' tables. What remains of the Go code is imports, interface declarations (the
    classes and records here), field lists of objects that appear as arguments, and
    compile-time interface checks.
    The embedding worker runs alone, one tick after another. In the stores modelled as rows
    the JSON of the [belief_meta] and provenance columns appears as the columns it encodes;
    [Sql] has its text. Foreign keys are enforced or not as the driver is configured
    ([Db.db_foreign_keys]). The PostgreSQL stores are texts over an engine parameter, so
    nothing is said of how PostgreSQL executes them. HTTP bodies are records, and JSON is a
    parameter except where [Json] and [Sql] model it.

    Assumptions worth knowing: the runner's language model and tool registry are present
    (a nil one panics when used); a goroutine that [RunSession] starts is returned as the
    job it was started for; the transport's reader reports its own errors; what a driver
    does with a TEXT column scanned into [time.Time] is the parameter [Db.db_time_scan];
    the scanner's limit on JSON nesting (10000) is not modelled; nor is the panic with which
    [sync.WaitGroup] may answer an [Add] concurrent with [Wait], which the supervisor's drain
    does not exclude. *)

From Stdlib Require Export ZArith Lia.
From Corelib Require Export SpecFloat.
From stdpp Require Export base gmap strings sorting pretty numbers list_relations list.

#[global] Open Scope string_scope.
#[global] Open Scope Z_scope.
#[global] Open Scope list_scope.

(** ** Errors

    Go errors are values: a message, one of the sentinels the program compares
    with [errors.Is], or an error wrapped by [fmt.Errorf("...: %w", err)]. *)
Inductive sentinel :=
  | ErrJobNotPending
  | ErrClaimFenced
  | ErrTrustNotFound
  | ErrReviewRequired
  | ErrNoRows.

#[global] Instance sentinel_eq_dec : EqDecision sentinel.
Proof. solve_decision. Defined.

Inductive error :=
  | ENew (msg : string)
  | ESentinel (s : sentinel)
  | EWrap (msg : string) (e : error).

#[global] Instance error_eq_dec : EqDecision error.
Proof. solve_decision. Defined.

(** [errors.Is(err, target)]: walks the chain of wrapped errors. *)
Fixpoint errors_Is (e : error) (s : sentinel) : bool :=
  match e with
  | ENew _ => false
  | ESentinel s' => bool_decide (s = s')
  | EWrap _ e' => errors_Is e' s
  end.

(** [err.Error()] *)
Definition sentinel_text (s : sentinel) : string :=
  match s with
  | ErrJobNotPending => "job is not in pending state"
  | ErrClaimFenced => "metabolism: claim token mismatch — fenced out by successor"
  | ErrTrustNotFound => "trust: source not found"
  | ErrReviewRequired => "compress: external content requires review before promotion"
  | ErrNoRows => "sql: no rows in result set"
  end.
Fixpoint error_Error (e : error) : string :=
  match e with
  | ENew msg => msg
  | ESentinel s => sentinel_text s
  | EWrap msg e' => String.append msg (String.append ": " (error_Error e'))
  end.

(** ** Results and the state-and-error monad

    A fallible function returns [(value, error)]; an operation on a shared
    store also changes that store, and keeps the changes it made when it fails. *)
Inductive result (A : Type) :=
  | Ok (a : A)
  | Err (e : error).
Arguments Ok {A} a.
Arguments Err {A} e.

Definition is_ok {A} (r : result A) : bool :=
  match r with Ok _ => true | Err _ => false end.

Definition result_bind {A B} (r : result A) (k : A -> result B) : result B :=
  match r with Ok a => k a | Err e => Err e end.

(** [return fmt.Errorf("msg: %w", err)] *)
Definition wrap_err {A} (msg : string) (r : result A) : result A :=
  match r with Ok a => Ok a | Err e => Err (EWrap msg e) end.

Definition M (S A : Type) : Type := S -> S * result A.

Definition ret {S A} (a : A) : M S A := fun s => (s, Ok a).
Definition fail {S A} (e : error) : M S A := fun s => (s, Err e).
Definition bind {S A B} (m : M S A) (k : A -> M S B) : M S B :=
  fun s => let '(s', r) := m s in
           match r with Ok a => k a s' | Err e => (s', Err e) end.
(** Runs [m] and hands its [(value, error)] pair to the continuation. *)
Definition attempt {S A B} (m : M S A) (k : result A -> M S B) : M S B :=
  fun s => let '(s', r) := m s in k r s'.
Definition wrapM {S A} (msg : string) (m : M S A) : M S A :=
  fun s => let '(s', r) := m s in (s', wrap_err msg r).

Lemma bind_Ok {S A B} (m : M S A) (k : A -> M S B) s s' b :
  bind m k s = (s', Ok b) -> exists s1 a, m s = (s1, Ok a) /\ k a s1 = (s', Ok b).
Proof. unfold bind. destruct (m s) as [s1 [a|e]]; [eauto|done]. Qed.
Lemma wrapM_Ok {S A} msg (m : M S A) s s' a : wrapM msg m s = (s', Ok a) -> m s = (s', Ok a).
Proof. unfold wrapM. destruct (m s) as [s1 [b|e]]; simpl; congruence. Qed.

Declare Scope go_scope.
Delimit Scope go_scope with go.
Notation "'let!' x ':=' m 'in' k" := (bind m (fun x => k))
  (at level 10, x binder, m at level 100, k at level 200) : go_scope.
Notation "'try!' x ':=' m 'in' k" := (attempt m (fun x => k))
  (at level 10, x binder, m at level 100, k at level 200) : go_scope.
Notation "'let?' x ':=' m 'in' k" := (result_bind m (fun x => k))
  (at level 10, x binder, m at level 100, k at level 200) : go_scope.
#[global] Open Scope go_scope.

(** The zero-value test on the program's string enums. *)
Definition str_empty (s : string) : bool := String.eqb s "".
Definition str_or (s d : string) : string := if str_empty s then d else s.
Definition one_of (s : string) (l : list string) : bool := existsb (String.eqb s) l.

(** ** Machine integers: [int], [int64] and [time.Duration] are 64-bit, two's complement. *)
Definition int64_min : Z := - 2 ^ 63.
Definition int64_max : Z := 2 ^ 63 - 1.
Definition wrap64 (z : Z) : Z := (z + 2 ^ 63) mod 2 ^ 64 - 2 ^ 63.
Definition in_int64 (z : Z) : Prop := int64_min <= z <= int64_max.

Lemma wrap64_range z : in_int64 (wrap64 z).
Proof.
  unfold in_int64, wrap64, int64_min, int64_max.
  pose proof (Z.mod_pos_bound (z + 2 ^ 63) (2 ^ 64) ltac:(lia)). lia.
Qed.

Lemma wrap64_id z : in_int64 z -> wrap64 z = z.
Proof.
  unfold in_int64, wrap64, int64_min, int64_max. intros H.
  rewrite Z.mod_small; lia.
Qed.

(** [t.Sub(u)] saturates at the ends of [time.Duration]. *)
Definition time_Sub (t u : Z) : Z := Z.max int64_min (Z.min int64_max (t - u)).

(** Durations, in nanoseconds. *)
Definition second : Z := 1000000000.
Definition minute : Z := 60 * second.
Definition hour : Z := 60 * minute.

(** ** binary64 floating point

    [float64] is the IEEE 754 type: the executable specification of the
    standard library, at precision 53 and exponent bound 1024. *)
Notation float64 := spec_float (only parsing).
Definition f_prec : Z := 53.
Definition f_emax : Z := 1024.
Definition fadd : float64 -> float64 -> float64 := SFadd f_prec f_emax.
Definition fsub : float64 -> float64 -> float64 := SFsub f_prec f_emax.
Definition fmul : float64 -> float64 -> float64 := SFmul f_prec f_emax.
Definition fdiv : float64 -> float64 -> float64 := SFdiv f_prec f_emax.
Definition fltb : float64 -> float64 -> bool := SFltb.
Definition fleb : float64 -> float64 -> bool := SFleb.
Definition fgtb (x y : float64) : bool := SFltb y x.
Definition fgeb (x y : float64) : bool := SFleb y x.
(** [float64(n)]: rounds to nearest, ties to even. *)
Definition f_of_Z (z : Z) : float64 := binary_normalize f_prec f_emax z 0 false.
(** The literal [n/d]: a decimal literal is the double nearest to its value,
    which the correctly rounded quotient of two exact integers is. *)
Definition f_lit (n d : Z) : float64 := fdiv (f_of_Z n) (f_of_Z d).
Definition f_zero : float64 := S754_zero false.
Definition is_nan (x : float64) : bool := match x with S754_nan => true | _ => false end.

(** The comparisons order the non-NaN values: [fkey] embeds them in
    lexicographic triples, where [lia] decides every order fact. *)
Definition fkey (x : float64) : Z * Z * Z :=
  match x with
  | S754_zero _ => (0, 0, 0)
  | S754_infinity s => (if s then -2 else 2, 0, 0)
  | S754_nan => (0, 0, 0)
  | S754_finite s m e => if s then (-1, - e, Z.neg m) else (1, e, Z.pos m)
  end.

Definition lex3_lt (a b : Z * Z * Z) : Prop :=
  let '(a1, a2, a3) := a in let '(b1, b2, b3) := b in
  a1 < b1 \/ (a1 = b1 /\ (a2 < b2 \/ (a2 = b2 /\ a3 < b3))).

Lemma fltb_key x y :
  is_nan x = false -> is_nan y = false ->
  (fltb x y = true <-> lex3_lt (fkey x) (fkey y)).
Proof.
  unfold fltb, SFltb, SFcompare, fkey, lex3_lt.
  destruct x as [sx|sx| |sx mx ex], y as [sy|sy| |sy my ey]; try done; intros _ _;
    destruct sx, sy; try (split; [done|lia]); try (split; [lia|done]);
    destruct (ex ?= ey) eqn:He;
    rewrite ?Z.compare_eq_iff, ?Z.compare_lt_iff, ?Z.compare_gt_iff in He;
    try (split; [done|lia]); try (split; [lia|done]);
    change (Pos.compare_cont Eq mx my) with (Pos.compare mx my);
    destruct (Pos.compare_spec mx my); simpl; split; try done; lia.
Qed.

Lemma fleb_key x y :
  is_nan x = false -> is_nan y = false ->
  (fleb x y = true <-> ~ lex3_lt (fkey y) (fkey x)).
Proof.
  unfold fleb, SFleb, SFcompare, fkey, lex3_lt.
  destruct x as [sx|sx| |sx mx ex], y as [sy|sy| |sy my ey]; try done; intros _ _;
    destruct sx, sy; try (split; [done|lia]); try (split; [lia|done]);
    destruct (ex ?= ey) eqn:He;
    rewrite ?Z.compare_eq_iff, ?Z.compare_lt_iff, ?Z.compare_gt_iff in He;
    try (split; [done|lia]); try (split; [lia|done]);
    change (Pos.compare_cont Eq mx my) with (Pos.compare mx my);
    destruct (Pos.compare_spec mx my); simpl; split; try done; lia.
Qed.

Ltac float_order :=
  repeat match goal with
  | H : fltb ?x ?y = true |- _ => rewrite fltb_key in H by done
  | H : fleb ?x ?y = true |- _ => rewrite fleb_key in H by done
  | H : fltb ?x ?y = false |- _ =>
      apply not_true_iff_false in H; rewrite fltb_key in H by done
  | H : fleb ?x ?y = false |- _ =>
      apply not_true_iff_false in H; rewrite fleb_key in H by done
  | |- fltb ?x ?y = true => rewrite fltb_key by done
  | |- fleb ?x ?y = true => rewrite fleb_key by done
  | |- fltb ?x ?y = false => apply not_true_iff_false; rewrite fltb_key by done
  | |- fleb ?x ?y = false => apply not_true_iff_false; rewrite fleb_key by done
  end;
  repeat match goal with
  | H : context [fkey ?x] |- _ => destruct (fkey x) as [[? ?] ?]
  | |- context [fkey ?x] => destruct (fkey x) as [[? ?] ?]
  end; unfold lex3_lt in *; try lia.

Lemma fltb_irrefl x : fltb x x = false.
Proof. destruct (is_nan x) eqn:H; [by destruct x|]. float_order. Qed.

Lemma fltb_asym x y : fltb x y = true -> fltb y x = false.
Proof.
  intros H. destruct (is_nan x) eqn:Hx; [by destruct x|].
  destruct (is_nan y) eqn:Hy; [by destruct x, y|]. float_order.
Qed.

Lemma fleb_refl x : is_nan x = false -> fleb x x = true.
Proof. intros H. float_order. Qed.

Lemma fltb_false_fleb x y :
  is_nan x = false -> is_nan y = false -> fltb x y = false -> fleb y x = true.
Proof. intros Hx Hy H. float_order. Qed.

Lemma fltb_fleb x y : fltb x y = true -> fleb x y = true.
Proof.
  intros H. destruct (is_nan x) eqn:Hx; [by destruct x|].
  destruct (is_nan y) eqn:Hy; [by destruct x, y|]. float_order.
Qed.

Lemma fleb_trans x y z : fleb x y = true -> fleb y z = true -> fleb x z = true.
Proof.
  intros H1 H2. destruct (is_nan x) eqn:Hx; [by destruct x|].
  destruct (is_nan y) eqn:Hy; [by destruct x, y|].
  destruct (is_nan z) eqn:Hz; [by destruct y, z|]. float_order.
Qed.

Lemma fltb_trans x y z : fltb x y = true -> fltb y z = true -> fltb x z = true.
Proof.
  intros H1 H2. destruct (is_nan x) eqn:Hx; [by destruct x|].
  destruct (is_nan y) eqn:Hy; [by destruct x, y|].
  destruct (is_nan z) eqn:Hz; [by destruct y, z|]. float_order.
Qed.

(** The clamps the program writes: [if score > max { score = max }] and
    [if score < min { score = min }]. *)
Definition fmin_clamp (x hi : float64) : float64 := if fgtb x hi then hi else x.
Definition fmax_clamp (x lo : float64) : float64 := if fltb x lo then lo else x.

Lemma fmin_clamp_le x hi : fgtb (fmin_clamp x hi) hi = false.
Proof. unfold fmin_clamp, fgtb. destruct (SFltb hi x) eqn:H; [apply fltb_irrefl|done]. Qed.

Lemma fmax_clamp_ge x lo : fltb (fmax_clamp x lo) lo = false.
Proof. unfold fmax_clamp. destruct (fltb x lo) eqn:H; [apply fltb_irrefl|done]. Qed.

(** Values that are neither negative nor NaN: closed under sums and quotients. *)
Definition f_nonneg (x : float64) : bool :=
  match x with
  | S754_zero s | S754_infinity s | S754_finite s _ _ => negb s
  | S754_nan => false
  end.

Lemma f_nonneg_not_nan x : f_nonneg x = true -> is_nan x = false.
Proof. by destruct x. Qed.

Lemma shr_1_nonneg r : 0 <= shr_m r -> 0 <= shr_m (shr_1 r).
Proof. destruct r as [[|[p|p|]|p] ? ?]; simpl; lia. Qed.

Lemma iter_shr_nonneg p : forall r, 0 <= shr_m r -> 0 <= shr_m (SpecFloat.iter_pos shr_1 p r).
Proof. induction p as [p IH|p IH|]; intros r Hr; simpl; auto using shr_1_nonneg. Qed.

Lemma shr_fexp_nonneg m e l : 0 <= m -> 0 <= shr_m (shr_fexp f_prec f_emax m e l).1.
Proof.
  intros Hm. unfold shr_fexp, shr.
  assert (Hr : 0 <= shr_m (shr_record_of_loc m l)) by (destruct l as [|[]]; done).
  destruct (_ - _); simpl; try done. by apply iter_shr_nonneg.
Qed.

Lemma round_nearest_even_nonneg m l : 0 <= m -> 0 <= round_nearest_even m l.
Proof. intros Hm. destruct l as [|[]]; simpl; try lia. destruct (Z.even m); lia. Qed.

Lemma binary_round_aux_nonneg m e l :
  0 <= m -> f_nonneg (binary_round_aux f_prec f_emax false m e l) = true.
Proof.
  intros Hm. unfold binary_round_aux.
  pose proof (shr_fexp_nonneg m e l Hm) as H1. destruct (shr_fexp _ _ m e l) as [r1 e1]. simpl in H1.
  pose proof (shr_fexp_nonneg (round_nearest_even (shr_m r1) (loc_of_shr_record r1)) e1 loc_Exact
    (round_nearest_even_nonneg _ _ H1)) as H2.
  destruct (shr_fexp _ _ (round_nearest_even _ _) e1 _) as [r2 e2]. simpl in H2.
  destruct (shr_m r2); [done| |lia]. by destruct (e2 <=? _).
Qed.

Lemma binary_normalize_nonneg z e :
  0 <= z -> f_nonneg (binary_normalize f_prec f_emax z e false) = true.
Proof.
  intros Hz. unfold binary_normalize, binary_round. destruct z as [|p|p]; [done| |lia].
  destruct (shl_align _ e _) as [m e1]. by apply binary_round_aux_nonneg.
Qed.

Lemma f_of_Z_nonneg z : 0 <= z -> f_nonneg (f_of_Z z) = true.
Proof. apply binary_normalize_nonneg. Qed.

Lemma fadd_nonneg x y : f_nonneg x = true -> f_nonneg y = true -> f_nonneg (fadd x y) = true.
Proof.
  unfold fadd, SFadd. destruct x as [[]|[]| |[] mx ex], y as [[]|[]| |[] my ey]; try done; intros _ _.
  apply binary_normalize_nonneg. simpl. lia.
Qed.

Lemma fdiv_nonneg mx ex y :
  f_nonneg y = true -> f_nonneg (fdiv (S754_finite false mx ex) y) = true.
Proof.
  unfold fdiv, SFdiv. destruct y as [[]|[]| |[] my ey]; try done. intros _.
  unfold SFdiv_core_binary. set (e := Z.min _ _). set (s := _ - e).
  set (m' := match s with Z.pos _ => _ | Z0 => _ | Z.neg _ => _ end).
  pose proof (Z_div_mod m' (Z.pos my) ltac:(lia)) as Hd.
  destruct (Z.div_eucl m' (Z.pos my)) as [q r]. apply binary_round_aux_nonneg.
  assert (0 <= m') by (subst m'; destruct s; try lia; apply Z.shiftl_nonneg; lia). nia.
Qed.

(** ** Strings

    Go strings are byte sequences; [String.string] is one here too (an [ascii]
    is a byte), and a literal holds the UTF-8 bytes of its text. *)
Definition str_len (s : string) : Z := Z.of_nat (String.length s).

Fixpoint str_take (n : nat) (s : string) : string :=
  match n, s with
  | S n', String c s' => String c (str_take n' s')
  | _, _ => ""
  end.

Fixpoint str_drop (n : nat) (s : string) : string :=
  match n, s with
  | S n', String _ s' => str_drop n' s'
  | _, _ => s
  end.

(** [s[a:b]]: [None] when Go panics with "slice bounds out of range". *)
Definition str_slice (s : string) (a b : Z) : option string :=
  if (0 <=? a) && (a <=? b) && (b <=? str_len s)
  then Some (str_take (Z.to_nat (b - a)) (str_drop (Z.to_nat a) s))
  else None.

(** [strings.HasPrefix], [strings.Index] ([None] for [-1]) and [strings.Contains]. *)
Definition has_prefix (s p : string) : bool := String.prefix p s.

Fixpoint str_index (s sub : string) : option nat :=
  if String.prefix sub s then Some 0%nat
  else match s with "" => None | String _ s' => S <$> str_index s' sub end.

Definition str_contains (s sub : string) : bool :=
  match str_index s sub with Some _ => true | None => false end.

(** [strings.Join] *)
Definition str_join (l : list string) (sep : string) : string := String.concat sep l.

Lemma str_len_app a b : str_len (a +:+ b) = str_len a + str_len b.
Proof.
  unfold str_len. induction a as [|c a IH]; [done|].
  rewrite (eq_refl : String c a +:+ b = String c (a +:+ b)). simpl String.length. lia.
Qed.

Lemma str_app_cons c a b : String c a +:+ b = String c (a +:+ b).
Proof. reflexivity. Qed.

Lemma str_app_nil_l a : "" +:+ a = a.
Proof. reflexivity. Qed.

Lemma str_app_nil_r a : a +:+ "" = a.
Proof. induction a as [|c a IH]; [done|]. by rewrite str_app_cons, IH. Qed.

Lemma str_app_assoc a b c : (a +:+ b) +:+ c = a +:+ (b +:+ c).
Proof. induction a as [|x a IH]; [done|]. by rewrite !str_app_cons, IH. Qed.
Lemma str_drop_app a b : str_drop (String.length a) (a +:+ b) = b.
Proof. induction a as [|c a IH]; [by destruct b|]. rewrite str_app_cons. exact IH. Qed.
Lemma str_take_app a b : str_take (String.length a) (a +:+ b) = a.
Proof.
  induction a as [|c a IH]; [done|]. rewrite str_app_cons. cbn [String.length str_take]. by rewrite IH.
Qed.
Lemma length_str_take n s : (n <= String.length s)%nat -> String.length (str_take n s) = n.
Proof. revert s. induction n as [|n IH]; intros [|c s]; cbn; try lia. intros H. by rewrite IH by lia. Qed.
Lemma str_take_drop n s : str_take n s +:+ str_drop n s = s.
Proof. revert s. induction n as [|n IH]; intros [|c s]; cbn; try done. rewrite str_app_cons. by rewrite IH. Qed.
Lemma length_str_app a b : String.length (a +:+ b) = (String.length a + String.length b)%nat.
Proof. pose proof (str_len_app a b). unfold str_len in *. lia. Qed.

Lemma prefix_app p s : String.prefix p (p +:+ s) = true.
Proof.
  induction p as [|c p IH]; [by destruct s|]. rewrite str_app_cons. simpl.
  by destruct (Ascii.ascii_dec c c).
Qed.

Lemma prefix_split p s : String.prefix p s = true -> exists t, s = p +:+ t.
Proof.
  revert s. induction p as [|c p IH]; intros s H; [by exists s|].
  destruct s as [|d s]; [done|]. simpl in H.
  destruct (Ascii.ascii_dec c d) as [->|]; [|done].
  destruct (IH s H) as [t ->]. by exists t.
Qed.

Lemma str_index_unfold s sub :
  str_index s sub =
  if String.prefix sub s then Some 0%nat
  else match s with "" => None | String _ s' => S <$> str_index s' sub end.
Proof. by destruct s. Qed.

Lemma str_index_Some s sub i :
  str_index s sub = Some i ->
  exists a b, s = a +:+ (sub +:+ b) /\ String.length a = i.
Proof.
  revert i. induction s as [|c s IH]; intros i; rewrite str_index_unfold.
  - destruct (String.prefix sub "") eqn:Hp; [|done]. intros [= <-].
    destruct (prefix_split _ _ Hp) as [t Ht]. by exists "", t.
  - destruct (String.prefix sub (String c s)) eqn:Hp.
    + intros [= <-]. destruct (prefix_split _ _ Hp) as [t Ht]. by exists "", t.
    + destruct (str_index s sub) as [j|] eqn:Hj; [|done]. intros [= <-].
      destruct (IH j eq_refl) as (a & b & -> & <-). by exists (String c a), b.
Qed.

Lemma str_contains_app a sub b : str_contains (a +:+ (sub +:+ b)) sub = true.
Proof.
  unfold str_contains. induction a as [|c a IH]; rewrite str_index_unfold.
  - by rewrite str_app_nil_l, prefix_app.
  - destruct (String.prefix sub _); [done|]. rewrite str_app_cons.
    by destruct (str_index (a +:+ (sub +:+ b)) sub).
Qed.

Lemma str_contains_iff s sub :
  str_contains s sub = true <-> exists a b, s = a +:+ (sub +:+ b).
Proof.
  split.
  - unfold str_contains. destruct (str_index s sub) as [i|] eqn:H; [|done].
    intros _. destruct (str_index_Some _ _ _ H) as (a & b & Hs & _). by exists a, b.
  - intros (a & b & ->). apply str_contains_app.
Qed.

Lemma str_empty_true s : str_empty s = true <-> s = "".
Proof. apply String.eqb_eq. Qed.

Lemma one_of_elem s l : one_of s l = true <-> s ∈ l.
Proof.
  unfold one_of. rewrite existsb_exists, list_elem_of_In. split.
  - intros (x & Hx & Heq). by apply String.eqb_eq in Heq as ->.
  - intros H. exists s. split; [done|]. apply String.eqb_refl.
Qed.

(** [strings.ToLower]: bytes are mapped one by one when the string is ASCII;
    otherwise the Unicode tables apply, which are the parameter [unicode_lower]. *)
Definition ascii_code (c : Ascii.ascii) : Z := Z.of_nat (Ascii.nat_of_ascii c).
Definition is_ascii (c : Ascii.ascii) : bool := ascii_code c <? 128.
Definition lower_byte (c : Ascii.ascii) : Ascii.ascii :=
  if (65 <=? ascii_code c) && (ascii_code c <=? 90)
  then Ascii.ascii_of_nat (Z.to_nat (ascii_code c + 32)) else c.

Fixpoint str_map (f : Ascii.ascii -> Ascii.ascii) (s : string) : string :=
  match s with "" => "" | String c s' => String (f c) (str_map f s') end.
Fixpoint str_forall (f : Ascii.ascii -> bool) (s : string) : bool :=
  match s with "" => true | String c s' => f c && str_forall f s' end.

Definition to_lower (unicode_lower : string -> string) (s : string) : string :=
  if str_forall is_ascii s then str_map lower_byte s else unicode_lower s.

(** [strings.TrimSpace]: on ASCII it cuts tab, newline, vertical tab, form feed, return
    and space; otherwise the Unicode tables apply, which are a parameter. *)
Definition is_space (c : Ascii.ascii) : bool :=
  (ascii_code c =? 32) || ((9 <=? ascii_code c) && (ascii_code c <=? 13)).
Fixpoint trim_left (s : string) : string :=
  match s with
  | "" => ""
  | String c s' => if is_space c then trim_left s' else s
  end.
Fixpoint trim_right (s : string) : string :=
  match s with
  | "" => ""
  | String c s' =>
      let t := trim_right s' in
      if str_empty t && is_space c then "" else String c t
  end.
Definition trim_space (unicode_trim : string -> string) (s : string) : string :=
  if str_forall is_ascii s then trim_right (trim_left s) else unicode_trim s.

Lemma str_len_map f s : str_len (str_map f s) = str_len s.
Proof. unfold str_len. induction s; simpl; lia. Qed.

(** ** Formatting verbs of [fmt.Sprintf] *)

(** [%d] *)
Definition fmt_d (z : Z) : string := pretty z.
(** [%v] of a bool *)
Definition fmt_bool (b : bool) : string := if b then "true" else "false".
(** [%q]: double quotes around the escaped text. Exact on ASCII; bytes from 128
    up are copied, which is what Go does with printable non-ASCII runes. *)
Definition dquote : string := String (Ascii.ascii_of_nat 34) "".
Definition newline : string := String (Ascii.ascii_of_nat 10) "".
Definition hex_digit (z : Z) : Ascii.ascii :=
  Ascii.ascii_of_nat (Z.to_nat (if z <? 10 then 48 + z else 87 + z)).
Definition quote_byte (c : Ascii.ascii) : string :=
  let n := ascii_code c in
  let esc (x : string) := "\" +:+ x in
  if n =? 34 then esc dquote else if n =? 92 then esc "\"
  else if n =? 7 then esc "a" else if n =? 8 then esc "b"
  else if n =? 9 then esc "t" else if n =? 10 then esc "n"
  else if n =? 11 then esc "v" else if n =? 12 then esc "f"
  else if n =? 13 then esc "r"
  else if (n <? 32) || (n =? 127)
  then esc ("x" +:+ String (hex_digit (n / 16)) (String (hex_digit (n mod 16)) ""))
  else String c "".
Fixpoint quote_body (s : string) : string :=
  match s with "" => "" | String c s' => quote_byte c +:+ quote_body s' end.
Definition fmt_q (s : string) : string := dquote +:+ quote_body s +:+ dquote.

(** [%.2f]: the exact value, times 100, rounded to nearest, ties to even. *)
Definition round_half_even (n d : Z) : Z :=
  let q := n / d in let r := n mod d in
  if 2 * r <? d then q else if d <? 2 * r then q + 1
  else if Z.even q then q else q + 1.
Definition pad2 (z : Z) : string := if z <? 10 then "0" +:+ pretty z else pretty z.
Definition fmt_2f (x : float64) : string :=
  let sign (s : bool) := if s then "-" else "" in
  match x with
  | S754_zero s => sign s +:+ "0.00"
  | S754_infinity s => if s then "-Inf" else "+Inf"
  | S754_nan => "NaN"
  | S754_finite s m e =>
      let h := if 0 <=? e then Z.pos m * 2 ^ e * 100
               else round_half_even (Z.pos m * 100) (2 ^ (- e)) in
      sign s +:+ pretty (h / 100) +:+ "." +:+ pad2 (h mod 100)
  end.

Example fmt_2f_literals :
  map fmt_2f [f_lit 40 100; f_lit 95 100; f_lit 1 8; f_lit (-1) 3; f_of_Z 7]
  = ["0.40"; "0.95"; "0.12"; "-0.33"; "7.00"].
Proof. vm_compute. reflexivity. Qed.

(** [time.Duration.Seconds] *)
Definition duration_Seconds (d : Z) : float64 :=
  fadd (f_of_Z (Z.quot d second)) (fdiv (f_of_Z (Z.rem d second)) (f_of_Z 1000000000)).

(** ** Time

    An instant is its Unix time in nanoseconds, UTC; [time_zero] is Go's zero
    [time.Time] (year 1). [CURRENT_TIMESTAMP] columns hold whole seconds. *)
Definition time_zero : Z := -62135596800 * second.
Definition time_IsZero (t : Z) : bool := t =? time_zero.

(** Proleptic Gregorian date of a day number counted from 1970-01-01. *)
Definition civil_from_days (days : Z) : Z * Z * Z :=
  let z := days + 719468 in
  let era := z / 146097 in
  let doe := z mod 146097 in
  let yoe := (doe - doe / 1460 + doe / 36524 - doe / 146096) / 365 in
  let doy := doe - (365 * yoe + yoe / 4 - yoe / 100) in
  let mp := (5 * doy + 2) / 153 in
  let d := doy - (153 * mp + 2) / 5 + 1 in
  let m := if mp <? 10 then mp + 3 else mp - 9 in
  (yoe + era * 400 + (if m <=? 2 then 1 else 0), m, d).
Definition pad4 (z : Z) : string :=
  if z <? 10 then "000" +:+ pretty z else if z <? 100 then "00" +:+ pretty z
  else if z <? 1000 then "0" +:+ pretty z else pretty z.
Definition fmt_stamp (sep tail : string) (t : Z) : string :=
  let s := t / second in
  let '(y, m, d) := civil_from_days (s / 86400) in
  let r := s mod 86400 in
  pad4 y +:+ "-" +:+ pad2 m +:+ "-" +:+ pad2 d +:+ sep +:+
  pad2 (r / 3600) +:+ ":" +:+ pad2 (r mod 3600 / 60) +:+ ":" +:+ pad2 (r mod 60) +:+ tail.
(** [t.UTC().Format(time.RFC3339)] *)
Definition fmt_RFC3339 : Z -> string := fmt_stamp "T" "Z".

Example fmt_RFC3339_ex :
  fmt_RFC3339 (1709210096 * second) = "2024-02-29T12:34:56Z" /\
  fmt_RFC3339 time_zero = "0001-01-01T00:00:00Z".
Proof. split; vm_compute; reflexivity. Qed.

(** A time with its zone's offset in seconds, which [Format] prints. *)
Definition Zoned : Type := Z * Z.
Definition local_stamp (sep tail : string) (t : Zoned) : string := fmt_stamp sep tail (t.1 + t.2 * second).
Definition fmt_zoned (t : Zoned) : string :=
  if t.2 =? 0 then fmt_RFC3339 t.1
  else let m := Z.abs t.2 / 60 in
       local_stamp "T" ((if t.2 <? 0 then "-" else "+") +:+ pad2 (m / 60) +:+ ":" +:+ pad2 (m mod 60)) t.

(** [strings.Split(s, ",")] *)
Fixpoint split_comma (s : string) : list string :=
  match s with
  | "" => [""]
  | String c r =>
      if ascii_code c =? 44 then "" :: split_comma r
      else match split_comma r with x :: l => String c x :: l | [] => [String c ""] end
  end.

(** ** Lists *)
Definition sort_strings : list string -> list string := merge_sort String.le.
(** [ORDER BY key ASC]: rows with equal keys stay in insertion order. *)
Definition key_le {A} (key : A -> Z) : relation A := fun x y => key x <= key y.
Definition key_ge {A} (key : A -> Z) : relation A := fun x y => key y <= key x.
#[global] Instance key_le_dec {A} (key : A -> Z) : RelDecision (key_le key).
Proof. intros x y. unfold key_le. apply _. Defined.
#[global] Instance key_ge_dec {A} (key : A -> Z) : RelDecision (key_ge key).
Proof. intros x y. unfold key_ge. apply _. Defined.
#[global] Instance key_le_total {A} (key : A -> Z) : Total (key_le key).
Proof. intros x y. unfold key_le. lia. Qed.
#[global] Instance key_ge_total {A} (key : A -> Z) : Total (key_ge key).
Proof. intros x y. unfold key_ge. lia. Qed.
#[global] Instance key_ge_trans {A} (key : A -> Z) : Transitive (key_ge key).
Proof. intros x y z. unfold key_ge. lia. Qed.

Definition order_by {A} (key : A -> Z) : list A -> list A := merge_sort (key_le key).
(** [ORDER BY key DESC LIMIT 1]: the first row of the maximal key. *)
Definition last_by {A} (key : A -> Z) (l : list A) : option A :=
  head (merge_sort (key_ge key) l).

Lemma sort_strings_Permutation l : sort_strings l ≡ₚ l.
Proof. apply merge_sort_Permutation. Qed.

Lemma sort_strings_Sorted l : Sorted String.le (sort_strings l).
Proof. apply Sorted_merge_sort. apply _. Qed.

Lemma order_by_Permutation {A} (key : A -> Z) l : order_by key l ≡ₚ l.
Proof. apply merge_sort_Permutation. Qed.

Lemma order_by_Sorted {A} (key : A -> Z) l :
  Sorted (key_le key) (order_by key l).
Proof. apply Sorted_merge_sort. apply _. Qed.

Lemma last_by_max {A} (key : A -> Z) l x :
  last_by key l = Some x -> x ∈ l /\ forall y, y ∈ l -> key y <= key x.
Proof.
  unfold last_by. intros H.
  pose proof (merge_sort_Permutation (key_ge key) l) as Hp.
  pose proof (StronglySorted_merge_sort (key_ge key) l) as Hs.
  destruct (merge_sort (key_ge key) l) as [|z s]; simplify_eq/=.
  split; [rewrite <- Hp; left|].
  intros y Hy. rewrite <- Hp in Hy. apply StronglySorted_inv in Hs as [_ Hall].
  apply elem_of_cons in Hy as [->|Hy]; [done|].
  rewrite Forall_forall in Hall. exact (Hall y Hy).
Qed.

Lemma last_by_None {A} (key : A -> Z) l : last_by key l = None -> l = [].
Proof.
  unfold last_by. intros H.
  pose proof (merge_sort_Permutation (key_ge key) l) as Hp.
  destruct (merge_sort (key_ge key) l); [|done]. by apply Permutation_nil in Hp.
Qed.

(** Filtering by a boolean predicate ([WHERE]) and counting its rows. *)
Definition whereb {A} (p : A -> bool) (l : list A) : list A := List.filter p l.
Definition countb {A} (p : A -> bool) (l : list A) : nat := length (whereb p l).
(** [UPDATE ... SET f WHERE p] *)
Definition updateb {A} (p : A -> bool) (f : A -> A) (l : list A) : list A :=
  map (fun r => if p r then f r else r) l.

Lemma elem_of_whereb {A} (p : A -> bool) l x : x ∈ whereb p l <-> x ∈ l /\ p x = true.
Proof. unfold whereb. rewrite !list_elem_of_In. apply filter_In. Qed.

Lemma elem_of_map {A B} (f : A -> B) (l : list A) y :
  y ∈ map f l <-> exists x, x ∈ l /\ f x = y.
Proof. rewrite list_elem_of_In, in_map_iff. setoid_rewrite list_elem_of_In. naive_solver. Qed.

Lemma countb_pos {A} (p : A -> bool) l :
  countb p l <> 0%nat <-> exists x, x ∈ l /\ p x = true.
Proof.
  unfold countb. split.
  - intros H. destruct (whereb p l) as [|x s] eqn:E; [done|].
    exists x. apply elem_of_whereb. rewrite E. left.
  - intros (x & Hx) H. apply elem_of_whereb in Hx.
    destruct (whereb p l); [by apply elem_of_nil in Hx|done].
Qed.

Lemma countb_zero {A} (p : A -> bool) l :
  countb p l = 0%nat <-> forall x, x ∈ l -> p x = false.
Proof.
  split.
  - intros H x Hx. destruct (p x) eqn:E; [|done].
    exfalso. apply (proj2 (countb_pos p l)); [by exists x|done].
  - intros H. destruct (decide (countb p l = 0%nat)) as [|Hn]; [done|].
    apply countb_pos in Hn as (x & Hx & Hp). by rewrite H in Hp.
Qed.

Lemma whereb_nil {A} (p : A -> bool) l : (forall x, x ∈ l -> p x = false) -> whereb p l = [].
Proof. intros H. apply length_zero_iff_nil. by apply countb_zero. Qed.

Lemma whereb_all {A} (p : A -> bool) l : (forall x, x ∈ l -> p x = true) -> whereb p l = l.
Proof.
  intros Hp. unfold whereb. induction l as [|x l IH]; cbn; [done|].
  rewrite (Hp x) by left. f_equal. apply IH. intros; apply Hp. by right.
Qed.

Lemma whereb_app {A} (p : A -> bool) l1 l2 : whereb p (l1 ++ l2) = whereb p l1 ++ whereb p l2.
Proof. apply List.filter_app. Qed.

Lemma whereb_perm {A} (p : A -> bool) l1 l2 : l1 ≡ₚ l2 -> whereb p l1 ≡ₚ whereb p l2.
Proof.
  unfold whereb. induction 1 as [|x l1 l2 Hp IH|x y l|l1 l2 l3 H1 IH1 H2 IH2]; simpl; [done| | |].
  - destruct (p x); [by constructor|done].
  - destruct (p x), (p y); try done. constructor.
  - by etransitivity.
Qed.

Lemma NoDup_map_whereb {A B} (g : A -> B) (p : A -> bool) l :
  NoDup (map g l) -> NoDup (map g (whereb p l)).
Proof.
  unfold whereb. induction l as [|x l IH]; cbn; [done|]. intros (Hn & Hl)%NoDup_cons.
  destruct (p x); cbn; [|by apply IH]. apply NoDup_cons. split; [|by apply IH].
  intros (y & E & Hy)%list_elem_of_fmap. apply elem_of_whereb in Hy as (Hy & _).
  apply Hn. rewrite E. by apply list_elem_of_fmap_2.
Qed.

Lemma elem_of_updateb {A} (p : A -> bool) f l y :
  y ∈ updateb p f l <-> exists x, x ∈ l /\ y = if p x then f x else x.
Proof. unfold updateb. rewrite list_elem_of_fmap. set_solver. Qed.

Lemma updateb_none {A} (p : A -> bool) f l :
  (forall x, x ∈ l -> p x = false) -> updateb p f l = l.
Proof.
  induction l as [|x l IH]; intros H; [done|]. simpl.
  rewrite H by left. f_equal. apply IH. intros y Hy. apply H. by right.
Qed.

Lemma map_updateb {A B} (g : A -> B) (p : A -> bool) f l :
  (forall x, g (f x) = g x) -> map g (updateb p f l) = map g l.
Proof.
  intros H. unfold updateb. induction l as [|x l IH]; [done|].
  simpl. f_equal; [|done]. by destruct (p x).
Qed.

Lemma Forall_updateb {A} (P : A -> Prop) (p : A -> bool) f l :
  Forall P l -> (forall x, P x -> p x = true -> P (f x)) -> Forall P (updateb p f l).
Proof.
  intros Hl Hf. unfold updateb. induction Hl as [|x l Hx Hl IH]; constructor; [|done].
  destruct (p x) eqn:E; auto.
Qed.

(** ** Automation *)
Create HintDb athena.
#[export] Hint Resolve fltb_irrefl fleb_refl fltb_asym fmin_clamp_le fmax_clamp_ge
  wrap64_range sort_strings_Sorted sort_strings_Permutation : athena.

(** Splits the booleans of [&&], [||], [negb] and [=?] in the context. *)
Ltac bools :=
  repeat match goal with
  | H : (_ && _)%bool = true |- _ => apply andb_true_iff in H as [? ?]
  | H : (_ || _)%bool = false |- _ => apply orb_false_iff in H as [? ?]
  | H : negb _ = true |- _ => apply negb_true_iff in H
  | H : negb _ = false |- _ => apply negb_false_iff in H
  | H : String.eqb _ _ = true |- _ => apply String.eqb_eq in H
  | H : String.eqb _ _ = false |- _ => apply String.eqb_neq in H
  | H : bool_decide _ = true |- _ => apply bool_decide_eq_true in H
  | H : bool_decide _ = false |- _ => apply bool_decide_eq_false in H
  | H : (_ =? _) = true |- _ => apply Z.eqb_eq in H
  | H : (_ =? _) = false |- _ => apply Z.eqb_neq in H
  | H : (_ <? _) = true |- _ => apply Z.ltb_lt in H
  | H : (_ <? _) = false |- _ => apply Z.ltb_ge in H
  | H : (_ <=? _) = true |- _ => apply Z.leb_le in H
  | H : (_ <=? _) = false |- _ => apply Z.leb_gt in H
  end.

(** One goal per element of the literal list [H] says the value is in. *)
Ltac elem_cases H :=
  repeat (apply elem_of_cons in H as [->|H]); try (by apply elem_of_nil in H).


(** Membership in a literal list the element is syntactically part of. *)
Ltac in_list :=
  solve [repeat (first [apply elem_of_cons; left; reflexivity | apply elem_of_cons; right])].
