(* ===== verification/Frames.v ===== *)
(** * Frames: what a computation may change

    [frames R m] says that whatever [m] returns, the state it leaves is related by [R]
    to the state it found. The lemmas follow the combinators of the monad; [frames_tac]
    applies them along the structure of a computation, and the hint database [frames]
    holds the operations already known. *)

From S2P Require Import Prelude.

Definition frames {W A} (R : relation W) (m : M W A) : Prop := forall w, R w (m w).1.

(** A relation on the first component of a pair of states. *)
Definition over {W X} (R : relation W) : relation (W * X) := fun s s' => R s.1 s'.1.
#[global] Instance over_preorder {W X} (R : relation W) `{!PreOrder R} : PreOrder (@over W X R).
Proof. split; unfold over; [intros [? ?]; reflexivity|]. intros [? ?] [? ?] [? ?] ? ?. by etransitivity. Qed.

(** [m], on a state with a component it does not see. *)
Definition lift {W X A} (m : M W A) : M (W * X) A :=
  fun s => let '(w', r) := m s.1 in ((w', s.2), r).

Section Frames.
Context {W : Type} (R : relation W) `{!PreOrder R}.

Lemma frames_ret {A} (a : A) : frames R (ret a).
Proof. intros w. reflexivity. Qed.
Lemma frames_fail {A} e : frames R (@fail W A e).
Proof. intros w. reflexivity. Qed.
Lemma frames_bind {A B} (m : M W A) (k : A -> M W B) :
  frames R m -> (forall a, frames R (k a)) -> frames R (bind m k).
Proof.
  intros Hm Hk w. unfold bind. specialize (Hm w). destruct (m w) as [w1 [a|e]]; [|done].
  simpl in *. etransitivity; [exact Hm|apply Hk].
Qed.
Lemma frames_attempt {A B} (m : M W A) (k : result A -> M W B) :
  frames R m -> (forall r, frames R (k r)) -> frames R (attempt m k).
Proof.
  intros Hm Hk w. unfold attempt. specialize (Hm w). destruct (m w) as [w1 r].
  simpl in *. etransitivity; [exact Hm|apply Hk].
Qed.
Lemma frames_wrapM {A} msg (m : M W A) : frames R m -> frames R (wrapM msg m).
Proof. intros Hm w. unfold wrapM. specialize (Hm w). by destruct (m w). Qed.
Lemma frames_pure {A} (f : W -> result A) : frames R (fun w => (w, f w)).
Proof. intros w. reflexivity. Qed.
Lemma frames_lift {X A} (m : M W A) : frames R m -> frames (@over W X R) (lift m).
Proof. intros Hm [w x]. unfold lift, over. simpl. specialize (Hm w). by destruct (m w). Qed.
Lemma frames_intro {A} (m : M W A) : (forall w w' r, m w = (w', r) -> R w w') -> frames R m.
Proof. intros Hm w. destruct (m w) as [w' r] eqn:E. by eapply Hm. Qed.
Lemma frames_mono {A} (R' : relation W) (m : M W A) : subrelation R R' -> frames R m -> frames R' m.
Proof. intros Hs Hm w. apply Hs, Hm. Qed.
Lemma frames_elim {A} (m : M W A) w w' r : frames R m -> m w = (w', r) -> R w w'.
Proof. intros Hm E. specialize (Hm w). by rewrite E in Hm. Qed.

(** A computation that begins with a framed one either ends with it, on its error, or
    goes on from a related state. *)
Lemma frames_bind_inv {A B} (m : M W A) (k : A -> M W B) w w' r :
  frames R m -> bind m k w = (w', r) ->
  (exists w1 a, R w w1 /\ m w = (w1, Ok a) /\ k a w1 = (w', r)) \/ (exists e, r = Err e /\ R w w').
Proof.
  intros Hm. unfold bind. specialize (Hm w). destruct (m w) as [w1 [a|e]]; simpl in Hm.
  - left. eauto.
  - intros [= <- <-]. right. eauto.
Qed.
End Frames.

Create HintDb frames.

Ltac frames_step :=
  match goal with
  | |- frames _ (ret _) => apply frames_ret; apply _
  | |- frames _ (fail _) => apply frames_fail; apply _
  | |- frames _ (bind _ _) => apply frames_bind; [apply _| |intros ?]
  | |- frames _ (attempt _ _) => apply frames_attempt; [apply _| |intros ?]
  | |- frames _ (wrapM _ _) => apply frames_wrapM
  | |- frames _ (lift _) => apply frames_lift
  | |- frames _ (match ?x with _ => _ end) => destruct x eqn:?
  | |- frames _ _ => solve [eauto with frames]
  end.
Ltac frames_tac := repeat (frames_step; cbv beta).
