(* ===== verification/Types.v ===== *)
(** * Shared data: [pkg/types.go], [pkg/lifecycle.go], [pkg/interfaces.go], [pkg/trigger.go]

    The structs of package [pkg] as records, its string enums as strings with the
    validity tables the code keeps, and the methods of [CompletionResponse].
    A Go enum is a named string type: any string inhabits it, and only the
    [Valid...] tables tell the declared values from the others. *)

From S2P Require Import Prelude.

(** ** Messages and completions ([pkg/types.go]) *)

Definition SessionStateActive : string := "active".
Definition SessionStateCompleted : string := "completed".
Definition SessionStateInterrupted : string := "interrupted".

Record ToolCall := {
  tc_ID : string; tc_Name : string; tc_Arguments : string; tc_Destination : string }.

Definition BlockText : string := "text".
Definition BlockThinking : string := "thinking".
Definition BlockToolCall : string := "tool_call".

Record ContentBlock := {
  cb_Type : string; cb_Text : string; cb_Thinking : string;
  cb_ToolCall : option ToolCall; cb_FieldName : string }.

Record Message := {
  msg_Role : string; msg_Content : string; msg_Blocks : list ContentBlock;
  msg_ToolCallID : string; msg_IsError : bool }.

Record ToolDef := { td_Name : string; td_Description : string }.

Record CompletionRequest := {
  cr_System : string; cr_Messages : list Message; cr_Tools : list ToolDef;
  cr_MaxTokens : Z; cr_Temperature : option float64 }.

Record ToolResult := {
  tr_CallID : string; tr_Content : string; tr_IsError : bool;
  tr_Terminate : bool; tr_ContentSource : string }.

Definition ExecParallel : string := "parallel".
Definition ExecSequential : string := "sequential".

Record ToolMeta := {
  tm_ExecMode : string; tm_Tier : Z; tm_Keywords : list string;
  tm_ContentSource : string; tm_Destination : string }.

Record CompletionResponse := {
  resp_Blocks : list ContentBlock; resp_FinishReason : string;
  resp_PromptTokens : Z; resp_CompletionTokens : Z; resp_ThinkingTokens : Z;
  resp_RawTokS : float64; resp_TTFT : Z; resp_TotalLatency : Z }.

(** [TextContent]: the text of the text blocks, in order. *)
Fixpoint text_of_blocks (blks : list ContentBlock) : string :=
  match blks with
  | [] => ""
  | blk :: rest =>
      if String.eqb (cb_Type blk) BlockText
      then cb_Text blk +:+ text_of_blocks rest else text_of_blocks rest
  end.
Definition TextContent (r : CompletionResponse) : string := text_of_blocks (resp_Blocks r).

(** [ThinkingContent]: thinking blocks, a newline before a block whenever
    something has been written already. *)
Fixpoint thinking_of_blocks (buf : string) (blks : list ContentBlock) : string :=
  match blks with
  | [] => buf
  | blk :: rest =>
      if String.eqb (cb_Type blk) BlockThinking
      then thinking_of_blocks
             ((if str_empty buf then buf else buf +:+ newline) +:+ cb_Thinking blk) rest
      else thinking_of_blocks buf rest
  end.
Definition ThinkingContent (r : CompletionResponse) : string :=
  thinking_of_blocks "" (resp_Blocks r).

(** [ToolCallBlocks]: the non-nil calls of the tool-call blocks, in order. *)
Fixpoint calls_of_blocks (blks : list ContentBlock) : list ToolCall :=
  match blks with
  | [] => []
  | blk :: rest =>
      match String.eqb (cb_Type blk) BlockToolCall, cb_ToolCall blk with
      | true, Some tc => tc :: calls_of_blocks rest
      | _, _ => calls_of_blocks rest
      end
  end.
Definition ToolCallBlocks (r : CompletionResponse) : list ToolCall :=
  calls_of_blocks (resp_Blocks r).

Record BlockedOutbound := {
  bo_ToolName : string; bo_CallID : string; bo_Destination : string;
  bo_Severity : string; bo_Findings : list string; bo_Reason : string }.

Record BeliefMeta := {
  bm_BaseConfidence : float64; bm_AnchorAt : Z; bm_InferenceDistance : Z;
  bm_VerificationState : string; bm_Source : string; bm_EmotionalRegister : string }.

Definition ContentSourceSelf : string := "self".
Definition ContentSourceOperator : string := "operator".
Definition ContentSourceToolResult : string := "tool-result".
Definition ContentSourceBrowserContent : string := "browser-content".
Definition ContentSourceSearchResult : string := "search-result".
Definition ContentSourceForumContent : string := "forum-content".
Definition ContentSourceDiscord : string := "discord".

(** ** Aegis and memory records ([pkg/interfaces.go]) *)

Record AegisAnnotation := {
  aa_TrustScore : float64; aa_Source : string; aa_ContentSource : string;
  aa_Flags : list string; aa_Sanitized : bool; aa_ScanPassed : bool; aa_AnnotatedAt : Z }.

Record AnnotatedContent := {
  ac_Original : string; ac_Normalized : string; ac_Annotation : AegisAnnotation }.

Record OutboundReport := {
  or_Clean : bool; or_Findings : list string; or_Severity : string }.

Record ExperientialLog := {
  el_ID : string; el_SessionID : string; el_Content : string;
  el_ContentSource : string; el_CreatedAt : Z;
  el_AegisAnnotation : option AegisAnnotation }.

Record NarrativeSummary := {
  ns_ID : string; ns_SessionID : string; ns_Content : string;
  ns_Belief : option BeliefMeta; ns_Embedding : list float64;
  ns_ContentSources : list string; ns_ExternalAnnotation : option AegisAnnotation }.

Record Reflection := {
  rf_ID : string; rf_Type : string; rf_Content : string; rf_Visibility : string;
  rf_Belief : option BeliefMeta; rf_Embedding : list float64 }.

Record Entity := {
  en_ID : string; en_Name : string; en_Type : string; en_Content : string;
  en_Belief : option BeliefMeta; en_Embedding : list float64 }.

Record RelationalProfile := {
  rp_ID : string; rp_Name : string; rp_Aliases : list string; rp_Content : string }.

Record MemoryEdge := {
  me_ID : string; me_FromID : string; me_FromTier : Z; me_ToID : string;
  me_ToTier : Z; me_EdgeType : string; me_Author : string; me_CreatedAt : Z }.

Record EdgeNode := { edge_ID : string; edge_Tier : Z }.

Record RecoverableJob := { rj_JobID : string; rj_SessionID : string; rj_RetryCount : Z }.

Record ToolGroup := {
  tg_Name : string; tg_Tier : Z; tg_Keywords : list string; tg_Tools : list ToolDef }.

Record AmendmentRecord := {
  am_ID : string; am_DocName : string; am_OldHash : string; am_NewHash : string;
  am_Reason : string; am_CoSigner : string; am_CreatedAt : Z }.

Record SubstrateTransition := {
  sb_ID : string; sb_ModelName : string; sb_ModelVersion : string; sb_TransitionDate : Z;
  sb_ContinuityLetterPath : string; sb_PreviousEntryID : string; sb_CreatedAt : Z }.

(** ** Lifecycle vocabulary ([pkg/lifecycle.go]) *)

Definition TemporalEpisodic : string := "episodic".
Definition TemporalDiurnal : string := "diurnal".
Definition TemporalContinuous : string := "continuous".
Definition ValidTemporalModes : list string :=
  [TemporalEpisodic; TemporalDiurnal; TemporalContinuous].

Definition WakeCauseInitial : string := "initial".
Definition WakeCauseExternal : string := "external".
Definition WakeCauseScheduled : string := "scheduled".
Definition WakeCauseHeartbeat : string := "heartbeat".
Definition WakeCauseAgentRequested : string := "agent_requested".
Definition WakeCauseContextPressure : string := "context_pressure".
Definition WakeCauseManual : string := "manual".
Definition WakeCauseRecovery : string := "recovery".
Definition ValidWakeCauses : list string :=
  [WakeCauseInitial; WakeCauseExternal; WakeCauseScheduled; WakeCauseHeartbeat;
   WakeCauseAgentRequested; WakeCauseContextPressure; WakeCauseManual; WakeCauseRecovery].

Definition TransitionNone : string := "none".
Definition TransitionModeChange : string := "mode_change".
Definition TransitionSubstrateChange : string := "substrate_change".
Definition TransitionConfigurationChange : string := "configuration_change".
Definition TransitionRecoveryAfterFailure : string := "recovery_after_failure".
Definition TransitionIdentityDocumentChange : string := "identity_document_change".
Definition ValidTransitionContexts : list string :=
  [TransitionNone; TransitionModeChange; TransitionSubstrateChange;
   TransitionConfigurationChange; TransitionRecoveryAfterFailure;
   TransitionIdentityDocumentChange].

Definition SeamColdWake : string := "cold_wake".
Definition SeamWarmReturn : string := "warm_return".
Definition SeamContextCompaction : string := "context_compaction".
Definition SeamRestReturn : string := "rest_return".
Definition SeamNone : string := "none".
Definition ValidSeamKinds : list string :=
  [SeamColdWake; SeamWarmReturn; SeamContextCompaction; SeamRestReturn; SeamNone].

Definition ActivityNormal : string := "normal".
Definition ActivityFree : string := "free".
Definition ActivitySentinel : string := "sentinel".
Definition ValidActivityProfiles : list string :=
  [ActivityNormal; ActivityFree; ActivitySentinel].

Definition AssemblyFull : string := "full".
Definition AssemblyLight : string := "light".
Definition AssemblyMinimal : string := "minimal".
Definition AssemblySeam : string := "seam".
Definition ValidAssemblyProfiles : list string :=
  [AssemblyFull; AssemblyLight; AssemblyMinimal; AssemblySeam].

Definition GapNone : string := "none".
Definition GapShort : string := "short".
Definition GapOvernight : string := "overnight".
Definition GapLong : string := "long".

Record GapFacts := {
  gf_PreviousActivityAt : option Z; gf_WakeAt : Z; gf_ElapsedDuration : Z;
  gf_ClockBasis : string; gf_GapClass : string;
  gf_MessagesPending : Z; gf_VaultChanges : Z }.

Record LifecyclePlan := {
  plan_ID : string; plan_SessionID : string; plan_TemporalMode : string;
  plan_WakeCause : string; plan_WakeCauseSecondary : option string;
  plan_ActivityProfile : string; plan_AssemblyProfile : string;
  plan_BridgePolicy : string; plan_MetabolismPolicy : string;
  plan_PriorMetabolismStatus : string; plan_SeamKind : string;
  plan_ResolverVersion : string; plan_PolicyHash : string;
  plan_GapFacts : option GapFacts; plan_TransitionContexts : list string;
  plan_Disclosures : list string; plan_Reasons : gmap string string; plan_CreatedAt : Z }.

Definition RuntimeStarting : string := "starting".
Definition RuntimeActive : string := "active".
Definition RuntimeWaiting : string := "waiting".
Definition RuntimeEnding : string := "ending".
Definition RuntimeEnded : string := "ended".
Definition RuntimeInterrupted : string := "interrupted".
Definition RuntimeFailed : string := "failed".

Definition BridgeAutoWithAbstention : string := "automatic_with_abstention".
Definition BridgeAgentRequested : string := "agent_requested".
Definition BridgeDisabled : string := "disabled".
Definition ValidBridgePolicies : list string :=
  [BridgeAutoWithAbstention; BridgeAgentRequested; BridgeDisabled].

Record LifecyclePolicy := {
  lp_TemporalMode : string; lp_DefaultAssembly : string; lp_BridgePolicy : string;
  lp_ActivityProfile : string; lp_MetabolismPolicy : string; lp_CommitHash : string }.

Definition zero_policy : LifecyclePolicy :=
  {| lp_TemporalMode := ""; lp_DefaultAssembly := ""; lp_BridgePolicy := "";
     lp_ActivityProfile := ""; lp_MetabolismPolicy := ""; lp_CommitHash := "" |}.

Definition ValidMetabolismPolicies : list string := ["standard"; "deferred"; "skip"].

Record OperationalState := {
  os_PriorRuntimeStatus : string; os_PriorMetabolismStatus : string;
  os_LastAppliedConfigHash : string }.

Record WakeFacts := {
  wf_PrimaryCause : string; wf_ContributingCauses : list string; wf_GapFacts : GapFacts;
  wf_ElapsedDuration : Z; wf_SeamKind : string; wf_TransitionContexts : list string }.

Record AssemblyManifest := {
  mf_ID : string; mf_PlanID : string; mf_SessionID : string;
  mf_PhasesRun : list string; mf_PhasesSkipped : list string;
  mf_SkipReasons : gmap string string; mf_BudgetTotal : Z; mf_BudgetUsed : Z;
  mf_PhaseCosts : gmap string Z; mf_CreatedAt : Z }.

Definition MetabolismNotRequired : string := "not_required".
Definition MetabolismQueued : string := "queued".
Definition MetabolismRunning : string := "running".
Definition MetabolismComplete : string := "complete".
Definition MetabolismPartial : string := "partial".
Definition MetabolismFailedRetry : string := "failed_retryable".
Definition MetabolismFailedTerminal : string := "failed_terminal".

(** What wakes a session ([pkg/trigger.go]). *)
Record SessionTrigger := {
  st_WakeReason : string; st_InboundContent : string; st_InboundSender : string;
  st_InboundChannel : string; st_InbandNotes : list string;
  st_AegisAnnotation : option AegisAnnotation }.
