(* ===== verification/Lifecycle.v ===== *)
(** * Lifecycle resolver: [internal/lifecycle/resolver.go] and the wake
    classification helpers of [internal/app/helpers.go]

    [Resolve] is a pure function from the normative policy, the observed wake
    facts and the previous session's operational state to a [LifecyclePlan]. *)

From S2P Require Import Prelude Types.

Definition resolverVersion : string := "v1".

(** ** Assembly profile *)

(** [resolveAssemblyProfile]: the profile and the reason recorded for it. *)
Definition resolveAssemblyProfile (policy : LifecyclePolicy) (facts : WakeFacts)
    : string * string :=
  if String.eqb (wf_SeamKind facts) SeamContextCompaction then
    (AssemblySeam, "seam: context compaction occurred — overlapping reconstruction needed around the compaction boundary")
  else if String.eqb (wf_PrimaryCause facts) WakeCauseInitial then
    (AssemblyFull, "full: initial activation — no prior context exists; complete orientation required")
  else if String.eqb (wf_PrimaryCause facts) WakeCauseRecovery then
    (AssemblyFull, "full: recovery wake — prior session interrupted or failed; full orientation restores stable ground")
  else if String.eqb (lp_TemporalMode policy) TemporalContinuous
          && String.eqb (wf_SeamKind facts) SeamWarmReturn then
    (AssemblyLight, "light: continuous temporal mode with warm-return seam — inference context is close; identity, practices, continuity slice, incoming, and grounding are sufficient")
  else if (0 <? wf_ElapsedDuration facts) && (wf_ElapsedDuration facts <? 30 * minute) then
    (AssemblyLight, "light: elapsed duration < 30 minutes — wall-clock gap too short to justify full orientation overhead")
  else
    let reason := "default: no specific seam or cause signal matched; using policy.DefaultAssembly" in
    if str_empty (lp_DefaultAssembly policy)
    then (AssemblyFull, reason +:+ " (defaultAssembly unset, falling back to full)")
    else (lp_DefaultAssembly policy, reason).

(** ** Disclosures *)

(** The orientation text of a transition context; [None] when it has none. *)
Definition disclosure_text (tc : string) : option string :=
  if String.eqb tc TransitionConfigurationChange then Some "lifecycle policy changed since last session"
  else if String.eqb tc TransitionSubstrateChange then Some "model substrate changed since last session"
  else if String.eqb tc TransitionIdentityDocumentChange then Some "identity documents modified since last session"
  else if String.eqb tc TransitionRecoveryAfterFailure then Some "recovering from prior session failure"
  else if String.eqb tc TransitionModeChange then Some "temporal mode changed since last session"
  else None.

(** The loop of [buildDisclosures], with its [seen] set and its output. *)
Fixpoint disclosure_loop (contexts : list string) (seen : gset string) (out : list string)
    : list string :=
  match contexts with
  | [] => out
  | tc :: rest =>
      if bool_decide (tc ∈ seen) then disclosure_loop rest seen out
      else
        let out' := match disclosure_text tc with Some d => out ++ [d] | None => out end in
        disclosure_loop rest ({[tc]} ∪ seen) out'
  end.
Definition buildDisclosures (contexts : list string) : list string :=
  disclosure_loop contexts ∅ [].

(** ** The resolver *)

Definition is_pending (ms : string) : bool :=
  String.eqb ms MetabolismQueued || String.eqb ms MetabolismRunning.
Definition is_incomplete (ms : string) : bool :=
  String.eqb ms MetabolismFailedRetry || String.eqb ms MetabolismFailedTerminal
  || String.eqb ms MetabolismPartial.
Definition ended_abnormally (rs : string) : bool :=
  String.eqb rs RuntimeFailed || String.eqb rs RuntimeInterrupted.

Definition abnormal_disclosure (rs : string) : string :=
  "prior session ended abnormally (status: " +:+ rs +:+ ")".
Definition metabolism_disclosure (ms : string) : option string :=
  if is_pending ms then
    Some ("prior session metabolism is pending (" +:+ ms +:+
          ") — experience from the last session may not be fully integrated into memory")
  else if is_incomplete ms then
    Some ("prior session metabolism failed or is incomplete (" +:+ ms +:+
          ") — experience from the last session may not be fully integrated into memory")
  else None.

(** The part of [Resolve] that reads [opState.PriorRuntimeStatus]: profile,
    disclosures and reasons after the recovery override. *)
Definition apply_prior_status (priorStatus profile : string) (disclosures : list string)
    (reasons : gmap string string) : string * list string * gmap string string :=
  if ended_abnormally priorStatus then
    let reasons := <["prior_runtime_status" := "prior session " +:+ priorStatus +:+
                     " — assembly upgraded to full for safe recovery"]> reasons in
    let disclosures := disclosures ++ [abnormal_disclosure priorStatus] in
    if String.eqb profile AssemblyFull then (profile, disclosures, reasons)
    else (AssemblyFull, disclosures,
          <["assembly_profile" := default "" (reasons !! "assembly_profile") +:+
            "; overridden to full: prior session " +:+ priorStatus]> reasons)
  else if negb (str_empty priorStatus) then
    (profile, disclosures,
     <["prior_runtime_status" := "prior session ended cleanly (status: " +:+ priorStatus +:+
       "); no assembly adjustment"]> reasons)
  else (profile, disclosures, reasons).

(** The part that reads [opState.PriorMetabolismStatus]. *)
Definition apply_prior_metabolism (ms : string) (disclosures : list string)
    (reasons : gmap string string) : list string * gmap string string :=
  let disclosures' := disclosures ++ option_list (metabolism_disclosure ms) in
  if is_pending ms then
    (disclosures', <["metabolism_status" := "prior metabolism pending (" +:+ ms +:+
      ") — T3 coverage may be incomplete; continuity phase will add in-band disclosure"]> reasons)
  else if is_incomplete ms then
    (disclosures', <["metabolism_status" := "prior metabolism " +:+ ms +:+
      " — T3 coverage incomplete; continuity phase will add in-band disclosure"]> reasons)
  else if negb (str_empty ms) then
    (disclosures', <["metabolism_status" := "prior metabolism completed normally (" +:+ ms +:+ ")"]> reasons)
  else (disclosures', reasons).

Definition Resolve (policy : LifecyclePolicy) (facts : WakeFacts) (opState : OperationalState)
    (planID : string) (resolvedAt : Z) : LifecyclePlan :=
  let '(profile0, assemblyReason) := resolveAssemblyProfile policy facts in
  let reasons : gmap string string :=
    <["bridge_policy" := "copied from normative policy; Ersa's initial posture is agent_requested or disabled per corrective delta 2026-08-08"]>
    (<["assembly_profile" := assemblyReason]>
    (<["activity_profile" := "copied from normative policy (workspace config)"]>
    (<["temporal_mode" := "copied from normative policy (workspace config)"]> ∅))) in
  let disclosures0 := buildDisclosures (wf_TransitionContexts facts) in
  let '(profile, disclosures1, reasons) :=
    apply_prior_status (os_PriorRuntimeStatus opState) profile0 disclosures0 reasons in
  let reasons := <["metabolism_policy" := "copied from normative policy (workspace config); default: standard"]> reasons in
  let '(disclosures, reasons) :=
    apply_prior_metabolism (os_PriorMetabolismStatus opState) disclosures1 reasons in
  {| plan_ID := planID; plan_SessionID := "";
     plan_TemporalMode := str_or (lp_TemporalMode policy) TemporalEpisodic;
     plan_WakeCause := wf_PrimaryCause facts;
     plan_WakeCauseSecondary := head (wf_ContributingCauses facts);
     plan_ActivityProfile := str_or (lp_ActivityProfile policy) ActivityNormal;
     plan_AssemblyProfile := profile;
     plan_BridgePolicy := str_or (lp_BridgePolicy policy) BridgeAgentRequested;
     plan_MetabolismPolicy := str_or (lp_MetabolismPolicy policy) "standard";
     plan_PriorMetabolismStatus := os_PriorMetabolismStatus opState;
     plan_SeamKind := wf_SeamKind facts;
     plan_ResolverVersion := resolverVersion;
     plan_PolicyHash := lp_CommitHash policy;
     plan_GapFacts := Some (wf_GapFacts facts);
     plan_TransitionContexts := wf_TransitionContexts facts;
     plan_Disclosures := disclosures;
     plan_Reasons := reasons;
     plan_CreatedAt := resolvedAt |}.

(** ** Wake classification ([internal/app/helpers.go]) *)

Definition wakeReasonToCause (reason : string) : string :=
  if String.eqb reason "initial" || String.eqb reason "first-boot" then WakeCauseInitial
  else if String.eqb reason "recovery" then WakeCauseRecovery
  else if String.eqb reason "heartbeat" || String.eqb reason "daemon-startup" then WakeCauseScheduled
  else if String.eqb reason "agent_requested" || String.eqb reason "agent-requested" then WakeCauseAgentRequested
  else if String.eqb reason "context_pressure" || String.eqb reason "context-pressure" then WakeCauseContextPressure
  else if String.eqb reason "manual" then WakeCauseManual
  else if (8 <? str_len reason) && String.eqb (str_take 8 reason) "channel:" then WakeCauseExternal
  else WakeCauseScheduled.

Definition classifyGap (elapsed : Z) (prevActivityAt : option Z) : string :=
  match prevActivityAt with
  | None => GapNone
  | Some _ =>
      if elapsed <? 2 * hour then GapShort
      else if elapsed <? 16 * hour then GapOvernight else GapLong
  end.

Definition classifySeam (elapsed : Z) (prevActivityAt : option Z) : string :=
  match prevActivityAt with
  | None => SeamColdWake
  | Some _ =>
      if elapsed <? 30 * minute then SeamWarmReturn
      else if elapsed <? 16 * hour then SeamRestReturn else SeamColdWake
  end.

(** [jobStatusToMetabolism]: the job table's words in the plan's vocabulary. *)
Definition jobStatusToMetabolism (raw : string) : string :=
  if String.eqb raw "pending" then MetabolismQueued
  else if String.eqb raw "running" then MetabolismRunning
  else if String.eqb raw "completed" then MetabolismComplete
  else if String.eqb raw "partial" then MetabolismPartial
  else if String.eqb raw "failed" then MetabolismFailedRetry
  else if String.eqb raw "review_required" then MetabolismFailedTerminal
  else MetabolismNotRequired.

(** ** Well-formedness

    [policy_ok]: every field is unset or declared, what [policyDocument.validate]
    enforces. [plan_ok]: the CHECK constraints of table [lifecycle_plans]. *)
Definition unset_or (valid : list string) (s : string) : Prop := s = "" \/ s ∈ valid.

Record policy_ok (p : LifecyclePolicy) : Prop := {
  po_temporal : unset_or ValidTemporalModes (lp_TemporalMode p);
  po_assembly : unset_or ValidAssemblyProfiles (lp_DefaultAssembly p);
  po_bridge : unset_or ValidBridgePolicies (lp_BridgePolicy p);
  po_activity : unset_or ValidActivityProfiles (lp_ActivityProfile p);
  po_metabolism : unset_or ValidMetabolismPolicies (lp_MetabolismPolicy p) }.

Record facts_ok (f : WakeFacts) : Prop := {
  fo_cause : wf_PrimaryCause f ∈ ValidWakeCauses;
  fo_contributing : Forall (fun c => c ∈ ValidWakeCauses) (wf_ContributingCauses f);
  fo_seam : wf_SeamKind f ∈ ValidSeamKinds }.

Record plan_ok (p : LifecyclePlan) : Prop := {
  plo_temporal : plan_TemporalMode p ∈ ValidTemporalModes;
  plo_cause : plan_WakeCause p ∈ ValidWakeCauses;
  plo_secondary : forall c, plan_WakeCauseSecondary p = Some c -> c ∈ ValidWakeCauses;
  plo_activity : plan_ActivityProfile p ∈ ValidActivityProfiles;
  plo_assembly : plan_AssemblyProfile p ∈ ValidAssemblyProfiles;
  plo_bridge : plan_BridgePolicy p ∈ ValidBridgePolicies;
  plo_metabolism : plan_MetabolismPolicy p ∈ ValidMetabolismPolicies;
  plo_seam : plan_SeamKind p ∈ ValidSeamKinds }.

Lemma str_or_valid valid s d : unset_or valid s -> d ∈ valid -> str_or s d ∈ valid.
Proof.
  unfold str_or. intros [->|Hs] Hd; [done|].
  destruct (str_empty s) eqn:E; [done|done].
Qed.

Lemma resolveAssemblyProfile_valid policy facts :
  policy_ok policy -> (resolveAssemblyProfile policy facts).1 ∈ ValidAssemblyProfiles.
Proof.
  intros Hp. unfold resolveAssemblyProfile, ValidAssemblyProfiles.
  repeat case_match; simpl; try set_solver.
  destruct (po_assembly _ Hp) as [He|Hv]; [|done].
  by rewrite He in *.
Qed.

(** The plan's fields, without the [let]s of [Resolve]. *)
Lemma Resolve_profile policy facts op id t :
  plan_AssemblyProfile (Resolve policy facts op id t) =
  if ended_abnormally (os_PriorRuntimeStatus op) then AssemblyFull
  else (resolveAssemblyProfile policy facts).1.
Proof.
  unfold Resolve, apply_prior_status, apply_prior_metabolism.
  destruct (resolveAssemblyProfile policy facts) as [prof why].
  destruct (ended_abnormally (os_PriorRuntimeStatus op)).
  - destruct (String.eqb prof AssemblyFull) eqn:E; repeat case_match; simplify_eq/=; bools; auto.
  - repeat case_match; by simplify_eq/=.
Qed.

Lemma Resolve_disclosures policy facts op id t :
  plan_Disclosures (Resolve policy facts op id t) =
  buildDisclosures (wf_TransitionContexts facts)
  ++ (if ended_abnormally (os_PriorRuntimeStatus op)
      then [abnormal_disclosure (os_PriorRuntimeStatus op)] else [])
  ++ option_list (metabolism_disclosure (os_PriorMetabolismStatus op)).
Proof.
  unfold Resolve, apply_prior_status, apply_prior_metabolism.
  destruct (resolveAssemblyProfile policy facts) as [prof why].
  repeat case_match; simplify_eq/=; by rewrite <- ?app_assoc.
Qed.

Lemma Resolve_copied policy facts op id t :
  let p := Resolve policy facts op id t in
  plan_TemporalMode p = str_or (lp_TemporalMode policy) TemporalEpisodic /\
  plan_WakeCause p = wf_PrimaryCause facts /\
  plan_WakeCauseSecondary p = head (wf_ContributingCauses facts) /\
  plan_ActivityProfile p = str_or (lp_ActivityProfile policy) ActivityNormal /\
  plan_BridgePolicy p = str_or (lp_BridgePolicy policy) BridgeAgentRequested /\
  plan_MetabolismPolicy p = str_or (lp_MetabolismPolicy policy) "standard" /\
  plan_SeamKind p = wf_SeamKind facts.
Proof. cbv zeta. unfold Resolve. repeat case_match; by simplify_eq/=. Qed.

Lemma disclosure_loop_spec contexts seen out :
  NoDup out ->
  (forall d, d ∈ out -> exists tc, tc ∈ seen /\ disclosure_text tc = Some d) ->
  let r := disclosure_loop contexts seen out in
  NoDup r /\ (forall d, d ∈ r <-> d ∈ out \/
    exists tc, tc ∈ contexts /\ tc ∉ seen /\ disclosure_text tc = Some d).
Proof.
  revert seen out. induction contexts as [|tc rest IH]; intros seen out Hnd Hout; simpl.
  - split; [done|set_solver].
  - case_bool_decide as Hseen.
    + destruct (IH seen out Hnd Hout) as [H1 H2]. split; [done|]. intros d.
      rewrite H2. set_solver.
    + assert (Hinj : forall tc', tc' ∈ seen -> forall d, disclosure_text tc = Some d ->
                disclosure_text tc' = Some d -> False).
      { intros tc' Hin d. unfold disclosure_text. repeat case_match; bools; naive_solver. }
      destruct (disclosure_text tc) as [d0|] eqn:Hd.
      * assert (Hnew : d0 ∉ out).
        { intros Hin. destruct (Hout _ Hin) as (tc' & ? & ?). by eapply Hinj. }
        destruct (IH ({[tc]} ∪ seen) (out ++ [d0])) as [H1 H2].
        { apply NoDup_app. split; [done|]. split; [set_solver|apply NoDup_singleton]. }
        { intros d Hin. apply elem_of_app in Hin as [Hin|Hin]; [|set_solver].
          destruct (Hout _ Hin) as (tc' & ? & ?). exists tc'. set_solver. }
        split; [done|]. intros d. rewrite H2.
        destruct (decide (d = d0)) as [->|]; [set_solver|].
        setoid_rewrite elem_of_cons. setoid_rewrite elem_of_app. split; [set_solver|].
        intros [?|(tc' & [->|?] & ? & ?)]; [set_solver|congruence|].
        right. exists tc'. split; [done|]. split; [|done].
        intros [Heq|?]%elem_of_union; [|done]. apply elem_of_singleton in Heq as ->. congruence.
      * destruct (IH ({[tc]} ∪ seen) out Hnd) as [H1 H2].
        { intros d Hin. destruct (Hout _ Hin) as (tc' & ? & ?). exists tc'. set_solver. }
        split; [done|]. intros d. rewrite H2. setoid_rewrite elem_of_cons.
        split; [set_solver|].
        intros [?|(tc' & [->|?] & ? & ?)]; [set_solver|congruence|].
        right. exists tc'. split; [done|]. split; [|done].
        intros [Heq|?]%elem_of_union; [|done]. apply elem_of_singleton in Heq as ->. congruence.
Qed.

(** ** Properties *)

Lemma Resolve_ID policy facts op id t : plan_ID (Resolve policy facts op id t) = id.
Proof. unfold Resolve. repeat case_match; by simplify_eq/=. Qed.

Lemma Resolve_plan_ok policy facts op id t :
  policy_ok policy -> facts_ok facts -> plan_ok (Resolve policy facts op id t).
Proof.
  intros Hp Hf.
  destruct (Resolve_copied policy facts op id t) as (Ht & Hc & Hs & Ha & Hb & Hm & Hk).
  split; rewrite ?Ht, ?Hc, ?Ha, ?Hb, ?Hm, ?Hk.
  - apply str_or_valid; [apply Hp|set_solver].
  - apply Hf.
  - intros c Hhd. rewrite Hs in Hhd. destruct (wf_ContributingCauses facts) as [|c' l] eqn:E; [done|].
    pose proof (fo_contributing _ Hf) as HF. rewrite E in HF. simplify_eq/=. by inversion HF.
  - apply str_or_valid; [apply Hp|set_solver].
  - rewrite Resolve_profile. case_match; [set_solver|by apply resolveAssemblyProfile_valid].
  - apply str_or_valid; [apply Hp|set_solver].
  - apply str_or_valid; [apply Hp|set_solver].
  - apply Hf.
Qed.

(** The facts [RunSession] builds from the wake reason and the last wake time. *)
Definition observed_facts (reason : string) (wakeAt : Z) (prev : option Z) : WakeFacts :=
  let elapsed := match prev with Some p => time_Sub wakeAt p | None => 0 end in
  {| wf_PrimaryCause := wakeReasonToCause reason; wf_ContributingCauses := [];
     wf_GapFacts := {| gf_PreviousActivityAt := prev; gf_WakeAt := wakeAt;
                       gf_ElapsedDuration := elapsed; gf_ClockBasis := "wall";
                       gf_GapClass := classifyGap elapsed prev;
                       gf_MessagesPending := 0; gf_VaultChanges := 0 |};
     wf_ElapsedDuration := elapsed; wf_SeamKind := classifySeam elapsed prev;
     wf_TransitionContexts := [] |}.

Lemma observed_facts_ok reason wakeAt prev : facts_ok (observed_facts reason wakeAt prev).
Proof.
  split; simpl.
  - unfold wakeReasonToCause. repeat case_match; set_solver.
  - constructor.
  - unfold classifySeam. repeat case_match; set_solver.
Qed.

Definition demo_policy : LifecyclePolicy :=
  {| lp_TemporalMode := TemporalContinuous; lp_DefaultAssembly := AssemblyMinimal;
     lp_BridgePolicy := BridgeAutoWithAbstention; lp_ActivityProfile := "";
     lp_MetabolismPolicy := "deferred"; lp_CommitHash := "abc" |}.
Definition demo_facts : WakeFacts :=
  observed_facts "channel:discord" (1000 * hour) (Some (999 * hour)).
Definition demo_op : OperationalState :=
  {| os_PriorRuntimeStatus := RuntimeInterrupted;
     os_PriorMetabolismStatus := MetabolismQueued; os_LastAppliedConfigHash := "" |}.

Lemma demo_policy_ok : policy_ok demo_policy.
Proof. split; simpl; unfold unset_or; set_solver. Qed.

(** The assembly profile follows the documented priority order: an abnormal end
    of the previous session forces [full] over everything; otherwise a compaction seam
    gives [seam], then an initial or recovery wake gives [full], then a warm return in
    continuous mode or a positive gap under 30 minutes gives [light], and only then
    does the policy's default (or [full] when it is unset) decide. *)
Theorem Resolve_profile_priority policy facts op id t :
  let p := plan_AssemblyProfile (Resolve policy facts op id t) in
  let short := 0 < wf_ElapsedDuration facts < 30 * minute in
  let warm := lp_TemporalMode policy = TemporalContinuous /\ wf_SeamKind facts = SeamWarmReturn in
  let compaction := wf_SeamKind facts = SeamContextCompaction in
  let fresh := wf_PrimaryCause facts = WakeCauseInitial \/ wf_PrimaryCause facts = WakeCauseRecovery in
  let abnormal := ended_abnormally (os_PriorRuntimeStatus op) = true in
  (abnormal /\ p = AssemblyFull) \/
  (~ abnormal /\ compaction /\ p = AssemblySeam) \/
  (~ abnormal /\ ~ compaction /\ fresh /\ p = AssemblyFull) \/
  (~ abnormal /\ ~ compaction /\ ~ fresh /\ (warm \/ short) /\ p = AssemblyLight) \/
  (~ abnormal /\ ~ compaction /\ ~ fresh /\ ~ warm /\ ~ short /\
   p = str_or (lp_DefaultAssembly policy) AssemblyFull).
Proof.
  cbv zeta. rewrite Resolve_profile.
  destruct (ended_abnormally (os_PriorRuntimeStatus op)); [by left|right].
  unfold resolveAssemblyProfile, str_or.
  destruct (String.eqb (wf_SeamKind facts) SeamContextCompaction) eqn:E1; bools; [left; naive_solver|right].
  destruct (String.eqb (wf_PrimaryCause facts) WakeCauseInitial) eqn:E2; bools; [left; naive_solver|].
  destruct (String.eqb (wf_PrimaryCause facts) WakeCauseRecovery) eqn:E3; bools; [left; naive_solver|right].
  assert (Hwarm : forall a b c d : string, (String.eqb a b && String.eqb c d)%bool = false ->
            ~ (a = b /\ c = d)).
  { intros a b c d H [-> ->]. by rewrite !String.eqb_refl in H. }
  destruct (String.eqb (lp_TemporalMode policy) TemporalContinuous
            && String.eqb (wf_SeamKind facts) SeamWarmReturn) eqn:E4; bools; [left; naive_solver|].
  apply Hwarm in E4.
  destruct ((0 <? wf_ElapsedDuration facts) && (wf_ElapsedDuration facts <? 30 * minute))%bool eqn:E5.
  - bools. left. naive_solver.
  - right. assert (~ (0 < wf_ElapsedDuration facts < 30 * minute)).
    { intros [Ha Hb]. apply Z.ltb_lt in Ha, Hb. by rewrite Ha, Hb in E5. }
    split; [done|]. split; [done|]. split; [naive_solver|]. split; [done|]. split; [done|].
    by destruct (str_empty (lp_DefaultAssembly policy)).
Qed.

(** The transition disclosures are exactly the orientation texts of the contexts
    that have one, each said once, however often its context is repeated. *)
Theorem buildDisclosures_exact contexts :
  NoDup (buildDisclosures contexts) /\
  (forall d, d ∈ buildDisclosures contexts <->
     exists tc, tc ∈ contexts /\ disclosure_text tc = Some d).
Proof.
  destruct (disclosure_loop_spec contexts ∅ []) as [H1 H2]; [constructor|set_solver|].
  split; [done|]. intros d. unfold buildDisclosures. rewrite H2. set_solver.
Qed.

(** For every status word the job table can hold, the plan tells the agent that
    its memory may be incomplete exactly when the previous session's metabolism is
    pending, running, failed, partial or held for review: translating the table's
    words before resolving loses none of these states. *)
Theorem Resolve_discloses_incomplete_metabolism policy facts prior hash id t raw :
  let op := {| os_PriorRuntimeStatus := prior;
               os_PriorMetabolismStatus := jobStatusToMetabolism raw;
               os_LastAppliedConfigHash := hash |} in
  (raw ∈ ["pending"; "running"; "failed"; "partial"; "review_required"] <->
   exists d, metabolism_disclosure (jobStatusToMetabolism raw) = Some d /\
             d ∈ plan_Disclosures (Resolve policy facts op id t)).
Proof.
  cbv zeta. rewrite Resolve_disclosures. simpl os_PriorMetabolismStatus.
  unfold jobStatusToMetabolism. split.
  - intros H. elem_cases H; (eexists; split; [vm_compute; reflexivity|]);
      apply elem_of_app; right; apply elem_of_app; right; vm_compute; by left.
  - intros (d & Hd & _). revert Hd. repeat case_match; bools; subst; try set_solver; done.
Qed.

(** The gap class and the seam kind [RunSession] derives from one elapsed time
    agree: no previous activity is a cold wake without a gap, a warm return is a short
    gap, a rest return is a short or overnight gap, and with previous activity the seam
    is cold exactly when the gap is long. *)
Theorem classify_gap_seam_agree elapsed prev :
  (prev = None -> classifyGap elapsed prev = GapNone /\ classifySeam elapsed prev = SeamColdWake) /\
  (classifySeam elapsed prev = SeamWarmReturn -> classifyGap elapsed prev = GapShort) /\
  (classifySeam elapsed prev = SeamRestReturn ->
     classifyGap elapsed prev = GapShort \/ classifyGap elapsed prev = GapOvernight) /\
  (prev <> None -> (classifySeam elapsed prev = SeamColdWake <-> classifyGap elapsed prev = GapLong)).
Proof.
  unfold classifySeam, classifyGap. destruct prev as [p|]; [|naive_solver].
  destruct (elapsed <? 30 * minute) eqn:E1, (elapsed <? 2 * hour) eqn:E2,
    (elapsed <? 16 * hour) eqn:E3; bools; unfold hour, minute, second in *;
    try lia; naive_solver.
Qed.

Lemma classify_gap_seam_agree_witness :
  classifySeam (5 * hour) (Some 0) = SeamRestReturn /\
  classifyGap (5 * hour) (Some 0) = GapOvernight.
Proof.
  assert (H : classifySeam (5 * hour) (Some 0) = SeamRestReturn) by reflexivity.
  split; [done|].
  destruct (proj1 (proj2 (proj2 (classify_gap_seam_agree (5 * hour) (Some 0)))) H) as [E|E];
    [discriminate E|exact E].
Defined.
