(* ===== verification/Db.v ===== *)
(** * The shared SQLite file: tables, statements, transactions, generated IDs

    The repository stores of [internal/platform/storage] share one database. A
    table is the list of its rows in insertion order; a statement is the function
    its SQL text denotes on the tables. The driver is not code of the repository:
    which statements fail, and with what message, is the parameter [db_fault]; a
    statement that fails changes nothing. The bytes [crypto/rand] delivers are the
    parameter [rand_bytes]. *)

From S2P Require Import Prelude Types.

(** ** Rows (the columns of [schema/*.sql] the modelled statements use) *)

Record JobRow := {
  jr_id : string; jr_session_id : string; jr_status : string; jr_job_type : string;
  jr_started_at : option Z; jr_completed_at : option Z; jr_error_message : option string;
  jr_retry_count : Z; jr_claim_token : option string; jr_claim_count : Z; jr_created_at : Z }.

Record LogRow := {
  lr_id : string; lr_session_id : string; lr_content : string; lr_content_source : string;
  lr_aegis_meta : option AegisAnnotation; lr_narrative_summary_id : option string;
  lr_created_at : Z }.

(** The [belief_meta] column: what [beliefMetaJSON] writes of a [BeliefMeta]. *)
Record BeliefColumn := {
  bc_anchor_at : string; bc_inference_distance : Z; bc_verification_state : string;
  bc_source : string; bc_emotional_register : option string }.

Record NarrativeRow := {
  nr_id : string; nr_session_id : string; nr_content : string;
  nr_embedding : option (list float64); nr_belief_meta : option BeliefColumn;
  nr_content_sources : list string; nr_aegis_meta : option AegisAnnotation;
  nr_created_at : Z }.

Record ConfigRow := {
  cf_session_id : string; cf_policy_path : string; cf_policy_hash : string;
  cf_previous_hash : option string; cf_changes_summary : string;
  cf_policy_source : string; cf_policy_snapshot : string; cf_applied_at : Z }.

Record CheckpointRow := {
  cp_id : string; cp_session_id : string; cp_turn_number : Z; cp_t2_high_water : string;
  cp_token_usage : Z; cp_state : string; cp_created_at : Z }.

Record PlanRow := {
  pr_id : string; pr_session_id : string; pr_temporal_mode : string; pr_wake_cause : string;
  pr_wake_cause_secondary : option string; pr_activity_profile : string;
  pr_assembly_profile : string; pr_bridge_policy : string; pr_metabolism_policy : string;
  pr_seam_kind : string; pr_resolver_version : string; pr_policy_hash : string;
  pr_resolved_at : Z }.

(** [wr_extra]: what [extra_json] encodes. *)
Record WakeRow := {
  wr_plan_id : string; wr_wake_at : Z; wr_elapsed_duration_sec : float64;
  wr_gap_class : option string; wr_transition_context : option string; wr_extra : WakeFacts }.

Record ManifestRow := {
  mr_id : string; mr_session_id : string; mr_plan_id : string;
  mr_phases_loaded : list string; mr_phases_skipped : list string;
  mr_known_omissions : gmap string string; mr_total_tokens_used : Z;
  mr_total_tokens_budget : Z; mr_context_utilization : float64; mr_assembled_at : Z }.

Record ActionRow := {
  ar_id : string; ar_action_type : string; ar_actor : string; ar_description : string;
  ar_reason : string; ar_created_at : Z }.
Record AnchorRow := {
  ik_doc_name : string; ik_sha256_hash : string; ik_amendment_id : option string;
  ik_verified_at : Z }.
Record ReflectionRow := {
  re_id : string; re_type : string; re_content : string; re_base_confidence : option float64;
  re_belief_meta : option BeliefColumn; re_embedding : option (list float64);
  re_visibility : string; re_created_at : Z }.
Record EntityRow := {
  ke_id : string; ke_name : string; ke_type : string; ke_content : string;
  ke_belief_meta : option BeliefColumn; ke_embedding : option (list float64);
  ke_created : Z; ke_expired : option Z }.
Record RelationshipRow := {
  kr_id : string; kr_from : string; kr_to : string; kr_type : string; kr_summary : string;
  kr_belief_meta : option BeliefColumn; kr_expired : option Z }.
(** [relational_profiles]. [pf_aliases]: the JSON text of the column. *)
Record ProfileRow := {
  pf_id : string; pf_name : string; pf_aliases : string; pf_content : string }.
(** [sg_bounds]: the JSON text of the column. *)
Record SettingRow := {
  sg_name : string; sg_value : string; sg_default_value : string; sg_bounds : string;
  sg_owner : string; sg_consent_required : bool; sg_description : string;
  sg_last_changed : Z; sg_changed_by : string; sg_reason : string }.

Record Database := {
  db_jobs : list JobRow; db_logs : list LogRow; db_narratives : list NarrativeRow;
  db_configs : list ConfigRow; db_checkpoints : list CheckpointRow; db_plans : list PlanRow;
  db_wakes : list WakeRow; db_manifests : list ManifestRow;
  db_founding : list string; db_actions : list ActionRow; db_anchors : list AnchorRow;
  db_amendments : list AmendmentRecord; db_substrates : list SubstrateTransition;
  db_edges : list MemoryEdge; db_reflections : list ReflectionRow; db_entities : list EntityRow;
  db_relationships : list RelationshipRow; db_profiles : option (list ProfileRow);
  db_settings : list SettingRow;
  (** [trust_registry], by source: the score and the number of interactions *)
  db_trust : gmap string (float64 * Z) }.

Definition set_jobs (f : list JobRow -> list JobRow) (d : Database) : Database :=
  {| db_jobs := f (db_jobs d); db_logs := db_logs d; db_narratives := db_narratives d;
     db_configs := db_configs d; db_checkpoints := db_checkpoints d; db_plans := db_plans d;
     db_wakes := db_wakes d; db_manifests := db_manifests d;
     db_founding := db_founding d; db_actions := db_actions d; db_anchors := db_anchors d;
     db_amendments := db_amendments d; db_substrates := db_substrates d;
     db_edges := db_edges d; db_reflections := db_reflections d; db_entities := db_entities d;
     db_relationships := db_relationships d; db_profiles := db_profiles d;
     db_settings := db_settings d; db_trust := db_trust d |}.
Definition set_logs (f : list LogRow -> list LogRow) (d : Database) : Database :=
  {| db_jobs := db_jobs d; db_logs := f (db_logs d); db_narratives := db_narratives d;
     db_configs := db_configs d; db_checkpoints := db_checkpoints d; db_plans := db_plans d;
     db_wakes := db_wakes d; db_manifests := db_manifests d;
     db_founding := db_founding d; db_actions := db_actions d; db_anchors := db_anchors d;
     db_amendments := db_amendments d; db_substrates := db_substrates d;
     db_edges := db_edges d; db_reflections := db_reflections d; db_entities := db_entities d;
     db_relationships := db_relationships d; db_profiles := db_profiles d;
     db_settings := db_settings d; db_trust := db_trust d |}.
Definition set_narratives (f : list NarrativeRow -> list NarrativeRow) (d : Database) : Database :=
  {| db_jobs := db_jobs d; db_logs := db_logs d; db_narratives := f (db_narratives d);
     db_configs := db_configs d; db_checkpoints := db_checkpoints d; db_plans := db_plans d;
     db_wakes := db_wakes d; db_manifests := db_manifests d;
     db_founding := db_founding d; db_actions := db_actions d; db_anchors := db_anchors d;
     db_amendments := db_amendments d; db_substrates := db_substrates d;
     db_edges := db_edges d; db_reflections := db_reflections d; db_entities := db_entities d;
     db_relationships := db_relationships d; db_profiles := db_profiles d;
     db_settings := db_settings d; db_trust := db_trust d |}.
Definition set_configs (f : list ConfigRow -> list ConfigRow) (d : Database) : Database :=
  {| db_jobs := db_jobs d; db_logs := db_logs d; db_narratives := db_narratives d;
     db_configs := f (db_configs d); db_checkpoints := db_checkpoints d; db_plans := db_plans d;
     db_wakes := db_wakes d; db_manifests := db_manifests d;
     db_founding := db_founding d; db_actions := db_actions d; db_anchors := db_anchors d;
     db_amendments := db_amendments d; db_substrates := db_substrates d;
     db_edges := db_edges d; db_reflections := db_reflections d; db_entities := db_entities d;
     db_relationships := db_relationships d; db_profiles := db_profiles d;
     db_settings := db_settings d; db_trust := db_trust d |}.
Definition set_checkpoints (f : list CheckpointRow -> list CheckpointRow) (d : Database) : Database :=
  {| db_jobs := db_jobs d; db_logs := db_logs d; db_narratives := db_narratives d;
     db_configs := db_configs d; db_checkpoints := f (db_checkpoints d); db_plans := db_plans d;
     db_wakes := db_wakes d; db_manifests := db_manifests d;
     db_founding := db_founding d; db_actions := db_actions d; db_anchors := db_anchors d;
     db_amendments := db_amendments d; db_substrates := db_substrates d;
     db_edges := db_edges d; db_reflections := db_reflections d; db_entities := db_entities d;
     db_relationships := db_relationships d; db_profiles := db_profiles d;
     db_settings := db_settings d; db_trust := db_trust d |}.
Definition set_plans (f : list PlanRow -> list PlanRow) (d : Database) : Database :=
  {| db_jobs := db_jobs d; db_logs := db_logs d; db_narratives := db_narratives d;
     db_configs := db_configs d; db_checkpoints := db_checkpoints d; db_plans := f (db_plans d);
     db_wakes := db_wakes d; db_manifests := db_manifests d;
     db_founding := db_founding d; db_actions := db_actions d; db_anchors := db_anchors d;
     db_amendments := db_amendments d; db_substrates := db_substrates d;
     db_edges := db_edges d; db_reflections := db_reflections d; db_entities := db_entities d;
     db_relationships := db_relationships d; db_profiles := db_profiles d;
     db_settings := db_settings d; db_trust := db_trust d |}.
Definition set_wakes (f : list WakeRow -> list WakeRow) (d : Database) : Database :=
  {| db_jobs := db_jobs d; db_logs := db_logs d; db_narratives := db_narratives d;
     db_configs := db_configs d; db_checkpoints := db_checkpoints d; db_plans := db_plans d;
     db_wakes := f (db_wakes d); db_manifests := db_manifests d;
     db_founding := db_founding d; db_actions := db_actions d; db_anchors := db_anchors d;
     db_amendments := db_amendments d; db_substrates := db_substrates d;
     db_edges := db_edges d; db_reflections := db_reflections d; db_entities := db_entities d;
     db_relationships := db_relationships d; db_profiles := db_profiles d;
     db_settings := db_settings d; db_trust := db_trust d |}.
Definition set_manifests (f : list ManifestRow -> list ManifestRow) (d : Database) : Database :=
  {| db_jobs := db_jobs d; db_logs := db_logs d; db_narratives := db_narratives d;
     db_configs := db_configs d; db_checkpoints := db_checkpoints d; db_plans := db_plans d;
     db_wakes := db_wakes d; db_manifests := f (db_manifests d);
     db_founding := db_founding d; db_actions := db_actions d; db_anchors := db_anchors d;
     db_amendments := db_amendments d; db_substrates := db_substrates d;
     db_edges := db_edges d; db_reflections := db_reflections d; db_entities := db_entities d;
     db_relationships := db_relationships d; db_profiles := db_profiles d;
     db_settings := db_settings d; db_trust := db_trust d |}.
Definition set_actions (f : list ActionRow -> list ActionRow) (d : Database) : Database :=
  {| db_jobs := db_jobs d; db_logs := db_logs d; db_narratives := db_narratives d;
     db_configs := db_configs d; db_checkpoints := db_checkpoints d; db_plans := db_plans d;
     db_wakes := db_wakes d; db_manifests := db_manifests d;
     db_founding := db_founding d; db_actions := f (db_actions d); db_anchors := db_anchors d;
     db_amendments := db_amendments d; db_substrates := db_substrates d;
     db_edges := db_edges d; db_reflections := db_reflections d; db_entities := db_entities d;
     db_relationships := db_relationships d; db_profiles := db_profiles d;
     db_settings := db_settings d; db_trust := db_trust d |}.
Definition set_identity (fa : list AnchorRow -> list AnchorRow)
    (fm : list AmendmentRecord -> list AmendmentRecord)
    (fs : list SubstrateTransition -> list SubstrateTransition) (d : Database) : Database :=
  {| db_jobs := db_jobs d; db_logs := db_logs d; db_narratives := db_narratives d;
     db_configs := db_configs d; db_checkpoints := db_checkpoints d; db_plans := db_plans d;
     db_wakes := db_wakes d; db_manifests := db_manifests d;
     db_founding := db_founding d; db_actions := db_actions d; db_anchors := fa (db_anchors d);
     db_amendments := fm (db_amendments d); db_substrates := fs (db_substrates d);
     db_edges := db_edges d; db_reflections := db_reflections d; db_entities := db_entities d;
     db_relationships := db_relationships d; db_profiles := db_profiles d;
     db_settings := db_settings d; db_trust := db_trust d |}.
Definition set_memory (fe : list MemoryEdge -> list MemoryEdge)
    (fr : list ReflectionRow -> list ReflectionRow) (fk : list EntityRow -> list EntityRow)
    (d : Database) : Database :=
  {| db_jobs := db_jobs d; db_logs := db_logs d; db_narratives := db_narratives d;
     db_configs := db_configs d; db_checkpoints := db_checkpoints d; db_plans := db_plans d;
     db_wakes := db_wakes d; db_manifests := db_manifests d;
     db_founding := db_founding d; db_actions := db_actions d; db_anchors := db_anchors d;
     db_amendments := db_amendments d; db_substrates := db_substrates d;
     db_edges := fe (db_edges d); db_reflections := fr (db_reflections d);
     db_entities := fk (db_entities d);
     db_relationships := db_relationships d; db_profiles := db_profiles d;
     db_settings := db_settings d; db_trust := db_trust d |}.
Definition set_relationships (f : list RelationshipRow -> list RelationshipRow) (d : Database) : Database :=
  {| db_jobs := db_jobs d; db_logs := db_logs d; db_narratives := db_narratives d;
     db_configs := db_configs d; db_checkpoints := db_checkpoints d; db_plans := db_plans d;
     db_wakes := db_wakes d; db_manifests := db_manifests d;
     db_founding := db_founding d; db_actions := db_actions d; db_anchors := db_anchors d;
     db_amendments := db_amendments d; db_substrates := db_substrates d;
     db_edges := db_edges d; db_reflections := db_reflections d; db_entities := db_entities d;
     db_relationships := f (db_relationships d); db_profiles := db_profiles d;
     db_settings := db_settings d; db_trust := db_trust d |}.
Definition set_settings (f : list SettingRow -> list SettingRow) (d : Database) : Database :=
  {| db_jobs := db_jobs d; db_logs := db_logs d; db_narratives := db_narratives d;
     db_configs := db_configs d; db_checkpoints := db_checkpoints d; db_plans := db_plans d;
     db_wakes := db_wakes d; db_manifests := db_manifests d;
     db_founding := db_founding d; db_actions := db_actions d; db_anchors := db_anchors d;
     db_amendments := db_amendments d; db_substrates := db_substrates d;
     db_edges := db_edges d; db_reflections := db_reflections d; db_entities := db_entities d;
     db_relationships := db_relationships d; db_profiles := db_profiles d;
     db_settings := f (db_settings d); db_trust := db_trust d |}.
Definition set_trust (f : gmap string (float64 * Z) -> gmap string (float64 * Z)) (d : Database) : Database :=
  {| db_jobs := db_jobs d; db_logs := db_logs d; db_narratives := db_narratives d;
     db_configs := db_configs d; db_checkpoints := db_checkpoints d; db_plans := db_plans d;
     db_wakes := db_wakes d; db_manifests := db_manifests d;
     db_founding := db_founding d; db_actions := db_actions d; db_anchors := db_anchors d;
     db_amendments := db_amendments d; db_substrates := db_substrates d;
     db_edges := db_edges d; db_reflections := db_reflections d; db_entities := db_entities d;
     db_relationships := db_relationships d; db_profiles := db_profiles d;
     db_settings := db_settings d; db_trust := f (db_trust d) |}.
(** Every table but the trust registry. *)
Definition but_trust (d : Database) : Database := set_trust (fun _ => ∅) d.
(** The schema the migrations create; none of them creates [relational_profiles]. *)
Definition empty_db : Database :=
  {| db_jobs := []; db_logs := []; db_narratives := []; db_configs := []; db_checkpoints := [];
     db_plans := []; db_wakes := []; db_manifests := []; db_founding := []; db_actions := [];
     db_anchors := []; db_amendments := []; db_substrates := [];
     db_edges := []; db_reflections := []; db_entities := []; db_relationships := [];
     db_profiles := None; db_settings := []; db_trust := ∅ |}.

(** ** The world a process acts on *)

Record World := {
  w_db : Database;
  w_clock : Z;     (** the second [CURRENT_TIMESTAMP] returns *)
  w_rng : nat;     (** random IDs drawn so far *)
  w_stmt : nat     (** statements sent to the driver so far *) }.

Definition with_db (d : Database) (w : World) : World :=
  {| w_db := d; w_clock := w_clock w; w_rng := w_rng w; w_stmt := w_stmt w |}.
Definition bump_stmt (w : World) : World :=
  {| w_db := w_db w; w_clock := w_clock w; w_rng := w_rng w; w_stmt := S (w_stmt w) |}.
Definition bump_rng (w : World) : World :=
  {| w_db := w_db w; w_clock := w_clock w; w_rng := S (w_rng w); w_stmt := w_stmt w |}.

Class Env := {
  rand_bytes : nat -> list Z;          (** 16 bytes per draw *)
  db_fault : nat -> option string;     (** the driver's error for statement [n], if any *)
  db_time_scan : option string;        (** its error when a time column is scanned into a [time.Time] *)
  db_foreign_keys : bool               (** whether the connection enforces FOREIGN KEY constraints *) }.

(** ** Random IDs ([newID] in [storage.go], [newMetabolismID], [newAssemblyID]) *)

Definition hex_byte (b : Z) : string := String (hex_digit (b / 16)) (String (hex_digit (b mod 16)) "").
Fixpoint hex_string (bs : list Z) : string :=
  match bs with [] => "" | b :: r => hex_byte b +:+ hex_string r end.

(** UUID version 4: version and variant bits set in bytes 6 and 8, five groups. *)
Definition format_uuid (bs : list Z) : string :=
  let b i := nth i bs 0 in
  let b6 := Z.lor (Z.land (b 6%nat) 15) 64 in
  let b8 := Z.lor (Z.land (b 8%nat) 63) 128 in
  hex_string [b 0%nat; b 1%nat; b 2%nat; b 3%nat] +:+ "-" +:+
  hex_string [b 4%nat; b 5%nat] +:+ "-" +:+ hex_string [b6; b 7%nat] +:+ "-" +:+
  hex_string [b8; b 9%nat] +:+ "-" +:+
  hex_string [b 10%nat; b 11%nat; b 12%nat; b 13%nat; b 14%nat; b 15%nat].

(** [time.Now().UTC()] *)
Definition now_UTC : M World Z := fun w => (w, Ok (w_clock w * second)).

Section Statements.
Context `{Env}.

Definition newID : M World string :=
  fun w => (bump_rng w, Ok (format_uuid (rand_bytes (w_rng w)))).

(** One statement: it fails by the driver's decision, or by a constraint of the
    schema ([Err] of its function), or installs its new tables. *)
Definition exec {A} (f : Database -> Z -> result (Database * A)) : M World A :=
  fun w =>
    match db_fault (w_stmt w) with
    | Some msg => (bump_stmt w, Err (ENew msg))
    | None =>
        match f (w_db w) (w_clock w) with
        | Ok (d, a) => (with_db d (bump_stmt w), Ok a)
        | Err e => (bump_stmt w, Err e)
        end
    end.

Definition query {A} (f : Database -> Z -> result A) : M World A :=
  exec (fun d now => match f d now with Ok a => Ok (d, a) | Err e => Err e end).

(** A FOREIGN KEY constraint: SQLite checks it only on a connection that turned
    [foreign_keys] on. [NewSQLiteStore] does; [NewStore], which the application and
    the migration tool use, does not. *)
Definition foreign_key (holds : bool) : result unit :=
  if negb db_foreign_keys || holds then Ok tt else Err (ENew "FOREIGN KEY constraint failed").

(** Rows with a time column that the caller scans into a [time.Time]. The driver
    converts a column declared TIMESTAMP and refuses one declared TEXT, which is what
    the migrations declare ([storage.go] says so): [db_time_scan] is its error. *)
Definition scan_times {A} (msg : string) (rows : list A) : M World (list A) :=
  match rows, db_time_scan with
  | _ :: _, Some e => fail (EWrap msg (ENew e))
  | _, _ => ret rows
  end.
Definition scan_time {A} (msg : string) (row : option A) : M World (option A) :=
  match row, db_time_scan with
  | Some _, Some e => fail (EWrap msg (ENew e))
  | _, _ => ret row
  end.

(** [BeginTx], the body, [Commit]; any error, [Commit]'s included, rolls back. *)
Definition transact {A} (begin_msg commit_msg : string) (body : M World A) : M World A :=
  fun w =>
    match wrapM begin_msg (query (fun _ _ => Ok tt)) w with
    | (w1, Err e) => (w1, Err e)
    | (w1, Ok _) =>
        match body w1 with
        | (w2, Err e) => (with_db (w_db w1) w2, Err e)
        | (w2, Ok a) =>
            match wrapM commit_msg (query (fun _ _ => Ok tt)) w2 with
            | (w3, Ok _) => (w3, Ok a)
            | (w3, Err e) => (with_db (w_db w1) w3, Err e)
            end
        end
    end.
End Statements.

(** INSERT into a table with a primary key. *)
Definition insert_pk {A} (key : A -> string) (r : A) (rows : list A) : result (list A) :=
  if existsb (fun x => String.eqb (key x) (key r)) rows
  then Err (ENew "UNIQUE constraint failed") else Ok (rows ++ [r]).

Definition find_by {A} (key : A -> string) (k : string) (rows : list A) : option A :=
  List.find (fun r => String.eqb (key r) k) rows.

(** ** Lemmas of the statement layer *)

Lemma find_by_Some {A} (key : A -> string) k rows r :
  find_by key k rows = Some r -> r ∈ rows /\ key r = k.
Proof.
  unfold find_by. intros Hf. apply List.find_some in Hf as [? Heq].
  apply String.eqb_eq in Heq. split; [by apply list_elem_of_In|done].
Qed.

Lemma find_by_None {A} (key : A -> string) k rows :
  find_by key k rows = None -> forall r, r ∈ rows -> key r <> k.
Proof.
  unfold find_by. intros Hf r Hr Heq. eapply List.find_none in Hf; [|by apply list_elem_of_In].
  simpl in Hf. by rewrite Heq, String.eqb_refl in Hf.
Qed.

Lemma NoDup_key_inj {A} (key : A -> string) rows r1 r2 :
  NoDup (map key rows) -> r1 ∈ rows -> r2 ∈ rows -> key r1 = key r2 -> r1 = r2.
Proof.
  intros Hnd. induction rows as [|x rows IH]; [set_solver|].
  simpl in Hnd. apply NoDup_cons in Hnd as [Hx Hnd].
  intros [->|H1]%elem_of_cons [->|H2]%elem_of_cons Hk; auto.
  - exfalso. apply Hx. rewrite Hk. apply list_elem_of_fmap. eauto.
  - exfalso. apply Hx. rewrite <- Hk. apply list_elem_of_fmap. eauto.
Qed.

Lemma find_by_NoDup {A} (key : A -> string) rows r :
  NoDup (map key rows) -> r ∈ rows -> find_by key (key r) rows = Some r.
Proof.
  intros Hnd Hr. destruct (find_by key (key r) rows) as [x|] eqn:E.
  - apply find_by_Some in E as [Hx Hk]. f_equal. by eapply NoDup_key_inj.
  - exfalso. by eapply find_by_None.
Qed.

Lemma insert_pk_Ok {A} (key : A -> string) r rows rows' :
  insert_pk key r rows = Ok rows' ->
  rows' = rows ++ [r] /\ (NoDup (map key rows) -> NoDup (map key rows')).
Proof.
  unfold insert_pk. destruct (existsb _ rows) eqn:E; [done|]. intros [= <-].
  split; [done|]. intros Hnd. rewrite map_app. apply NoDup_app. split; [done|].
  split; [|apply NoDup_singleton].
  intros k Hk Hin. apply list_elem_of_fmap in Hk as (x & -> & Hx). simpl in Hin.
  apply list_elem_of_singleton in Hin.
  assert (Ht : existsb (fun x0 => String.eqb (key x0) (key r)) rows = true).
  { apply existsb_exists. exists x. split; [by apply list_elem_of_In|].
    rewrite Hin. apply String.eqb_refl. }
  by rewrite E in Ht.
Qed.

Lemma find_snoc {A} (p : A -> bool) rows x :
  List.find p (rows ++ [x]) =
  match List.find p rows with Some r => Some r | None => if p x then Some x else None end.
Proof. induction rows as [|y rows IH]; simpl; [done|]. by destruct (p y). Qed.

Lemma find_by_updateb {A} (key : A -> string) k p f rows :
  (forall r, key (f r) = key r) ->
  find_by key k (updateb p f rows) = (fun r => if p r then f r else r) <$> find_by key k rows.
Proof.
  intros Hf. unfold find_by. induction rows as [|x rows IH]; [done|]. simpl.
  replace (key (if p x then f x else x)) with (key x) by (destruct (p x); [by rewrite Hf|done]).
  by destruct (String.eqb (key x) k).
Qed.

(** A concrete environment for the witnesses: no driver faults, and draw [n] is
    sixteen bytes the first of which is [n]. *)
Definition demo_env : Env :=
  {| rand_bytes := fun n => Z.of_nat n :: repeat 7 15; db_fault := fun _ => None;
     db_time_scan := None; db_foreign_keys := true |}.
Definition demo_world : World :=
  {| w_db := empty_db; w_clock := 1000; w_rng := 0; w_stmt := 0 |}.
Definition tick (n : Z) (w : World) : World :=
  {| w_db := w_db w; w_clock := w_clock w + n; w_rng := w_rng w; w_stmt := w_stmt w |}.

Lemma insert_pk_fresh {A} (key : A -> string) r rows rows' :
  insert_pk key r rows = Ok rows' -> find_by key (key r) rows = None.
Proof.
  unfold insert_pk. destruct (existsb _ rows) eqn:E; [done|]. intros _.
  destruct (find_by key (key r) rows) as [x|] eqn:Ef; [|done].
  apply find_by_Some in Ef as [Hx Hk]. rewrite <- not_true_iff_false, existsb_exists in E.
  exfalso. apply E. exists x. split; [by apply list_elem_of_In|]. rewrite Hk. apply String.eqb_refl.
Qed.

Lemma insert_pk_find {A} (key : A -> string) r rows :
  find_by key (key r) rows = None -> insert_pk key r rows = Ok (rows ++ [r]).
Proof.
  intros Hf. unfold insert_pk. destruct (existsb _ rows) eqn:E; [|done].
  apply existsb_exists in E as (x & Hx & Heq). apply String.eqb_eq in Heq.
  exfalso. eapply find_by_None; [exact Hf|by apply list_elem_of_In|done].
Qed.

(** What a statement did: installed its tables, or failed and left them. *)
Section StatementLemmas.
Context `{Env}.

Lemma exec_cases {A} (f : Database -> Z -> result (Database * A)) w w' r :
  exec f w = (w', r) ->
  w_clock w' = w_clock w /\
  match r with
  | Ok a => f (w_db w) (w_clock w) = Ok (w_db w', a)
  | Err _ => w_db w' = w_db w
  end.
Proof.
  unfold exec. destruct (db_fault (w_stmt w)); [by intros [= <- <-]|].
  destruct (f (w_db w) (w_clock w)) as [[d a]|e]; by intros [= <- <-].
Qed.

Lemma exec_wrap_cases {A} msg (f : Database -> Z -> result (Database * A)) w w' r :
  wrapM msg (exec f) w = (w', r) ->
  w_clock w' = w_clock w /\
  match r with
  | Ok a => f (w_db w) (w_clock w) = Ok (w_db w', a)
  | Err _ => w_db w' = w_db w
  end.
Proof.
  unfold wrapM. destruct (exec f w) as [w1 r1] eqn:E. intros [= <- <-].
  apply exec_cases in E. by destruct r1.
Qed.

Lemma exec_Ok {A} (f : Database -> Z -> result (Database * A)) w d a :
  db_fault (w_stmt w) = None -> f (w_db w) (w_clock w) = Ok (d, a) ->
  exec f w = (with_db d (bump_stmt w), Ok a).
Proof. unfold exec. by intros -> ->. Qed.

Lemma scan_times_cases {A} msg (rows : list A) w w' r :
  scan_times msg rows w = (w', r) -> w' = w /\ match r with Ok l => l = rows | Err _ => True end.
Proof. unfold scan_times, fail, ret. destruct rows, db_time_scan; by intros [= <- <-]. Qed.
Lemma scan_time_cases {A} msg (row : option A) w w' r :
  scan_time msg row w = (w', r) -> w' = w /\ match r with Ok l => l = row | Err _ => True end.
Proof. unfold scan_time, fail, ret. destruct row, db_time_scan; by intros [= <- <-]. Qed.

Lemma query_frame {A} (f : Database -> Z -> result A) w w' r :
  query f w = (w', r) -> w_db w' = w_db w /\ w_clock w' = w_clock w.
Proof.
  unfold query. intros E. apply exec_cases in E as [Hc E]. split; [|done].
  destruct r; [|done]. destruct (f (w_db w) (w_clock w)); by simplify_eq/=.
Qed.
End StatementLemmas.
