(* ===== verification/Jobs.v ===== *)
(** * Metabolism jobs: [internal/platform/storage/jobs_sqlite.go]

    Durable job records with fenced leases. A worker gets a fresh claim token from
    [Claim]; [Complete], [Fail] and [MarkReviewRequired] write only under the
    current token. [JobStore] is the interface of [pkg.MetabolismJobStore] with the
    laws its clients rely on, and the SQLite store is an instance of it. *)

From S2P Require Import Prelude Types Db.

Definition MaxClaimCount : Z := 5.

(** The status words of the CHECK constraint of [metabolism_jobs]. *)
Definition job_statuses : list string :=
  ["pending"; "running"; "completed"; "failed"; "interrupted"; "review_required"].

Definition new_job (id sessionID jobType : string) (now : Z) : JobRow :=
  {| jr_id := id; jr_session_id := sessionID; jr_status := "pending"; jr_job_type := jobType;
     jr_started_at := None; jr_completed_at := None; jr_error_message := None;
     jr_retry_count := 0; jr_claim_token := None; jr_claim_count := 0; jr_created_at := now |}.

(** ** The UPDATE statements: WHERE clauses and SET lists *)

Definition id_is (jobID : string) (r : JobRow) : bool := String.eqb (jr_id r) jobID.
Definition token_is (tok : string) (r : JobRow) : bool :=
  match jr_claim_token r with Some t => String.eqb t tok | None => false end.
Definition status_is (s : string) (r : JobRow) : bool := String.eqb (jr_status r) s.

Definition claimable (jobID : string) (now staleSeconds : Z) (r : JobRow) : bool :=
  id_is jobID r && (jr_claim_count r <? MaxClaimCount) &&
  (status_is "pending" r || status_is "failed" r ||
   (status_is "running" r &&
    match jr_started_at r with Some t => t <? now - staleSeconds | None => false end)).

Definition set_claimed (tok : string) (now : Z) (r : JobRow) : JobRow :=
  {| jr_id := jr_id r; jr_session_id := jr_session_id r; jr_status := "running";
     jr_job_type := jr_job_type r; jr_started_at := Some now;
     jr_completed_at := jr_completed_at r; jr_error_message := jr_error_message r;
     jr_retry_count := jr_retry_count r; jr_claim_token := Some tok;
     jr_claim_count := jr_claim_count r + 1; jr_created_at := jr_created_at r |}.

Definition set_status (s : string) (msg : option string) (done_at : option Z) (retries : Z)
    (r : JobRow) : JobRow :=
  {| jr_id := jr_id r; jr_session_id := jr_session_id r; jr_status := s;
     jr_job_type := jr_job_type r; jr_started_at := jr_started_at r;
     jr_completed_at := match done_at with Some t => Some t | None => jr_completed_at r end;
     jr_error_message := match msg with Some m => Some m | None => jr_error_message r end;
     jr_retry_count := jr_retry_count r + retries; jr_claim_token := jr_claim_token r;
     jr_claim_count := jr_claim_count r; jr_created_at := jr_created_at r |}.
Definition set_completed (now : Z) : JobRow -> JobRow := set_status "completed" None (Some now) 0.
Definition set_failed (cause : string) : JobRow -> JobRow := set_status "failed" (Some cause) None 1.
Definition set_review (reason : string) (now : Z) : JobRow -> JobRow :=
  set_status "review_required" (Some reason) (Some now) 0.

(** [UPDATE metabolism_jobs SET f WHERE p]; returns [RowsAffected]. *)
Definition update_jobs (p : JobRow -> bool) (f : JobRow -> JobRow) (d : Database) : Database * nat :=
  (set_jobs (updateb p f) d, countb p (db_jobs d)).

(** ** The operations of [SQLiteJobStore] *)
Section SQLite.
Context `{Env}.

Definition Commit (sessionID jobType : string) : M World string :=
  let! id := newID in
  wrapM ("storage: committing job for session " +:+ sessionID)
    (exec (fun d now =>
       let? rows := insert_pk jr_id (new_job id sessionID jobType now) (db_jobs d) in
       Ok (set_jobs (fun _ => rows) d, id))).

Definition Claim (jobID : string) (staleDuration : Z) : M World string :=
  let! claimToken := newID in
  let! n := wrapM ("storage: claiming job " +:+ jobID)
    (exec (fun d now =>
       Ok (update_jobs (claimable jobID now (Z.quot staleDuration second))
             (set_claimed claimToken now) d))) in
  if (n =? 0)%nat then fail (ESentinel ErrJobNotPending) else ret claimToken.

Definition fencedOrNotFound (jobID : string) : M World unit :=
  let! exists_ := wrapM ("storage: checking job " +:+ jobID +:+ " existence")
    (query (fun d _ => Ok (existsb (id_is jobID) (db_jobs d)))) in
  if exists_ then fail (ESentinel ErrClaimFenced)
  else fail (ENew ("storage: job " +:+ jobID +:+ " not found")).

(** [UPDATE ... WHERE id = ? AND claim_token = ?], then the fence check. *)
Definition fenced_update (msg jobID claimToken : string) (f : Z -> JobRow -> JobRow)
    : M World unit :=
  let! n := wrapM msg
    (exec (fun d now =>
       Ok (update_jobs (fun r => id_is jobID r && token_is claimToken r) (f now) d))) in
  if (n =? 0)%nat then fencedOrNotFound jobID else ret tt.

Definition Complete (jobID claimToken : string) : M World unit :=
  fenced_update ("storage: completing job " +:+ jobID) jobID claimToken set_completed.
Definition Fail (jobID claimToken cause : string) : M World unit :=
  fenced_update ("storage: failing job " +:+ jobID) jobID claimToken (fun _ => set_failed cause).
Definition MarkReviewRequired (jobID claimToken reason : string) : M World unit :=
  fenced_update ("storage: marking job " +:+ jobID +:+ " review_required") jobID claimToken
    (set_review reason).

Definition recoverable (maxRetries : Z) (r : JobRow) : bool :=
  (status_is "pending" r || status_is "running" r || status_is "failed" r) &&
  (jr_retry_count r <? maxRetries) && (jr_claim_count r <? MaxClaimCount).

Definition Recoverable (maxRetries : Z) : M World (list RecoverableJob) :=
  wrapM "storage: querying recoverable jobs"
    (query (fun d _ =>
       Ok (map (fun r => {| rj_JobID := jr_id r; rj_SessionID := jr_session_id r;
                            rj_RetryCount := jr_retry_count r |})
             (order_by jr_created_at (whereb (recoverable maxRetries) (db_jobs d)))))).

Definition LastStatus : M World string :=
  wrapM "storage: querying last job status"
    (query (fun d _ =>
       Ok (match last_by jr_created_at (db_jobs d) with
           | Some r => jr_status r
           | None => ""
           end))).
End SQLite.

(** ** What each operation does to the table *)

Definition uuid_at `{Env} (n : nat) : string := format_uuid (rand_bytes n).
Notation jobs_of w := (db_jobs (w_db w)).

Lemma update_jobs_zero p f d : countb p (db_jobs d) = 0%nat -> updateb p f (db_jobs d) = db_jobs d.
Proof. intros H. apply updateb_none. by apply countb_zero. Qed.

Section Cases.
Context `{Env}.

Lemma Commit_cases sid jt w w' r :
  Commit sid jt w = (w', r) ->
  w_rng w' = S (w_rng w) /\
  ((exists e, r = Err e /\ jobs_of w' = jobs_of w) \/
   (r = Ok (uuid_at (w_rng w)) /\
    insert_pk jr_id (new_job (uuid_at (w_rng w)) sid jt (w_clock w)) (jobs_of w) = Ok (jobs_of w') /\
    jobs_of w' = jobs_of w ++ [new_job (uuid_at (w_rng w)) sid jt (w_clock w)])).
Proof.
  unfold Commit, bind, wrapM, newID, exec, uuid_at. cbn [bump_rng w_stmt w_db w_clock w_rng].
  destruct (db_fault (w_stmt w)) as [msg|]; [intros [= <- <-]; simpl; eauto 6|].
  destruct (insert_pk jr_id _ (db_jobs (w_db w))) as [rows|e] eqn:E; simpl;
    intros [= <- <-]; simpl; (split; [done|]); [right|left; eauto].
  split; [done|]. split; [done|]. by apply insert_pk_Ok in E as [-> _].
Qed.

Lemma Claim_cases id dur w w' r :
  Claim id dur w = (w', r) ->
  w_rng w' = S (w_rng w) /\
  ((exists e, r = Err e /\ jobs_of w' = jobs_of w) \/
   (let p := claimable id (w_clock w) (Z.quot dur second) in
    let tok := uuid_at (w_rng w) in
    r = Ok tok /\ countb p (jobs_of w) <> 0%nat /\
    jobs_of w' = updateb p (set_claimed tok (w_clock w)) (jobs_of w))).
Proof.
  unfold Claim, bind, wrapM, newID, exec, uuid_at. cbn [bump_rng w_stmt w_db w_clock w_rng].
  destruct (db_fault (w_stmt w)) as [msg|]; [intros [= <- <-]; simpl; eauto 6|].
  unfold update_jobs. simpl.
  destruct (countb _ _ =? 0)%nat eqn:E; unfold fail, ret; intros [= <- <-]; simpl; (split; [done|]).
  - left. eexists. split; [done|]. apply update_jobs_zero. by apply Nat.eqb_eq.
  - right. split; [done|]. split; [by apply Nat.eqb_neq|done].
Qed.

Lemma fencedOrNotFound_cases id w w' r :
  fencedOrNotFound id w = (w', r) ->
  w_rng w' = w_rng w /\ w_db w' = w_db w /\
  (exists e, r = Err e /\
     (db_fault (w_stmt w) = None -> (exists x, x ∈ jobs_of w /\ jr_id x = id) ->
      e = ESentinel ErrClaimFenced)).
Proof.
  unfold fencedOrNotFound, bind, wrapM, query, exec.
  destruct (db_fault (w_stmt w)) as [msg|]; [intros [= <- <-]; simpl; naive_solver|].
  simpl. destruct (existsb (id_is id) _) eqn:E; unfold fail; intros [= <- <-]; simpl; [naive_solver|].
  split; [done|]. split; [done|]. eexists. split; [done|]. intros _ (x & Hx & Hid).
  exfalso. rewrite <- not_true_iff_false, existsb_exists in E. apply E.
  exists x. split; [by apply list_elem_of_In|]. unfold id_is. rewrite Hid. apply String.eqb_refl.
Qed.

Definition holds (id tok : string) (r : JobRow) : bool := id_is id r && token_is tok r.

(** A fenced write succeeds and rewrites the row that carries the token, or
    fails and leaves the table alone. *)
Lemma fenced_update_cases msg id tok f w w' r :
  fenced_update msg id tok f w = (w', r) ->
  w_rng w' = w_rng w /\
  ((r = Ok tt /\ countb (holds id tok) (jobs_of w) <> 0%nat /\
    jobs_of w' = updateb (holds id tok) (f (w_clock w)) (jobs_of w)) \/
   (exists e, r = Err e /\ jobs_of w' = jobs_of w)).
Proof.
  unfold fenced_update, bind at 1, wrapM at 1, exec.
  destruct (db_fault (w_stmt w)) as [m|]; [intros [= <- <-]; simpl; eauto 8|].
  unfold update_jobs. simpl. fold (holds id tok).
  destruct (countb (holds id tok) (jobs_of w) =? 0)%nat eqn:E.
  - intros Hf. apply Nat.eqb_eq in E.
    destruct (fencedOrNotFound_cases _ _ _ _ Hf) as (Hr & Hd & e & -> & _).
    split; [done|]. right. exists e. split; [done|]. rewrite Hd. simpl. by apply update_jobs_zero.
  - unfold ret. intros [= <- <-]. simpl. split; [done|]. left.
    split; [done|]. split; [by apply Nat.eqb_neq|done].
Qed.

(** Without driver faults, a token that is not the job's current one is
    answered with [ErrClaimFenced] and nothing is written. *)
Lemma fenced_update_stale msg id tok f w x :
  db_fault (w_stmt w) = None -> db_fault (S (w_stmt w)) = None ->
  x ∈ jobs_of w -> jr_id x = id ->
  (forall y, y ∈ jobs_of w -> jr_id y = id -> jr_claim_token y <> Some tok) ->
  exists w', fenced_update msg id tok f w = (w', Err (ESentinel ErrClaimFenced)) /\
             jobs_of w' = jobs_of w.
Proof.
  intros Hf1 Hf2 Hx Hid Htok.
  assert (Hz : countb (holds id tok) (jobs_of w) = 0%nat).
  { apply countb_zero. intros y Hy. unfold holds, id_is, token_is.
    destruct (String.eqb (jr_id y) id) eqn:E; [|done]. apply String.eqb_eq in E.
    specialize (Htok y Hy E). destruct (jr_claim_token y) as [t|]; [|done].
    simpl. apply String.eqb_neq. congruence. }
  unfold fenced_update, bind at 1, wrapM at 1, exec. rewrite Hf1.
  unfold update_jobs. simpl. fold (holds id tok). rewrite Hz. simpl.
  destruct (fencedOrNotFound id _) as [w'' r] eqn:E.
  destruct (fencedOrNotFound_cases _ _ _ _ E) as (_ & Hd & e & -> & He).
  exists w''. split.
  - rewrite He; [done|done|]. simpl. rewrite (update_jobs_zero _ _ (w_db w)) by done. by exists x.
  - rewrite Hd. simpl. by apply update_jobs_zero.
Qed.
End Cases.

(** ** The table invariant *)

Record job_ok (r : JobRow) : Prop := {
  jok_status : jr_status r ∈ job_statuses;
  jok_claims : 0 <= jr_claim_count r <= MaxClaimCount;
  jok_retries : 0 <= jr_retry_count r;
  jok_token : jr_claim_token r = None <-> jr_claim_count r = 0;
  jok_running : jr_status r = "running" -> is_Some (jr_claim_token r) /\ is_Some (jr_started_at r) }.

Definition jobs_ok (rows : list JobRow) : Prop := NoDup (map jr_id rows) /\ Forall job_ok rows.

Lemma new_job_ok id sid jt now : job_ok (new_job id sid jt now).
Proof.
  split; simpl; try done. unfold job_statuses; set_solver.
Qed.

Lemma set_claimed_ok id now st tok t r :
  job_ok r -> claimable id now st r = true -> job_ok (set_claimed tok t r).
Proof.
  intros Hr Hc. unfold claimable in Hc. bools. destruct Hr as [_ Hcl ? _ _].
  split; simpl; [unfold job_statuses; set_solver|lia|done| |by intros _].
  split; [done|lia].
Qed.

Lemma set_status_ok s msg done_at k r :
  s ∈ job_statuses -> s <> "running" -> 0 <= k -> job_ok r -> job_ok (set_status s msg done_at k r).
Proof. intros Hs Hn Hk [? ? ? ? ?]. split; simpl; try done; lia. Qed.

Lemma jobs_ok_update rows p f :
  jobs_ok rows -> (forall r, jr_id (f r) = jr_id r) ->
  (forall r, job_ok r -> p r = true -> job_ok (f r)) -> jobs_ok (updateb p f rows).
Proof.
  intros [Hnd Hall] Hid Hf. split; [by rewrite map_updateb|by apply Forall_updateb].
Qed.

(** What [Complete], [Fail] and [MarkReviewRequired] may write. *)
Definition finisher (f : JobRow -> JobRow) : Prop :=
  exists s msg d k, f = set_status s msg d k /\
    s ∈ ["completed"; "failed"; "review_required"] /\ 0 <= k.

Lemma finisher_ok f r : finisher f -> job_ok r -> job_ok (f r).
Proof.
  intros (s & msg & d & k & -> & Hs & Hk) Hr.
  apply set_status_ok; [| |done|done]; elem_cases Hs; try done; unfold job_statuses; set_solver.
Qed.

Lemma finisher_id f r : finisher f ->
  jr_id (f r) = jr_id r /\ jr_claim_token (f r) = jr_claim_token r /\
  jr_claim_count (f r) = jr_claim_count r.
Proof. by intros (s & msg & d & k & -> & _). Qed.

Lemma set_completed_finisher now : finisher (set_completed now).
Proof. exists "completed", None, (Some now), 0. split; [done|]. split; [set_solver|lia]. Qed.
Lemma set_failed_finisher cause : finisher (set_failed cause).
Proof. exists "failed", (Some cause), None, 1. split; [done|]. split; [set_solver|lia]. Qed.
Lemma set_review_finisher reason now : finisher (set_review reason now).
Proof. exists "review_required", (Some reason), (Some now), 0. split; [done|]. split; [set_solver|lia]. Qed.
#[export] Hint Resolve set_completed_finisher set_failed_finisher set_review_finisher : athena.

(** ** Histories of the store

    Workers, submitters and recovery interleave freely: a history is any sequence
    of their operations, of clock ticks, and of activity on other tables. *)
Inductive job_event :=
  | EvClaim (id tok : string)
  | EvOther.

Section Histories.
Context `{Env}.

Inductive store_step (w : World) : job_event -> World -> Prop :=
  | step_commit sid jt w' r : Commit sid jt w = (w', r) -> store_step w EvOther w'
  | step_claim id dur w' tok : Claim id dur w = (w', Ok tok) -> store_step w (EvClaim id tok) w'
  | step_claim_refused id dur w' e : Claim id dur w = (w', Err e) -> store_step w EvOther w'
  | step_finish msg id tok f w' r :
      (forall now, finisher (f now)) ->
      fenced_update msg id tok f w = (w', r) -> store_step w EvOther w'
  | step_elsewhere w' :
      jobs_of w' = jobs_of w -> (w_rng w <= w_rng w')%nat -> store_step w EvOther w'.

Inductive history : World -> list job_event -> World -> Prop :=
  | history_nil w : history w [] w
  | history_snoc (w : World) evs (w1 : World) ev (w2 : World) :
      history w evs w1 -> store_step w1 ev w2 -> history w (evs ++ [ev]) w2.

Lemma history_snoc_inv w evs ev w2 :
  history w (evs ++ [ev]) w2 -> exists w1, history w evs w1 /\ store_step w1 ev w2.
Proof.
  intros Hh. remember (evs ++ [ev]) as l eqn:El.
  destruct Hh as [|w evs0 w1 ev0 w2 Hh Hs]; [by destruct evs|].
  apply app_inj_tail in El as [-> ->]. eauto.
Qed.

Lemma history_app (w : World) evs evs' w2 :
  history w (evs ++ evs') w2 -> exists w1, history w evs w1 /\ history w1 evs' w2.
Proof.
  revert w2. induction evs' as [|ev evs' IH] using rev_ind; intros w2.
  - rewrite app_nil_r. intros Hh. exists w2. split; [done|constructor].
  - rewrite app_assoc. intros (w1 & H1 & Hs)%history_snoc_inv.
    destruct (IH _ H1) as (w0 & ? & ?). exists w0. split; [done|]. by econstructor.
Qed.

Lemma store_step_ok w ev w' : store_step w ev w' -> jobs_ok (jobs_of w) -> jobs_ok (jobs_of w').
Proof.
  intros Hs Hok. destruct Hs as [sid jt w' r E|id dur w' tok E|id dur w' e E|msg id tok f w' r Hf E|w' E _].
  - apply Commit_cases in E as [_ [(e & _ & ->)|(_ & Hi & He)]]; [done|].
    apply insert_pk_Ok in Hi as [_ Hnd]. destruct Hok as [Hn Ha]. split; [by apply Hnd|].
    rewrite He. apply Forall_app. split; [done|]. constructor; [apply new_job_ok|constructor].
  - apply Claim_cases in E as [_ [(e & ? & ->)|(_ & _ & ->)]]; [done|].
    apply jobs_ok_update; [done|done|]. intros x Hx Hp. by eapply set_claimed_ok.
  - apply Claim_cases in E as [_ [(e' & ? & ->)|(? & _)]]; done.
  - apply fenced_update_cases in E as [_ [(_ & _ & ->)|(e & _ & ->)]]; [|done].
    apply jobs_ok_update; [done| |]; intros x; [apply finisher_id, Hf|].
    intros Hx _. by apply finisher_ok.
  - by rewrite E.
Qed.

Lemma store_step_rng w ev w' : store_step w ev w' -> (w_rng w <= w_rng w')%nat.
Proof.
  intros [sid jt w1 r E|id dur w1 tok E|id dur w1 e E|msg id tok f w1 r Hf E|w1 _ E]; [..|done].
  - apply Commit_cases in E as [-> _]. lia.
  - apply Claim_cases in E as [-> _]. lia.
  - apply Claim_cases in E as [-> _]. lia.
  - apply fenced_update_cases in E as [-> _]. lia.
Qed.

Lemma history_ok w evs w' : history w evs w' -> jobs_ok (jobs_of w) -> jobs_ok (jobs_of w').
Proof. induction 1; eauto using store_step_ok. Qed.

(** Tokens superseded for good: the job's current token was drawn later. *)
Definition superseded (id tok : string) (w : World) : Prop :=
  exists k cur r, tok = uuid_at k /\ (k < cur < w_rng w)%nat /\
    r ∈ jobs_of w /\ jr_id r = id /\ jr_claim_token r = Some (uuid_at cur).

(** The token is, or was, the one of a claim on [id]. *)
Definition issued (id tok : string) (w : World) : Prop :=
  exists k cur r, tok = uuid_at k /\ (k <= cur < w_rng w)%nat /\
    r ∈ jobs_of w /\ jr_id r = id /\ jr_claim_token r = Some (uuid_at cur).

Lemma elem_of_updateb_intro {A} (p : A -> bool) f l x :
  x ∈ l -> (if p x then f x else x) ∈ updateb p f l.
Proof. intros Hx. apply elem_of_updateb. by exists x. Qed.

(** A lower bound on the draw index of the current token survives every step. *)
Lemma current_token_step w ev w' id cur r :
  store_step w ev w' -> r ∈ jobs_of w -> jr_id r = id ->
  jr_claim_token r = Some (uuid_at cur) -> (cur < w_rng w)%nat ->
  exists cur' r', (cur <= cur' < w_rng w')%nat /\ r' ∈ jobs_of w' /\ jr_id r' = id /\
                  jr_claim_token r' = Some (uuid_at cur').
Proof.
  intros Hs Hr Hid Ht Hc. pose proof (store_step_rng _ _ _ Hs) as Hrng.
  assert (Hsame : jobs_of w' = jobs_of w -> exists cur' r', (cur <= cur' < w_rng w')%nat /\
            r' ∈ jobs_of w' /\ jr_id r' = id /\ jr_claim_token r' = Some (uuid_at cur')).
  { intros E. exists cur, r. rewrite E. split; [lia|done]. }
  destruct Hs as [sid jt w' o E|id' dur w' tok E|id' dur w' e E|msg id' tok f w' o Hf E|w' E _];
    [| | | |by apply Hsame].
  - apply Commit_cases in E as [_ [(e & _ & E)|(_ & _ & E)]]; [by apply Hsame|].
    exists cur, r. split; [lia|]. split; [|done]. rewrite E. set_solver.
  - apply Claim_cases in E as [Hn [(e & ? & E)|(_ & _ & E)]]; [done|].
    pose proof (elem_of_updateb_intro (claimable id' (w_clock w) (Z.quot dur second))
      (set_claimed (uuid_at (w_rng w)) (w_clock w)) _ _ Hr) as Hin. rewrite <- E in Hin.
    destruct (claimable _ _ _ r); [|exists cur, r; split; [lia|done]].
    exists (w_rng w). eexists. split; [lia|]. split; [exact Hin|]. done.
  - apply Claim_cases in E as [_ [(e' & _ & E)|(? & _)]]; [by apply Hsame|done].
  - apply fenced_update_cases in E as [_ [(_ & _ & E)|(e & _ & E)]]; [|by apply Hsame].
    pose proof (elem_of_updateb_intro (holds id' tok) (f (w_clock w)) _ _ Hr) as Hin.
    rewrite <- E in Hin. destruct (holds id' tok r); [|exists cur, r; split; [lia|done]].
    destruct (finisher_id (f (w_clock w)) r (Hf _)) as (H1 & H2 & _).
    exists cur. eexists. split; [lia|]. split; [exact Hin|]. split; congruence.
Qed.

Lemma claim_event_issued w id tok w' : store_step w (EvClaim id tok) w' ->
  exists k r, tok = uuid_at k /\ (w_rng w <= k < w_rng w')%nat /\
    r ∈ jobs_of w' /\ jr_id r = id /\ jr_claim_token r = Some (uuid_at k).
Proof.
  inversion 1 as [|? dur ? ? E| | |]; subst.
  apply Claim_cases in E as [Hn [(e & ? & _)|(Htok & Hc & E)]]; [done|].
  apply countb_pos in Hc as (r & Hr & Hp). exists (w_rng w).
  pose proof (elem_of_updateb_intro (claimable id (w_clock w) (Z.quot dur second))
    (set_claimed (uuid_at (w_rng w)) (w_clock w)) _ _ Hr) as Hin.
  rewrite Hp, <- E in Hin. eexists. simplify_eq. split; [done|]. split; [lia|].
  split; [exact Hin|]. split; [|done]. simpl.
  unfold claimable, id_is in Hp. by bools.
Qed.

Lemma issued_history w evs w' id k r :
  history w evs w' -> r ∈ jobs_of w -> jr_id r = id ->
  jr_claim_token r = Some (uuid_at k) -> (k < w_rng w)%nat ->
  exists cur' r', (k <= cur' < w_rng w')%nat /\ r' ∈ jobs_of w' /\ jr_id r' = id /\
                  jr_claim_token r' = Some (uuid_at cur').
Proof.
  induction 1 as [w|w evs w1 ev w2 Hh IH Hs]; intros Hr Hid Ht Hk.
  - exists k, r. split; [lia|done].
  - destruct (IH Hr Hid Ht Hk) as (c1 & r1 & Hc1 & Hr1 & Hid1 & Ht1).
    destruct (current_token_step _ _ _ _ c1 r1 Hs Hr1 Hid1 Ht1 ltac:(lia))
      as (c2 & r2 & Hc2 & ?). exists c2, r2. split; [lia|done].
Qed.
End Histories.

(** ** Properties *)

Section Properties.
Context `{Env}.

(** The IDs drawn so far are pairwise distinct (UUIDv4 collisions excluded). *)
Definition draws_distinct (n : nat) : Prop :=
  forall i j, (i < j < n)%nat -> uuid_at i <> uuid_at j.

Definition no_fault_at (w : World) : Prop :=
  db_fault (w_stmt w) = None /\ db_fault (S (w_stmt w)) = None.

(** C1: Claim fencing. Once a successor has reclaimed a job, the superseded worker
    is locked out for good: after any further history, its [Complete], [Fail] and
    [MarkReviewRequired] are all answered with [ErrClaimFenced] and leave the job
    table exactly as it was. *)
Theorem superseded_claim_is_fenced w0 id tokA evs1 tokB evs2 w :
  jobs_ok (jobs_of w0) ->
  history w0 ([EvClaim id tokA] ++ evs1 ++ [EvClaim id tokB] ++ evs2) w ->
  draws_distinct (w_rng w) -> no_fault_at w ->
  forall msg f, exists w', fenced_update msg id tokA f w = (w', Err (ESentinel ErrClaimFenced)) /\
    jobs_of w' = jobs_of w.
Proof.
  intros Hok0 Hh Hd [Hf1 Hf2] msg f.
  assert (Hok : jobs_ok (jobs_of w)) by (by eapply history_ok).
  apply history_app in Hh as (wA & HA & Hh). apply (history_snoc_inv w0 []) in HA as (w0' & _ & HA).
  apply history_app in Hh as (w1 & H1 & Hh). apply history_app in Hh as (wB & HB & H2).
  apply (history_snoc_inv w1 []) in HB as (w1' & Hnil & HB).
  assert (w1' = w1) as -> by (inversion Hnil as [|? l ? ? ? ? ? E]; [done|by destruct l]).
  apply claim_event_issued in HA as (kA & rA & -> & HkA & HrA & HidA & HtA).
  apply claim_event_issued in HB as (kB & rB & -> & HkB & HrB & HidB & HtB).
  destruct (issued_history _ _ _ id kA rA H1 HrA HidA HtA ltac:(lia)) as (c1 & _ & Hc1 & _).
  destruct (issued_history _ _ _ id kB rB H2 HrB HidB HtB ltac:(lia)) as (c & r & Hc & Hr & Hid & Ht).
  eapply fenced_update_stale; [done|done|exact Hr|done|].
  intros y Hy Hyid Hty. assert (y = r) as ->.
  { eapply NoDup_key_inj; [apply Hok|done|done|congruence]. }
  apply (Hd kA c); [lia|congruence].
Qed.

Definition claims_of (id : string) (evs : list job_event) : nat :=
  countb (fun ev => match ev with EvClaim i _ => String.eqb i id | EvOther => false end) evs.
Definition claim_count_of (id : string) (rows : list JobRow) : Z :=
  match find_by jr_id id rows with Some r => jr_claim_count r | None => 0 end.

Lemma countb_snoc {A} (p : A -> bool) l x :
  countb p (l ++ [x]) = (countb p l + if p x then 1 else 0)%nat.
Proof.
  unfold countb, whereb. rewrite List.filter_app, length_app. simpl. by destruct (p x).
Qed.

Lemma find_by_snoc {A} (key : A -> string) id rows x :
  find_by key id (rows ++ [x]) =
  match find_by key id rows with Some r => Some r
  | None => if String.eqb (key x) id then Some x else None end.
Proof. exact (find_snoc _ _ _). Qed.

Lemma claim_count_step w ev w' id : store_step w ev w' -> jobs_ok (jobs_of w) ->
  claim_count_of id (jobs_of w') =
  claim_count_of id (jobs_of w) + Z.of_nat (claims_of id [ev]).
Proof.
  intros Hs [Hnd Hall]. unfold claim_count_of.
  destruct Hs as [sid jt w' o E|i dur w' tok E|i dur w' e E|msg i tok f w' o Hf E|w' E _];
    unfold claims_of, countb, whereb; simpl.
  - apply Commit_cases in E as [_ [(e & _ & ->)|(_ & _ & ->)]]; [lia|].
    rewrite find_by_snoc. destruct (find_by jr_id id (jobs_of w)); [lia|].
    by destruct (String.eqb (jr_id _) id).
  - apply Claim_cases in E as [_ [(e & ? & _)|(_ & Hc & ->)]]; [done|].
    rewrite find_by_updateb by done. apply countb_pos in Hc as (r & Hr & Hp).
    assert (Hri : jr_id r = i) by (unfold claimable, id_is in Hp; by bools).
    destruct (String.eqb i id) eqn:Ei; simpl.
    + apply String.eqb_eq in Ei as ->. rewrite <- Hri at 1 2.
      rewrite (find_by_NoDup jr_id _ r Hnd Hr). simpl. rewrite Hp. simpl. lia.
    + destruct (find_by jr_id id (jobs_of w)) as [x|] eqn:Ex; simpl; [|lia].
      apply find_by_Some in Ex as [_ Hx].
      destruct (claimable i _ _ x) eqn:Hpx; [|lia]. exfalso.
      unfold claimable, id_is in Hpx. bools. congruence.
  - apply Claim_cases in E as [_ [(e' & _ & ->)|(? & _)]]; [lia|done].
  - apply fenced_update_cases in E as [_ [(_ & _ & ->)|(e & _ & ->)]]; [|lia].
    rewrite find_by_updateb by (intros; apply finisher_id, Hf).
    destruct (find_by jr_id id (jobs_of w)) as [x|]; simpl; [|lia].
    destruct (holds i tok x); [|lia].
    destruct (finisher_id (f (w_clock w)) x (Hf _)) as (_ & _ & ->). lia.
  - rewrite E. lia.
Qed.

(** C22: Crash-loop bound. However workers crash, recover and reclaim, a job is
    claimed at most [MaxClaimCount] (5) times over the whole history of the store;
    its [claim_count] column counts exactly the successful claims. *)
Theorem claims_bounded w0 evs w id :
  jobs_of w0 = [] -> history w0 evs w ->
  Z.of_nat (claims_of id evs) = claim_count_of id (jobs_of w) /\
  Z.of_nat (claims_of id evs) <= MaxClaimCount.
Proof.
  intros H0 Hh.
  assert (Hinit : jobs_ok (jobs_of w0)) by (rewrite H0; split; constructor).
  assert (Heq : Z.of_nat (claims_of id evs) = claim_count_of id (jobs_of w)).
  { induction Hh as [w|w evs w1 ev w2 Hh IH Hs]; [by rewrite H0|].
    rewrite (claim_count_step _ _ _ _ Hs) by (by eapply history_ok).
    rewrite <- IH by done. unfold claims_of. rewrite countb_snoc. unfold countb, whereb. simpl.
    destruct ev as [i tok|]; simpl; [|lia]. destruct (String.eqb i id); simpl; lia. }
  split; [done|]. rewrite Heq. unfold claim_count_of, MaxClaimCount.
  destruct (find_by jr_id id (jobs_of w)) as [r|] eqn:E; [|lia].
  apply find_by_Some in E as [Hr _].
  destruct (history_ok _ _ _ Hh Hinit) as [_ Hall]. rewrite Forall_forall in Hall.
  apply (jok_claims _ (Hall r Hr)).
Qed.

(** The job table stays well-formed along every history: job IDs are unique,
    every status satisfies the CHECK constraint, claim and retry counters stay in
    range, and a running job always has a claim token and a start time. *)
Theorem job_table_invariant w0 evs w :
  jobs_of w0 = [] -> history w0 evs w -> jobs_ok (jobs_of w).
Proof. intros H0 Hh. eapply history_ok; [done|]. rewrite H0. split; constructor. Qed.

Lemma find_unique_count id p rows r :
  NoDup (map jr_id rows) -> r ∈ rows -> jr_id r = id ->
  (forall x, p x = true -> jr_id x = id) -> p r = false -> countb p rows = 0%nat.
Proof.
  intros Hnd Hr Hid Hp Hf. apply countb_zero. intros x Hx.
  destruct (p x) eqn:E; [|done]. assert (x = r) as ->; [|congruence].
  eapply NoDup_key_inj; [done|done|done|]. rewrite Hid. by apply Hp.
Qed.

(** Lease exclusion. While a job is running and its lease has not outlived the
    stale duration, and once it is completed, held for review or claimed
    [MaxClaimCount] times, [Claim] answers [ErrJobNotPending] and changes nothing
    in the table; a pending or failed job below the bound is granted to the claimer,
    which becomes its only token holder. *)
Theorem Claim_lease w id dur r :
  jobs_ok (jobs_of w) -> db_fault (w_stmt w) = None -> r ∈ jobs_of w -> jr_id r = id ->
  let held := jr_status r = "running" /\
    (forall t, jr_started_at r = Some t -> w_clock w - Z.quot dur second <= t) in
  let closed := jr_status r ∈ ["completed"; "review_required"; "interrupted"] in
  let '(w', res) := Claim id dur w in
  (held \/ closed \/ jr_claim_count r = MaxClaimCount ->
     res = Err (ESentinel ErrJobNotPending) /\ jobs_of w' = jobs_of w) /\
  (jr_status r ∈ ["pending"; "failed"] -> jr_claim_count r < MaxClaimCount ->
     res = Ok (uuid_at (w_rng w)) /\
     find_by jr_id id (jobs_of w') = Some (set_claimed (uuid_at (w_rng w)) (w_clock w) r) /\
     forall j, j <> id -> find_by jr_id j (jobs_of w') = find_by jr_id j (jobs_of w)).
Proof.
  intros Hok Hf Hr Hid. cbv zeta. destruct (Claim id dur w) as [w' res] eqn:E.
  pose proof E as Ec. unfold Claim, bind, wrapM, newID, exec, update_jobs in E. simpl in E.
  rewrite Hf in E. simpl in E. fold (uuid_at (w_rng w)) in E.
  set (p := claimable id (w_clock w) (Z.quot dur second)) in *.
  assert (Hpid : forall x, p x = true -> jr_id x = id).
  { intros x Hx. unfold p, claimable, id_is in Hx. by bools. }
  destruct Hok as [Hnd Hall]. split.
  - intros Hno. assert (Hz : countb p (jobs_of w) = 0%nat).
    { eapply find_unique_count; [done|exact Hr|exact Hid|done|].
      unfold p, claimable, status_is.
      destruct Hno as [[Hs Ht]|[Hc|Hm]].
      - rewrite Hs. simpl. destruct (jr_started_at r) as [t|]; [|by rewrite !andb_false_r].
        specialize (Ht t eq_refl). destruct (Z.ltb_spec t (w_clock w - Z.quot dur second)); [lia|].
        by rewrite !andb_false_r.
      - remember (jr_status r) as s eqn:Es. elem_cases Hc; simpl; by rewrite !andb_false_r.
      - rewrite Hm, Z.ltb_irrefl. by rewrite andb_false_r. }
    rewrite Hz in E. simpl in E. unfold fail in E. simplify_eq. simpl.
    split; [done|]. by apply update_jobs_zero.
  - intros Hs Hm. assert (Hp : p r = true).
    { unfold p, claimable, status_is, id_is. rewrite Hid, String.eqb_refl.
      apply Z.ltb_lt in Hm. rewrite Hm. remember (jr_status r) as s eqn:Es. by elem_cases Hs. }
    assert (Hn : countb p (jobs_of w) <> 0%nat) by (apply countb_pos; eauto).
    destruct (countb p (jobs_of w) =? 0)%nat eqn:E0; [by apply Nat.eqb_eq in E0|].
    unfold ret in E. simplify_eq. simpl. split; [done|].
    rewrite find_by_updateb by done. rewrite (find_by_NoDup jr_id _ r Hnd Hr). simpl. rewrite Hp.
    split; [done|]. intros j Hj. rewrite find_by_updateb by done.
    destruct (find_by jr_id j (jobs_of w)) as [x|] eqn:Ex; [|done]. simpl.
    destruct (p x) eqn:Hpx; [|done]. apply find_by_Some in Ex as [_ Hx].
    apply Hpid in Hpx. congruence.
Qed.
End Properties.

(** ** Witnesses: one job, claimed, left to go stale, reclaimed *)

Definition demo_id : string := @uuid_at demo_env 0.
Definition demo_w1 : World := (@Commit demo_env "sess-1" "standard" demo_world).1.
Definition demo_w2 : World := (@Claim demo_env demo_id (5 * minute) demo_w1).1.
Definition demo_w3 : World := tick 301 demo_w2.
Definition demo_w4 : World := (@Claim demo_env demo_id (5 * minute) demo_w3).1.

Lemma demo_history :
  @history demo_env demo_w1
    [EvClaim demo_id (@uuid_at demo_env 1); EvOther; EvClaim demo_id (@uuid_at demo_env 2)] demo_w4.
Proof.
  apply (@history_snoc demo_env _ [_; _] demo_w3).
  - apply (@history_snoc demo_env _ [_] demo_w2).
    + apply (@history_snoc demo_env _ [] demo_w1); [constructor|].
      eapply (step_claim demo_w1 demo_id (5 * minute)). vm_compute. reflexivity.
    + apply step_elsewhere; [done|]. vm_compute. lia.
  - eapply (step_claim demo_w3 demo_id (5 * minute)). vm_compute. reflexivity.
Qed.

Lemma demo_w1_history : @history demo_env demo_world [EvOther] demo_w1.
Proof.
  apply (@history_snoc demo_env _ [] demo_world); [constructor|].
  eapply (step_commit demo_world "sess-1" "standard"). vm_compute. reflexivity.
Qed.

Lemma demo_w1_ok : jobs_ok (jobs_of demo_w1).
Proof. eapply (@history_ok demo_env); [apply demo_w1_history|]. split; constructor. Qed.

Lemma superseded_claim_is_fenced_witness :
  exists w', @Complete demo_env demo_id (@uuid_at demo_env 1) demo_w4
             = (w', Err (ESentinel ErrClaimFenced)) /\ jobs_of w' = jobs_of demo_w4.
Proof.
  apply (@superseded_claim_is_fenced demo_env demo_w1 demo_id (@uuid_at demo_env 1)
           [EvOther] (@uuid_at demo_env 2) []).
  - apply demo_w1_ok.
  - apply demo_history.
  - intros i j Hij. assert (Hc : (i = 0 /\ j = 1 \/ i = 0 /\ j = 2 \/ i = 1 /\ j = 2)%nat).
    { assert (w_rng demo_w4 = 3%nat) as E by reflexivity. rewrite E in Hij. lia. }
    destruct Hc as [[-> ->]|[[-> ->]|[-> ->]]]; vm_compute; discriminate.
  - split; reflexivity.
Defined.

(** From the empty table: one job, claimed, gone stale, claimed again. *)
Definition demo_events : list job_event :=
  [EvOther; EvClaim demo_id (@uuid_at demo_env 1); EvOther; EvClaim demo_id (@uuid_at demo_env 2)].
Lemma demo_world_history : @history demo_env demo_world demo_events demo_w4.
Proof.
  apply (@history_snoc demo_env _ [_; _; _] demo_w3).
  - apply (@history_snoc demo_env _ [_; _] demo_w2).
    + apply (@history_snoc demo_env _ [_] demo_w1); [exact demo_w1_history|].
      eapply (step_claim demo_w1 demo_id (5 * minute)). vm_compute. reflexivity.
    + apply step_elsewhere; [done|]. vm_compute. lia.
  - eapply (step_claim demo_w3 demo_id (5 * minute)). vm_compute. reflexivity.
Qed.

Lemma claims_bounded_witness :
  claim_count_of demo_id (jobs_of demo_w4) = 2 /\ Z.of_nat (claims_of demo_id demo_events) = 2 /\
  Z.of_nat (claims_of demo_id demo_events) <= MaxClaimCount.
Proof.
  destruct (@claims_bounded demo_env demo_world demo_events demo_w4 demo_id eq_refl demo_world_history)
    as [He H]. split; [rewrite <- He; vm_compute; reflexivity|]. split; [vm_compute; reflexivity|exact H].
Defined.

Lemma job_table_invariant_witness : jobs_ok (jobs_of demo_w1).
Proof. exact (@job_table_invariant demo_env demo_world [EvOther] demo_w1 eq_refl demo_w1_history). Defined.

Lemma Claim_lease_witness :
  let r := new_job demo_id "sess-1" "standard" 1000 in
  let '(w', res) := @Claim demo_env demo_id (5 * minute) demo_w1 in
  res = Ok (@uuid_at demo_env 1) /\
  find_by jr_id demo_id (jobs_of w') = Some (set_claimed (@uuid_at demo_env 1) 1000 r).
Proof.
  pose proof (@Claim_lease demo_env demo_w1 demo_id (5 * minute)
                (new_job demo_id "sess-1" "standard" 1000) demo_w1_ok eq_refl) as H.
  assert (Hin : new_job demo_id "sess-1" "standard" 1000 ∈ jobs_of demo_w1).
  { vm_compute. left. }
  specialize (H Hin eq_refl). cbv zeta in *.
  destruct (@Claim demo_env demo_id (5 * minute) demo_w1) as [w' res].
  destruct H as [_ H]. destruct H as (H1 & H2 & _); [left|reflexivity|]. split; [exact H1|exact H2].
Defined.

(** ** The store interface ([pkg.MetabolismJobStore]) and its laws *)

Record JobView := { jv_status : string; jv_token : option string }.

Class JobStore (S : Type) := {
  js_Commit : string -> string -> M S string;
  js_Claim : string -> Z -> M S string;
  js_Complete : string -> string -> M S unit;
  js_Fail : string -> string -> string -> M S unit;
  js_MarkReviewRequired : string -> string -> string -> M S unit;
  js_Recoverable : Z -> M S (list RecoverableJob);
  js_LastStatus : M S string }.

Section Laws.
Context {S : Type} `{JobStore S} (view : S -> string -> option JobView) (inv : S -> Prop).

Definition unchanged (s s' : S) : Prop := forall j, view s' j = view s j.
Definition only_changed (id : string) (s s' : S) : Prop :=
  forall j, j <> id -> view s' j = view s j.

(** A write under a claim: it needs the current token, and sets [status]. *)
Definition fenced_law (op : M S unit) (id tok status : string) : Prop :=
  forall s s' r, inv s -> op s = (s', r) ->
    inv s' /\
    match r with
    | Ok _ => (exists st, view s id = Some {| jv_status := st; jv_token := Some tok |}) /\
              view s' id = Some {| jv_status := status; jv_token := Some tok |} /\
              only_changed id s s'
    | Err _ => unchanged s s'
    end.
End Laws.

Class JobStoreLaws (S : Type) `{JobStore S} (view : S -> string -> option JobView)
    (inv : S -> Prop) : Prop := {
  js_commit_law : forall sid jt s s' r, inv s -> js_Commit sid jt s = (s', r) ->
    inv s' /\
    match r with
    | Ok id => view s id = None /\
               view s' id = Some {| jv_status := "pending"; jv_token := None |} /\
               only_changed view id s s'
    | Err _ => unchanged view s s'
    end;
  js_claim_law : forall id dur s s' r, inv s -> js_Claim id dur s = (s', r) ->
    inv s' /\
    match r with
    | Ok tok => (exists st t0, view s id = Some {| jv_status := st; jv_token := t0 |} /\
                   st ∈ ["pending"; "failed"; "running"]) /\
                view s' id = Some {| jv_status := "running"; jv_token := Some tok |} /\
                only_changed view id s s'
    | Err _ => unchanged view s s'
    end;
  js_complete_law : forall id tok, fenced_law view inv (js_Complete id tok) id tok "completed";
  js_fail_law : forall id tok c, fenced_law view inv (js_Fail id tok c) id tok "failed";
  js_review_law : forall id tok c,
    fenced_law view inv (js_MarkReviewRequired id tok c) id tok "review_required";
  js_recoverable_law : forall n s s' r, inv s -> js_Recoverable n s = (s', r) ->
    inv s' /\ unchanged view s s' }.

#[export] Instance SQLiteJobStore `{Env} : JobStore World := {
  js_Commit := Commit; js_Claim := Claim; js_Complete := Complete; js_Fail := Fail;
  js_MarkReviewRequired := MarkReviewRequired; js_Recoverable := Recoverable;
  js_LastStatus := LastStatus }.

Definition sqlite_view (w : World) (id : string) : option JobView :=
  (fun r => {| jv_status := jr_status r; jv_token := jr_claim_token r |})
    <$> find_by jr_id id (jobs_of w).
Definition sqlite_inv (w : World) : Prop := jobs_ok (jobs_of w).

Section SQLiteLaws.
Context `{Env}.

Lemma sqlite_same w w' : jobs_of w' = jobs_of w -> unchanged sqlite_view w w'.
Proof. intros E j. unfold sqlite_view. by rewrite E. Qed.

Lemma sqlite_update_frame w w' p f id :
  jobs_of w' = updateb p f (jobs_of w) -> (forall r, jr_id (f r) = jr_id r) ->
  (forall r, p r = true -> jr_id r = id) -> only_changed sqlite_view id w w'.
Proof.
  intros E Hf Hp j Hj. unfold sqlite_view. rewrite E, find_by_updateb by done.
  destruct (find_by jr_id j (jobs_of w)) as [x|] eqn:Ex; [|done]. simpl.
  destruct (p x) eqn:Hpx; [|done]. apply find_by_Some in Ex as [_ Hx]. apply Hp in Hpx. congruence.
Qed.

Lemma sqlite_fenced msg id tok f status :
  (forall now, finisher (f now)) -> (forall now r, jr_status (f now r) = status) ->
  fenced_law sqlite_view sqlite_inv (fenced_update msg id tok f) id tok status.
Proof.
  intros Hf Hst w w' r Hok E. split.
  { eapply store_step_ok; [|exact Hok]. eapply step_finish; [|exact E]. done. }
  apply fenced_update_cases in E as [_ [(-> & Hc & E)|(e & -> & E)]]; [|by apply sqlite_same].
  apply countb_pos in Hc as (x & Hx & Hh).
  assert (Hxt : jr_id x = id /\ jr_claim_token x = Some tok).
  { unfold holds, id_is, token_is in Hh. bools. split; [done|].
    destruct (jr_claim_token x); [|done]. by bools; subst. }
  destruct Hxt as [Hid Htok]. destruct Hok as [Hnd _].
  pose proof (find_by_NoDup jr_id _ x Hnd Hx) as Hfx. rewrite Hid in Hfx.
  destruct (finisher_id (f (w_clock w)) x (Hf _)) as (_ & Ht & _).
  split; [|split].
  - exists (jr_status x). unfold sqlite_view. by rewrite Hfx; simpl; rewrite Htok.
  - unfold sqlite_view. rewrite E, find_by_updateb by (intros; apply finisher_id, Hf).
    rewrite Hfx. simpl. rewrite Hh. by rewrite Hst, Ht, Htok.
  - eapply sqlite_update_frame; [exact E|intros; apply finisher_id, Hf|].
    intros y Hy. unfold holds, id_is in Hy. by bools.
Qed.

(** The SQLite store implements the interface. *)
#[export] Instance SQLiteJobStore_laws : JobStoreLaws World sqlite_view sqlite_inv.
Proof.
  constructor.
  - intros sid jt w w' r Hok E. split.
    { eapply store_step_ok; [|exact Hok]. eapply step_commit, E. }
    apply Commit_cases in E as [_ [(e & -> & E)|(-> & Hi & E)]]; [by apply sqlite_same|].
    apply insert_pk_fresh in Hi. simpl jr_id in Hi. unfold sqlite_view. rewrite Hi.
    split; [done|]. rewrite E. split.
    + rewrite find_by_snoc, Hi. by rewrite String.eqb_refl.
    + intros j Hj. rewrite E, find_by_snoc. destruct (find_by jr_id j (jobs_of w)); [done|].
      destruct (String.eqb (jr_id _) j) eqn:Ej; [|done]. apply String.eqb_eq in Ej. by destruct Hj.
  - intros id dur w w' r Hok E. split.
    { destruct r; (eapply store_step_ok; [|exact Hok]); [eapply step_claim, E|eapply step_claim_refused, E]. }
    apply Claim_cases in E as [_ [(e & -> & E)|(-> & Hc & E)]]; [by apply sqlite_same|].
    apply countb_pos in Hc as (x & Hx & Hp). destruct Hok as [Hnd _].
    assert (Hid : jr_id x = id) by (unfold claimable, id_is in Hp; by bools).
    pose proof (find_by_NoDup jr_id _ x Hnd Hx) as Hfx. rewrite Hid in Hfx.
    unfold sqlite_view at 1 2. rewrite Hfx. split; [|split].
    + exists (jr_status x), (jr_claim_token x). split; [done|].
      unfold claimable, status_is in Hp. apply andb_true_iff in Hp as [_ Hp].
      rewrite !orb_true_iff in Hp.
      destruct Hp as [[Hp|Hp]|Hp]; bools;
        match goal with Hs : jr_status x = _ |- _ => rewrite Hs end; set_solver.
    + rewrite E, find_by_updateb by done. rewrite Hfx. simpl fmap. rewrite Hp. done.
    + eapply sqlite_update_frame; [exact E|done|].
      intros y Hy. unfold claimable, id_is in Hy. by bools.
  - intros id tok. apply sqlite_fenced; auto with athena.
  - intros id tok c. apply sqlite_fenced; auto with athena.
  - intros id tok c. apply sqlite_fenced; auto with athena.
  - intros n w w' r Hok E. simpl in E. unfold Recoverable, wrapM, query, exec in E.
    assert (Hs : jobs_of w' = jobs_of w) by (destruct (db_fault (w_stmt w)); simplify_eq/=; done).
    split; [unfold sqlite_inv; by rewrite Hs|by apply sqlite_same].
Qed.
End SQLiteLaws.
