(* ===== verification/Consolidation.v ===== *)
(** * T2 logs and T3 narratives: [internal/platform/storage/consolidation_sqlite.go],
    [internal/metabolism/backlink.go] and the T2 statements of [internal/platform]

    A consolidation inserts one narrative and back-links its source logs in one
    transaction. [CommitNarrative] is the path the application wires;
    [AtomicT2T3Link] is the older one, which also checks the claim fence. *)

From S2P Require Import Prelude Types Db Jobs.

(** ** Columns *)

(** [beliefMetaJSON]: the anchors without [BaseConfidence]. *)
Definition beliefMetaJSON (b : option BeliefMeta) : option BeliefColumn :=
  match b with
  | None => None
  | Some b =>
      Some {| bc_anchor_at := fmt_RFC3339 (bm_AnchorAt b);
              bc_inference_distance := bm_InferenceDistance b;
              bc_verification_state := bm_VerificationState b;
              bc_source := bm_Source b;
              bc_emotional_register :=
                if str_empty (bm_EmotionalRegister b) then None else Some (bm_EmotionalRegister b) |}
  end.

(** [embeddingJSON]: NULL for an empty vector. *)
Definition embeddingJSON (vec : list float64) : option (list float64) :=
  match vec with [] => None | _ => Some vec end.

Definition narrative_row (n : NarrativeSummary) (id : string) (emb : option (list float64))
    (now : Z) : NarrativeRow :=
  {| nr_id := id; nr_session_id := ns_SessionID n; nr_content := ns_Content n;
     nr_embedding := emb; nr_belief_meta := beliefMetaJSON (ns_Belief n);
     nr_content_sources := ns_ContentSources n; nr_aegis_meta := ns_ExternalAnnotation n;
     nr_created_at := now |}.

Definition log_of_row (r : LogRow) : ExperientialLog :=
  {| el_ID := lr_id r; el_SessionID := lr_session_id r; el_Content := lr_content r;
     el_ContentSource := lr_content_source r; el_CreatedAt := lr_created_at r * second;
     el_AegisAnnotation := lr_aegis_meta r |}.

Definition set_backlink (nid : string) (r : LogRow) : LogRow :=
  {| lr_id := lr_id r; lr_session_id := lr_session_id r; lr_content := lr_content r;
     lr_content_source := lr_content_source r; lr_aegis_meta := lr_aegis_meta r;
     lr_narrative_summary_id := Some nid; lr_created_at := lr_created_at r |}.

(** [WHERE id IN (...)] *)
Definition log_in (ids : list string) (r : LogRow) : bool := one_of (lr_id r) ids.
Definition uncovered (sessionID : string) (r : LogRow) : bool :=
  String.eqb (lr_session_id r) sessionID &&
  match lr_narrative_summary_id r with None => true | Some _ => false end.

Section Stores.
Context `{Env}.

(** ** T2 ([internal/platform/memory.go], [internal/platform/edges.go]) *)

Definition AppendExperiential (entry : ExperientialLog) : M World unit :=
  exec (fun d now =>
    let? rows := insert_pk lr_id
      {| lr_id := el_ID entry; lr_session_id := el_SessionID entry;
         lr_content := el_Content entry; lr_content_source := el_ContentSource entry;
         lr_aegis_meta := el_AegisAnnotation entry; lr_narrative_summary_id := None;
         lr_created_at := now |} (db_logs d) in
    Ok (set_logs (fun _ => rows) d, tt)).

(** [... ORDER BY created_at ASC LIMIT ?]: SQLite returns at most [limit] rows,
    all of them for a negative limit. *)
Definition sql_limit {A} (limit : Z) (l : list A) : list A :=
  if limit <? 0 then l else take (Z.to_nat limit) l.

Definition QueryLogs (sessionID : string) (limit : Z) : M World (list ExperientialLog) :=
  wrapM ("platform: querying logs for session " +:+ sessionID)
    (query (fun d _ =>
       Ok (map log_of_row (sql_limit limit
             (order_by lr_created_at
                (whereb (fun r => String.eqb (lr_session_id r) sessionID) (db_logs d))))))).

(** ** The consolidation store *)

(** The INSERT and the UPDATE both paths run inside their transaction. *)
Definition insert_narrative (msg : string) (row : Z -> NarrativeRow) : M World unit :=
  wrapM msg
    (exec (fun d now =>
       let? rows := insert_pk nr_id (row now) (db_narratives d) in
       Ok (set_narratives (fun _ => rows) d, tt))).
Definition backlink_logs (msg nid : string) (sourceLogIDs : list string) : M World unit :=
  wrapM msg
    (exec (fun d _ => Ok (set_logs (updateb (log_in sourceLogIDs) (set_backlink nid)) d, tt))).

Definition CommitNarrative (supportsTx : bool) (narrative : option NarrativeSummary)
    (sourceLogIDs : list string) : M World unit :=
  match narrative with
  | None => fail (ENew "storage: narrative summary is nil")
  | Some n =>
      match sourceLogIDs with
      | [] => fail (ENew "storage: no source log IDs for T2 back-link")
      | _ =>
          if negb supportsTx then fail (ENew "storage: database does not support transactions")
          else
            transact "storage: beginning consolidation transaction"
                     "storage: committing consolidation transaction"
              (let! nid := if str_empty (ns_ID n) then newID else ret (ns_ID n) in
               let! _ := insert_narrative ("storage: inserting T3 narrative " +:+ nid)
                           (narrative_row n nid (embeddingJSON (ns_Embedding n))) in
               backlink_logs ("storage: updating T2 back-links for narrative " +:+ nid)
                 nid sourceLogIDs)
      end
  end.

Definition UncoveredLogs (sessionID : string) : M World (list ExperientialLog) :=
  wrapM ("storage: querying uncovered logs for session " +:+ sessionID)
    (query (fun d _ =>
       Ok (map log_of_row (order_by lr_created_at (whereb (uncovered sessionID) (db_logs d)))))).

(** ** [AtomicT2T3Link] *)

(** Step 0: the job's current token must be the worker's. *)
Definition fence_check (fenceJobID fenceToken : string) : M World unit :=
  if str_empty fenceJobID || str_empty fenceToken then ret tt
  else
    let! currentToken := wrapM "metabolism: fence check query"
      (query (fun d _ =>
         match find_by jr_id fenceJobID (db_jobs d) with
         | Some r => Ok (jr_claim_token r)
         | None => Err (ESentinel ErrNoRows)
         end)) in
    match currentToken with
    | Some t => if String.eqb t fenceToken then ret tt
                else fail (EWrap "metabolism" (ESentinel ErrClaimFenced))
    | None => fail (EWrap "metabolism" (ESentinel ErrClaimFenced))
    end.

(** The narrative INSERT of this path has no [embedding] column. *)
Definition AtomicT2T3Link (supportsTx : bool) (narrative : option NarrativeSummary)
    (sourceLogIDs : list string) (fenceJobID fenceToken : string) : M World unit :=
  match narrative with
  | None => fail (ENew "metabolism: narrative summary is nil")
  | Some n =>
      match sourceLogIDs with
      | [] => fail (ENew "metabolism: no source log IDs for T2 back-link")
      | _ =>
          if negb supportsTx
          then fail (ENew "metabolism: database does not support transactions (platform.TxDB)")
          else
            transact "metabolism: beginning transaction" "metabolism: committing T2-T3 link transaction"
              (let! _ := fence_check fenceJobID fenceToken in
               let! _ := insert_narrative ("metabolism: inserting T3 narrative " +:+ ns_ID n)
                           (narrative_row n (ns_ID n) None) in
               backlink_logs ("metabolism: updating T2 back-links for narrative " +:+ ns_ID n)
                 (ns_ID n) sourceLogIDs)
      end
  end.
End Stores.

(** ** Transactions are all or nothing *)
Section Transactions.
Context `{Env}.

Lemma query_cases {A} (f : Database -> Z -> result A) w w' r :
  query f w = (w', r) ->
  w' = bump_stmt w /\
  match r with
  | Ok a => f (w_db w) (w_clock w) = Ok a
  | Err e => (exists msg, db_fault (w_stmt w) = Some msg /\ e = ENew msg) \/
             (db_fault (w_stmt w) = None /\ f (w_db w) (w_clock w) = Err e)
  end.
Proof.
  unfold query, exec. destruct (db_fault (w_stmt w)) as [msg|]; [intros [= <- <-]; eauto|].
  destruct (f (w_db w) (w_clock w)) as [a|e]; intros [= <- <-]; by destruct w; eauto.
Qed.

Lemma transact_cases {A} bm cm (body : M World A) w w' r :
  transact bm cm body w = (w', r) ->
  match r with
  | Err _ => w_db w' = w_db w
  | Ok a => exists w2, body (bump_stmt w) = (w2, Ok a) /\ w_db w' = w_db w2
  end.
Proof.
  unfold transact, wrapM. intros Ht.
  destruct (query (fun _ _ => Ok tt) w) as [w1 [u|e]] eqn:E1;
    apply query_cases in E1 as [-> _]; simpl in Ht; [|by simplify_eq].
  destruct (body (bump_stmt w)) as [w2 [a|e]] eqn:E2; [|by simplify_eq].
  destruct (query (fun _ _ => Ok tt) w2) as [w3 [u'|e]] eqn:E3;
    apply query_cases in E3 as [-> _]; simpl in Ht; simplify_eq; simpl; [|done].
  by exists w2.
Qed.

(** A transaction's body fails with its first error. *)
Lemma transact_Err {A} bm cm (body : M World A) w w2 e :
  db_fault (w_stmt w) = None -> body (bump_stmt w) = (w2, Err e) ->
  exists w', transact bm cm body w = (w', Err e) /\ w_db w' = w_db w.
Proof.
  intros Hf Hb. unfold transact, wrapM, query, exec. rewrite Hf. simpl.
  replace (with_db (w_db w) (bump_stmt w)) with (bump_stmt w) by (by destruct w).
  rewrite Hb. by eexists.
Qed.

Lemma insert_narrative_cases msg row w w' r :
  insert_narrative msg row w = (w', r) ->
  match r with
  | Err _ => w_db w' = w_db w
  | Ok _ => w_db w' = set_narratives (fun l => l ++ [row (w_clock w)]) (w_db w) /\
            find_by nr_id (nr_id (row (w_clock w))) (db_narratives (w_db w)) = None /\
            w_clock w' = w_clock w
  end.
Proof.
  unfold insert_narrative, wrapM, exec.
  destruct (db_fault (w_stmt w)) as [m|]; [by intros [= <- <-]|].
  destruct (insert_pk nr_id (row (w_clock w)) (db_narratives (w_db w))) as [rows|e] eqn:E;
    simpl; intros [= <- <-]; [|done].
  pose proof (insert_pk_fresh _ _ _ _ E). by apply insert_pk_Ok in E as [-> _].
Qed.

Lemma backlink_logs_cases msg nid ids w w' r :
  backlink_logs msg nid ids w = (w', r) ->
  match r with
  | Err _ => w_db w' = w_db w
  | Ok _ => w_db w' = set_logs (updateb (log_in ids) (set_backlink nid)) (w_db w)
  end.
Proof.
  unfold backlink_logs, wrapM, exec.
  destruct (db_fault (w_stmt w)) as [m|]; by intros [= <- <-].
Qed.

(** What a committed consolidation did to the database: the narrative, the links, and
    nothing else (of the trust registry, which the screening before it writes, it says
    nothing). *)
Definition other_tables (d : Database) : Database :=
  but_trust (set_logs (fun _ => []) (set_narratives (fun _ => []) d)).
Record consolidated (n : NarrativeSummary) (nid : string) (row : NarrativeRow)
    (ids : list string) (d d' : Database) : Prop := {
  co_id : nr_id row = nid;
  co_content : nr_content row = ns_Content n /\ nr_session_id row = ns_SessionID n /\
               nr_content_sources row = ns_ContentSources n /\
               nr_aegis_meta row = ns_ExternalAnnotation n;
  co_fresh : find_by nr_id nid (db_narratives d) = None;
  co_narratives : db_narratives d' = db_narratives d ++ [row];
  co_logs : db_logs d' = updateb (log_in ids) (set_backlink nid) (db_logs d);
  co_jobs : db_jobs d' = db_jobs d;
  co_rest : other_tables d' = other_tables d }.

Lemma CommitNarrative_cases tx narrative ids w w' r :
  CommitNarrative tx narrative ids w = (w', r) ->
  match r with
  | Err _ => w_db w' = w_db w
  | Ok _ => exists n nid row, narrative = Some n /\ ids <> [] /\
              nr_embedding row = embeddingJSON (ns_Embedding n) /\
              consolidated n nid row ids (w_db w) (w_db w')
  end.
Proof.
  unfold CommitNarrative. destruct narrative as [n|]; [|by unfold fail; intros [= <- <-]].
  destruct ids as [|i ids]; [by unfold fail; intros [= <- <-]|].
  destruct tx; simpl negb; cbv iota; [|by unfold fail; intros [= <- <-]].
  intros Ht. apply transact_cases in Ht. destruct r as [u|e]; [|done].
  destruct Ht as (w2 & Hb & ->). unfold bind in Hb.
  destruct ((if str_empty (ns_ID n) then newID else ret (ns_ID n)) (bump_stmt w))
    as [wa [nid|e]] eqn:Ea; [|done].
  assert (Hwa : w_db wa = w_db w /\ w_clock wa = w_clock w).
  { destruct (str_empty (ns_ID n)); unfold newID, ret in Ea; by simplify_eq/=. }
  destruct Hwa as [Hda _].
  destruct (insert_narrative _ _ wa) as [wb [u1|e]] eqn:Eb; [|done].
  apply insert_narrative_cases in Eb as (Hdb & Hfr & _).
  apply backlink_logs_cases in Hb. destruct u.
  rewrite Hda in Hdb, Hfr. rewrite Hdb in Hb. simpl in Hfr.
  exists n, nid, (narrative_row n nid (embeddingJSON (ns_Embedding n)) (w_clock wa)).
  split; [done|]. split; [done|]. split; [done|]. rewrite Hb. by split.
Qed.

Lemma fence_check_cases jid tok w w' r :
  fence_check jid tok w = (w', r) ->
  w_db w' = w_db w /\
  (r = Ok tt -> jid <> "" -> tok <> "" ->
   exists x, find_by jr_id jid (db_jobs (w_db w)) = Some x /\ jr_claim_token x = Some tok).
Proof.
  unfold fence_check. destruct (str_empty jid || str_empty tok) eqn:E.
  - unfold ret. intros [= <- <-]. split; [done|]. intros _ Hj Ht.
    apply orb_true_iff in E. rewrite !str_empty_true in E. naive_solver.
  - unfold bind, wrapM. destruct (query _ w) as [w1 [o|e]] eqn:Eq;
      apply query_cases in Eq as [-> Hq]; simpl; [|intros [= <- <-]; by split].
    destruct (find_by jr_id jid (db_jobs (w_db w))) as [x|] eqn:Ex; [|done].
    injection Hq as Hq. unfold ret, fail. destruct o as [t|]; [destruct (String.eqb t tok) eqn:Et|];
      intros Hr; injection Hr as <- <-; (split; [done|]); try done.
    intros _ _ _. exists x. apply String.eqb_eq in Et as ->. done.
Qed.

Lemma AtomicT2T3Link_cases tx narrative ids jid tok w w' r :
  AtomicT2T3Link tx narrative ids jid tok w = (w', r) ->
  match r with
  | Err _ => w_db w' = w_db w
  | Ok _ => exists n row, narrative = Some n /\ ids <> [] /\ nr_embedding row = None /\
              (jid <> "" -> tok <> "" ->
               exists x, find_by jr_id jid (db_jobs (w_db w)) = Some x /\ jr_claim_token x = Some tok) /\
              consolidated n (ns_ID n) row ids (w_db w) (w_db w')
  end.
Proof.
  unfold AtomicT2T3Link. destruct narrative as [n|]; [|by unfold fail; intros [= <- <-]].
  destruct ids as [|i ids]; [by unfold fail; intros [= <- <-]|].
  destruct tx; simpl negb; cbv iota; [|by unfold fail; intros [= <- <-]].
  intros Ht. apply transact_cases in Ht. destruct r as [u|e]; [|done].
  destruct Ht as (w2 & Hb & ->). unfold bind in Hb.
  destruct (fence_check jid tok (bump_stmt w)) as [wa [u0|e]] eqn:Ea; [|done].
  apply fence_check_cases in Ea as [Hda Hfence]. simpl in Hda, Hfence. destruct u0.
  destruct (insert_narrative _ _ wa) as [wb [u1|e]] eqn:Eb; [|done].
  apply insert_narrative_cases in Eb as (Hdb & Hfr & _).
  apply backlink_logs_cases in Hb. rewrite Hda in Hdb, Hfr. rewrite Hdb in Hb. simpl in Hfr.
  exists n, (narrative_row n (ns_ID n) None (w_clock wa)).
  split; [done|]. split; [done|]. split; [done|]. split; [by apply Hfence|]. rewrite Hb. by split.
Qed.
End Transactions.

(** ** Properties *)

Section Properties.
Context `{Env}.

(** Every back-link names a stored narrative, and narrative IDs are unique. *)
Record provenance_ok (d : Database) : Prop := {
  po_narratives : NoDup (map nr_id (db_narratives d));
  po_logs : NoDup (map lr_id (db_logs d));
  po_links : forall r nid, r ∈ db_logs d -> lr_narrative_summary_id r = Some nid ->
    nid ∈ map nr_id (db_narratives d) }.

Lemma set_backlink_id nid r : lr_id (set_backlink nid r) = lr_id r.
Proof. done. Qed.

Lemma consolidated_provenance n nid row ids d d' :
  consolidated n nid row ids d d' -> provenance_ok d -> provenance_ok d'.
Proof.
  intros [Hid _ Hfr Hn Hl _ _] [Hnd Hlnd Hlk]. split.
  - rewrite Hn, map_app. apply NoDup_app. split; [done|]. split; [|apply NoDup_singleton].
    intros k Hk Hin. apply list_elem_of_singleton in Hin as ->.
    apply list_elem_of_fmap in Hk as (x & Hx & Hin). eapply find_by_None; [exact Hfr|exact Hin|].
    by rewrite <- Hid.
  - by rewrite Hl, map_updateb.
  - intros r k Hr Hk. rewrite Hn, map_app. rewrite Hl in Hr.
    apply elem_of_updateb in Hr as (x & Hx & ->). apply elem_of_app.
    destruct (log_in ids x); simpl in Hk; [|left; eauto].
    right. simplify_eq. apply list_elem_of_singleton. done.
Qed.

Lemma uncovered_consolidated n nid row ids d d' sid :
  consolidated n nid row ids d d' ->
  whereb (uncovered sid) (db_logs d')
  = whereb (fun r => uncovered sid r && negb (log_in ids r)) (db_logs d).
Proof.
  intros [_ _ _ _ Hl _]. rewrite Hl. generalize (db_logs d). intros l.
  unfold whereb, updateb. induction l as [|x l IH]; [done|]. simpl.
  destruct (log_in ids x) eqn:E; simpl.
  - unfold uncovered at 1. simpl. rewrite !andb_false_r. exact IH.
  - rewrite andb_true_r. destruct (uncovered sid x); [f_equal|]; exact IH.
Qed.

(** C2: [CommitNarrative] is all or nothing. Whatever statement the driver fails,
    an error leaves the whole database as it was; a success inserted exactly one
    narrative, carrying the summary's content, sources and external annotation
    under a previously unused ID, linked exactly the source logs to it, touched no
    job, and took exactly those logs out of every session's uncovered set. *)
Theorem CommitNarrative_atomic tx narrative ids w w' r :
  CommitNarrative tx narrative ids w = (w', r) ->
  match r with
  | Err _ => w_db w' = w_db w
  | Ok _ => exists n nid row,
      narrative = Some n /\ nr_embedding row = embeddingJSON (ns_Embedding n) /\
      consolidated n nid row ids (w_db w) (w_db w') /\
      forall sid, whereb (uncovered sid) (db_logs (w_db w'))
        = whereb (fun x => uncovered sid x && negb (log_in ids x)) (db_logs (w_db w))
  end.
Proof.
  intros E. apply CommitNarrative_cases in E. destruct r; [|done].
  destruct E as (n & nid & row & -> & _ & Hemb & Hc). exists n, nid, row.
  split; [done|]. split; [done|]. split; [done|]. intros sid. by eapply uncovered_consolidated.
Qed.

(** Crash recovery converges. After a successful commit of everything
    [UncoveredLogs] returned for a session, [UncoveredLogs] returns no log for it:
    the retry of a job whose worker died after the commit has nothing to do. *)
Theorem consolidation_retry_converges tx narrative sid w w1 logs w2 u :
  UncoveredLogs sid w = (w1, Ok logs) ->
  CommitNarrative tx narrative (map el_ID logs) w1 = (w2, Ok u) ->
  db_fault (w_stmt w2) = None ->
  exists w3, UncoveredLogs sid w2 = (w3, Ok []).
Proof.
  intros Hq Hc Hf. unfold UncoveredLogs, wrapM in Hq.
  destruct (query _ w) as [w1' [l|e]] eqn:Eq; [|done]. apply query_cases in Eq as [-> Heq].
  injection Hq as <- <-. injection Heq as <-.
  apply CommitNarrative_cases in Hc as (n & nid & row & -> & _ & _ & Hc).
  pose proof (uncovered_consolidated _ _ _ _ _ _ sid Hc) as Hu. simpl in Hu.
  unfold UncoveredLogs, wrapM, query, exec. rewrite Hf, Hu. eexists. f_equal.
  replace (whereb _ (db_logs (w_db w))) with ([] : list LogRow); [done|].
  symmetry. apply whereb_nil. intros x Hx. destruct (uncovered sid x) eqn:E; [|done].
  apply negb_false_iff, one_of_elem. rewrite map_map.
  apply list_elem_of_fmap. exists x. split; [done|].
  rewrite order_by_Permutation. by apply elem_of_whereb.
Qed.

(** The claim fence of [AtomicT2T3Link]. A link under a job's fence commits only
    while the job's row still carries the worker's token; a worker whose token was
    superseded gets an error wrapping [ErrClaimFenced] and writes nothing. *)
Theorem AtomicT2T3Link_fenced n ids jid tok w w' r :
  jid <> "" -> tok <> "" -> ids <> [] ->
  AtomicT2T3Link true (Some n) ids jid tok w = (w', r) ->
  (forall u, r = Ok u ->
     exists x, find_by jr_id jid (db_jobs (w_db w)) = Some x /\ jr_claim_token x = Some tok) /\
  (forall x, find_by jr_id jid (db_jobs (w_db w)) = Some x -> jr_claim_token x <> Some tok ->
     w_db w' = w_db w /\
     (db_fault (w_stmt w) = None -> db_fault (S (w_stmt w)) = None ->
      exists e, r = Err e /\ errors_Is e ErrClaimFenced = true)).
Proof.
  intros Hj Ht Hids E. split.
  - intros u ->. apply AtomicT2T3Link_cases in E as (_ & _ & _ & _ & _ & Hx & _). by apply Hx.
  - intros x Hx Htok. split.
    + apply AtomicT2T3Link_cases in E. destruct r; [|done].
      destruct E as (_ & _ & _ & _ & _ & Hy & _).
      destruct (Hy Hj Ht) as (y & Hy1 & Hy2). congruence.
    + intros Hf1 Hf2. unfold AtomicT2T3Link in E. destruct ids as [|i ids]; [done|]. simpl in E.
      assert (Hfc : fence_check jid tok (bump_stmt w)
              = (bump_stmt (bump_stmt w), Err (EWrap "metabolism" (ESentinel ErrClaimFenced)))).
      { unfold fence_check. destruct (str_empty jid || str_empty tok) eqn:Ee.
        { apply orb_true_iff in Ee. rewrite !str_empty_true in Ee. naive_solver. }
        unfold bind, wrapM, query, exec, with_db. simpl. rewrite Hf2, Hx. simpl.
        destruct (jr_claim_token x) as [t|]; [|done].
        destruct (String.eqb_spec t tok); [congruence|done]. }
      unfold transact at 1, wrapM, query, exec in E. rewrite Hf1 in E. simpl in E.
      replace (with_db (w_db w) (bump_stmt w)) with (bump_stmt w) in E by (by destruct w).
      unfold bind in E at 1. rewrite Hfc in E. simplify_eq. eexists. by split.
Qed.

(** One operation of the memory side of the store. *)
Inductive memory_step : World -> World -> Prop :=
  | ms_append e w w' r : AppendExperiential e w = (w', r) -> memory_step w w'
  | ms_commit tx n ids w w' r : CommitNarrative tx n ids w = (w', r) -> memory_step w w'
  | ms_link tx n ids jid tok w w' r :
      AtomicT2T3Link tx n ids jid tok w = (w', r) -> memory_step w w'
  | ms_jobs ev w w' : store_step w ev w' -> db_logs (w_db w') = db_logs (w_db w) ->
      db_narratives (w_db w') = db_narratives (w_db w) -> memory_step w w'.

Lemma AppendExperiential_cases e w w' r :
  AppendExperiential e w = (w', r) ->
  w_db w' = w_db w \/
  exists row rows, insert_pk lr_id row (db_logs (w_db w)) = Ok rows /\
    lr_narrative_summary_id row = None /\ w_db w' = set_logs (fun _ => rows) (w_db w).
Proof.
  unfold AppendExperiential, exec. destruct (db_fault (w_stmt w)); [intros [= <- <-]; by left|].
  destruct (insert_pk _ _ _) as [rows|x] eqn:E; simpl; intros [= <- <-]; [|by left].
  right. eexists _, rows. split; [exact E|]. by split.
Qed.

(** Provenance integrity. Along every sequence of appends, commits, links and
    job-store operations, each T2 log's back-link names an existing T3 narrative and
    the IDs of logs and of narratives stay unique. *)
Theorem provenance_invariant w w' :
  rtc memory_step w w' -> provenance_ok (w_db w) -> provenance_ok (w_db w').
Proof.
  intros Hr. induction Hr as [w|w w1 w2 Hs Hr IH]; [done|]. intros Hok. apply IH.
  destruct Hs as [e w w' r E|tx n ids w w' r E|tx n ids jid tok w w' r E|ev w w' _ El En].
  - apply AppendExperiential_cases in E as [->|(row & rows & Hi & Hnone & ->)]; [done|].
    destruct Hok as [Hnd Hlnd Hlk]. apply insert_pk_Ok in Hi as [-> Hi].
    split; [done|by apply Hi|]. intros x nid Hx Hn. simpl in Hx.
    apply elem_of_app in Hx as [Hx|Hx]; [by eapply Hlk|].
    apply list_elem_of_singleton in Hx as ->. congruence.
  - apply CommitNarrative_cases in E. destruct r; [|by rewrite E].
    destruct E as (? & ? & ? & _ & _ & _ & Hc). by eapply consolidated_provenance.
  - apply AtomicT2T3Link_cases in E. destruct r; [|by rewrite E].
    destruct E as (? & ? & _ & _ & _ & _ & Hc). by eapply consolidated_provenance.
  - destruct Hok as [Hnd Hlnd Hlk]. split; by rewrite ?El, ?En.
Qed.
End Properties.

(** ** Witnesses *)

Definition demo_log (id : string) : ExperientialLog :=
  {| el_ID := id; el_SessionID := "sess-1"; el_Content := "hello"; el_ContentSource := "self";
     el_CreatedAt := 0; el_AegisAnnotation := None |}.
Definition stored_log (id : string) : ExperientialLog :=
  {| el_ID := id; el_SessionID := "sess-1"; el_Content := "hello"; el_ContentSource := "self";
     el_CreatedAt := 1000 * second; el_AegisAnnotation := None |}.
Definition demo_narrative : NarrativeSummary :=
  {| ns_ID := ""; ns_SessionID := "sess-1"; ns_Content := "we talked"; ns_Belief := None;
     ns_Embedding := []; ns_ContentSources := ["self"]; ns_ExternalAnnotation := None |}.
Definition logs_world : World :=
  (@AppendExperiential demo_env (demo_log "b")
     (@AppendExperiential demo_env (demo_log "a") demo_w1).1).1.
Definition demo_commit := @CommitNarrative demo_env true (Some demo_narrative) ["a"; "b"] (bump_stmt logs_world).

Lemma CommitNarrative_atomic_witness :
  exists row, db_narratives (w_db demo_commit.1) = [row] /\ nr_content row = "we talked".
Proof.
  assert (demo_commit = (demo_commit.1, Ok tt)) as E by (vm_compute; reflexivity).
  destruct (@CommitNarrative_atomic demo_env _ _ _ _ _ _ E) as (n & nid & row & Hn & _ & Hc & _).
  exists row. destruct Hc as [_ [Hc _] _ Hr _ _]. rewrite Hr. injection Hn as <-.
  split; [reflexivity|exact Hc].
Defined.

Lemma consolidation_retry_converges_witness :
  exists w3, @UncoveredLogs demo_env "sess-1" demo_commit.1 = (w3, Ok []).
Proof.
  refine (@consolidation_retry_converges demo_env true (Some demo_narrative) "sess-1" logs_world
            (bump_stmt logs_world) [stored_log "a"; stored_log "b"] demo_commit.1 tt _ _ eq_refl);
    vm_compute; reflexivity.
Defined.

Lemma AtomicT2T3Link_fenced_witness :
  exists e, (@AtomicT2T3Link demo_env true (Some demo_narrative) ["a"] demo_id "stale" logs_world).2
            = Err e /\ errors_Is e ErrClaimFenced = true.
Proof.
  destruct (@AtomicT2T3Link demo_env true (Some demo_narrative) ["a"] demo_id "stale" logs_world)
    as [w' r] eqn:E.
  refine (proj2 (proj2 (@AtomicT2T3Link_fenced demo_env demo_narrative ["a"] demo_id "stale"
            logs_world w' r _ _ _ E) (new_job demo_id "sess-1" "standard" 1000) _ _) eq_refl eq_refl);
    try discriminate; reflexivity.
Defined.

Lemma provenance_invariant_witness : provenance_ok (w_db logs_world).
Proof.
  apply (@provenance_invariant demo_env demo_world).
  - eapply rtc_l; [eapply (@ms_jobs demo_env EvOther _ demo_w1);
                     [eapply (@step_commit demo_env demo_world "sess-1" "standard"); reflexivity
                     |reflexivity|reflexivity]|].
    eapply rtc_l; [eapply (@ms_append demo_env (demo_log "a")); reflexivity|].
    eapply rtc_once. eapply (@ms_append demo_env (demo_log "b")). reflexivity.
  - split; [constructor|constructor|]. intros r nid Hr. apply elem_of_nil in Hr. destruct Hr.
Defined.
