(* ===== verification/Memory.v ===== *)
(** * Memory graph and belief decay ([internal/memory/edges.go], [belief.go])

    Validated edges, distrust propagation, inference distance and the staleness pass,
    over the interfaces [EdgeStore] and [BeliefStore]; [MemoryLaws] is what they
    promise, on a graph of links, the records' review states and the rest of the store. Both graph searches
    are queue loops with fuel; the theorems give a fuel that is always enough. *)

From S2P Require Import Prelude Types.

(** ** Edges ([edges.go]) *)

Definition EdgeDerivedFrom : string := "derived_from".
Definition EdgeContradicts : string := "contradicts".
Definition EdgeSupersedes : string := "supersedes".
Definition EdgeVerifies : string := "verifies".
Definition EdgeAuthorSystem : string := "system".
Definition EdgeAuthorAgent : string := "agent".
Definition validEdgeTypes : list string :=
  [EdgeDerivedFrom; EdgeContradicts; EdgeSupersedes; EdgeVerifies].
Definition validEdgeAuthors : list string := [EdgeAuthorSystem; EdgeAuthorAgent].

Record BeliefRecord := {
  rec_ID : string; rec_Belief : option BeliefMeta; rec_TableName : string }.

(** [pkg.EdgeStore] and [pkg.BeliefStore] *)
Class EdgeStore (W : Type) := {
  store_CreateEdge : string -> string -> Z -> Z -> string -> string -> M W unit;
  store_GetEdges : string -> string -> M W (list MemoryEdge);
  FetchDownstreamEdges : string -> M W (list EdgeNode) }.
Class BeliefStore (W : Type) := {
  LoadBeliefRecords : M W (list BeliefRecord);
  UpdateVerificationState : string -> string -> string -> M W unit;
  QueryEdgesForBFS : string -> M W (list EdgeNode);
  MarkNeedsReview : string -> Z -> M W unit }.

Definition tier_in_range (tier : Z) : bool := negb ((tier <? 2) || (5 <? tier)).

(** Adds the nodes not visited yet to the visited set and to the end of the queue. *)
Definition enqueue (nodes : list EdgeNode) (vq : gset string * list EdgeNode)
    : gset string * list EdgeNode :=
  fold_left (fun '(visited, queue) n =>
    if bool_decide (edge_ID n ∈ visited) then (visited, queue)
    else ({[edge_ID n]} ∪ visited, queue ++ [n])) nodes vq.

Section Edges.
Context {W : Type} `{EdgeStore W} `{BeliefStore W}.

Definition CreateEdge (fromID toID : string) (fromTier toTier : Z) (edgeType author : string)
    : M W unit :=
  if negb (one_of edgeType validEdgeTypes)
  then fail (ENew ("edges: invalid edge_type " +:+ fmt_q edgeType))
  else if negb (one_of author validEdgeAuthors)
  then fail (ENew ("edges: invalid author " +:+ fmt_q author))
  else if negb (tier_in_range fromTier)
  then fail (ENew ("edges: from_tier " +:+ fmt_d fromTier +:+ " out of range [2,5]"))
  else if negb (tier_in_range toTier)
  then fail (ENew ("edges: to_tier " +:+ fmt_d toTier +:+ " out of range [2,5]"))
  else wrapM ("edges: inserting edge from=" +:+ fromID +:+ " to=" +:+ toID +:+ " type=" +:+ edgeType)
         (store_CreateEdge fromID toID fromTier toTier edgeType author).

Definition GetEdges (recordID direction : string) : M W (list MemoryEdge) :=
  if negb (one_of direction ["from"; "to"])
  then fail (ENew ("edges: direction must be 'from' or 'to', got " +:+ fmt_q direction))
  else wrapM ("edges: querying edges for " +:+ recordID +:+ " (direction=" +:+ direction +:+ ")")
         (store_GetEdges recordID direction).

(** The loop of [PropagateDistrust]: the count so far and the error that ended it.
    [None]: out of fuel. *)
Fixpoint distrust_loop (fuel : nat) (visited : gset string) (queue : list EdgeNode) (affected : Z)
    : M W (option (Z * option error)) :=
  match queue with
  | [] => ret (Some (affected, None))
  | cur :: rest =>
      match fuel with
      | O => ret None
      | S fuel =>
          try! marked := MarkNeedsReview (edge_ID cur) (edge_Tier cur) in
          match marked with
          | Err _ => distrust_loop fuel visited rest affected
          | Ok _ =>
              let affected := affected + 1 in
              try! downstream := FetchDownstreamEdges (edge_ID cur) in
              match downstream with
              | Err e => ret (Some (affected, Some e))
              | Ok nodes =>
                  let '(visited', queue') := enqueue nodes (visited, rest) in
                  distrust_loop fuel visited' queue' affected
              end
          end
      end
  end.

Definition PropagateDistrust (fuel : nat) (sourceID : string) : M W (option (Z * option error)) :=
  try! seeds := FetchDownstreamEdges sourceID in
  match seeds with
  | Err e => ret (Some (0, Some e))
  | Ok nodes =>
      let '(visited, queue) := enqueue nodes ({[sourceID]}, []) in
      distrust_loop fuel visited queue 0
  end.

(** ** Inference distance ([belief.go]) *)

(** One node's edges: [None] when one of them reaches a T2 entry. *)
Fixpoint scan_nodes (nodes : list EdgeNode) (visited : gset string) (next : list string)
    : option (gset string * list string) :=
  match nodes with
  | [] => Some (visited, next)
  | n :: rest =>
      if edge_Tier n =? 2 then None
      else if bool_decide (edge_ID n ∈ visited) then scan_nodes rest visited next
      else scan_nodes rest ({[edge_ID n]} ∪ visited) (next ++ [edge_ID n])
  end.

Fixpoint scan_level (queue : list string) (visited : gset string) (next : list string)
    : M W (option (gset string * list string)) :=
  match queue with
  | [] => ret (Some (visited, next))
  | i :: rest =>
      let! nodes := wrapM ("belief: querying edges for " +:+ i) (QueryEdgesForBFS i) in
      match scan_nodes nodes visited next with
      | None => ret None
      | Some (visited', next') => scan_level rest visited' next'
      end
  end.

(** [None]: out of fuel. *)
Fixpoint distance_loop (fuel : nat) (visited : gset string) (queue : list string) (depth : Z)
    : M W (option Z) :=
  match queue with
  | [] => ret (Some 1)
  | _ =>
      match fuel with
      | O => ret None
      | S fuel =>
          let! level := scan_level queue visited [] in
          match level with
          | None => ret (Some (depth + 1))
          | Some (visited', next) => distance_loop fuel visited' next (depth + 1)
          end
      end
  end.

Definition ComputeInferenceDistance (fuel : nat) (recordID : string) : M W (option Z) :=
  distance_loop fuel {[recordID]} [recordID] 0.
End Edges.

(** ** Confidence and the staleness pass ([pkg/types.go], [retrieve.go], [belief.go]) *)

Section Decay.
(** [math.Exp] and [math.Pow]. *)
Variable math_Exp : float64 -> float64.
Variable math_Pow : float64 -> float64 -> float64.

(** [d.Hours()]: whole hours plus the fraction of the rest, as the library computes it. *)
Definition Hours (d : Z) : float64 :=
  fadd (f_of_Z (Z.quot d hour)) (fdiv (f_of_Z (Z.rem d hour)) (f_of_Z hour)).

Definition Confidence (m : BeliefMeta) (now : Z) (decayRate inferenceDecayBase : float64) : float64 :=
  let effectiveRate :=
    fdiv decayRate (math_Pow inferenceDecayBase (f_of_Z (bm_InferenceDistance m))) in
  let days := fdiv (Hours (time_Sub now (bm_AnchorAt m))) (f_of_Z 24) in
  let days := if fltb days f_zero then f_zero else days in
  fmul (bm_BaseConfidence m) (math_Exp (fmul (SFopp effectiveRate) days)).

Record DecayConfig := {
  dc_DecayRate : float64; dc_InferenceDecayBase : float64; dc_StaleThreshold : float64 }.
Definition DefaultDecayConfig : DecayConfig :=
  {| dc_DecayRate := f_lit 5 100; dc_InferenceDecayBase := f_lit 90 100;
     dc_StaleThreshold := f_lit 20 100 |}.

(** Whether the pass flags a record. *)
Definition goes_stale (now : Z) (cfg : DecayConfig) (rec : BeliefRecord) : bool :=
  match rec_Belief rec with
  | None => false
  | Some b =>
      negb (String.eqb (bm_VerificationState b) "stale") &&
      fltb (Confidence b now (dc_DecayRate cfg) (dc_InferenceDecayBase cfg)) (dc_StaleThreshold cfg)
  end.

(** (flagged, error) *)
Fixpoint FlagStaleBeliefs {W} (updateFn : string -> string -> string -> M W unit)
    (now : Z) (cfg : DecayConfig) (records : list BeliefRecord) (flagged : Z)
    : M W (Z * option error) :=
  match records with
  | [] => ret (flagged, None)
  | rec :: rest =>
      if goes_stale now cfg rec then
        try! r := updateFn (rec_TableName rec) (rec_ID rec) "stale" in
        match r with
        | Err e => ret (flagged, Some e)
        | Ok _ => FlagStaleBeliefs updateFn now cfg rest (flagged + 1)
        end
      else FlagStaleBeliefs updateFn now cfg rest flagged
  end.

Record DecayReport := {
  dr_TotalChecked : Z; dr_NewlyStale : Z; dr_ByInferenceDistance : gmap Z Z; dr_ReVerified : Z }.

(** The breakdown by inference distance ([-1] when the search fails). *)
Fixpoint distance_breakdown {W} `{BeliefStore W} (fuel : nat) (now : Z) (cfg : DecayConfig)
    (records : list BeliefRecord) (acc : gmap Z Z) : M W (gmap Z Z) :=
  match records with
  | [] => ret acc
  | rec :: rest =>
      match rec_Belief rec with
      | None => distance_breakdown fuel now cfg rest acc
      | Some b =>
          if String.eqb (bm_VerificationState b) "stale" ||
             fgeb (Confidence b now (dc_DecayRate cfg) (dc_InferenceDecayBase cfg))
               (dc_StaleThreshold cfg)
          then distance_breakdown fuel now cfg rest acc
          else
            try! r := ComputeInferenceDistance fuel (rec_ID rec) in
            let dist := match r with Ok (Some d) => d | _ => -1 end in
            distance_breakdown fuel now cfg rest (<[dist := default 0 (acc !! dist) + 1]> acc)
      end
  end.

Definition RunEndOfSessionDecay {W} `{BeliefStore W} (fuel : nat) (now : Z) (cfg : DecayConfig)
    : M W (DecayReport * option error) :=
  let! records := wrapM "belief: loading records for decay pass" LoadBeliefRecords in
  let report n byDist := {| dr_TotalChecked := Z.of_nat (length records); dr_NewlyStale := n;
                            dr_ByInferenceDistance := byDist; dr_ReVerified := 0 |} in
  let! flagged := FlagStaleBeliefs UpdateVerificationState now cfg records 0 in
  match flagged with
  | (_, Some e) => ret (report 0 ∅, Some (EWrap "belief: decay pass failed" e))
  | (count, None) =>
      let! byDist := distance_breakdown fuel now cfg records ∅ in
      ret (report count byDist, None)
  end.
End Decay.

(** ** What the stores promise *)

#[global] Instance EdgeNode_eq_dec : EqDecision EdgeNode.
Proof. solve_decision. Defined.

(** The [derived_from] links (from, to), the review state of a record that carries
    one, and the belief records not yet stale. *)
Record MemoryView := {
  mv_links : list (EdgeNode * EdgeNode);
  mv_state : EdgeNode -> option string;
  mv_beliefs : list BeliefRecord }.

Definition dependents (L : list (EdgeNode * EdgeNode)) (i : string) : list EdgeNode :=
  map fst (whereb (fun l => String.eqb (edge_ID l.2) i) L).
Definition sources (L : list (EdgeNode * EdgeNode)) (i : string) : list EdgeNode :=
  map snd (whereb (fun l => String.eqb (edge_ID l.1) i) L).
Definition is_record (table i : string) (rec : BeliefRecord) : bool :=
  String.eqb (rec_TableName rec) table && String.eqb (rec_ID rec) i.

(** [memory_rest] is everything a store keeps besides the review states: links, contents,
    beliefs and whatever other tables there are. *)
Class MemoryLaws (W : Type) `{EdgeStore W} `{BeliefStore W} := {
  memory_view : W -> MemoryView;
  Rest : Type; memory_rest : W -> Rest;
  FetchDownstreamEdges_rest i w : memory_rest (FetchDownstreamEdges i w).1 = memory_rest w;
  MarkNeedsReview_rest i t w : memory_rest (MarkNeedsReview i t w).1 = memory_rest w;
  FetchDownstreamEdges_law i w w' r : FetchDownstreamEdges i w = (w', r) ->
    memory_view w' = memory_view w /\
    match r with Ok l => l = dependents (mv_links (memory_view w)) i | Err _ => True end;
  QueryEdgesForBFS_law i w w' r : QueryEdgesForBFS i w = (w', r) ->
    memory_view w' = memory_view w /\
    match r with Ok l => l = sources (mv_links (memory_view w)) i | Err _ => True end;
  MarkNeedsReview_law n w w' r : MarkNeedsReview (edge_ID n) (edge_Tier n) w = (w', r) ->
    match r with
    | Ok _ => mv_links (memory_view w') = mv_links (memory_view w) /\
        forall m, mv_state (memory_view w') m =
          if bool_decide (m = n) then (fun _ => "needs_review") <$> mv_state (memory_view w) m
          else mv_state (memory_view w) m
    | Err _ => memory_view w' = memory_view w
    end;
  LoadBeliefRecords_law w w' r : LoadBeliefRecords w = (w', r) ->
    memory_view w' = memory_view w /\
    match r with Ok l => l = mv_beliefs (memory_view w) | Err _ => True end;
  UpdateVerificationState_law table i w w' r :
    UpdateVerificationState table i "stale" w = (w', r) ->
    match r with
    | Ok _ => mv_links (memory_view w') = mv_links (memory_view w) /\
        mv_beliefs (memory_view w') =
          whereb (fun rec => negb (is_record table i rec)) (mv_beliefs (memory_view w))
    | Err _ => memory_view w' = memory_view w
    end }.

(** ** Distrust propagation *)

(** [x] is derived, in one or more steps, from [i]. *)
Inductive derives (L : list (EdgeNode * EdgeNode)) (i : string) : string -> Prop :=
  | derives_one f t : (f, t) ∈ L -> edge_ID t = i -> derives L i (edge_ID f)
  | derives_more x f t : derives L i x -> (f, t) ∈ L -> edge_ID t = x -> derives L i (edge_ID f).

Definition ids (l : list EdgeNode) : list string := map edge_ID l.
#[global] Instance ids_Permutation : Proper (Permutation ==> Permutation) ids.
Proof. intros l l' Hl. unfold ids. by apply Permutation_map. Qed.
Lemma ids_app l1 l2 : ids (l1 ++ l2) = ids l1 ++ ids l2.
Proof. apply map_app. Qed.
Lemma elem_of_ids i l : i ∈ ids l <-> exists n, n ∈ l /\ edge_ID n = i.
Proof. apply elem_of_map. Qed.

Lemma elem_of_dependents L i n : n ∈ dependents L i <-> exists t, (n, t) ∈ L /\ edge_ID t = i.
Proof.
  unfold dependents. rewrite elem_of_map. split.
  - intros ([f t] & Hx & <-). apply elem_of_whereb in Hx as [Hx Hi]. bools. eauto.
  - intros (t & Hx & <-). exists (n, t). split; [|done].
    apply elem_of_whereb. split; [done|]. apply String.eqb_refl.
Qed.

Lemma elem_of_sources L i n : n ∈ sources L i <-> exists f, (f, n) ∈ L /\ edge_ID f = i.
Proof.
  unfold sources. rewrite elem_of_map. split.
  - intros ([f t] & Hx & <-). apply elem_of_whereb in Hx as [Hx Hi]. bools. eauto.
  - intros (f & Hx & <-). exists (f, n). split; [|done].
    apply elem_of_whereb. split; [done|]. apply String.eqb_refl.
Qed.

(** [enqueue] appends the first occurrence of every ID it has not seen. *)
Lemma enqueue_spec nodes : forall v q v' q',
  enqueue nodes (v, q) = (v', q') ->
  exists new, q' = q ++ new /\ new ⊆ nodes /\ NoDup (ids new) /\
    (forall i, i ∈ v' <-> i ∈ v \/ i ∈ ids new) /\
    (forall i, i ∈ ids new -> i ∉ v) /\ (forall n, n ∈ nodes -> edge_ID n ∈ v').
Proof.
  induction nodes as [|n nodes IH]; intros v q v' q'; simpl.
  - intros [= <- <-]. exists []. rewrite app_nil_r. split_and!; [done|done|by constructor|set_solver..].
  - destruct (bool_decide (edge_ID n ∈ v)) eqn:Hn; bools.
    + intros (new & -> & Hs & Hd & Hv & Hf & Hc)%IH. exists new.
      split_and!; [done|set_solver|done|done|done|]. intros m [->|Hm]%elem_of_cons; [|by apply Hc].
      apply Hv. by left.
    + intros (new & -> & Hs & Hd & Hv & Hf & Hc)%IH. exists (n :: new).
      assert (edge_ID n ∉ ids new) by (intros Hin; apply Hf in Hin; set_solver).
      split_and!.
      * by rewrite <- app_assoc.
      * set_solver.
      * simpl. by constructor.
      * intros i. rewrite Hv. simpl. set_solver.
      * intros i [->|Hi]%elem_of_cons; [done|]. apply Hf in Hi. set_solver.
      * intros m [->|Hm]%elem_of_cons; [|by apply Hc]. apply Hv. set_solver.
Qed.

Definition after_marks (marked : list EdgeNode) (st : EdgeNode -> option string) (n : EdgeNode)
    : option string :=
  if bool_decide (n ∈ marked) then (fun _ => "needs_review") <$> st n else st n.

(** The search's bookkeeping: what is waiting, marked and failed is exactly what was
    visited, each ID once, all of it derived from the source. *)
Record distrust_inv (L : list (EdgeNode * EdgeNode)) (src : string) (visited : gset string)
    (queue marked failed : list EdgeNode) : Prop := {
  di_visited : forall i, i ∈ visited <-> i = src \/ i ∈ ids (queue ++ marked ++ failed);
  di_nodup : NoDup (src :: ids (queue ++ marked ++ failed));
  di_derived : forall i, i ∈ ids (queue ++ marked ++ failed) -> derives L src i;
  di_nodes : queue ++ marked ++ failed ⊆ map fst L }.

Definition expanded (L : list (EdgeNode * EdgeNode)) (src : string) (visited : gset string)
    (marked : list EdgeNode) : Prop :=
  forall f t, (f, t) ∈ L -> edge_ID t = src \/ edge_ID t ∈ ids marked -> edge_ID f ∈ visited.

Lemma distrust_inv_permute L src v q m f q' m' f' :
  q ++ m ++ f ≡ₚ q' ++ m' ++ f' -> distrust_inv L src v q m f -> distrust_inv L src v q' m' f'.
Proof.
  intros Hp [H1 H2 H3 H4]. constructor.
  - intros i. by rewrite H1, Hp.
  - by rewrite <- Hp.
  - intros i Hi. apply H3. by rewrite Hp.
  - by rewrite <- Hp.
Qed.

Lemma distrust_inv_length L src v q m f :
  distrust_inv L src v q m f -> (length q + length m + length f <= length L)%nat.
Proof.
  intros [_ Hd _ Hn]. apply NoDup_cons in Hd as [_ Hd].
  assert (Hs : ids (q ++ m ++ f) ⊆ ids (map fst L)).
  { intros i (n & Hin & <-)%elem_of_ids. apply elem_of_ids. exists n. split; [by apply Hn|done]. }
  pose proof (submseteq_length _ _ (NoDup_submseteq _ _ Hd Hs)) as Hl.
  unfold ids in Hl. rewrite !length_map, !length_app in Hl. lia.
Qed.

(** Taking in the dependents of [x], the source or a marked record. *)
Lemma distrust_inv_enqueue L src v q m f x v' q' :
  distrust_inv L src v q m f -> x = src \/ derives L src x ->
  enqueue (dependents L x) (v, q) = (v', q') ->
  distrust_inv L src v' q' m f /\ v ⊆ v' /\ forall n t, (n, t) ∈ L -> edge_ID t = x -> edge_ID n ∈ v'.
Proof.
  intros Hi Hx E. apply enqueue_spec in E as (new & -> & Hs & Hd & Hv & Hf & Hc).
  destruct Hi as [H1 H2 H3 H4]. split_and!.
  - eapply distrust_inv_permute with (q := new) (m := q ++ m) (f := f).
    { by rewrite <- !app_assoc, (Permutation_app_swap_app new q). }
    constructor; rewrite <- (app_assoc q), ?(ids_app new).
    + intros i. rewrite Hv, H1, elem_of_app. tauto.
    + apply NoDup_cons in H2 as [H2s H2]. apply NoDup_cons. split.
      * intros [Hin|Hin]%elem_of_app; [|done]. apply Hf in Hin. apply Hin, H1. by left.
      * apply NoDup_app. split_and!; [done| |done]. intros i Hin Hq. apply Hf in Hin.
        apply Hin, H1. by right.
    + intros i [Hin|Hin]%elem_of_app; [|by apply H3].
      apply elem_of_ids in Hin as (n & Hin & <-). apply Hs, elem_of_dependents in Hin as (t & Ht & Hx').
      destruct Hx as [->|Hx]; [by eapply derives_one|by eapply derives_more].
    + intros n [Hn|Hn]%elem_of_app; [|by apply H4].
      apply Hs, elem_of_dependents in Hn as (t & Ht & _). apply elem_of_map. by exists (n, t).
  - intros i Hin. apply Hv. by left.
  - intros n t Hnt Ht. apply Hc, elem_of_dependents. eauto.
Qed.

Section Distrust.
Context {W : Type} `{EdgeStore W} `{BeliefStore W} `{!MemoryLaws W}.

Notation L w := (mv_links (memory_view w)).

(** What a propagation that ended in world [w'] did: [marked] in order, [failed] the
    records whose marking failed. *)
Record distrusted (w w' : W) (src : string) (marked failed : list EdgeNode) (oe : option error)
    : Prop := {
  dd_links : L w' = L w;
  dd_rest : memory_rest w' = memory_rest w;
  dd_state : forall n, mv_state (memory_view w') n = after_marks marked (mv_state (memory_view w)) n;
  dd_nodup : NoDup (src :: ids (marked ++ failed));
  dd_derived : forall i, i ∈ ids (marked ++ failed) -> derives (L w) src i;
  dd_closed : oe = None -> forall f t, (f, t) ∈ L w ->
    edge_ID t = src \/ edge_ID t ∈ ids marked ->
    edge_ID f = src \/ edge_ID f ∈ ids (marked ++ failed) }.

Lemma distrusted_intro w w' src visited queue marked failed oe :
  L w' = L w -> memory_rest w' = memory_rest w ->
  (forall n, mv_state (memory_view w') n = after_marks marked (mv_state (memory_view w)) n) ->
  distrust_inv (L w) src visited queue marked failed ->
  (oe = None -> queue = [] /\ expanded (L w) src visited marked) ->
  distrusted w w' src marked failed oe.
Proof.
  intros Hl Hr Hst [H1 H2 H3 H4] Hq. constructor; [done|done|done| | |].
  - rewrite ids_app in H2. eapply sublist_NoDup; [exact H2|]. apply sublist_skip, sublist_inserts_l. done.
  - intros i Hi. apply H3. rewrite ids_app. set_solver.
  - intros Hn f t Hft Ht. destruct (Hq Hn) as [-> He]. by apply H1, (He f t).
Qed.

Lemma perm_third {A} (x : A) l1 l2 l3 : (x :: l1) ++ l2 ++ l3 ≡ₚ l1 ++ l2 ++ x :: l3.
Proof. simpl. by rewrite (app_assoc l1 l2), Permutation_middle, <- app_assoc. Qed.

Lemma after_marks_snoc marked n st st' m :
  n ∉ marked ->
  (forall k, st k = after_marks marked st' k) ->
  (if bool_decide (m = n) then (fun _ => "needs_review") <$> st m else st m)
  = after_marks (marked ++ [n]) st' m.
Proof.
  intros Hn Hst. rewrite Hst. unfold after_marks.
  case_bool_decide as Hm; repeat case_bool_decide; subst; try done; set_solver.
Qed.

(** No driver failure, and every linked record can be marked. *)
Definition healthy (g : list (EdgeNode * EdgeNode)) : Prop :=
  (forall w i, is_ok (FetchDownstreamEdges i w).2 = true) /\
  (forall w n, n ∈ map fst g -> is_ok (MarkNeedsReview (edge_ID n) (edge_Tier n) w).2 = true).

Lemma distrust_loop_spec w0 src fuel : forall visited queue marked failed w,
  L w = L w0 -> memory_rest w = memory_rest w0 ->
  (forall n, mv_state (memory_view w) n = after_marks marked (mv_state (memory_view w0)) n) ->
  distrust_inv (L w0) src visited queue marked failed ->
  expanded (L w0) src visited marked ->
  (length (L w0) <= fuel + length marked + length failed)%nat ->
  exists w' marked' failed' oe,
    distrust_loop fuel visited queue (Z.of_nat (length marked)) w
      = (w', Ok (Some (Z.of_nat (length marked'), oe))) /\
    distrusted w0 w' src marked' failed' oe /\ (healthy (L w0) -> oe = None /\ failed' = failed).
Proof.
  induction fuel as [|fuel IH]; intros visited [|cur rest] marked failed w Hl Hr Hst Hi He Hf;
    try (exists w, marked, failed, None; split_and!; [done|by eapply distrusted_intro|done]).
  - apply distrust_inv_length in Hi. simpl in Hi. lia.
  - assert (Hnew : edge_ID cur ∉ ids marked).
    { pose proof (di_nodup _ _ _ _ _ _ Hi) as Hd. simpl in Hd.
      rewrite !NoDup_cons, !ids_app in Hd. set_solver. }
    assert (Hder : derives (L w0) src (edge_ID cur)).
    { apply (di_derived _ _ _ _ _ _ Hi). simpl. left. }
    simpl. unfold attempt at 1.
    pose proof (MarkNeedsReview_rest (edge_ID cur) (edge_Tier cur) w) as Hr1.
    destruct (MarkNeedsReview (edge_ID cur) (edge_Tier cur) w) as [w1 [u|e]] eqn:E1'; simpl in Hr1;
      pose proof E1' as E1; apply MarkNeedsReview_law in E1.
    + destruct E1 as [El1 Es1]. unfold attempt at 1.
      pose proof (FetchDownstreamEdges_rest (edge_ID cur) w1) as Hr2.
      destruct (FetchDownstreamEdges (edge_ID cur) w1) as [w2 [nodes|e]] eqn:E2'; simpl in Hr2;
        pose proof E2' as E2; apply FetchDownstreamEdges_law in E2 as [Ev2 E2].
      * subst nodes. rewrite El1, Hl in *.
        destruct (enqueue (dependents (L w0) (edge_ID cur)) (visited, rest)) as [v' q'] eqn:E3.
        assert (Hi' : distrust_inv (L w0) src visited rest (marked ++ [cur]) failed).
        { eapply distrust_inv_permute; [|exact Hi]. rewrite <- app_assoc. apply perm_third. }
        destruct (distrust_inv_enqueue _ _ _ _ _ _ _ _ _ Hi' (or_intror Hder) E3) as (Hi2 & Hsub & Hnew2).
        replace (Z.of_nat (length marked) + 1) with (Z.of_nat (length (marked ++ [cur])))
          by (rewrite length_app; simpl; lia).
        eapply IH; [by rewrite Ev2, El1|congruence| |exact Hi2| |rewrite length_app; simpl; lia].
        -- intros n. rewrite Ev2, Es1. apply after_marks_snoc; [|done].
           intros Hin. apply Hnew, elem_of_ids. eauto.
        -- intros f t Hft [Ht|Ht]; [apply Hsub, (He f t); [done|by left]|].
           rewrite ids_app in Ht. apply elem_of_app in Ht as [Ht|Ht].
           ++ apply Hsub, (He f t); [done|by right].
           ++ simpl in Ht. apply list_elem_of_singleton in Ht. by apply (Hnew2 f t).
      * exists w2, (marked ++ [cur]), failed, (Some e). split_and!;
          [| |intros [Hh _]; specialize (Hh w1 (edge_ID cur)); by rewrite E2' in Hh].
        { unfold ret. rewrite length_app. simpl. do 4 f_equal. lia. }
        eapply distrusted_intro with (visited := visited) (queue := rest);
          [by rewrite Ev2, El1|congruence| | |done].
        -- intros n. rewrite Ev2, Es1. apply after_marks_snoc; [|done].
           intros Hin. apply Hnew, elem_of_ids. eauto.
        -- eapply distrust_inv_permute; [|exact Hi]. rewrite <- app_assoc. apply perm_third.
    + edestruct (IH visited rest marked (cur :: failed)) as (w' & m' & f' & oe & E & Hd & _);
        [by rewrite E1|congruence|by rewrite E1| |done|simpl; lia|].
      { eapply distrust_inv_permute; [|exact Hi]. apply perm_third. }
      exists w', m', f', oe. split_and!; [done|done|]. intros [_ Hh]. specialize (Hh w cur).
      rewrite E1' in Hh. discriminate Hh. apply (di_nodes _ _ _ _ _ _ Hi). left.
Qed.

Lemma PropagateDistrust_spec w src fuel :
  (length (L w) <= fuel)%nat ->
  exists w' marked failed oe,
    PropagateDistrust fuel src w = (w', Ok (Some (Z.of_nat (length marked), oe))) /\
    distrusted w w' src marked failed oe /\ (healthy (L w) -> oe = None /\ failed = []).
Proof.
  intros Hf. unfold PropagateDistrust, attempt.
  assert (Hi0 : distrust_inv (L w) src {[src]} [] [] []).
  { constructor; simpl; [set_solver|by repeat constructor; set_solver|set_solver|set_solver]. }
  pose proof (FetchDownstreamEdges_rest src w) as Hr.
  destruct (FetchDownstreamEdges src w) as [w1 [nodes|e]] eqn:E1'; simpl in Hr;
    pose proof E1' as E1; apply FetchDownstreamEdges_law in E1 as [Ev1 E1].
  - subst nodes. destruct (enqueue _ _) as [v' q'] eqn:E2.
    destruct (distrust_inv_enqueue _ _ _ _ _ _ _ _ _ Hi0 (or_introl eq_refl) E2) as (Hi1 & _ & Hn).
    apply (distrust_loop_spec w src fuel v' q' [] []); simpl; [by rewrite Ev1|done| |done| |lia].
    + intros n. by rewrite Ev1.
    + intros f t Hft [Ht|Ht]; [by apply (Hn f t)|by apply elem_of_nil in Ht].
  - exists w1, [], [], (Some e). split_and!; [done| |].
    + eapply distrusted_intro with (visited := {[src]}) (queue := []); [by rewrite Ev1|done| |done|done].
      intros n. by rewrite Ev1.
    + intros [Hh _]. specialize (Hh w src). by rewrite E1' in Hh.
Qed.

(** C18: [PropagateDistrust] returns for any fuel of at least the number of links. It
    marks, once each, only records derived from the source, and counts them; on a
    healthy store it reports no error and marks every record derived from the source
    and no other, whatever cycles the links form. The review states of the marked
    records are all it changes: links, contents, beliefs and every other table stay. *)
Theorem PropagateDistrust_exact w src fuel :
  (length (L w) <= fuel)%nat ->
  exists w' marked failed oe,
    PropagateDistrust fuel src w = (w', Ok (Some (Z.of_nat (length marked), oe))) /\
    L w' = L w /\ memory_rest w' = memory_rest w /\
    (forall n, mv_state (memory_view w') n
       = if bool_decide (n ∈ marked) then (fun _ => "needs_review") <$> mv_state (memory_view w) n
         else mv_state (memory_view w) n) /\
    NoDup (ids marked) /\
    (forall i, i ∈ ids marked -> i <> src /\ derives (L w) src i) /\
    (oe = None -> forall f t, (f, t) ∈ L w -> edge_ID t = src \/ edge_ID t ∈ ids marked ->
       edge_ID f = src \/ edge_ID f ∈ ids marked \/ edge_ID f ∈ ids failed) /\
    (healthy (L w) -> oe = None /\ failed = [] /\
       forall i, i ∈ ids marked <-> i <> src /\ derives (L w) src i).
Proof.
  intros Hf. destruct (PropagateDistrust_spec w src fuel Hf)
    as (w' & marked & failed & oe & E & [D1 Dr D2 D3 D4 D5] & Hh).
  assert (Hm : forall i, i ∈ ids marked -> i <> src /\ derives (L w) src i).
  { intros i Hi. rewrite ids_app in *. split; [|apply D4; set_solver].
    apply NoDup_cons in D3 as [D3 _]. set_solver. }
  exists w', marked, failed, oe. split_and!; [done|done|done|exact D2| |done| |].
  - rewrite ids_app in D3. apply NoDup_cons in D3 as [_ D3]. by apply NoDup_app in D3 as [? _].
  - intros Hn f t Hft Ht. destruct (D5 Hn f t Hft Ht) as [|Hi]; [by left|]. rewrite ids_app in Hi.
    set_solver.
  - intros [-> ->]%Hh. split_and!; [done|done|]. intros i. split; [apply Hm|].
    intros [Hne Hd]. rewrite app_nil_r in *.
    assert (Hc : i = src \/ i ∈ ids marked); [|tauto]. clear Hne.
    induction Hd as [f t Hft Ht|x f t Hx IHx Hft Ht].
    + apply (D5 eq_refl f t Hft). by left.
    + apply (D5 eq_refl f t Hft). rewrite Ht. tauto.
Qed.
End Distrust.

(** ** Inference distance *)

(** [k] links lead from [i] to a T2 entry. *)
Inductive t2_hops (L : list (EdgeNode * EdgeNode)) : string -> nat -> Prop :=
  | t2_direct f t : (f, t) ∈ L -> edge_Tier t = 2 -> t2_hops L (edge_ID f) 1
  | t2_via f t k : (f, t) ∈ L -> t2_hops L (edge_ID t) k -> t2_hops L (edge_ID f) (S k).

Definition has_t2 (nodes : list EdgeNode) : bool := existsb (fun n => edge_Tier n =? 2) nodes.

(** What one level of the search does when no link of the level reaches T2: the new
    queue is what it newly visits. *)
Definition level_step (nodes : list EdgeNode) (visited : gset string) (next : list string)
    (visited' : gset string) (next' : list string) : Prop :=
  exists new, next' = next ++ new /\ NoDup new /\
    (forall i, i ∈ visited' <-> i ∈ visited \/ i ∈ new) /\
    (forall i, i ∈ new -> i ∉ visited /\ i ∈ ids nodes) /\
    (forall n, n ∈ nodes -> edge_ID n ∈ visited' /\ edge_Tier n <> 2).

Lemma level_step_trans nodes1 nodes2 v1 n1 v2 n2 v3 n3 :
  level_step nodes1 v1 n1 v2 n2 -> level_step nodes2 v2 n2 v3 n3 ->
  level_step (nodes1 ++ nodes2) v1 n1 v3 n3.
Proof.
  intros (a & -> & Ha1 & Ha2 & Ha3 & Ha4) (b & -> & Hb1 & Hb2 & Hb3 & Hb4).
  exists (a ++ b). split_and!.
  - by rewrite app_assoc.
  - apply NoDup_app. split_and!; [done| |done]. intros i Hi Hib. apply Hb3 in Hib as [Hib _].
    apply Hib, Ha2. by right.
  - intros i. rewrite Hb2, Ha2, elem_of_app. tauto.
  - intros i [Hi|Hi]%elem_of_app.
    + apply Ha3 in Hi as [? ?]. split; [done|]. rewrite ids_app. set_solver.
    + apply Hb3 in Hi as [Hi ?]. split; [|rewrite ids_app; set_solver].
      intros Hv. apply Hi, Ha2. by left.
  - intros n [Hn|Hn]%elem_of_app; [|by apply Hb4].
    apply Ha4 in Hn as [? ?]. split; [|done]. apply Hb2. by left.
Qed.

Lemma scan_nodes_spec nodes : forall v next,
  match scan_nodes nodes v next with
  | None => has_t2 nodes = true
  | Some (v', next') => level_step nodes v next v' next'
  end.
Proof.
  induction nodes as [|n nodes IH]; intros v next; simpl.
  - exists []. rewrite app_nil_r. split_and!; [done|by constructor|set_solver..].
  - destruct (edge_Tier n =? 2) eqn:E2; [done|]. bools. simpl.
    assert (Hone : level_step [n] v next (if bool_decide (edge_ID n ∈ v) then v else {[edge_ID n]} ∪ v)
                     (if bool_decide (edge_ID n ∈ v) then next else next ++ [edge_ID n])).
    { case_bool_decide as Hv.
      - exists []. rewrite app_nil_r. split_and!; [done|by constructor|set_solver|set_solver|].
        intros m ->%list_elem_of_singleton. done.
      - exists [edge_ID n]. split_and!; [done|apply NoDup_singleton|set_solver| |].
        + intros i ->%list_elem_of_singleton. split; [done|]. simpl. left.
        + intros m ->%list_elem_of_singleton. set_solver. }
    case_bool_decide as Hv.
    + specialize (IH v next). destruct (scan_nodes nodes v next) as [[v' next']|]; [|done].
      exact (level_step_trans [n] nodes _ _ _ _ _ _ Hone IH).
    + specialize (IH ({[edge_ID n]} ∪ v) (next ++ [edge_ID n])).
      destruct (scan_nodes nodes _ _) as [[v' next']|]; [|done].
      exact (level_step_trans [n] nodes _ _ _ _ _ _ Hone IH).
Qed.

Section Distance.
Context {W : Type} `{EdgeStore W} `{BeliefStore W} `{!MemoryLaws W}.
Notation L w := (mv_links (memory_view w)).

Lemma scan_level_spec queue : forall v next w w' r,
  scan_level queue v next w = (w', r) ->
  memory_view w' = memory_view w /\
  match r with
  | Err _ => True
  | Ok None => exists q, q ∈ queue /\ has_t2 (sources (L w) q) = true
  | Ok (Some (v', next')) =>
      level_step (flat_map (sources (L w)) queue) v next v' next'
  end.
Proof.
  induction queue as [|i queue IH]; intros v next w w' r; simpl.
  - intros [= <- <-]. split; [done|]. exists []. rewrite app_nil_r.
    split_and!; [done|by constructor|set_solver..].
  - unfold bind, wrapM. destruct (QueryEdgesForBFS i w) as [w1 [nodes|e]] eqn:E1;
      apply QueryEdgesForBFS_law in E1 as [Ev1 E1]; simpl; [|by intros [= <- <-]].
    subst nodes. pose proof (scan_nodes_spec (sources (L w) i) v next) as Hs.
    destruct (scan_nodes _ v next) as [[v1 next1]|] eqn:Es.
    + intros E. apply IH in E as [Ev2 E]. rewrite Ev1 in *. split; [done|].
      destruct r as [[[v' next']|]|e]; [|set_solver|done].
      by eapply level_step_trans.
    + intros [= <- <-]. split; [done|]. exists i. split; [left|done].
Qed.

(** The state of the level search: [depth] links lead from the record to the queue,
    no T2 entry is nearer than what is reachable from the queue, and nothing visited
    is nearer to T2 than the queue. *)
Record distance_inv (g : list (EdgeNode * EdgeNode)) (rec : string) (visited : gset string)
    (queue : list string) (depth : nat) : Prop := {
  di_upper : forall q j, q ∈ queue -> t2_hops g q j -> t2_hops g rec (depth + j);
  di_lower : forall k, t2_hops g rec k -> exists q j, q ∈ queue /\ t2_hops g q j /\ (depth + j <= k)%nat;
  di_cut : forall v j, v ∈ visited -> t2_hops g v j ->
    exists q j', q ∈ queue /\ t2_hops g q j' /\ (j' <= j)%nat }.

Lemma t2_hops_pos g i k : t2_hops g i k -> (1 <= k)%nat.
Proof. destruct 1; lia. Qed.

Lemma has_t2_hops g q : has_t2 (sources g q) = true <-> t2_hops g q 1.
Proof.
  unfold has_t2. rewrite existsb_exists. setoid_rewrite <- list_elem_of_In. split.
  - intros (n & Hn & Ht). bools. apply elem_of_sources in Hn as (f & Hf & <-).
    by eapply t2_direct.
  - intros Hq. inversion Hq as [f t Hft Ht|f t k Hft Hk]; subst.
    + exists t. split; [apply elem_of_sources; eauto|]. by apply Z.eqb_eq.
    + apply t2_hops_pos in Hk. lia.
Qed.

(** Through a level without T2 the distance passes to the newly visited records. *)
Lemma level_advances g rec v queue depth v' next :
  distance_inv g rec v queue depth ->
  level_step (flat_map (sources g) queue) v [] v' next ->
  forall j q, q ∈ queue -> t2_hops g q j ->
  exists n j', n ∈ next /\ t2_hops g n j' /\ (S j' <= j)%nat.
Proof.
  intros [_ _ Hcut] (new & -> & _ & Hv & _ & Hall) j. simpl.
  induction (lt_wf j) as [j _ IH]. intros q Hq Hj.
  assert (Hn : forall f t, (f, t) ∈ g -> edge_ID f = q -> edge_ID t ∈ v' /\ edge_Tier t <> 2).
  { intros f t Hft Hf. apply Hall. apply list_elem_of_In, in_flat_map. exists q.
    split; [by apply list_elem_of_In|]. apply list_elem_of_In, elem_of_sources. eauto. }
  inversion Hj as [f t Hft Ht|f t k Hft Hk]; subst.
  - by destruct (Hn f t Hft eq_refl).
  - destruct (Hn f t Hft eq_refl) as [Hin _]. apply Hv in Hin as [Hin|Hin]; [|by eauto].
    destruct (Hcut _ _ Hin Hk) as (q2 & j2 & Hq2 & Hj2 & Hle).
    destruct (IH j2 ltac:(lia) q2 Hq2 Hj2) as (n & j' & ? & ? & ?).
    exists n, j'. split_and!; [done|done|lia].
Qed.

Lemma distance_inv_step g rec v queue depth v' next :
  distance_inv g rec v queue depth ->
  level_step (flat_map (sources g) queue) v [] v' next ->
  distance_inv g rec v' next (S depth).
Proof.
  intros Hi Hs. pose proof (level_advances _ _ _ _ _ _ _ Hi Hs) as Hadv.
  destruct Hi as [Hu Hl Hc]. destruct Hs as (new & -> & _ & Hv & Hnew & _). simpl in *.
  constructor.
  - intros q j Hq Hj. destruct (Hnew q Hq) as [_ Hin]. apply elem_of_ids in Hin as (t & Hin & <-).
    apply list_elem_of_In, in_flat_map in Hin as (q0 & Hq0 & Hin).
    apply list_elem_of_In in Hq0, Hin. apply elem_of_sources in Hin as (f & Hft & <-).
    replace (S depth + j)%nat with (depth + S j)%nat by lia.
    apply (Hu (edge_ID f)); [done|]. by eapply t2_via.
  - intros k Hk. destruct (Hl k Hk) as (q & j & Hq & Hj & Hle).
    destruct (Hadv j q Hq Hj) as (n & j' & ? & ? & ?). exists n, j'. split_and!; [done|done|lia].
  - intros x j [Hx|Hx]%Hv Hj; [|eauto].
    destruct (Hc x j Hx Hj) as (q & j1 & Hq & Hj1 & Hle).
    destruct (Hadv j1 q Hq Hj1) as (n & j' & ? & ? & ?). exists n, j'. split_and!; [done|done|lia].
Qed.

Lemma level_step_size g v queue v' new :
  level_step (flat_map (sources g) queue) v [] v' new ->
  v ⊆ v' /\ (size v + length new <= size v')%nat.
Proof.
  intros (new' & -> & Hd & Hv & Hnew & _). simpl in *.
  assert (Hsub : v ⊆ v') by (intros i Hi; apply Hv; by left). split; [done|].
  transitivity (size (v ∪ list_to_set new')).
  - rewrite size_union, size_list_to_set; [done|done|].
    intros i Hi Hn. apply elem_of_list_to_set in Hn. by apply Hnew in Hn as [? _].
  - apply subseteq_size. intros i. rewrite elem_of_union, elem_of_list_to_set. apply Hv.
Qed.

(** Everything visited is the record or the target of a link. *)
Definition visited_bound (g : list (EdgeNode * EdgeNode)) (rec : string) (v : gset string) : Prop :=
  v ⊆ {[rec]} ∪ list_to_set (ids (map snd g)).

Lemma visited_bound_step g rec v queue v' next :
  visited_bound g rec v -> level_step (flat_map (sources g) queue) v [] v' next ->
  visited_bound g rec v'.
Proof.
  intros Hb (new & _ & _ & Hv & Hnew & _) i [Hi|Hi]%Hv; [by apply Hb|].
  apply Hnew in Hi as [_ Hi]. apply elem_of_ids in Hi as (n & Hn & <-).
  apply list_elem_of_In, in_flat_map in Hn as (q & _ & Hn).
  apply list_elem_of_In, elem_of_sources in Hn as (f & Hf & _).
  apply elem_of_union. right. apply elem_of_list_to_set, elem_of_ids. exists n.
  split; [|done]. apply elem_of_map. by exists (f, n).
Qed.

Lemma visited_bound_size g rec v : visited_bound g rec v -> (size v <= S (length g))%nat.
Proof.
  intros Hb.
  assert (Hs : elements v ⊆ rec :: ids (map snd g)).
  { intros i Hi. apply elem_of_elements, Hb in Hi. rewrite elem_of_union, elem_of_list_to_set in Hi.
    set_solver. }
  pose proof (submseteq_length _ _ (NoDup_submseteq _ _ (NoDup_elements v) Hs)) as Hl.
  simpl in Hl. unfold ids in Hl. by rewrite !length_map in Hl.
Qed.

Lemma distance_loop_spec w0 rec fuel : forall visited queue depth w w' r,
  memory_view w = memory_view w0 ->
  distance_inv (L w0) rec visited queue depth ->
  visited_bound (L w0) rec visited ->
  (queue = [] \/ length (L w0) + 2 <= fuel + size visited)%nat ->
  distance_loop fuel visited queue (Z.of_nat depth) w = (w', r) ->
  memory_view w' = memory_view w0 /\
  match r with
  | Err _ => True
  | Ok None => False
  | Ok (Some d) =>
      (exists k, d = Z.of_nat k /\ t2_hops (L w0) rec k /\
         forall k', t2_hops (L w0) rec k' -> (k <= k')%nat) \/
      (d = 1 /\ forall k, ~ t2_hops (L w0) rec k)
  end.
Proof.
  induction fuel as [|fuel IH]; intros v [|q0 queue] depth w w' r Hw Hi Hb Hf; cbn [distance_loop].
  1,3: intros [= <- <-]; split; [done|]; right; split; [done|]; intros k Hk;
    destruct (di_lower _ _ _ _ _ Hi k Hk) as (q & j & Hq & _); by apply elem_of_nil in Hq.
  - apply visited_bound_size in Hb. destruct Hf as [Hf|Hf]; [done|lia].
  - unfold bind at 1. destruct (scan_level (q0 :: queue) v [] w) as [w1 r1] eqn:E1.
    pose proof E1 as E1'. apply scan_level_spec in E1' as [Ev1 Hr]. rewrite Hw in *.
    destruct r1 as [[[v' next]|]|e]; cbv beta iota.
    + replace (Z.of_nat depth + 1) with (Z.of_nat (S depth)) by lia.
      pose proof (level_step_size _ _ _ _ _ Hr) as [_ Hsz].
      apply IH; [by rewrite Ev1|by eapply distance_inv_step|by eapply visited_bound_step|].
      destruct next; [by left|right]. destruct Hf as [|Hf]; [done|]. simpl in Hsz. lia.
    + intros [= <- <-]. split; [done|]. left. exists (S depth).
      destruct Hr as (q & Hq & Ht). apply has_t2_hops in Ht. split_and!; [lia| |].
      * replace (S depth) with (depth + 1)%nat by lia. by eapply (di_upper _ _ _ _ _ Hi).
      * intros k' Hk'. destruct (di_lower _ _ _ _ _ Hi k' Hk') as (q' & j & _ & Hj & Hle).
        apply t2_hops_pos in Hj. lia.
    + by intros [= <- <-].
Qed.

(** C19: With fuel beyond the number of links, [ComputeInferenceDistance] returns the
    least number of [derived_from] links from the record to a T2 entry, 1 when no T2
    entry can be reached, or the store's error; it never loops and changes nothing. *)
Theorem ComputeInferenceDistance_minimal w rec fuel w' r :
  (length (L w) < fuel)%nat ->
  ComputeInferenceDistance fuel rec w = (w', r) ->
  memory_view w' = memory_view w /\
  match r with
  | Err _ => True
  | Ok None => False
  | Ok (Some d) =>
      (exists k, d = Z.of_nat k /\ t2_hops (L w) rec k /\
         forall k', t2_hops (L w) rec k' -> (k <= k')%nat) \/
      (d = 1 /\ forall k, ~ t2_hops (L w) rec k)
  end.
Proof.
  intros Hf. unfold ComputeInferenceDistance. apply (distance_loop_spec w rec fuel {[rec]} [rec] 0).
  - done.
  - constructor.
    + by intros q j ->%list_elem_of_singleton Hj.
    + intros k Hk. exists rec, k. split_and!; [left|done|lia].
    + intros v j ->%elem_of_singleton Hj. exists rec, j. split_and!; [left|done|lia].
  - intros i Hi. set_solver.
  - right. rewrite size_singleton. lia.
Qed.
End Distance.

(** ** The staleness pass *)

Section DecayProofs.
Context {W : Type} `{EdgeStore W} `{BeliefStore W} `{!MemoryLaws W}.
Variables (math_Exp : float64 -> float64) (math_Pow : float64 -> float64 -> float64).
Notation stale now cfg := (goes_stale math_Exp math_Pow now cfg).
Notation beliefs w := (mv_beliefs (memory_view w)).
Notation L w := (mv_links (memory_view w)).

(** [rec] names the same row as one of [recs]. *)
Definition is_one_of (recs : list BeliefRecord) (rec : BeliefRecord) : bool :=
  existsb (fun x => is_record (rec_TableName x) (rec_ID x) rec) recs.

Lemma is_one_of_self recs rec : rec ∈ recs -> is_one_of recs rec = true.
Proof.
  intros Hr. apply existsb_exists. exists rec. split; [by apply list_elem_of_In|].
  unfold is_record. by rewrite !String.eqb_refl.
Qed.

Lemma whereb_whereb {A} (p q : A -> bool) l : whereb p (whereb q l) = whereb (fun x => q x && p x) l.
Proof. induction l as [|x l IH]; [done|]. simpl. destruct (q x); simpl; [|done]. by destruct (p x); rewrite IH. Qed.

Lemma whereb_ext {A} (p q : A -> bool) l : (forall x, p x = q x) -> whereb p l = whereb q l.
Proof. intros Hpq. induction l as [|x l IH]; [done|]. simpl. by rewrite Hpq, IH. Qed.

(** The pass visits the records in order and stops at the first failing update: what
    it flagged is a prefix of what goes stale, and all of it if there was no error. *)
Lemma FlagStaleBeliefs_spec now cfg records : forall flagged w w' r,
  FlagStaleBeliefs math_Exp math_Pow UpdateVerificationState now cfg records flagged w = (w', r) ->
  exists done_ rest oe, r = Ok (flagged + Z.of_nat (length done_), oe) /\
    whereb (stale now cfg) records = done_ ++ rest /\ (oe = None -> rest = []) /\
    L w' = L w /\ beliefs w' = whereb (fun rec => negb (is_one_of done_ rec)) (beliefs w).
Proof.
  induction records as [|rec records IH]; intros flagged w w' r; cbn [FlagStaleBeliefs whereb List.filter].
  - intros [= <- <-]. exists [], [], None. split_and!; [by rewrite Z.add_0_r|done|done|done|].
    induction (beliefs w) as [|x l IHl]; [done|]. simpl. by f_equal.
  - fold (whereb (stale now cfg) records).
    destruct (stale now cfg rec) eqn:Es; [|apply IH].
    unfold attempt at 1. destruct (UpdateVerificationState _ _ _ w) as [w1 [u|e]] eqn:E1;
      apply UpdateVerificationState_law in E1.
    + destruct E1 as [El1 Eb1]. intros (d & rest & oe & -> & Hd & Hn & Hl & Hb)%IH.
      exists (rec :: d), rest, oe. split_and!.
      * simpl length. do 2 f_equal. lia.
      * simpl. by f_equal.
      * done.
      * by rewrite Hl.
      * rewrite Hb, Eb1, whereb_whereb. apply whereb_ext. intros x. simpl. by rewrite negb_orb.
    + intros [= <- <-]. exists [], (rec :: whereb (stale now cfg) records), (Some e).
      split_and!; [by rewrite Z.add_0_r|done|done|by rewrite E1|]. rewrite E1. clear.
      induction (beliefs w) as [|x l IHl]; [done|]. simpl. by f_equal.
Qed.

Lemma distance_breakdown_frame now cfg fuel records : forall acc w w' r,
  (length (L w) < fuel)%nat ->
  distance_breakdown math_Exp math_Pow fuel now cfg records acc w = (w', r) ->
  memory_view w' = memory_view w /\ exists m, r = Ok m.
Proof.
  induction records as [|rec records IH]; intros acc w w' r Hf; cbn [distance_breakdown].
  - intros [= <- <-]. eauto.
  - destruct (rec_Belief rec) as [b|]; [|by apply IH].
    destruct (_ || _); [by apply IH|].
    unfold attempt at 1. destruct (ComputeInferenceDistance fuel (rec_ID rec) w) as [w1 r1] eqn:E1.
    apply ComputeInferenceDistance_minimal in E1 as [Ev _]; [|done].
    intros E. apply IH in E as [Ev2 Hm]; [|by rewrite Ev]. by rewrite Ev2.
Qed.

Definition total (m : gmap Z Z) : Z := map_fold (fun _ v acc => v + acc) 0 m.

Lemma total_insert_fresh k v (m : gmap Z Z) : m !! k = None -> total (<[k := v]> m) = v + total m.
Proof. intros Hk. unfold total. rewrite map_fold_insert_L; [done|intros; lia|done]. Qed.

Lemma total_count k (m : gmap Z Z) : total (<[k := default 0 (m !! k) + 1]> m) = total m + 1.
Proof.
  rewrite <- insert_delete_eq, total_insert_fresh by apply lookup_delete_eq.
  destruct (m !! k) as [v|] eqn:Ek; simpl.
  - rewrite <- (insert_delete_id m k v Ek) at 2. rewrite total_insert_fresh by apply lookup_delete_eq. lia.
  - rewrite (delete_id m k) by done. lia.
Qed.

Definition confidence_of (now : Z) (cfg : DecayConfig) (b : BeliefMeta) : float64 :=
  Confidence math_Exp math_Pow b now (dc_DecayRate cfg) (dc_InferenceDecayBase cfg).

Lemma fgeb_not_lt x y : is_nan x = false -> is_nan y = false -> fgeb x y = negb (fltb x y).
Proof.
  intros Hx Hy. change (fgeb x y) with (fleb y x). destruct (fltb x y) eqn:E; simpl; float_order.
Qed.

Lemma countb_cons {A} (p : A -> bool) x l :
  countb p (x :: l) = ((if p x then 1 else 0) + countb p l)%nat.
Proof. unfold countb. simpl. by destruct (p x). Qed.

Lemma distance_breakdown_total now cfg fuel records : forall acc w w' m,
  (forall rec b, rec ∈ records -> rec_Belief rec = Some b ->
     is_nan (confidence_of now cfg b) = false) ->
  is_nan (dc_StaleThreshold cfg) = false ->
  distance_breakdown math_Exp math_Pow fuel now cfg records acc w = (w', Ok m) ->
  total m = total acc + Z.of_nat (countb (stale now cfg) records).
Proof.
  induction records as [|rec records IH]; intros acc w w' m Hnan Ht; cbn [distance_breakdown].
  - intros [= _ <-]. unfold countb. simpl. lia.
  - assert (Hrest : forall r0 b0, r0 ∈ records -> rec_Belief r0 = Some b0 ->
              is_nan (confidence_of now cfg b0) = false) by (intros r0 b0 Hr0; apply Hnan; by right).
    rewrite countb_cons. unfold goes_stale at 1. destruct (rec_Belief rec) as [b|] eqn:Eb; [|by apply IH].
    pose proof (Hnan rec b ltac:(left) Eb) as Hc. unfold confidence_of in Hc.
    rewrite (fgeb_not_lt _ _ Hc Ht). set (c := fltb _ _).
    destruct (String.eqb (bm_VerificationState b) "stale"), c; simpl; try by apply IH.
    unfold attempt at 1. destruct (ComputeInferenceDistance fuel (rec_ID rec) w) as [w1 r1].
    intros E. apply IH in E as ->; [|done|done]. rewrite total_count. lia.
Qed.

Lemma flagged_are_gone now cfg l :
  whereb (stale now cfg)
    (whereb (fun rec => negb (is_one_of (whereb (stale now cfg) l) rec)) l) = [].
Proof.
  apply whereb_nil. intros x Hx. apply elem_of_whereb in Hx as [Hx Hn].
  destruct (stale now cfg x) eqn:Es; [|done].
  rewrite is_one_of_self in Hn; [done|]. by apply elem_of_whereb.
Qed.

(** What a decay pass that reported no error did. *)
Lemma RunEndOfSessionDecay_Ok now cfg fuel w w' rep :
  (length (L w) < fuel)%nat ->
  RunEndOfSessionDecay math_Exp math_Pow fuel now cfg w = (w', Ok (rep, None)) ->
  dr_TotalChecked rep = Z.of_nat (length (beliefs w)) /\
  dr_NewlyStale rep = Z.of_nat (countb (stale now cfg) (beliefs w)) /\
  L w' = L w /\
  beliefs w' = whereb (fun rec => negb (is_one_of (whereb (stale now cfg) (beliefs w)) rec)) (beliefs w) /\
  exists w1, distance_breakdown math_Exp math_Pow fuel now cfg (beliefs w) ∅ w1
             = (w', Ok (dr_ByInferenceDistance rep)).
Proof.
  intros Hf. unfold RunEndOfSessionDecay, bind at 1, wrapM at 1.
  destruct (LoadBeliefRecords w) as [w1 [records|e]] eqn:E1;
    apply LoadBeliefRecords_law in E1 as [Ev1 E1]; [|done]. subst records. cbn [wrap_err].
  unfold bind at 1. destruct (FlagStaleBeliefs _ _ _ _ _ _ 0 w1) as [w2 r2] eqn:E2.
  apply FlagStaleBeliefs_spec in E2 as (d & rest & oe & -> & Hd & Hn & Hl2 & Hb2).
  cbv beta iota. destruct oe as [e|]; [by intros [= _ _]|].
  rewrite (Hn eq_refl), app_nil_r in Hd. rewrite <- Hd in *.
  unfold bind at 1. destruct (distance_breakdown _ _ _ _ _ _ _ w2) as [w3 r3] eqn:E3.
  pose proof E3 as E3'. apply distance_breakdown_frame in E3' as [Ev3 [m ->]]; [|by rewrite Hl2, Ev1].
  intros [= <- <-]. cbn [dr_TotalChecked dr_NewlyStale dr_ByInferenceDistance].
  rewrite Ev3, Hl2, Hb2, Ev1. split_and!; [done|unfold countb; lia|done|done|].
  by exists w2.
Qed.

(** A decay pass that reports no error flags exactly the records whose confidence is
    below the threshold, counts them, leaves the links alone, and its breakdown by
    distance adds up to the same number when no confidence is a NaN; run again at the
    same time it flags nothing. *)
Theorem RunEndOfSessionDecay_idempotent now cfg fuel w w' rep :
  (length (L w) < fuel)%nat ->
  RunEndOfSessionDecay math_Exp math_Pow fuel now cfg w = (w', Ok (rep, None)) ->
  dr_TotalChecked rep = Z.of_nat (length (beliefs w)) /\
  dr_NewlyStale rep = Z.of_nat (countb (stale now cfg) (beliefs w)) /\
  L w' = L w /\
  (forall rec, rec ∈ beliefs w' -> rec ∈ beliefs w /\ stale now cfg rec = false) /\
  ((forall rec b, rec ∈ beliefs w -> rec_Belief rec = Some b ->
      is_nan (confidence_of now cfg b) = false) ->
   is_nan (dc_StaleThreshold cfg) = false ->
   total (dr_ByInferenceDistance rep) = dr_NewlyStale rep) /\
  (forall w'' rep', RunEndOfSessionDecay math_Exp math_Pow fuel now cfg w' = (w'', Ok (rep', None)) ->
     dr_NewlyStale rep' = 0 /\ beliefs w'' = beliefs w').
Proof.
  intros Hf E. apply RunEndOfSessionDecay_Ok in E as (Ht & Hn & Hl & Hb & w1 & Hbd); [|done].
  pose proof (flagged_are_gone now cfg (beliefs w)) as Hgone. rewrite <- Hb in Hgone.
  split_and!; [done|done|done| | |].
  - intros rec Hr. pose proof Hr as Hr'. rewrite Hb in Hr'. apply elem_of_whereb in Hr' as [Hr' _].
    split; [done|]. destruct (stale now cfg rec) eqn:Es; [|done].
    assert (Hin : rec ∈ whereb (stale now cfg) (beliefs w')) by by apply elem_of_whereb.
    rewrite Hgone in Hin. by apply elem_of_nil in Hin.
  - intros Hnan Hth. apply distance_breakdown_total in Hbd; [|done|done].
    rewrite Hbd, Hn. unfold total. by rewrite map_fold_empty.
  - intros w'' rep' E. apply RunEndOfSessionDecay_Ok in E as (_ & Hn' & _ & Hb' & _); [|by rewrite Hl].
    unfold countb in Hn'. rewrite Hgone in *. split; [done|]. rewrite Hb'.
    clear. induction (beliefs w') as [|x l IHl]; [done|]. simpl. by f_equal.
Qed.
End DecayProofs.

(** ** What the store's operations keep, the searches keep *)

Section Frame.
Context {W : Type} `{EdgeStore W} `{BeliefStore W}.
Context (R : W -> W -> Prop) `{!PreOrder R}.

Definition keeps {A} (m : M W A) : Prop := forall w, R w (m w).1.

Hypothesis Fetch_keeps : forall i, keeps (FetchDownstreamEdges i).
Hypothesis Query_keeps : forall i, keeps (QueryEdgesForBFS i).
Hypothesis Mark_keeps : forall i t, keeps (MarkNeedsReview i t).
Hypothesis Load_keeps : keeps LoadBeliefRecords.
Hypothesis Update_keeps : forall table i s, keeps (UpdateVerificationState table i s).

Lemma keeps_ret {A} (a : A) : keeps (ret a).
Proof using PreOrder0. intros w. reflexivity. Qed.
Lemma keeps_attempt {A B} (m : M W A) (k : result A -> M W B) :
  keeps m -> (forall r, keeps (k r)) -> keeps (attempt m k).
Proof using PreOrder0.
  intros Hm Hk w. unfold attempt. specialize (Hm w). destruct (m w) as [w1 r].
  etransitivity; [exact Hm|apply Hk].
Qed.
Lemma keeps_bind {A B} (m : M W A) (k : A -> M W B) :
  keeps m -> (forall a, keeps (k a)) -> keeps (bind m k).
Proof using PreOrder0.
  intros Hm Hk w. unfold bind. specialize (Hm w). destruct (m w) as [w1 [a|e]]; [|exact Hm].
  etransitivity; [exact Hm|apply Hk].
Qed.
Lemma keeps_wrapM {A} msg (m : M W A) : keeps m -> keeps (wrapM msg m).
Proof using Type. intros Hm w. unfold wrapM. specialize (Hm w). by destruct (m w). Qed.

Lemma distrust_loop_keeps fuel : forall v q a, keeps (distrust_loop fuel v q a).
Proof using Fetch_keeps Mark_keeps PreOrder0.
  induction fuel as [|fuel IH]; intros v [|cur q] a; cbn [distrust_loop]; try apply keeps_ret.
  apply keeps_attempt; [apply Mark_keeps|]. intros [u|e]; [|apply IH].
  apply keeps_attempt; [apply Fetch_keeps|]. intros [nodes|e]; [|apply keeps_ret].
  destruct (enqueue _ _). apply IH.
Qed.
Lemma PropagateDistrust_keeps fuel src : keeps (PropagateDistrust fuel src).
Proof using Fetch_keeps Mark_keeps PreOrder0.
  apply keeps_attempt; [apply Fetch_keeps|]. intros [nodes|e]; [|apply keeps_ret].
  destruct (enqueue _ _). apply distrust_loop_keeps.
Qed.

Lemma scan_level_keeps q : forall v next, keeps (scan_level q v next).
Proof using Query_keeps PreOrder0.
  induction q as [|i q IH]; intros v next; cbn [scan_level]; [apply keeps_ret|].
  apply keeps_bind; [apply keeps_wrapM, Query_keeps|]. intros nodes.
  destruct (scan_nodes _ _ _) as [[v' next']|]; [apply IH|apply keeps_ret].
Qed.
Lemma ComputeInferenceDistance_keeps fuel rec : keeps (ComputeInferenceDistance fuel rec).
Proof using Query_keeps PreOrder0.
  unfold ComputeInferenceDistance. generalize ({[rec]} : gset string), [rec], 0.
  induction fuel as [|fuel IH]; intros v [|i q] depth; cbn [distance_loop]; try apply keeps_ret.
  apply keeps_bind; [apply scan_level_keeps|]. intros [[v' next]|]; [apply IH|apply keeps_ret].
Qed.

Lemma RunEndOfSessionDecay_keeps math_Exp math_Pow fuel now cfg :
  keeps (RunEndOfSessionDecay math_Exp math_Pow fuel now cfg).
Proof using Load_keeps Update_keeps Query_keeps PreOrder0.
  apply keeps_bind; [apply keeps_wrapM, Load_keeps|]. intros records.
  assert (Hflag : forall l n, keeps (FlagStaleBeliefs math_Exp math_Pow UpdateVerificationState now cfg l n)).
  { induction l as [|rec l IH]; intros n; cbn [FlagStaleBeliefs]; [apply keeps_ret|].
    destruct (goes_stale _ _ _ _ _); [|apply IH].
    apply keeps_attempt; [apply Update_keeps|]. intros [u|e]; [apply IH|apply keeps_ret]. }
  assert (Hbd : forall l acc, keeps (distance_breakdown math_Exp math_Pow fuel now cfg l acc)).
  { induction l as [|rec l IH]; intros acc; cbn [distance_breakdown]; [apply keeps_ret|].
    destruct (rec_Belief rec); [|apply IH]. destruct (_ || _); [apply IH|].
    apply keeps_attempt; [apply ComputeInferenceDistance_keeps|]. intros r. apply IH. }
  apply keeps_bind; [apply Hflag|]. intros [n [e|]]; [apply keeps_ret|].
  apply keeps_bind; [apply Hbd|]. intros m. apply keeps_ret.
Qed.
End Frame.
