(* ===== verification/MemoryStore.v ===== *)
(** * The memory graph on SQLite ([internal/platform/edges.go], [db.go])

    The edge and belief statements of [SQLiteStore] on the shared tables, the
    [belief_meta] column and its decoder, and the proof that the store satisfies
    [MemoryLaws]; the properties of the searches are applied to it. *)

From S2P Require Import Prelude Types Db Consolidation Memory.

(** ** [time.Parse(time.RFC3339, s)] *)

Definition digit (c : Ascii.ascii) : option Z :=
  let z := ascii_code c - 48 in if (0 <=? z) && (z <=? 9) then Some z else None.

(** The first [n] digits of [s]. *)
Fixpoint digits (n : nat) (s : string) (acc : Z) : option (Z * string) :=
  match n, s with
  | O, _ => Some (acc, s)
  | S n, String c s => match digit c with Some z => digits n s (10 * acc + z) | None => None end
  | S _, "" => None
  end.

Definition expect (p s : string) : option string :=
  if has_prefix s p then Some (str_drop (String.length p) s) else None.

Definition is_leap (y : Z) : bool :=
  (y mod 4 =? 0) && (negb (y mod 100 =? 0) || (y mod 400 =? 0)).
Definition days_in (y m : Z) : Z :=
  if m =? 2 then if is_leap y then 29 else 28
  else if (m =? 4) || (m =? 6) || (m =? 9) || (m =? 11) then 30 else 31.
Definition days_from_civil (y m d : Z) : Z :=
  let y := if m <=? 2 then y - 1 else y in
  let era := y / 400 in
  let yoe := y mod 400 in
  let mp := (m + 9) mod 12 in
  let doy := (153 * mp + 2) / 5 + d - 1 in
  era * 146097 + (yoe * 365 + yoe / 4 - yoe / 100 + doy) - 719468.

(** A fraction of a second after ['.'] or [',']: its digits beyond the ninth are dropped. *)
Fixpoint fraction (s : string) (unit acc : Z) : Z * string :=
  match s with
  | String c r => match digit c with
                  | Some z => fraction r (unit / 10) (acc + z * unit)
                  | None => (acc, s)
                  end
  | "" => (acc, s)
  end.
Definition opt_fraction (s : string) : Z * string :=
  match s with
  | String c (String c1 _ as r) =>
      if (String.eqb (String c "") "." || String.eqb (String c "") ",") && bool_decide (is_Some (digit c1))
      then fraction r 100000000 0 else (0, s)
  | _ => (0, s)
  end.

(** The seconds east of UTC. *)
Definition zone (s : string) : option (Z * string) :=
  match s with
  | String c r =>
      let sign := String c "" in
      if String.eqb sign "Z" then Some (0, r)
      else
        '(hh, r) ← digits 2 r 0;
        r ← expect ":" r;
        '(mm, r) ← digits 2 r 0;
        if (24 <? hh) || (60 <? mm) then None
        else if String.eqb sign "+" then Some (hh * 3600 + mm * 60, r)
        else if String.eqb sign "-" then Some (- (hh * 3600 + mm * 60), r)
        else None
  | "" => None
  end.

(** The hour may have one digit. *)
Definition hour_digits (s : string) : option (Z * string) :=
  match digits 2 s 0 with Some r => Some r | None => digits 1 s 0 end.

(** The instant and its offset. *)
Definition time_Parse_zoned (s : string) : option (Z * Z) :=
  '(y, s) ← digits 4 s 0;
  s ← expect "-" s;
  '(mo, s) ← digits 2 s 0;
  s ← expect "-" s;
  '(d, s) ← digits 2 s 0;
  s ← expect "T" s;
  '(h, s) ← hour_digits s;
  s ← expect ":" s;
  '(mi, s) ← digits 2 s 0;
  s ← expect ":" s;
  '(sec, s) ← digits 2 s 0;
  let '(ns, s) := opt_fraction s in
  '(off, s) ← zone s;
  if str_empty s && (1 <=? mo) && (mo <=? 12) && (1 <=? d) && (d <=? days_in y mo) &&
     (h <=? 23) && (mi <=? 59) && (sec <=? 59)
  then Some ((days_from_civil y mo d * 86400 + h * 3600 + mi * 60 + sec - off) * second + ns, off)
  else None.
Definition time_Parse_RFC3339 (s : string) : option Z := fst <$> time_Parse_zoned s.

Example time_Parse_ex :
  time_Parse_RFC3339 "2024-02-29T12:34:56Z" = Some (1709210096 * second) /\
  time_Parse_RFC3339 "2024-02-29T12:34:56.25+02:00" = Some (1709202896 * second + 250000000) /\
  time_Parse_RFC3339 "2023-02-29T12:34:56Z" = None /\ time_Parse_RFC3339 "" = None.
Proof. split_and!; vm_compute; reflexivity. Qed.

(** ** Formatting and parsing are inverse *)

Lemma digits_app n : forall s acc v t, digits n s acc = Some (v, "") -> digits n (s +:+ t) acc = Some (v, t).
Proof.
  induction n as [|n IH]; intros [|c s] acc v t; simpl; try done.
  - by intros [= ->].
  - destruct (digit c); [apply IH|done].
Qed.

(** [p] on [z], [z + 1], ..., [n] of them. *)
Fixpoint all_from (p : Z -> bool) (n : nat) (z : Z) : bool :=
  match n with O => true | S n => p z && all_from p n (z + 1) end.
Lemma all_from_spec p n : forall z0 z,
  all_from p n z0 = true -> z0 <= z < z0 + Z.of_nat n -> p z = true.
Proof.
  induction n as [|n IH]; intros z0 z; simpl; [lia|]. intros [H0 H]%andb_true_iff Hz.
  destruct (decide (z = z0)) as [->|]; [done|]. apply (IH (z0 + 1)); [done|lia].
Qed.

Definition reads (n : nat) (f : Z -> string) (z : Z) : bool :=
  bool_decide (digits n (f z) 0 = Some (z, "")).
Lemma pad2_reads : all_from (reads 2 pad2) 100 0 = true.
Proof. vm_compute. reflexivity. Qed.
Lemma pad4_reads : all_from (reads 4 pad4) (Z.to_nat 10000) 0 = true.
Proof. vm_compute. reflexivity. Qed.

Lemma digits_pad2 z t : 0 <= z < 100 -> digits 2 (pad2 z +:+ t) 0 = Some (z, t).
Proof.
  intros Hz. apply digits_app. pose proof pad2_reads as Hp.
  apply (all_from_spec _ _ 0 z) in Hp; [|lia]. by apply bool_decide_eq_true in Hp.
Qed.
Lemma digits_pad4 z t : 0 <= z < 10000 -> digits 4 (pad4 z +:+ t) 0 = Some (z, t).
Proof.
  intros Hz. apply digits_app. pose proof pad4_reads as Hp.
  apply (all_from_spec _ _ 0 z) in Hp; [|lia]. by apply bool_decide_eq_true in Hp.
Qed.
Lemma expect_app p t : expect p (p +:+ t) = Some t.
Proof.
  unfold expect, has_prefix. rewrite prefix_app. f_equal.
  induction p as [|c p IH]; [done|]. rewrite str_app_cons. exact IH.
Qed.

(** Years within a 400-year era start in March. *)
Definition yoe_of (doe : Z) : Z := (doe - doe / 1460 + doe / 36524 - doe / 146096) / 365.
Definition year_start (y : Z) : Z := 365 * y + y / 4 - y / 100.
Definition year_end (y : Z) : Z := if y =? 399 then 146096 else year_start (y + 1) - 1.
Definition year_ok (y : Z) : bool :=
  (yoe_of (year_start y) =? y) && (yoe_of (year_end y) =? y) &&
  (year_end y - year_start y =? if is_leap (y + 1) then 365 else 364).
Lemma years_ok : all_from year_ok 400 0 = true.
Proof. vm_compute. reflexivity. Qed.

Definition month_day (doy : Z) : Z * Z :=
  let mp := (5 * doy + 2) / 153 in
  (if mp <? 10 then mp + 3 else mp - 9, doy - (153 * mp + 2) / 5 + 1).
Definition doy_ok (doy : Z) : bool :=
  let '(m, d) := month_day doy in
  (1 <=? m) && (m <=? 12) && (1 <=? d) && Bool.eqb (m <=? 2) (306 <=? doy) &&
  (d <=? if (m =? 2) && (doy =? 365) then 29 else days_in 1 m) &&
  ((153 * ((m + 9) mod 12) + 2) / 5 + d - 1 =? doy).
Lemma doys_ok : all_from doy_ok 366 0 = true.
Proof. vm_compute. reflexivity. Qed.

Lemma yoe_mono a b : 0 <= a <= b -> b < 146097 -> yoe_of a <= yoe_of b.
Proof.
  intros H Hb. unfold yoe_of. apply Z.div_le_mono; [lia|].
  Z.to_euclidean_division_equations; lia.
Qed.

Lemma year_spec y : 0 <= y < 400 ->
  yoe_of (year_start y) = y /\ yoe_of (year_end y) = y /\
  year_end y = year_start y + if is_leap (y + 1) then 365 else 364.
Proof.
  intros Hy. pose proof years_ok as Hok. apply (all_from_spec _ _ 0 y) in Hok; [|lia].
  unfold year_ok in Hok. bools. split_and!; lia.
Qed.

Lemma yoe_spec doe : 0 <= doe < 146097 ->
  0 <= yoe_of doe < 400 /\ year_start (yoe_of doe) <= doe <= year_end (yoe_of doe).
Proof.
  intros Hd.
  assert (Hy : 0 <= yoe_of doe < 400).
  { pose proof (yoe_mono 0 doe ltac:(lia) ltac:(lia)).
    pose proof (yoe_mono doe 146096 ltac:(lia) ltac:(lia)).
    change (yoe_of 0) with 0 in *. change (yoe_of 146096) with 399 in *. lia. }
  split; [done|]. split.
  - destruct (decide (year_start (yoe_of doe) <= doe)) as [|Hlt]; [done|exfalso].
    destruct (decide (yoe_of doe = 0)) as [E|E]; [rewrite E in Hlt; change (year_start 0) with 0 in Hlt; lia|].
    destruct (year_spec (yoe_of doe - 1) ltac:(lia)) as (_ & He & Hlen).
    assert (Hend : year_end (yoe_of doe - 1) = year_start (yoe_of doe) - 1).
    { unfold year_end. destruct (Z.eqb_spec (yoe_of doe - 1) 399); [lia|]. do 2 f_equal. lia. }
    pose proof (yoe_mono doe (year_end (yoe_of doe - 1)) ltac:(lia)) as Hm.
    rewrite He in Hm. cut (year_end (yoe_of doe - 1) < 146097); [lia|].
    rewrite Hend. unfold year_start. Z.to_euclidean_division_equations; lia.
  - destruct (decide (doe <= year_end (yoe_of doe))) as [|Hlt]; [done|exfalso].
    unfold year_end in Hlt. destruct (Z.eqb_spec (yoe_of doe) 399) as [E|E]; [lia|].
    destruct (year_spec (yoe_of doe + 1) ltac:(lia)) as (Hs & _).
    pose proof (yoe_mono (year_start (yoe_of doe + 1)) doe) as Hm. rewrite Hs in Hm.
    assert (0 <= year_start (yoe_of doe + 1))
      by (unfold year_start; Z.to_euclidean_division_equations; lia). lia.
Qed.

Lemma is_leap_era y k : is_leap (y + k * 400) = is_leap y.
Proof.
  unfold is_leap.
  replace ((y + k * 400) mod 4) with (y mod 4) by (Z.to_euclidean_division_equations; lia).
  replace ((y + k * 400) mod 100) with (y mod 100) by (Z.to_euclidean_division_equations; lia).
  by rewrite Z_mod_plus_full.
Qed.

Definition seconds_min : Z := -62167219200.   (** 0000-01-01T00:00:00Z *)
Definition seconds_max : Z := 253402300799.   (** 9999-12-31T23:59:59Z *)

Lemma civil_from_days_eq days :
  civil_from_days days =
    let doe := (days + 719468) mod 146097 in
    let '(m, d) := month_day (doe - year_start (yoe_of doe)) in
    (yoe_of doe + (days + 719468) / 146097 * 400 + (if m <=? 2 then 1 else 0), m, d).
Proof. reflexivity. Qed.

(** The date of a day is valid and names the day; years 0 to 9999 stay in range. *)
Lemma civil_roundtrip days :
  let '(y, m, d) := civil_from_days days in
  1 <= m <= 12 /\ 1 <= d <= days_in y m /\ days_from_civil y m d = days /\
  (-719528 <= days <= 2932896 -> 0 <= y < 10000).
Proof.
  rewrite civil_from_days_eq. cbv zeta. set (era := (days + 719468) / 146097).
  pose proof (Z.mod_pos_bound (days + 719468) 146097 ltac:(lia)) as Hdoe.
  pose proof (Z.div_mod (days + 719468) 146097 ltac:(lia)) as Hz. fold era in Hz.
  set (doe := (days + 719468) mod 146097) in *.
  destruct (yoe_spec doe Hdoe) as [Hy Hr]. destruct (year_spec (yoe_of doe) Hy) as (_ & _ & Hlen).
  set (yoe := yoe_of doe) in *.
  pose proof doys_ok as Hok. apply (all_from_spec _ _ 0 (doe - year_start yoe)) in Hok;
    [|destruct (is_leap (yoe + 1)); lia].
  unfold doy_ok in Hok. destruct (month_day _) as [m d]. bools.
  set (adj := if m <=? 2 then 1 else 0) in *.
  split; [lia|]. split; [split; [lia|]|split].
  - destruct (Z.eqb_spec m 2) as [->|Hm]; simpl in *.
    + unfold days_in. simpl. unfold adj. simpl.
      replace (yoe + era * 400 + 1) with (yoe + 1 + era * 400) by lia. rewrite is_leap_era.
      destruct (Z.eqb_spec (doe - year_start yoe) 365); destruct (is_leap (yoe + 1)); 
        change (days_in 1 2) with 28 in *; lia.
    + unfold days_in in *. by destruct (Z.eqb_spec m 2).
  - unfold days_from_civil. cbv zeta.
    replace (if m <=? 2 then yoe + era * 400 + adj - 1 else yoe + era * 400 + adj)
      with (yoe + era * 400) by (unfold adj; destruct (m <=? 2); lia).
    rewrite Z.div_add, Z_mod_plus_full, (Z.div_small yoe), (Z.mod_small yoe) by lia.
    unfold year_start in *. lia.
  - intros Hd. assert (Hera : -1 <= era <= 24) by lia.
    match goal with H : Bool.eqb _ _ = true |- _ => apply eqb_prop in H; rename H into Hm end.
    unfold adj. rewrite Hm. clear adj Hm.
    pose proof (yoe_mono 146037 doe) as Hlow. change (yoe_of 146037) with 399 in Hlow.
    fold yoe in Hlow.
    assert (yoe = 399 -> year_start yoe = 145731) by (by intros ->).
    destruct (Z.leb_spec 306 (doe - year_start yoe)); lia.
Qed.

Lemma time_Parse_Format t :
  seconds_min <= t / second <= seconds_max ->
  time_Parse_RFC3339 (fmt_RFC3339 t) = Some (t / second * second).
Proof.
  unfold seconds_min, seconds_max. intros Ht. unfold fmt_RFC3339, fmt_stamp. cbv zeta.
  set (s := t / second) in *.
  pose proof (civil_roundtrip (s / 86400)) as Hc.
  pose proof (Z.mod_pos_bound s 86400 ltac:(lia)) as Hr.
  pose proof (Z.div_mod s 86400 ltac:(lia)) as Hs.
  destruct (civil_from_days (s / 86400)) as [[y m] d]. destruct Hc as (Hm & Hd & Hback & Hy).
  specialize (Hy ltac:(lia)).
  assert (d <= 31) by (unfold days_in in Hd; repeat case_match; lia).
  set (r := s mod 86400) in *.
  assert (Hh : 0 <= r / 3600 < 24) by (Z.to_euclidean_division_equations; lia).
  assert (Hmi : 0 <= r mod 3600 / 60 < 60) by (Z.to_euclidean_division_equations; lia).
  assert (Hse : 0 <= r mod 60 < 60) by (Z.to_euclidean_division_equations; lia).
  assert (Hsum : r / 3600 * 3600 + r mod 3600 / 60 * 60 + r mod 60 = r)
    by (Z.to_euclidean_division_equations; lia).
  unfold time_Parse_RFC3339, time_Parse_zoned.
  rewrite digits_pad4 by lia. cbn [mbind option_bind]. rewrite expect_app. cbn [mbind option_bind].
  rewrite digits_pad2 by lia. cbn [mbind option_bind]. rewrite expect_app. cbn [mbind option_bind].
  rewrite digits_pad2 by lia. cbn [mbind option_bind]. rewrite expect_app. cbn [mbind option_bind].
  unfold hour_digits.
  rewrite digits_pad2 by lia. cbn [mbind option_bind]. rewrite expect_app. cbn [mbind option_bind].
  rewrite digits_pad2 by lia. cbn [mbind option_bind]. rewrite expect_app. cbn [mbind option_bind].
  rewrite digits_pad2 by lia. cbn [mbind option_bind].
  change (opt_fraction "Z") with (0, "Z"). cbv beta iota zeta.
  change (zone "Z") with (Some (0, "")). cbn [mbind option_bind]. rewrite Hback.
  match goal with |- _ <$> (if ?b then _ else _) = _ => replace b with true end.
  - simpl. f_equal. lia.
  - symmetry. rewrite !andb_true_iff, !Z.leb_le. split_and!; [done|lia..].
Qed.

(** ** The [belief_meta] column ([decodeBeliefMeta] in [db.go]) *)

(** [int(v)] of the [float64] a JSON number decodes to; out of range it is the
    indefinite integer of amd64. *)
Definition f_to_int (x : float64) : Z :=
  match x with
  | S754_finite s m e =>
      let v := if 0 <=? e then Z.pos m * 2 ^ e else Z.pos m / 2 ^ (- e) in
      let z := if s then - v else v in
      if (int64_min <=? z) && (z <=? int64_max) then z else int64_min
  | S754_zero _ => 0
  | _ => int64_min
  end.

(** An absent column ([{}]) and absent keys decode to zero values. *)
Definition decodeBeliefMeta (c : option BeliefColumn) : BeliefMeta :=
  match c with
  | None => {| bm_BaseConfidence := f_zero; bm_AnchorAt := time_zero; bm_InferenceDistance := 0;
               bm_VerificationState := ""; bm_Source := ""; bm_EmotionalRegister := "" |}
  | Some c =>
      {| bm_BaseConfidence := f_zero;
         bm_AnchorAt := default time_zero (time_Parse_RFC3339 (bc_anchor_at c));
         bm_InferenceDistance := f_to_int (f_of_Z (bc_inference_distance c));
         bm_VerificationState := bc_verification_state c;
         bm_Source := bc_source c; bm_EmotionalRegister := "" |}
  end.

(** ** Integers of fewer than 54 bits survive the trip through [float64] *)

Lemma digits2_iter m d : Z.pos (digits2_pos (Pos.iter xO m d)) = Z.pos (digits2_pos m) + Z.pos d.
Proof.
  induction d as [|d IH] using Pos.peano_ind; [simpl; lia|].
  rewrite Pos.iter_succ. simpl. rewrite Pos2Z.inj_succ, IH. lia.
Qed.
Lemma iter_xO m d : Z.pos (Pos.iter xO m d) = Z.pos m * 2 ^ Z.pos d.
Proof.
  induction d as [|d IH] using Pos.peano_ind; [simpl; lia|].
  rewrite Pos.iter_succ, Pos2Z.inj_xO, IH, Pos2Z.inj_succ, Z.pow_succ_r by lia. lia.
Qed.
Lemma digits2_lower m : 2 ^ (Z.pos (digits2_pos m) - 1) <= Z.pos m.
Proof.
  induction m as [m IH|m IH|]; cbn [digits2_pos]; [| |simpl; lia];
    rewrite Pos2Z.inj_succ; replace (Z.succ _ - 1) with (Z.succ (Z.pos (digits2_pos m) - 1)) by lia;
    rewrite Z.pow_succ_r by lia; lia.
Qed.
Lemma digits2_bound m k : 0 <= k -> Z.pos m < 2 ^ k -> Z.pos (digits2_pos m) <= k.
Proof.
  intros Hk H. pose proof (digits2_lower m) as Hl.
  assert (2 ^ (Z.pos (digits2_pos m) - 1) < 2 ^ k) as Hp by lia.
  apply Z.pow_lt_mono_r_iff in Hp; lia.
Qed.

(** A mantissa already in canonical form is returned as it is. *)
Lemma binary_round_aux_exact s m e :
  fexp f_prec f_emax (Z.pos (digits2_pos m) + e) = e -> e <= f_emax - f_prec ->
  binary_round_aux f_prec f_emax s (Z.pos m) e loc_Exact = S754_finite s m e.
Proof.
  intros Hf He. unfold binary_round_aux, shr_fexp. cbn [Zdigits2].
  rewrite Hf, Z.sub_diag. cbn [shr shr_record_of_loc loc_of_shr_record shr_m round_nearest_even Zdigits2].
  rewrite Hf, Z.sub_diag. cbn [shr shr_record_of_loc shr_m].
  by destruct (Z.leb_spec e (f_emax - f_prec)); [|lia].
Qed.

Lemma binary_round_small s m : Z.pos m < 2 ^ 53 ->
  exists m' k, 0 <= k <= 53 /\ Z.pos m' = Z.pos m * 2 ^ k /\
    binary_round f_prec f_emax s m 0 = S754_finite s m' (- k).
Proof.
  intros Hm. apply digits2_bound in Hm; [|lia]. set (n := Z.pos (digits2_pos m)) in *.
  assert (Hn : 1 <= n) by lia.
  assert (Hf : fexp f_prec f_emax (n + 0) = n - 53)
    by (unfold fexp, SpecFloat.emin, f_prec, f_emax; lia).
  assert (Hround : binary_round f_prec f_emax s m 0 =
    let '(mz, ez) := shl_align m 0 (n - 53) in
    binary_round_aux f_prec f_emax s (Z.pos mz) ez loc_Exact) by (rewrite <- Hf; reflexivity).
  rewrite Hround. unfold shl_align. change (IntDef.Z.sub (n - 53) 0) with (n - 53 - 0).
  destruct (n - 53 - 0) as [|d|d] eqn:Ed; [|lia|].
  - exists m, 0. split_and!; [lia..|]. apply binary_round_aux_exact; [|done].
    fold n. unfold fexp, SpecFloat.emin, f_prec, f_emax. lia.
  - exists (Pos.iter xO m d), (Z.pos d). split_and!; [lia|lia|apply iter_xO|].
    replace (n - 53) with (- Z.pos d) by lia. apply binary_round_aux_exact; [|done].
    rewrite digits2_iter. fold n. unfold fexp, SpecFloat.emin, f_prec, f_emax. lia.
Qed.

Lemma f_to_int_finite s m m' k :
  0 <= k -> Z.pos m' = Z.pos m * 2 ^ k -> Z.pos m < 2 ^ 53 ->
  f_to_int (S754_finite s m' (- k)) = if s then Z.neg m else Z.pos m.
Proof.
  intros Hk Hm Hb. unfold f_to_int.
  assert (Hv : (if 0 <=? - k then Z.pos m' * 2 ^ (- k) else Z.pos m' / 2 ^ (- - k)) = Z.pos m).
  { rewrite Z.opp_involutive, Hm. destruct (Z.leb_spec 0 (- k)).
    - replace k with 0 by lia. simpl. lia.
    - rewrite Z.div_mul; [done|]. pose proof (Z.pow_pos_nonneg 2 k). lia. }
  cbv zeta. rewrite Hv. unfold int64_min, int64_max.
  destruct s; [change (- Z.pos m) with (Z.neg m)|];
    match goal with |- (if ?b then _ else _) = _ => replace b with true; [done|symmetry] end;
    rewrite andb_true_iff, !Z.leb_le; lia.
Qed.

Lemma f_to_int_of_Z z : - 2 ^ 53 < z < 2 ^ 53 -> f_to_int (f_of_Z z) = z.
Proof.
  intros Hz. unfold f_of_Z, binary_normalize. destruct z as [|m|m]; [done| |].
  - destruct (binary_round_small false m) as (m' & k & Hk & Hm & ->); [lia|].
    by rewrite (f_to_int_finite false m m' k) by lia.
  - destruct (binary_round_small true m) as (m' & k & Hk & Hm & ->); [lia|].
    by rewrite (f_to_int_finite true m m' k) by lia.
Qed.

(** ** The statements ([edges.go], SQLite) *)

Definition set_state (state : string) (c : option BeliefColumn) : option BeliefColumn :=
  match c with
  | Some c => Some {| bc_anchor_at := bc_anchor_at c; bc_inference_distance := bc_inference_distance c;
                      bc_verification_state := state; bc_source := bc_source c;
                      bc_emotional_register := bc_emotional_register c |}
  | None => Some {| bc_anchor_at := ""; bc_inference_distance := 0;
                    bc_verification_state := state; bc_source := ""; bc_emotional_register := None |}
  end.
Definition set_narrative_state (state : string) (r : NarrativeRow) : NarrativeRow :=
  {| nr_id := nr_id r; nr_session_id := nr_session_id r; nr_content := nr_content r;
     nr_embedding := nr_embedding r; nr_belief_meta := set_state state (nr_belief_meta r);
     nr_content_sources := nr_content_sources r; nr_aegis_meta := nr_aegis_meta r;
     nr_created_at := nr_created_at r |}.
Definition set_reflection_state (state : string) (r : ReflectionRow) : ReflectionRow :=
  {| re_id := re_id r; re_type := re_type r; re_content := re_content r;
     re_base_confidence := re_base_confidence r;
     re_belief_meta := set_state state (re_belief_meta r); re_embedding := re_embedding r;
     re_visibility := re_visibility r; re_created_at := re_created_at r |}.
Definition set_entity_state (state : string) (r : EntityRow) : EntityRow :=
  {| ke_id := ke_id r; ke_name := ke_name r; ke_type := ke_type r; ke_content := ke_content r;
     ke_belief_meta := set_state state (ke_belief_meta r); ke_embedding := ke_embedding r;
     ke_created := ke_created r; ke_expired := ke_expired r |}.
Definition set_relationship_state (state : string) (r : RelationshipRow) : RelationshipRow :=
  {| kr_id := kr_id r; kr_from := kr_from r; kr_to := kr_to r; kr_type := kr_type r;
     kr_summary := kr_summary r; kr_belief_meta := set_state state (kr_belief_meta r);
     kr_expired := kr_expired r |}.

(** [UPDATE t SET belief_meta = json_set(belief_meta, '$.verification_state', state)
    WHERE id = i]; [experiential_logs] has no such column. *)
Definition update_state (table i state : string) (d : Database) : result Database :=
  if String.eqb table "narrative_summaries" then
    Ok (set_narratives (updateb (fun r => String.eqb (nr_id r) i) (set_narrative_state state)) d)
  else if String.eqb table "reflections" then
    Ok (set_memory id (updateb (fun r => String.eqb (re_id r) i) (set_reflection_state state)) id d)
  else if String.eqb table "kg_entities" then
    Ok (set_memory id id (updateb (fun r => String.eqb (ke_id r) i) (set_entity_state state)) d)
  else if String.eqb table "kg_relationships" then
    Ok (set_relationships (updateb (fun r => String.eqb (kr_id r) i) (set_relationship_state state)) d)
  else Err (ENew "no such column: belief_meta").

Definition validTierTables : list string :=
  ["narrative_summaries"; "reflections"; "kg_entities"; "kg_relationships"; "experiential_logs"].
Definition tierTableName (tier : Z) : result string :=
  if tier =? 2 then Ok "experiential_logs" else if tier =? 3 then Ok "narrative_summaries"
  else if tier =? 4 then Ok "reflections" else if tier =? 5 then Ok "kg_entities"
  else Err (ENew ("platform: unknown tier " +:+ fmt_d tier)).

Definition is_derived (e : MemoryEdge) : bool := String.eqb (me_EdgeType e) EdgeDerivedFrom.
Definition same_edge (e e' : MemoryEdge) : bool :=
  String.eqb (me_FromID e) (me_FromID e') && String.eqb (me_ToID e) (me_ToID e') &&
  String.eqb (me_EdgeType e) (me_EdgeType e').

(** The CHECKs and UNIQUE constraints of [memory_edges], with
    [ON CONFLICT (from_id, to_id, edge_type) DO NOTHING]. *)
Definition insert_edge (e : MemoryEdge) (rows : list MemoryEdge) : result (list MemoryEdge) :=
  if negb (one_of (me_EdgeType e) validEdgeTypes && one_of (me_Author e) validEdgeAuthors)
  then Err (ENew "CHECK constraint failed: memory_edges")
  else if existsb (same_edge e) rows then Ok rows
  else insert_pk me_ID e rows.

(** [belief_meta NOT LIKE '%"verification_state":"stale"%']; LIKE ignores ASCII case. *)
Definition live (c : option BeliefColumn) : bool :=
  match c with
  | None => false
  | Some c => negb (String.eqb (str_map lower_byte (bc_verification_state c)) "stale")
  end.
Definition narrative_belief (r : NarrativeRow) : BeliefRecord :=
  {| rec_ID := nr_id r; rec_Belief := Some (decodeBeliefMeta (nr_belief_meta r));
     rec_TableName := "narrative_summaries" |}.
Definition entity_belief (r : EntityRow) : BeliefRecord :=
  {| rec_ID := ke_id r; rec_Belief := Some (decodeBeliefMeta (ke_belief_meta r));
     rec_TableName := "kg_entities" |}.
Definition with_base (c : float64) (b : BeliefMeta) : BeliefMeta :=
  {| bm_BaseConfidence := c; bm_AnchorAt := bm_AnchorAt b;
     bm_InferenceDistance := bm_InferenceDistance b;
     bm_VerificationState := bm_VerificationState b; bm_Source := bm_Source b;
     bm_EmotionalRegister := bm_EmotionalRegister b |}.
Definition reflection_belief (r : ReflectionRow) : BeliefRecord :=
  {| rec_ID := re_id r;
     rec_Belief := Some (with_base (default f_zero (re_base_confidence r))
                           (decodeBeliefMeta (re_belief_meta r)));
     rec_TableName := "reflections" |}.
Definition agent_rated (r : ReflectionRow) : bool :=
  match re_base_confidence r with Some _ => true | None => false end && live (re_belief_meta r).

Section SQLite.
Context `{Env}.

Definition CreateEdge (fromID toID : string) (fromTier toTier : Z) (edgeType author : string)
    : M World unit :=
  let! i := newID in
  wrapM ("platform: inserting edge from=" +:+ fromID +:+ " to=" +:+ toID +:+ " type=" +:+ edgeType)
    (exec (fun d now =>
       let? rows := insert_edge {| me_ID := i; me_FromID := fromID; me_FromTier := fromTier;
                                   me_ToID := toID; me_ToTier := toTier; me_EdgeType := edgeType;
                                   me_Author := author; me_CreatedAt := now * second |} (db_edges d) in
       Ok (set_memory (fun _ => rows) id id d, tt))).

Definition GetEdges (recordID direction : string) : M World (list MemoryEdge) :=
  if one_of direction ["from"; "to"] then
    let! rows := wrapM ("platform: querying edges for " +:+ recordID +:+ " (direction=" +:+ direction +:+ ")")
      (query (fun d _ =>
         Ok (order_by me_CreatedAt
               (whereb (fun e => String.eqb (if String.eqb direction "from" then me_FromID e
                                             else me_ToID e) recordID) (db_edges d))))) in
    scan_times "platform: scanning edge row" rows
  else fail (ENew ("platform: direction must be 'from' or 'to', got " +:+ fmt_q direction)).

Definition FetchDownstreamEdges (i : string) : M World (list EdgeNode) :=
  wrapM ("platform: querying downstream edges of " +:+ i)
    (query (fun d _ =>
       Ok (map (fun e => {| edge_ID := me_FromID e; edge_Tier := me_FromTier e |})
             (whereb (fun e => String.eqb (me_ToID e) i && is_derived e) (db_edges d))))).

Definition QueryEdgesForBFS (i : string) : M World (list EdgeNode) :=
  wrapM ("platform: querying BFS edges for " +:+ i)
    (query (fun d _ =>
       Ok (map (fun e => {| edge_ID := me_ToID e; edge_Tier := me_ToTier e |})
             (whereb (fun e => String.eqb (me_FromID e) i && is_derived e) (db_edges d))))).

Definition UpdateVerificationState (table i state : string) : M World unit :=
  if one_of table validTierTables
  then exec (fun d _ => let? d' := update_state table i state d in Ok (d', tt))
  else fail (ENew ("platform: invalid table name " +:+ fmt_q table +:+ " — not in tier allowlist")).

Definition MarkNeedsReview (i : string) (tier : Z) : M World unit :=
  match tierTableName tier with
  | Err e => fail e
  | Ok table =>
      if tier =? 2 then ret tt
      else wrapM ("platform: marking needs_review on " +:+ table +:+ "." +:+ i)
             (exec (fun d _ => let? d' := update_state table i "needs_review" d in Ok (d', tt)))
  end.

Definition LoadBeliefRecords : M World (list BeliefRecord) :=
  let! narratives := wrapM "platform: querying narrative_summaries"
    (query (fun d _ => Ok (map narrative_belief
       (whereb (fun r => live (nr_belief_meta r)) (db_narratives d))))) in
  let! entities := wrapM "platform: querying kg_entities"
    (query (fun d _ => Ok (map entity_belief
       (whereb (fun r => live (ke_belief_meta r)) (db_entities d))))) in
  let! reflections := wrapM "platform: querying reflections"
    (query (fun d _ => Ok (map reflection_belief (whereb agent_rated (db_reflections d))))) in
  ret (narratives ++ entities ++ reflections).

#[global] Instance SQLiteEdgeStore : EdgeStore World :=
  {| store_CreateEdge := CreateEdge; store_GetEdges := GetEdges;
     Memory.FetchDownstreamEdges := FetchDownstreamEdges |}.
#[global] Instance SQLiteBeliefStore : BeliefStore World :=
  {| Memory.LoadBeliefRecords := LoadBeliefRecords;
     Memory.UpdateVerificationState := UpdateVerificationState;
     Memory.QueryEdgesForBFS := QueryEdgesForBFS; Memory.MarkNeedsReview := MarkNeedsReview |}.

(** ** The store keeps what the interface promises *)

Definition from_node (e : MemoryEdge) : EdgeNode :=
  {| edge_ID := me_FromID e; edge_Tier := me_FromTier e |}.
Definition to_node (e : MemoryEdge) : EdgeNode :=
  {| edge_ID := me_ToID e; edge_Tier := me_ToTier e |}.
Definition db_links (d : Database) : list (EdgeNode * EdgeNode) :=
  map (fun e => (from_node e, to_node e)) (whereb is_derived (db_edges d)).
Definition column_state (c : option BeliefColumn) : string :=
  match c with Some c => bc_verification_state c | None => "" end.
Definition db_state (d : Database) (n : EdgeNode) : option string :=
  let i := edge_ID n in
  if edge_Tier n =? 3
  then (fun r => column_state (nr_belief_meta r)) <$> find_by nr_id i (db_narratives d)
  else if edge_Tier n =? 4
  then (fun r => column_state (re_belief_meta r)) <$> find_by re_id i (db_reflections d)
  else if edge_Tier n =? 5
  then (fun r => column_state (ke_belief_meta r)) <$> find_by ke_id i (db_entities d)
  else None.
Definition db_beliefs (d : Database) : list BeliefRecord :=
  map narrative_belief (whereb (fun r => live (nr_belief_meta r)) (db_narratives d)) ++
  map entity_belief (whereb (fun r => live (ke_belief_meta r)) (db_entities d)) ++
  map reflection_belief (whereb agent_rated (db_reflections d)).
Definition sqlite_view (w : World) : MemoryView :=
  {| mv_links := db_links (w_db w); mv_state := db_state (w_db w);
     mv_beliefs := db_beliefs (w_db w) |}.

Lemma query_wrap_cases {A} msg (f : Database -> Z -> result A) w w' r :
  wrapM msg (query f) w = (w', r) ->
  w_db w' = w_db w /\ match r with Ok a => f (w_db w) (w_clock w) = Ok a | Err _ => True end.
Proof.
  unfold wrapM. destruct (query f w) as [w1 r1] eqn:E. intros [= <- <-].
  pose proof E as E'. apply query_frame in E' as [Hd _]. split; [done|]. destruct r1 as [a|e]; [|done]. simpl.
  unfold query in E. apply exec_cases in E as [_ E].
  destruct (f (w_db w) (w_clock w)); by simplify_eq/=.
Qed.

Lemma sqlite_view_db w w' : w_db w' = w_db w -> sqlite_view w' = sqlite_view w.
Proof. unfold sqlite_view. by intros ->. Qed.

(** How an update of one row's state shows in a table's view. *)
Lemma state_after_update {A} (key : A -> string) (st : A -> string) (f : A -> A) i j s rows :
  (forall r, key (f r) = key r) -> (forall r, st (f r) = s) ->
  st <$> find_by key j (updateb (fun r => String.eqb (key r) i) f rows)
  = if bool_decide (j = i) then (fun _ => s) <$> (st <$> find_by key j rows)
    else st <$> find_by key j rows.
Proof.
  intros Hk Hs. rewrite (find_by_updateb key) by done.
  destruct (find_by key j rows) as [r|] eqn:E; simpl; [|by case_bool_decide].
  apply find_by_Some in E as [_ <-]. case_bool_decide as Hj.
  - by rewrite Hj, String.eqb_refl, Hs.
  - by apply String.eqb_neq in Hj as ->.
Qed.

Lemma beliefs_after_update {A} (g : A -> BeliefRecord) (p q : A -> bool) (r : BeliefRecord -> bool)
    (f : A -> A) l :
  (forall x, q x = true -> p (f x) = false) -> (forall x, r (g x) = q x) ->
  map g (whereb p (updateb q f l)) = whereb (fun x => negb (r x)) (map g (whereb p l)).
Proof.
  intros Hp Hr. induction l as [|x l IH]; [done|]. simpl. destruct (q x) eqn:Eq.
  - rewrite Hp by done. destruct (p x); [|done]. simpl. by rewrite Hr, Eq.
  - destruct (p x); [|done]. simpl. rewrite Hr, Eq. simpl. by f_equal.
Qed.

Lemma other_table {A} (g : A -> BeliefRecord) table i l :
  (forall x, rec_TableName (g x) <> table) ->
  whereb (fun rec => negb (is_record table i rec)) (map g l) = map g l.
Proof.
  intros Ht. apply whereb_all. intros x (y & _ & <-)%elem_of_map. unfold is_record.
  specialize (Ht y). apply String.eqb_neq in Ht as ->. done.
Qed.

Lemma live_stale c : live (set_state "stale" c) = false.
Proof. by destruct c. Qed.

Lemma update_state_stale table i d d' :
  update_state table i "stale" d = Ok d' ->
  db_links d' = db_links d /\
  db_beliefs d' = whereb (fun rec => negb (is_record table i rec)) (db_beliefs d).
Proof.
  unfold update_state, db_beliefs. rewrite !whereb_app.
  destruct (String.eqb table "narrative_summaries") eqn:E1; bools.
  { intros [= <-]. subst table. split; [done|]. simpl.
    rewrite (other_table entity_belief), (other_table reflection_belief) by done. f_equal.
    apply beliefs_after_update; [by intros; apply live_stale|done]. }
  destruct (String.eqb table "reflections") eqn:E2; bools.
  { intros [= <-]. subst table. split; [done|]. simpl.
    rewrite (other_table entity_belief), (other_table narrative_belief) by done. do 2 f_equal.
    apply beliefs_after_update; [|done]. intros r _. unfold agent_rated. simpl.
    by rewrite live_stale, andb_false_r. }
  destruct (String.eqb table "kg_entities") eqn:E3; bools.
  { intros [= <-]. subst table. split; [done|]. simpl.
    rewrite (other_table reflection_belief), (other_table narrative_belief) by done. do 2 f_equal.
    apply beliefs_after_update; [by intros; apply live_stale|done]. }
  destruct (String.eqb table "kg_relationships") eqn:E4; bools; [|done].
  intros [= <-]. subst table. split; [done|]. by rewrite !other_table by done.
Qed.

Lemma update_state_review n table d d' :
  tierTableName (edge_Tier n) = Ok table -> edge_Tier n <> 2 ->
  update_state table (edge_ID n) "needs_review" d = Ok d' ->
  db_links d' = db_links d /\
  forall m, db_state d' m = if bool_decide (m = n) then (fun _ => "needs_review") <$> db_state d m
                            else db_state d m.
Proof.
  destruct n as [i t]. unfold tierTableName, update_state, db_state. simpl. intros Ht Hne.
  assert (Hm : forall m, edge_Tier m = t ->
    bool_decide (m = {| edge_ID := i; edge_Tier := t |}) = bool_decide (edge_ID m = i)).
  { intros [j u]. simpl. intros ->. apply bool_decide_ext. naive_solver. }
  assert (Hn : forall m, edge_Tier m <> t ->
    bool_decide (m = {| edge_ID := i; edge_Tier := t |}) = false).
  { intros [j u] Hu. apply bool_decide_eq_false. naive_solver. }
  destruct (t =? 2) eqn:E2; bools; [done|].
  destruct (t =? 3) eqn:E3; bools; [|destruct (t =? 4) eqn:E4; bools;
    [|destruct (t =? 5) eqn:E5; bools; [|done]]]; injection Ht as <-; simpl;
    intros [= <-]; (split; [done|]); intros m; simpl;
    repeat match goal with
    | |- context [edge_Tier m =? ?k] => destruct (Z.eqb_spec (edge_Tier m) k)
    end; try lia; try (rewrite Hn by lia; done); rewrite Hm by lia;
    apply state_after_update; try done; by intros r; destruct r as [? ? ? ? [] ? ? ?].
Qed.

Lemma links_from {B} (g : MemoryEdge -> B) (h : EdgeNode * EdgeNode -> B) (p : MemoryEdge -> bool)
    (q : EdgeNode * EdgeNode -> bool) rows :
  (forall e, g e = h (from_node e, to_node e)) -> (forall e, p e = q (from_node e, to_node e)) ->
  map g (whereb (fun e => p e && is_derived e) rows)
  = map h (whereb q (map (fun e => (from_node e, to_node e)) (whereb is_derived rows))).
Proof.
  intros Hg Hp. induction rows as [|e rows IH]; [done|]. simpl. rewrite Hp.
  destruct (is_derived e); simpl; rewrite ?andb_true_r, ?andb_false_r; [|done].
  destruct (q _); simpl; [|done]. by rewrite Hg, IH.
Qed.

(** The database with the review states of T3, T4 and T5 blanked. *)
Definition besides_states (d : Database) : Database :=
  set_narratives (map (set_narrative_state ""))
    (set_memory id (map (set_reflection_state "")) (map (set_entity_state "")) d).

Lemma update_state_rest t table i s d d' :
  tierTableName t = Ok table -> update_state table i s d = Ok d' ->
  besides_states d' = besides_states d.
Proof.
  unfold tierTableName, update_state, besides_states. intros Ht.
  destruct (t =? 2); [by simplify_eq|]. destruct (t =? 3); [|destruct (t =? 4); [|destruct (t =? 5); [|done]]];
    injection Ht as <-; simpl; intros [= <-]; unfold set_narratives, set_memory; simpl;
    rewrite map_updateb; first [done|intros r; by destruct r as [? ? ? ? [] ? ? ?]
                                    |intros r; by destruct r as [? ? ? ? [] ? ?]].
Qed.

#[global] Program Instance SQLiteMemoryLaws : MemoryLaws World :=
  {| memory_view := sqlite_view; memory_rest := fun w => besides_states (w_db w) |}.
Next Obligation.
  intros i w. unfold Memory.FetchDownstreamEdges. simpl. unfold FetchDownstreamEdges.
  destruct (wrapM _ (query _) w) as [w' r] eqn:E. apply query_wrap_cases in E as [E _]. simpl. by rewrite E.
Qed.
Next Obligation.
  intros i t w. simpl. unfold MarkNeedsReview.
  destruct (tierTableName t) as [table|e] eqn:Et; [|done]. destruct (t =? 2); [done|].
  destruct (wrapM _ (exec _) w) as [w' r] eqn:E. apply exec_wrap_cases in E as [_ E]. simpl.
  destruct r as [u|e]; [|by rewrite E].
  destruct (update_state _ _ _ (w_db w)) as [d'|] eqn:Eu; [|done]. simpl in E. injection E as ->.
  by eapply update_state_rest.
Qed.
Next Obligation.
  intros i w w' r E. apply query_wrap_cases in E as [Hd E]. split; [by apply sqlite_view_db|].
  destruct r; [|done]. injection E as <-. by apply links_from.
Qed.
Next Obligation.
  intros i w w' r E. apply query_wrap_cases in E as [Hd E]. split; [by apply sqlite_view_db|].
  destruct r; [|done]. injection E as <-. by apply links_from.
Qed.
Next Obligation.
  intros n w w' r. simpl. unfold MarkNeedsReview.
  destruct (tierTableName (edge_Tier n)) as [table|e] eqn:Et; [|by intros [= <- <-]].
  destruct (Z.eqb_spec (edge_Tier n) 2) as [E2|E2].
  - intros [= <- <-]. split; [done|]. intros m. case_bool_decide as Hm; [|done]. subst m.
    unfold db_state. by rewrite E2.
  - intros E. apply exec_wrap_cases in E as [_ E]. unfold sqlite_view. destruct r as [u|e].
    + destruct (update_state _ _ _ (w_db w)) as [d'|] eqn:Eu; [|done]. simpl in E.
      injection E as ->. by apply (update_state_review n table).
    + by rewrite E.
Qed.
Next Obligation.
  intros w w' r. simpl. unfold LoadBeliefRecords, bind.
  destruct (wrapM _ (query _) w) as [w1 [n|e]] eqn:E1; apply query_wrap_cases in E1 as [D1 E1];
    [|intros [= <- <-]; split; [by apply sqlite_view_db|done]].
  destruct (wrapM _ (query _) w1) as [w2 [k|e]] eqn:E2; apply query_wrap_cases in E2 as [D2 E2];
    [|intros [= <- <-]; split; [apply sqlite_view_db; congruence|done]].
  destruct (wrapM _ (query _) w2) as [w3 [f|e]] eqn:E3; apply query_wrap_cases in E3 as [D3 E3];
    [|intros [= <- <-]; split; [apply sqlite_view_db; congruence|done]].
  unfold ret. intros [= <- <-]. split; [apply sqlite_view_db; congruence|].
  rewrite D2, D1 in E3. rewrite D1 in E2.
  injection E1 as <-. injection E2 as <-. injection E3 as <-. done.
Qed.
Next Obligation.
  intros table i w w' r. simpl. unfold UpdateVerificationState.
  destruct (one_of table validTierTables); [|by intros [= <- <-]].
  intros E. apply exec_cases in E as [_ E]. unfold sqlite_view. destruct r as [u|e].
  - destruct (update_state _ _ _ (w_db w)) as [d'|] eqn:Eu; [|done]. simpl in E.
    injection E as ->. by apply update_state_stale.
  - by rewrite E.
Qed.

(** ** Properties on SQLite *)

Lemma belief_column_eq b :
  seconds_min <= bm_AnchorAt b / second <= seconds_max ->
  - 2 ^ 53 < bm_InferenceDistance b < 2 ^ 53 ->
  decodeBeliefMeta (beliefMetaJSON (Some b)) =
  {| bm_BaseConfidence := f_zero; bm_AnchorAt := bm_AnchorAt b / second * second;
     bm_InferenceDistance := bm_InferenceDistance b;
     bm_VerificationState := bm_VerificationState b; bm_Source := bm_Source b;
     bm_EmotionalRegister := "" |}.
Proof using Type.
  intros Ha Hd. unfold decodeBeliefMeta, beliefMetaJSON. cbn [bc_anchor_at bc_inference_distance
    bc_verification_state bc_source]. by rewrite time_Parse_Format, f_to_int_of_Z by done.
Qed.

(** What [beliefMetaJSON] writes of a belief, [decodeBeliefMeta] reads back: the
    anchor to the second, the distance, the state and the source; the base confidence
    reads as 0 and the emotional register as empty. *)
Theorem belief_column_roundtrip b :
  seconds_min <= bm_AnchorAt b / second <= seconds_max ->
  - 2 ^ 53 < bm_InferenceDistance b < 2 ^ 53 ->
  decodeBeliefMeta (beliefMetaJSON (Some b)) =
  {| bm_BaseConfidence := f_zero; bm_AnchorAt := bm_AnchorAt b / second * second;
     bm_InferenceDistance := bm_InferenceDistance b;
     bm_VerificationState := bm_VerificationState b; bm_Source := bm_Source b;
     bm_EmotionalRegister := "" |}.
Proof using Type.
  apply belief_column_eq.
Qed.

(** The edges the validated path stores. *)
Definition edge_ok (e : MemoryEdge) : Prop :=
  me_EdgeType e ∈ validEdgeTypes /\ me_Author e ∈ validEdgeAuthors /\
  2 <= me_FromTier e <= 5 /\ 2 <= me_ToTier e <= 5.
Definition edge_key (e : MemoryEdge) : string * string * string :=
  (me_FromID e, me_ToID e, me_EdgeType e).
Definition edges_ok (rows : list MemoryEdge) : Prop :=
  (forall e, e ∈ rows -> edge_ok e) /\ NoDup (map me_ID rows) /\ NoDup (map edge_key rows).

Lemma same_edge_key e e' : same_edge e e' = true <-> edge_key e = edge_key e'.
Proof using Type.
  unfold same_edge, edge_key. rewrite !andb_true_iff, !String.eqb_eq. split.
  - by intros [[-> ->] ->].
  - by intros [= -> -> ->].
Qed.

Lemma insert_edge_Ok e rows rows' :
  insert_edge e rows = Ok rows' -> edges_ok rows -> edge_ok e ->
  edges_ok rows' /\ (exists e', e' ∈ rows' /\ edge_key e' = edge_key e) /\
  (rows' = rows \/ rows' = rows ++ [e] /\ edge_key e ∉ map edge_key rows).
Proof using Type.
  unfold insert_edge. destruct (negb _); [done|].
  destruct (existsb (same_edge e) rows) eqn:Ee.
  - intros [= <-] Hok _. split; [done|]. split; [|by left].
    apply existsb_exists in Ee as (e' & Hin & Hs). apply same_edge_key in Hs.
    exists e'. split; [by apply list_elem_of_In|done].
  - intros Hi (H1 & H2 & H3) He. apply insert_pk_Ok in Hi as [-> Hnd].
    assert (Hf : edge_key e ∉ map edge_key rows).
    { intros (e' & Hin & Hk)%elem_of_map.
      assert (existsb (same_edge e) rows = true); [|congruence].
      apply existsb_exists. exists e'. split; [by apply list_elem_of_In|by apply same_edge_key]. }
    split; [split_and!|split; [exists e; set_solver|by right]].
    + intros x [Hx|Hx]%elem_of_app; [by apply H1|]. apply list_elem_of_singleton in Hx as ->. done.
    + by apply Hnd.
    + rewrite map_app. apply NoDup_app. split_and!; [done| |apply NoDup_singleton].
      intros k Hk. simpl. intros ->%list_elem_of_singleton. done.
Qed.

(** [memory.CreateEdge] keeps the edge table well-formed (declared types and
    authors, tiers 2 to 5, unique IDs, one edge per source, target and type). It
    succeeds only with such an edge in the table, adds at most that edge, and an error
    leaves the database unchanged. *)
Theorem CreateEdge_wellformed w w' r fromID toID fromTier toTier edgeType author :
  edges_ok (db_edges (w_db w)) ->
  Memory.CreateEdge fromID toID fromTier toTier edgeType author w = (w', r) ->
  edges_ok (db_edges (w_db w')) /\
  match r with
  | Err _ => w_db w' = w_db w
  | Ok _ =>
      edgeType ∈ validEdgeTypes /\ author ∈ validEdgeAuthors /\
      2 <= fromTier <= 5 /\ 2 <= toTier <= 5 /\
      (fromID, toID, edgeType) ∈ map edge_key (db_edges (w_db w')) /\
      (db_edges (w_db w') = db_edges (w_db w) \/
       exists i now, db_edges (w_db w') = db_edges (w_db w) ++
         [{| me_ID := i; me_FromID := fromID; me_FromTier := fromTier; me_ToID := toID;
             me_ToTier := toTier; me_EdgeType := edgeType; me_Author := author;
             me_CreatedAt := now |}])
  end.
Proof.
  intros Hok. unfold Memory.CreateEdge.
  destruct (one_of edgeType validEdgeTypes) eqn:E1; cbn [negb]; [|by intros [= <- <-]].
  destruct (one_of author validEdgeAuthors) eqn:E2; cbn [negb]; [|by intros [= <- <-]].
  destruct (tier_in_range fromTier) eqn:E3; cbn [negb]; [|by intros [= <- <-]].
  destruct (tier_in_range toTier) eqn:E4; cbn [negb]; [|by intros [= <- <-]].
  unfold tier_in_range in E3, E4.
  apply one_of_elem in E1, E2. bools.
  unfold wrapM at 1. change (@store_CreateEdge World _) with CreateEdge.
  destruct (CreateEdge fromID toID fromTier toTier edgeType author w) as [w1 r1] eqn:E.
  intros [= <- <-].
  unfold CreateEdge, bind, newID in E. apply exec_wrap_cases in E as [_ E]. destruct r1 as [u|e].
  - set (e := {| me_ID := _ |}) in E. destruct (insert_edge e _) as [rows|] eqn:Ei; [|done].
    simpl in E. injection E as <-. simpl in *.
    assert (He : edge_ok e). { unfold edge_ok; simpl. split_and!; first [done | lia]. }
    apply insert_edge_Ok in Ei as (Hok' & (e' & Hin & Hk) & Hadd); [|done|done].
    split; [done|]. split_and!; [done|done|lia..| |].
    + apply elem_of_map. exists e'. done.
    + destruct Hadd as [->|[-> _]]; [by left|right]. eauto.
  - simpl in E. simpl. rewrite E. done.
Qed.

(** The agent's ratings: what the consent boundary protects. *)
Definition ratings (w : World) : list (string * option float64) :=
  map (fun r => (re_id r, re_base_confidence r)) (db_reflections (w_db w)).
Definition same_ratings (w w' : World) : Prop :=
  ratings w' = ratings w /\ map re_content (db_reflections (w_db w')) = map re_content (db_reflections (w_db w)) /\
  map nr_content (db_narratives (w_db w')) = map nr_content (db_narratives (w_db w)) /\
  map ke_content (db_entities (w_db w')) = map ke_content (db_entities (w_db w)).
#[local] Instance same_ratings_PreOrder : PreOrder same_ratings.
Proof using Type.
  split; [intros w; by split_and!|].
  intros w1 w2 w3 (A1 & A2 & A3 & A4) (B1 & B2 & B3 & B4). split_and!; congruence.
Qed.

Lemma same_ratings_db w w' : w_db w' = w_db w -> same_ratings w w'.
Proof using Type. intros E. unfold same_ratings, ratings. by rewrite E. Qed.

Lemma query_keeps_ratings {A} msg (f : Database -> Z -> result A) : keeps same_ratings (wrapM msg (query f)).
Proof.
  intros w. destruct (wrapM msg (query f) w) as [w' r] eqn:E. apply query_wrap_cases in E as [E _].
  by apply same_ratings_db.
Qed.

Lemma update_state_keeps_ratings table i s :
  keeps same_ratings (exec (fun d _ => let? d' := update_state table i s d in Ok (d', tt))).
Proof.
  intros w. destruct (exec _ w) as [w' r] eqn:E. apply exec_cases in E as [_ E]. simpl.
  destruct r as [u|e]; [|by apply same_ratings_db].
  destruct (update_state _ _ _ _) as [d'|] eqn:Eu; [|done]. simpl in E. injection E as E.
  unfold same_ratings, ratings. rewrite <- E. clear E. unfold update_state in Eu.
  repeat case_match; simplify_eq/=; rewrite ?(map_updateb (A := ReflectionRow)), 
    ?(map_updateb (A := NarrativeRow)), ?(map_updateb (A := EntityRow)) by done; done.
Qed.

Lemma UpdateVerificationState_keeps_ratings table i s :
  keeps same_ratings (Memory.UpdateVerificationState table i s).
Proof.
  intros w. change (@Memory.UpdateVerificationState World _) with UpdateVerificationState.
  unfold UpdateVerificationState. destruct (one_of table validTierTables); [|by apply same_ratings_db].
  apply update_state_keeps_ratings.
Qed.
Lemma MarkNeedsReview_keeps_ratings i t : keeps same_ratings (Memory.MarkNeedsReview i t).
Proof.
  intros w. change (@Memory.MarkNeedsReview World _) with MarkNeedsReview.
  unfold MarkNeedsReview. destruct (tierTableName t); [|by apply same_ratings_db].
  destruct (t =? 2); [by apply same_ratings_db|].
  apply keeps_wrapM, update_state_keeps_ratings.
Qed.
Lemma LoadBeliefRecords_keeps_ratings : keeps same_ratings Memory.LoadBeliefRecords.
Proof.
  change (@Memory.LoadBeliefRecords World _) with LoadBeliefRecords.
  do 3 (apply (keeps_bind same_ratings); [apply query_keeps_ratings|intros ?]).
  apply keeps_ret, _.
Qed.

(** The consent boundary of T4. Whatever the driver does, distrust propagation and
    the decay pass leave the agent's base confidences and the content of every
    reflection, narrative and entity as they were. *)
Theorem consent_boundary w fuel src math_Exp math_Pow now cfg :
  same_ratings w (PropagateDistrust fuel src w).1 /\
  same_ratings w (RunEndOfSessionDecay math_Exp math_Pow fuel now cfg w).1.
Proof.
  split.
  - apply PropagateDistrust_keeps; [apply _|intros i; apply query_keeps_ratings
      |apply MarkNeedsReview_keeps_ratings].
  - apply RunEndOfSessionDecay_keeps; [apply _|intros i; apply query_keeps_ratings
      |apply LoadBeliefRecords_keeps_ratings|apply UpdateVerificationState_keeps_ratings].
Qed.

Lemma sqlite_healthy w :
  (forall n, db_fault n = None) -> edges_ok (db_edges (w_db w)) ->
  healthy (mv_links (memory_view w)).
Proof.
  intros Hf [He _]. split.
  - intros w1 i. change (@Memory.FetchDownstreamEdges World _) with FetchDownstreamEdges.
    unfold FetchDownstreamEdges, wrapM, query, exec. by rewrite Hf.
  - intros w1 n (l & Hl & <-)%elem_of_map. apply elem_of_map in Hl as (e & Hl & <-).
    apply elem_of_whereb in Hl as [Hl _]. apply He in Hl as (_ & _ & Ht & _). simpl.
    unfold MarkNeedsReview, tierTableName, update_state, wrapM, exec.
    assert (Hcase : me_FromTier e = 2 \/ me_FromTier e = 3 \/ me_FromTier e = 4 \/ me_FromTier e = 5) by lia.
    destruct Hcase as [->|[->|[->| ->]]]; simpl; rewrite ?Hf; done.
Qed.

(** What the decay pass loads of T3 and T5 has base confidence 0: whenever the decay
    factor is finite, the confidence is 0 and the record is flagged as stale, however
    fresh it is. *)
Theorem unrated_beliefs_go_stale math_Exp math_Pow now r b :
  r ∈ map narrative_belief (whereb (fun r => live (nr_belief_meta r)) (db_narratives (w_db b))) ->
  (exists s m e, math_Exp (fmul (SFopp (fdiv (dc_DecayRate DefaultDecayConfig)
      (math_Pow (dc_InferenceDecayBase DefaultDecayConfig)
         (f_of_Z (bm_InferenceDistance (default (decodeBeliefMeta None) (rec_Belief r)))))))
      (let days := fdiv (Hours (time_Sub now (bm_AnchorAt (default (decodeBeliefMeta None) (rec_Belief r)))))
                     (f_of_Z 24) in if fltb days f_zero then f_zero else days)) = S754_finite s m e) ->
  goes_stale math_Exp math_Pow now DefaultDecayConfig r = true.
Proof using Type.
  intros (row & Hrow & <-)%elem_of_map (s & m & e & Hexp). apply elem_of_whereb in Hrow as [_ Hl].
  unfold goes_stale, Confidence. cbn [rec_Belief narrative_belief default from_option id] in *.
  rewrite Hexp. apply andb_true_iff. split.
  - unfold live in Hl. destruct (nr_belief_meta row) as [c|]; [|done]. bools.
    apply negb_true_iff, String.eqb_neq. simpl. intros Hs. by rewrite Hs in Hl.
  - unfold decodeBeliefMeta. by destruct (nr_belief_meta row), s.
Qed.
End SQLite.

(** ** Witnesses *)

Section Witnesses.
Definition demo_edge (i from : string) (ft : Z) (to : string) (tt : Z) : MemoryEdge :=
  {| me_ID := i; me_FromID := from; me_FromTier := ft; me_ToID := to; me_ToTier := tt;
     me_EdgeType := EdgeDerivedFrom; me_Author := EdgeAuthorSystem; me_CreatedAt := 0 |}.
(** [b] derives from [a], [c] from [b], [a] from [c], and [a] from a T2 log. *)
Definition demo_memory : World :=
  with_db (set_memory (fun _ => [demo_edge "e1" "b" 4 "a" 4; demo_edge "e2" "c" 4 "b" 4;
                                 demo_edge "e3" "a" 4 "c" 4; demo_edge "e4" "a" 4 "log" 2])
             (fun _ => [{| re_id := "b"; re_type := "note"; re_content := "x";
                           re_base_confidence := Some (f_lit 9 10);
                           re_belief_meta := Some {| bc_anchor_at := "1970-01-01T00:00:00Z";
                             bc_inference_distance := 1; bc_verification_state := "unverified";
                             bc_source := "inference"; bc_emotional_register := None |};
                           re_embedding := None; re_visibility := "private"; re_created_at := 0 |}]) id empty_db)
    demo_world.
#[local] Existing Instance demo_env.

Lemma demo_edges_ok : edges_ok (db_edges (w_db demo_memory)).
Proof.
  split_and!.
  - intros e He. simpl in He. elem_cases He;
      (split_and!; [in_list|in_list|simpl; lia..]).
  - vm_compute. repeat (apply NoDup_cons; split; [set_solver|]). by apply NoDup_nil.
  - vm_compute. repeat (apply NoDup_cons; split; [set_solver|]). by apply NoDup_nil.
Qed.

Lemma demo_no_faults : forall n, db_fault n = None.
Proof. done. Qed.

Lemma PropagateDistrust_exact_witness :
  exists w' marked, PropagateDistrust 4 "a" demo_memory = (w', Ok (Some (2, None))) /\
    Z.of_nat (length marked) = 2 /\ besides_states (w_db w') = besides_states (w_db demo_memory) /\
    (forall i, i ∈ ids marked <-> i <> "a" /\ derives (mv_links (memory_view demo_memory)) "a" i).
Proof.
  destruct (PropagateDistrust_exact demo_memory "a" 4) as
    (w' & marked & failed & oe & E & _ & Hr & _ & _ & _ & _ & Hh); [vm_compute; lia|].
  destruct (Hh (sqlite_healthy demo_memory demo_no_faults demo_edges_ok)) as (-> & -> & Hiff).
  assert (Hn : snd (PropagateDistrust 4 "a" demo_memory) = Ok (Some (2, None)))
    by (vm_compute; reflexivity).
  rewrite E in Hn. injection Hn as Hn. exists w', marked. split_and!; [|exact Hn|exact Hr|exact Hiff].
  by rewrite E, Hn.
Defined.

Example PropagateDistrust_marks :
  db_state (w_db (PropagateDistrust 4 "a" demo_memory).1) {| edge_ID := "b"; edge_Tier := 4 |}
  = Some "needs_review".
Proof. vm_compute. reflexivity. Qed.

Lemma demo_fuel : (length (mv_links (memory_view demo_memory)) < 5)%nat.
Proof. vm_compute. lia. Qed.

Lemma ComputeInferenceDistance_minimal_witness :
  exists w' k, ComputeInferenceDistance 5 "c" demo_memory = (w', Ok (Some (Z.of_nat k))) /\ k = 3%nat /\
    t2_hops (mv_links (memory_view demo_memory)) "c" k.
Proof.
  destruct (ComputeInferenceDistance 5 "c" demo_memory) as [w' r] eqn:E.
  assert (Hr : r = Ok (Some 3)).
  { change r with (w', r).2. rewrite <- E. vm_compute. reflexivity. }
  subst r. pose proof (ComputeInferenceDistance_minimal demo_memory "c" 5 w' (Ok (Some 3))
                         demo_fuel E) as [_ [(k & Hk & Hh & _)|[Hk _]]]; [|discriminate Hk].
  exists w', k. assert (k = 3%nat) as -> by lia. by split_and!.
Defined.

(** [math.Exp] constantly 0.5 and [math.Pow] constantly 1. *)
Lemma RunEndOfSessionDecay_idempotent_witness :
  exists w' rep, RunEndOfSessionDecay (fun _ => f_lit 1 10) (fun _ _ => f_of_Z 1) 5 0
      DefaultDecayConfig demo_memory = (w', Ok (rep, None)) /\
    dr_NewlyStale rep = 1 /\ mv_beliefs (memory_view w') = [].
Proof.
  destruct (RunEndOfSessionDecay (fun _ => f_lit 1 10) (fun _ _ => f_of_Z 1) 5 0
              DefaultDecayConfig demo_memory) as [w' [[rep oe]|e]] eqn:E;
    [|vm_compute in E; discriminate E].
  assert (Hoe : oe = None) by (vm_compute in E; congruence). subst oe.
  pose proof (RunEndOfSessionDecay_idempotent (fun _ => f_lit 1 10) (fun _ _ => f_of_Z 1) 0
    DefaultDecayConfig 5 demo_memory w' rep demo_fuel E) as (_ & Hn & _ & _ & _ & _).
  exists w', rep. split_and!; [done| |].
  - rewrite Hn. vm_compute. reflexivity.
  - vm_compute in E. injection E as <- _. vm_compute. reflexivity.
Defined.

Lemma CreateEdge_wellformed_witness :
  exists w', Memory.CreateEdge "d" "a" 3 4 EdgeVerifies EdgeAuthorAgent demo_memory = (w', Ok tt) /\
    edges_ok (db_edges (w_db w')).
Proof.
  destruct (Memory.CreateEdge "d" "a" 3 4 EdgeVerifies EdgeAuthorAgent demo_memory) as [w' r] eqn:E.
  assert (Hr : r = Ok tt) by (vm_compute in E; congruence). subst r. exists w'. split; [done|].
  apply (CreateEdge_wellformed _ _ _ _ _ _ _ _ _ demo_edges_ok E).
Defined.

Lemma belief_column_roundtrip_witness :
  decodeBeliefMeta (beliefMetaJSON (Some
    {| bm_BaseConfidence := f_of_Z 1; bm_AnchorAt := 1709210096 * second + 5;
       bm_InferenceDistance := 2; bm_VerificationState := "verified"; bm_Source := "inference";
       bm_EmotionalRegister := "calm" |})) =
  {| bm_BaseConfidence := f_zero; bm_AnchorAt := 1709210096 * second; bm_InferenceDistance := 2;
     bm_VerificationState := "verified"; bm_Source := "inference"; bm_EmotionalRegister := "" |}.
Proof. rewrite belief_column_roundtrip; [reflexivity|vm_compute; split; discriminate|vm_compute; split; reflexivity]. Defined.
End Witnesses.
