(* ===== verification/Retrieval.v ===== *)
(** * Retrieval and convergence ([internal/memory/retrieve.go], [metrics.go], [tier2.go])

    Rank fusion of full-text and vector hits, the validated T2 append, and the
    convergence window over sessions. [sort.Slice] is unstable; it enters through the
    interface [SortSlice], and nothing here depends on how it orders ties. *)

From S2P Require Import Prelude Types Db Memory.

(** ** [sort.Slice] *)

(** A strict weak order on the elements of [l]. *)
Record strict_weak {A} (less : A -> A -> bool) (l : list A) : Prop := {
  sw_irrefl : forall x, x ∈ l -> less x x = false;
  sw_trans : forall x y z, x ∈ l -> y ∈ l -> z ∈ l ->
    less x y = true -> less y z = true -> less x z = true;
  sw_incomparable : forall x y z, x ∈ l -> y ∈ l -> z ∈ l ->
    less x y = false -> less y z = false -> less x z = false }.

Class SortSlice := sort_Slice : forall {A}, (A -> A -> bool) -> list A -> list A.
Class SortSliceLaws `{SortSlice} : Prop := {
  sort_Slice_Permutation : forall {A} less (l : list A), sort_Slice less l ≡ₚ l;
  sort_Slice_Sorted : forall {A} less (l : list A), strict_weak less l ->
    StronglySorted (fun x y => less y x = false) (sort_Slice less l) }.

(** ** Composite scores *)

Record RetrievalWeights := { rw_Recency : float64; rw_Relevance : float64; rw_Importance : float64 }.
Definition DefaultWeights : RetrievalWeights :=
  {| rw_Recency := f_lit 35 100; rw_Relevance := f_lit 45 100; rw_Importance := f_lit 20 100 |}.
Definition CompositeScore (recency relevance importance : float64) (weights : RetrievalWeights)
    : float64 :=
  fadd (fadd (fmul (rw_Recency weights) recency) (fmul (rw_Relevance weights) relevance))
    (fmul (rw_Importance weights) importance).

(** [math.Ln2], rounded to a double. *)
Definition math_Ln2 : float64 := S754_finite false 6243314768165359 (-53).
Definition RecencyScore (math_Exp : float64 -> float64) (anchorAt now : Z) (windowDays : float64)
    : float64 :=
  let windowDays := if fleb windowDays f_zero then f_of_Z 30 else windowDays in
  let elapsed := fdiv (Hours (time_Sub now anchorAt)) (f_of_Z 24) in
  if fltb elapsed f_zero then f_of_Z 1
  else math_Exp (fmul (fdiv (SFopp elapsed) windowDays) math_Ln2).

(** ** Hybrid search *)

Section Search.
Context {Meta : Type} `{SortSlice}.

Record Hit := { h_ID : string; h_Score : float64; h_Meta : Meta }.

Definition RRFScore (ftsRank vectorRank : Z) (k : float64) : float64 :=
  let k := if fleb k f_zero then f_of_Z 60 else k in
  let score := f_zero in
  let score := if 0 <? ftsRank then fadd score (fdiv (f_of_Z 1) (fadd k (f_of_Z ftsRank))) else score in
  if 0 <? vectorRank then fadd score (fdiv (f_of_Z 1) (fadd k (f_of_Z vectorRank))) else score.

(** [rankOf[h.ID] = i + 1] along the list: the last occurrence counts. *)
Fixpoint rank_map (hits : list Hit) (i : Z) (m : gmap string Z) : gmap string Z :=
  match hits with
  | [] => m
  | h :: rest => rank_map rest (i + 1) (<[h_ID h := i + 1]> m)
  end.
Definition rank_of (hits : list Hit) (i : string) : Z := default 0 (rank_map hits 0 ∅ !! i).

Fixpoint collect_ids (hits : list Hit) (seen : gset string) (allIDs : list string)
    : gset string * list string :=
  match hits with
  | [] => (seen, allIDs)
  | h :: rest =>
      if bool_decide (h_ID h ∈ seen) then collect_ids rest seen allIDs
      else collect_ids rest ({[h_ID h]} ∪ seen) (allIDs ++ [h_ID h])
  end.
Definition all_ids (ftsHits vectorHits : list Hit) : list string :=
  let '(seen, l) := collect_ids ftsHits ∅ [] in (collect_ids vectorHits seen l).2.

Definition meta_map (ftsHits vectorHits : list Hit) : gmap string Meta :=
  fold_left (fun m h => match m !! h_ID h with Some _ => m | None => <[h_ID h := h_Meta h]> m end)
    vectorHits
    (fold_left (fun m h => <[h_ID h := h_Meta h]> m) ftsHits ∅).

Definition scored_hits (nil_meta : Meta) (ftsHits vectorHits : list Hit) : list Hit :=
  let metaOf := meta_map ftsHits vectorHits in
  map (fun i => {| h_ID := i;
                   h_Score := RRFScore (rank_of ftsHits i) (rank_of vectorHits i) (f_of_Z 60);
                   h_Meta := default nil_meta (metaOf !! i) |})
    (all_ids ftsHits vectorHits).

Definition higher (x y : Hit) : bool := fgtb (h_Score x) (h_Score y).

Definition HybridSearch (nil_meta : Meta) (ftsHits vectorHits : list Hit) (topK : Z) : list Hit :=
  let results := sort_Slice higher (scored_hits nil_meta ftsHits vectorHits) in
  if (0 <? topK) && (topK <? Z.of_nat (length results)) then take (Z.to_nat topK) results
  else results.

(** *** Facts about the parts *)

Lemma RRFScore_nonneg f v : f_nonneg (RRFScore f v (f_of_Z 60)) = true.
Proof using Type.
  assert (Hterm : forall r, 0 < r ->
    f_nonneg (fdiv (f_of_Z 1) (fadd (f_of_Z 60) (f_of_Z r))) = true).
  { intros r Hr. change (f_of_Z 1) with (S754_finite false 4503599627370496 (-52)).
    apply fdiv_nonneg, fadd_nonneg; apply f_of_Z_nonneg; lia. }
  unfold RRFScore. change (fleb (f_of_Z 60) f_zero) with false. cbv zeta iota.
  destruct (Z.ltb_spec 0 f), (Z.ltb_spec 0 v); rewrite ?fadd_nonneg; auto using fadd_nonneg.
Qed.

Lemma collect_ids_spec hits : forall seen l seen' l',
  collect_ids hits seen l = (seen', l') ->
  NoDup l -> (forall i, i ∈ l <-> i ∈ seen) ->
  NoDup l' /\ (forall i, i ∈ l' <-> i ∈ seen') /\
  (forall i, i ∈ l' <-> i ∈ l \/ i ∈ map h_ID hits).
Proof using Type.
  induction hits as [|h hits IH]; intros seen l seen' l'; simpl.
  - intros [= <- <-] Hnd Hs. split_and!; [done|done|]. intros i. split; [by left|].
    intros [Hi|Hi]; [done|by apply elem_of_nil in Hi].
  - case_bool_decide as Hh; intros E Hnd Hs.
    + apply IH in E as (H1 & H2 & H3); [|done|done]. split_and!; [done|done|].
      intros i. rewrite H3, elem_of_cons. apply Hs in Hh. naive_solver.
    + apply IH in E as (H1 & H2 & H3).
      * split_and!; [done|done|]. intros i. rewrite H3, elem_of_app, !elem_of_cons, elem_of_nil. tauto.
      * apply NoDup_app. split_and!; [done| |apply NoDup_singleton].
        intros i Hi. rewrite list_elem_of_singleton. intros ->. by apply Hh, Hs.
      * intros i. rewrite elem_of_app, list_elem_of_singleton, Hs. set_solver.
Qed.

Lemma all_ids_spec fts vec :
  NoDup (all_ids fts vec) /\
  forall i, i ∈ all_ids fts vec <-> i ∈ map h_ID fts \/ i ∈ map h_ID vec.
Proof using Type.
  unfold all_ids. destruct (collect_ids fts ∅ []) as [seen l] eqn:E1.
  apply collect_ids_spec in E1 as (N1 & S1 & M1); [|apply NoDup_nil_2|intros i; set_solver].
  destruct (collect_ids vec seen l) as [seen' l'] eqn:E2.
  apply collect_ids_spec in E2 as (N2 & S2 & M2); [|done|done]. simpl. split; [done|].
  intros i. rewrite M2, M1. split; [|tauto]. intros [[Hi|?]|?]; [by apply elem_of_nil in Hi|tauto..].
Qed.

(** The last occurrence counts: [rank_of] is 0 exactly for IDs that do not occur. *)
Lemma rank_map_spec hits : forall n m i,
  match rank_map hits n m !! i with
  | Some r => (exists k h, hits !! k = Some h /\ h_ID h = i /\ r = n + Z.of_nat k + 1 /\
                 forall k' h', hits !! k' = Some h' -> h_ID h' = i -> (k' <= k)%nat) \/
              (m !! i = Some r /\ i ∉ map h_ID hits)
  | None => m !! i = None /\ i ∉ map h_ID hits
  end.
Proof using Type.
  induction hits as [|h hits IH]; intros n m i; simpl.
  - destruct (m !! i) eqn:E; [right|]; (split; [done|apply not_elem_of_nil]).
  - specialize (IH (n + 1) (<[h_ID h := n + 1]> m) i).
    destruct (rank_map hits (n + 1) _ !! i) as [r|].
    + destruct IH as [(k & h' & Hk & Hi & Hr & Hmax)|[Hl Hn]].
      * left. exists (S k), h'. split_and!; [done|done|lia|].
        intros [|k'] h2 Hk' Hh2; [lia|]. simpl in Hk'. specialize (Hmax k' h2 Hk' Hh2). lia.
      * destruct (decide (h_ID h = i)) as [Hi|Hi].
        -- subst i. rewrite lookup_insert_eq in Hl. injection Hl as <-. left.
           exists 0%nat, h. split_and!; [done|done|lia|]. intros [|k'] h2 Hk' Hh2; [lia|].
           exfalso. apply Hn, elem_of_map. exists h2. split; [|done].
           by eapply list_elem_of_lookup_2.
        -- rewrite lookup_insert_ne in Hl by done. right. split; [done|]. set_solver.
    + destruct IH as [Hl Hn]. apply lookup_insert_None in Hl as [Hl Hne]. split; [done|].
      set_solver.
Qed.

Lemma rank_of_spec hits i :
  (i ∉ map h_ID hits /\ rank_of hits i = 0) \/
  exists k h, hits !! k = Some h /\ h_ID h = i /\ rank_of hits i = Z.of_nat k + 1 /\
    forall k' h', hits !! k' = Some h' -> h_ID h' = i -> (k' <= k)%nat.
Proof using Type.
  unfold rank_of. pose proof (rank_map_spec hits 0 ∅ i) as Hr.
  destruct (rank_map hits 0 ∅ !! i) as [r|]; simpl.
  - destruct Hr as [(k & h & H1 & H2 & -> & H4)|[Hl _]]; [|by rewrite lookup_empty in Hl].
    right. exists k, h. split_and!; [done|done|lia|done].
  - left. by destruct Hr.
Qed.

Lemma higher_strict_weak l :
  (forall x, x ∈ l -> is_nan (h_Score x) = false) -> strict_weak higher l.
Proof using Type.
  intros Hn. unfold higher, fgtb. split.
  - intros x _. apply fltb_irrefl.
  - intros x y z _ _ _ H1 H2. exact (fltb_trans _ _ _ H2 H1).
  - intros x y z Hx Hy Hz H1 H2. apply Hn in Hx, Hy, Hz.
    change (SFltb (h_Score z) (h_Score x)) with (fltb (h_Score z) (h_Score x)).
    change (SFltb (h_Score y) (h_Score x)) with (fltb (h_Score y) (h_Score x)) in H1.
    change (SFltb (h_Score z) (h_Score y)) with (fltb (h_Score z) (h_Score y)) in H2.
    float_order.
Qed.

(** The hit whose metadata is kept: the last full-text one, else the first vector one. *)
Definition meta_source (fts vec : list Hit) (i : string) : option Hit :=
  match find_by h_ID i (rev fts) with Some h => Some h | None => find_by h_ID i vec end.

Lemma meta_fts fts i : forall m : gmap string Meta,
  fold_left (fun m h => <[h_ID h := h_Meta h]> m) fts m !! i =
  match find_by h_ID i (rev fts) with Some h => Some (h_Meta h) | None => m !! i end.
Proof using Type.
  induction fts as [|h fts IH]; intros m; [done|]. simpl. rewrite IH. unfold find_by.
  rewrite find_snoc. destruct (List.find _ (rev fts)); [done|].
  destruct (String.eqb_spec (h_ID h) i) as [->|Hi].
  - by rewrite lookup_insert_eq.
  - by rewrite lookup_insert_ne.
Qed.
Lemma meta_vec vec i : forall m : gmap string Meta,
  fold_left (fun m h => match m !! h_ID h with Some _ => m | None => <[h_ID h := h_Meta h]> m end) vec m !! i =
  match m !! i with Some x => Some x | None => h_Meta <$> find_by h_ID i vec end.
Proof using Type.
  induction vec as [|h vec IH]; intros m; simpl; [by destruct (m !! i)|]. rewrite IH.
  unfold find_by. simpl. destruct (String.eqb_spec (h_ID h) i) as [->|Hi].
  - destruct (m !! i) as [x|] eqn:E; [by rewrite E|]. by rewrite lookup_insert_eq.
  - destruct (m !! h_ID h); [done|]. by rewrite lookup_insert_ne.
Qed.
Lemma meta_map_source fts vec i : meta_map fts vec !! i = h_Meta <$> meta_source fts vec i.
Proof using Type.
  unfold meta_map, meta_source. rewrite meta_vec, meta_fts.
  by destruct (find_by h_ID i (rev fts)).
Qed.

Lemma scored_hits_spec nil_meta fts vec x :
  x ∈ scored_hits nil_meta fts vec <->
  (h_ID x ∈ map h_ID fts \/ h_ID x ∈ map h_ID vec) /\
  h_Score x = RRFScore (rank_of fts (h_ID x)) (rank_of vec (h_ID x)) (f_of_Z 60) /\
  h_Meta x = default nil_meta (h_Meta <$> meta_source fts vec (h_ID x)).
Proof using Type.
  unfold scored_hits. rewrite elem_of_map. rewrite <- (proj2 (all_ids_spec fts vec)). split.
  - intros (i & Hi & <-). simpl. by rewrite meta_map_source.
  - intros (Hi & Hs & Hm). exists (h_ID x). split; [done|]. rewrite meta_map_source.
    rewrite <- Hs, <- Hm. by destruct x.
Qed.

Lemma scored_hits_ids nil_meta fts vec :
  map h_ID (scored_hits nil_meta fts vec) = all_ids fts vec.
Proof using Type. unfold scored_hits. rewrite map_map. simpl. apply map_id. Qed.

Lemma topK_split (results : list Hit) topK :
  exists omitted, results = (if (0 <? topK) && (topK <? Z.of_nat (length results))
                             then take (Z.to_nat topK) results else results) ++ omitted /\
    (topK <= 0 -> omitted = []) /\ (0 < topK -> omitted = [] \/
       length (take (Z.to_nat topK) results) = Z.to_nat topK).
Proof using Type.
  destruct (Z.ltb_spec 0 topK), (Z.ltb_spec topK (Z.of_nat (length results))); simpl.
  - exists (drop (Z.to_nat topK) results). rewrite take_drop. split_and!; [done|lia|].
    right. rewrite length_take. lia.
  - exists []. rewrite app_nil_r. split_and!; [done|done|by left].
  - exists []. rewrite app_nil_r. split_and!; [done|done|lia].
  - exists []. rewrite app_nil_r. split_and!; [done|done|lia].
Qed.

(** The result of [HybridSearch] has one hit per ID, each with its fused score and
    the metadata of the last full-text or else first vector hit; with [topK <= 0] it
    holds every ID of the inputs, else at most [topK]; it is in descending order, and
    an ID it leaves out scores no higher than any it returns. *)
Theorem HybridSearch_fuses `{!SortSliceLaws} nil_meta fts vec topK :
  let out := HybridSearch nil_meta fts vec topK in
  NoDup (map h_ID out) /\
  (forall x, x ∈ out ->
     (h_ID x ∈ map h_ID fts \/ h_ID x ∈ map h_ID vec) /\
     h_Score x = RRFScore (rank_of fts (h_ID x)) (rank_of vec (h_ID x)) (f_of_Z 60) /\
     Some (h_Meta x) = h_Meta <$> meta_source fts vec (h_ID x)) /\
  StronglySorted (fun x y => fltb (h_Score x) (h_Score y) = false) out /\
  (0 < topK -> Z.of_nat (length out) <= topK) /\
  (forall i, i ∈ map h_ID fts \/ i ∈ map h_ID vec -> i ∉ map h_ID out ->
     0 < topK /\ Z.of_nat (length out) = topK /\
     forall x, x ∈ out ->
       fltb (h_Score x) (RRFScore (rank_of fts i) (rank_of vec i) (f_of_Z 60)) = false).
Proof.
  cbv zeta. unfold HybridSearch. set (S0 := scored_hits nil_meta fts vec).
  set (R := sort_Slice higher S0).
  assert (HP : R ≡ₚ S0) by apply sort_Slice_Permutation.
  assert (HS : StronglySorted (fun x y => fltb (h_Score x) (h_Score y) = false) R).
  { apply (sort_Slice_Sorted higher), higher_strict_weak. intros x Hx.
    apply scored_hits_spec in Hx as (_ & -> & _). apply f_nonneg_not_nan, RRFScore_nonneg. }
  destruct (topK_split R topK) as (om & Hsplit & Hle & Hgt).
  set (out := if (0 <? topK) && (topK <? Z.of_nat (length R)) then take (Z.to_nat topK) R else R) in *.
  assert (Hin : forall x, x ∈ out \/ x ∈ om <-> x ∈ S0).
  { intros x. rewrite <- elem_of_app, <- Hsplit. by rewrite HP. }
  assert (Hnd : NoDup (map h_ID (out ++ om))).
  { rewrite <- Hsplit, HP. unfold S0. rewrite scored_hits_ids. apply all_ids_spec. }
  split_and!.
  - rewrite map_app in Hnd. by apply NoDup_app in Hnd as [? _].
  - intros x Hx. assert (Hx0 : x ∈ S0) by (apply Hin; by left).
    apply scored_hits_spec in Hx0 as (Hi & Hsc & Hm). split_and!; [done|done|]. rewrite Hm.
    destruct (meta_source fts vec (h_ID x)) as [h|] eqn:Em; [done|]. exfalso.
    unfold meta_source in Em. destruct (find_by h_ID (h_ID x) (rev fts)) eqn:Ef; [done|].
    destruct Hi as [Hi|Hi]; apply elem_of_map in Hi as (h & Hh & Hid).
    + eapply find_by_None; [exact Ef|rewrite <- Permutation_rev; exact Hh|done].
    + eapply find_by_None; [exact Em|exact Hh|done].
  - rewrite Hsplit in HS. by apply StronglySorted_app_1_l in HS.
  - intros Ht. unfold out. destruct (Z.ltb_spec 0 topK), (Z.ltb_spec topK (Z.of_nat (length R)));
      simpl; rewrite ?length_take; lia.
  - intros i Hi Hno. assert (Hx : i ∈ map h_ID S0) by (unfold S0; rewrite scored_hits_ids; by apply all_ids_spec).
    apply elem_of_map in Hx as (x & Hx & <-). apply Hin in Hx as [Hx|Hx].
    { exfalso. apply Hno, elem_of_map. eauto. }
    assert (Ht : 0 < topK).
    { destruct (Z.ltb_spec 0 topK); [done|]. rewrite Hle in Hx by done. by apply elem_of_nil in Hx. }
    split_and!; [done| |].
    + destruct (Hgt Ht) as [->|Hlen]; [by apply elem_of_nil in Hx|].
      assert (om <> []) by (intros ->; by apply elem_of_nil in Hx).
      assert (Hl : length R = (length out + length om)%nat) by (rewrite <- length_app; by f_equal).
      assert (0 < length om)%nat by (destruct om; [done|simpl; lia]).
      unfold out in *. destruct (_ && _) eqn:Eb; [lia|lia].
    + intros y Hy. rewrite Hsplit in HS. pose proof (StronglySorted_app_1_elem_of _ _ _ y x HS Hy Hx) as Hyx.
      assert (Hx0 : x ∈ S0) by (apply Hin; by right).
      apply scored_hits_spec in Hx0 as (_ & Hsc & _). cbv beta in Hyx. by rewrite Hsc in Hyx.
Qed.
End Search.
Arguments Hit Meta : clear implicits.

(** [sort.Slice] as an insertion sort: one sort with these laws. *)
Section InsertionSort.
Context {A : Type} (less : A -> A -> bool).
Fixpoint insert_sorted (x : A) (l : list A) : list A :=
  match l with [] => [x] | y :: r => if less y x then y :: insert_sorted x r else x :: l end.
Definition insertion_sort (l : list A) : list A := foldr insert_sorted [] l.

Lemma insert_sorted_Permutation x l : insert_sorted x l ≡ₚ x :: l.
Proof.
  induction l as [|y l IH]; [done|]. simpl. destruct (less y x); [|done]. rewrite IH. constructor.
Qed.
Lemma insertion_sort_Permutation l : insertion_sort l ≡ₚ l.
Proof. induction l as [|x l IH]; [done|]. simpl. by rewrite insert_sorted_Permutation, IH. Qed.

Lemma insertion_sort_Sorted l : strict_weak less l ->
  StronglySorted (fun x y => less y x = false) (insertion_sort l).
Proof.
  intros [H1 H2 H3].
  assert (Hgen : forall k, k ⊆ l -> StronglySorted (fun x y => less y x = false) (insertion_sort k)).
  { induction k as [|x k IH]; intros Hk; [constructor|]. simpl.
    assert (Hs : StronglySorted (fun x y => less y x = false) (insertion_sort k)) by (apply IH; set_solver).
    assert (Hsub : insertion_sort k ⊆ l).
    { intros y Hy. rewrite insertion_sort_Permutation in Hy. set_solver. }
    assert (Hx : x ∈ l) by set_solver. clear IH Hk.
    induction Hs as [|y s Hs IHs Hy]; simpl; [by repeat constructor|].
    assert (Hyl : y ∈ l) by set_solver. destruct (less y x) eqn:Eyx.
    - constructor; [apply IHs; set_solver|]. rewrite insert_sorted_Permutation. constructor; [|done].
      destruct (less x y) eqn:Exy; [|done].
      pose proof (H2 x y x Hx Hyl Hx Exy Eyx) as Hxx. by rewrite H1 in Hxx.
    - constructor; [by constructor|]. constructor; [done|].
      rewrite Forall_forall in Hy |- *. intros z Hz.
      apply (H3 z y x); [set_solver|done|done|by apply Hy|done]. }
  by apply Hgen.
Qed.
End InsertionSort.

#[global] Instance insertion_SortSlice : SortSlice := fun A => @insertion_sort A.
#[global] Instance insertion_SortSliceLaws : SortSliceLaws.
Proof.
  split; intros A less l; [apply insertion_sort_Permutation|apply insertion_sort_Sorted].
Qed.

Definition demo_hit (i : string) : Hit () := {| h_ID := i; h_Score := f_zero; h_Meta := () |}.
Definition demo_fts : list (Hit ()) := [demo_hit "a"; demo_hit "b"].
Definition demo_vec : list (Hit ()) := [demo_hit "b"; demo_hit "c"].

Example HybridSearch_ex :
  map h_ID (HybridSearch () demo_fts demo_vec 2) = ["b"; "a"] /\
  map h_ID (HybridSearch () demo_fts demo_vec 0) = ["b"; "a"; "c"].
Proof. split; vm_compute; reflexivity. Qed.

(** ["c"] is left out of the two best: it scores no higher than ["b"]. *)
Lemma HybridSearch_fuses_witness :
  0 < 2 /\ Z.of_nat (length (HybridSearch () demo_fts demo_vec 2)) <= 2 /\
  fltb (h_Score (default (demo_hit "") (head (HybridSearch () demo_fts demo_vec 2))))
    (RRFScore (rank_of demo_fts "c") (rank_of demo_vec "c") (f_of_Z 60)) = false.
Proof.
  destruct (HybridSearch_fuses () demo_fts demo_vec 2) as (_ & _ & _ & Hlen & Hout).
  split; [lia|]. split; [apply Hlen; lia|].
  apply (Hout "c"); [right; vm_compute; right; left| |vm_compute; left].
  vm_compute. intros [H|[H|H]%elem_of_cons]%elem_of_cons; [discriminate H..|by apply elem_of_nil in H].
Defined.

(** ** T2 ([tier2.go]) *)

Definition validContentSources : list string :=
  ["operator"; "self"; "tool-result"; "browser-content"; "search-result"; "forum-content"; "discord"].

Definition AppendLog {W} (AppendExperiential : ExperientialLog -> M W unit) (entry : ExperientialLog)
    : M W unit :=
  if negb (one_of (el_ContentSource entry) validContentSources)
  then fail (ENew ("tier2: invalid content_source " +:+ fmt_q (el_ContentSource entry)))
  else if str_empty (el_ID entry) then fail (ENew "tier2: entry ID is required")
  else if str_empty (el_Content entry) then fail (ENew "tier2: entry content is required")
  else AppendExperiential entry.

Definition QueryLogs {W} (store_QueryLogs : string -> Z -> M W (list ExperientialLog))
    (sessionID : string) (limit : Z) : M W (list ExperientialLog) :=
  store_QueryLogs sessionID (if limit <=? 0 then 200 else limit).

(** ** Convergence ([metrics.go]) *)

Record ConvergenceMetrics := {
  cm_ReflectionDepthRatio : float64; cm_T4ToT4Count : Z; cm_T4ToGroundCount : Z;
  cm_SessionNumber : Z }.

Definition reflection_edge (e : MemoryEdge) : bool :=
  String.eqb (me_EdgeType e) EdgeDerivedFrom && (me_FromTier e =? 4).

Definition count_edge (c : Z * Z) (e : MemoryEdge) : Z * Z :=
  let '(t4, ground) := c in
  if negb (reflection_edge e) then c
  else if me_ToTier e =? 4 then (t4 + 1, ground)
  else if (me_ToTier e =? 2) || (me_ToTier e =? 3) then (t4, ground + 1)
  else c.

Fixpoint count_edges {W} `{EdgeStore W} (recordIDs : list string) (c : Z * Z) : M W (Z * Z) :=
  match recordIDs with
  | [] => ret c
  | i :: rest =>
      let! edges := wrapM ("convergence: querying edges for " +:+ i) (store_GetEdges i "from") in
      count_edges rest (fold_left count_edge edges c)
  end.

Definition ComputeConvergenceMetrics {W} `{EdgeStore W} (sessionNumber : Z)
    (sessionEdgeIDs : list string) : M W ConvergenceMetrics :=
  let! c := count_edges sessionEdgeIDs (0, 0) in
  let '(t4, ground) := c in
  let total := t4 + ground in
  ret {| cm_ReflectionDepthRatio :=
           if 0 <? total then fdiv (f_of_Z t4) (f_of_Z total) else f_zero;
         cm_T4ToT4Count := t4; cm_T4ToGroundCount := ground; cm_SessionNumber := sessionNumber |}.

Record ConvergenceWindow := { cw_History : list ConvergenceMetrics; cw_Window : Z }.

Definition NewConvergenceWindow (size : Z) : ConvergenceWindow :=
  {| cw_History := []; cw_Window := if size <=? 0 then 10 else size |}.

Definition Add (w : ConvergenceWindow) (m : ConvergenceMetrics) : ConvergenceWindow :=
  let h := cw_History w ++ [m] in
  {| cw_History := if cw_Window w <? Z.of_nat (length h)
                   then drop (length h - Z.to_nat (cw_Window w)) h else h;
     cw_Window := cw_Window w |}.

Definition RollingRatio (w : ConvergenceWindow) : float64 :=
  match cw_History w with
  | [] => f_zero
  | h => fdiv (fold_left (fun sum m => fadd sum (cm_ReflectionDepthRatio m)) h f_zero)
           (f_of_Z (Z.of_nat (length h)))
  end.

(** The loop of [IsUpward], from the second entry on. *)
Fixpoint upward_loop (prev : float64) (rest : list ConvergenceMetrics) (strict : bool) : bool :=
  match rest with
  | [] => strict
  | m :: rest =>
      let x := cm_ReflectionDepthRatio m in
      if fltb x prev then false
      else upward_loop x rest (strict || fgtb x prev)
  end.

Definition IsUpward (w : ConvergenceWindow) : bool :=
  let n := Z.of_nat (length (cw_History w)) in
  if n <? 2 then false
  else
    let start := if n - 5 <? 0 then 0 else n - 5 in
    match drop (Z.to_nat start) (cw_History w) with
    | m :: m2 :: rest => upward_loop (cm_ReflectionDepthRatio m) (m2 :: rest) false
    | _ => false
    end.

Definition ShouldNudge (w : ConvergenceWindow) (threshold : float64)
    (cooldown lastNudgeSession currentSession : Z) : bool :=
  if wrap64 (currentSession - lastNudgeSession) <? cooldown then false
  else if fltb (RollingRatio w) threshold then false
  else IsUpward w.

(** The window holds the last [Window] metrics added to it, in order. *)
Lemma Add_drop w ms m :
  cw_History w = drop (length ms - Z.to_nat (cw_Window w)) ms -> 0 < cw_Window w ->
  cw_History (Add w m) = drop (length (ms ++ [m]) - Z.to_nat (cw_Window w)) (ms ++ [m]).
Proof.
  intros Hh Hw. unfold Add. cbn [cw_History]. rewrite Hh.
  rewrite !length_app, length_drop. simpl.
  rewrite <- (drop_app_le ms [m] (length ms - Z.to_nat (cw_Window w))) by lia.
  case_match; bools; [rewrite drop_drop; f_equal; lia|]. f_equal; lia.
Qed.

Definition ratios (l : list ConvergenceMetrics) : list float64 := map cm_ReflectionDepthRatio l.

Fixpoint non_decreasing (prev : float64) (l : list float64) : bool :=
  match l with [] => true | x :: r => negb (fltb x prev) && non_decreasing x r end.
Fixpoint some_increase (prev : float64) (l : list float64) : bool :=
  match l with [] => false | x :: r => fgtb x prev || some_increase x r end.

Lemma upward_loop_spec rest : forall prev strict,
  upward_loop prev rest strict =
  non_decreasing prev (ratios rest) && (strict || some_increase prev (ratios rest)).
Proof.
  induction rest as [|m rest IH]; intros prev strict; simpl; [by rewrite orb_false_r|].
  destruct (fltb (cm_ReflectionDepthRatio m) prev) eqn:E; simpl; [done|].
  by rewrite IH, orb_assoc.
Qed.

(** After any sequence of metrics the window holds exactly the last [Window] of
    them, in order (10 when the size is not positive); it nudges only when the cooldown
    has passed, the mean is not below the threshold and the last five ratios never
    decrease and increase at least once. *)
Theorem window_nudges_on_rise size ms threshold cooldown last current :
  let w := fold_left Add ms (NewConvergenceWindow size) in
  let n := Z.to_nat (if size <=? 0 then 10 else size) in
  cw_History w = drop (length ms - n) ms /\
  (ShouldNudge w threshold cooldown last current = true ->
   cooldown <= wrap64 (current - last) /\ fltb (RollingRatio w) threshold = false /\
   exists m rest, drop (length (cw_History w) - 5) (cw_History w) = m :: rest /\
     non_decreasing (cm_ReflectionDepthRatio m) (ratios rest) = true /\
     some_increase (cm_ReflectionDepthRatio m) (ratios rest) = true).
Proof.
  cbv zeta. set (size' := if size <=? 0 then 10 else size).
  assert (Hsize : 0 < size') by (unfold size'; destruct (Z.leb_spec size 0); lia).
  split.
  - assert (Hgen : cw_Window (fold_left Add ms (NewConvergenceWindow size)) = size' /\
      cw_History (fold_left Add ms (NewConvergenceWindow size)) = drop (length ms - Z.to_nat size') ms).
    { induction ms as [|m ms [IHw IHh]] using rev_ind; [by destruct (_ - _)%nat|].
      rewrite fold_left_app. simpl fold_left at 1 3. split; [done|].
      rewrite (Add_drop _ ms); rewrite IHw; done. }
    apply Hgen.
  - generalize (fold_left Add ms (NewConvergenceWindow size)) as w. intros w. unfold ShouldNudge.
    destruct (Z.ltb_spec (wrap64 (current - last)) cooldown); [done|].
    destruct (fltb (RollingRatio w) threshold); [done|]. unfold IsUpward.
    destruct (Z.ltb_spec (Z.of_nat (length (cw_History w))) 2); [done|].
    replace (Z.to_nat (if Z.of_nat (length (cw_History w)) - 5 <? 0 then 0
                       else Z.of_nat (length (cw_History w)) - 5)) with (length (cw_History w) - 5)%nat
      by (destruct (Z.ltb_spec (Z.of_nat (length (cw_History w)) - 5) 0); lia).
    destruct (drop _ (cw_History w)) as [|m [|m2 rest]] eqn:Ed; [done|done|].
    rewrite upward_loop_spec. intros Hup. apply andb_true_iff in Hup as [H1 H2].
    split_and!; [lia|done|]. exists m, (m2 :: rest). split_and!; [reflexivity|exact H1|exact H2].
Qed.
