(* ===== verification/LifecycleStore.v ===== *)
(** * Lifecycle and assembly stores: [internal/platform/storage/lifecycle_sqlite.go],
    [internal/platform/storage/assembly_sqlite.go]

    One operation per method, with the CHECK and FOREIGN KEY constraints of
    [schema/009_lifecycle.sql] and [schema/006_operational.sql] that its statement
    is subject to; [Db.foreign_key] says when foreign keys are checked. *)

From S2P Require Import Prelude Types Lifecycle Db.

(** ** Constraints *)

Definition check_constraint (name : string) (b : bool) : result unit :=
  if b then Ok tt else Err (ENew ("CHECK constraint failed: " +:+ name)).
Definition null_or (valid : list string) (v : option string) : bool :=
  match v with None => true | Some s => one_of s valid end.

Definition plan_checks (r : PlanRow) : bool :=
  one_of (pr_temporal_mode r) ValidTemporalModes &&
  one_of (pr_wake_cause r) ValidWakeCauses &&
  null_or ValidWakeCauses (pr_wake_cause_secondary r) &&
  one_of (pr_activity_profile r) ValidActivityProfiles &&
  one_of (pr_assembly_profile r) ValidAssemblyProfiles &&
  one_of (pr_bridge_policy r) ValidBridgePolicies &&
  one_of (pr_metabolism_policy r) ValidMetabolismPolicies &&
  one_of (pr_seam_kind r) ValidSeamKinds.
Definition wake_checks (r : WakeRow) : bool :=
  null_or [GapNone; GapShort; GapOvernight; GapLong] (wr_gap_class r) &&
  null_or ValidTransitionContexts (wr_transition_context r).
Definition checkpoint_states : list string :=
  [SessionStateActive; SessionStateCompleted; SessionStateInterrupted].

(** [FOREIGN KEY (plan_id) REFERENCES lifecycle_plans(id)] *)
Definition plan_exists (id : string) (d : Database) : bool :=
  existsb (fun p => String.eqb (pr_id p) id) (db_plans d).
Definition fk_plan `{Env} (id : string) (d : Database) : result unit :=
  foreign_key (plan_exists id d).

(** The columns of a plan, of a plan's wake facts, of a manifest. *)
Definition plan_row (p : LifecyclePlan) (id : string) (now : Z) : PlanRow :=
  {| pr_id := id; pr_session_id := plan_SessionID p; pr_temporal_mode := plan_TemporalMode p;
     pr_wake_cause := plan_WakeCause p; pr_wake_cause_secondary := plan_WakeCauseSecondary p;
     pr_activity_profile := plan_ActivityProfile p; pr_assembly_profile := plan_AssemblyProfile p;
     pr_bridge_policy := plan_BridgePolicy p; pr_metabolism_policy := plan_MetabolismPolicy p;
     pr_seam_kind := plan_SeamKind p; pr_resolver_version := plan_ResolverVersion p;
     pr_policy_hash := plan_PolicyHash p; pr_resolved_at := now |}.
Definition wake_row (f : WakeFacts) (planID : string) (now : Z) : WakeRow :=
  let gc := gf_GapClass (wf_GapFacts f) in
  {| wr_plan_id := planID; wr_wake_at := now;
     wr_elapsed_duration_sec := duration_Seconds (wf_ElapsedDuration f);
     wr_gap_class := if str_empty gc then None else Some gc;
     wr_transition_context := head (wf_TransitionContexts f); wr_extra := f |}.
Definition context_utilization (m : AssemblyManifest) : float64 :=
  if 0 <? mf_BudgetTotal m then fdiv (f_of_Z (mf_BudgetUsed m)) (f_of_Z (mf_BudgetTotal m))
  else f_zero.
Definition manifest_row (m : AssemblyManifest) (id : string) (now : Z) : ManifestRow :=
  {| mr_id := id; mr_session_id := mf_SessionID m; mr_plan_id := mf_PlanID m;
     mr_phases_loaded := mf_PhasesRun m; mr_phases_skipped := mf_PhasesSkipped m;
     mr_known_omissions := mf_SkipReasons m; mr_total_tokens_used := mf_BudgetUsed m;
     mr_total_tokens_budget := mf_BudgetTotal m;
     mr_context_utilization := context_utilization m; mr_assembled_at := now |}.

(** [if x.ID == "" { x.ID = newID() }]: the caller's struct keeps the ID, also when
    the insertion then fails. *)
Definition assign_id `{Env} (id : string) : M World string :=
  if str_empty id then newID else ret id.

Section Store.
Context `{Env}.

(** The ID the plan has after the call, and the call's error. *)
Definition RecordPlan (plan : option LifecyclePlan) : M World (string * result unit) :=
  match plan with
  | None => ret ("", Err (ENew "storage: lifecycle plan is nil"))
  | Some p =>
      let! id := assign_id (plan_ID p) in
      try! r := wrapM ("storage: recording lifecycle plan " +:+ id)
        (exec (fun d now =>
           let row := plan_row p id now in
           let? _ := check_constraint "lifecycle_plans" (plan_checks row) in
           let? rows := insert_pk pr_id row (db_plans d) in
           Ok (set_plans (fun _ => rows) d, tt))) in
      ret (id, r)
  end.

Definition RecordWakeFacts (sessionID : string) (facts : option WakeFacts) : M World unit :=
  match facts with
  | None => fail (ENew "storage: wake facts are nil")
  | Some f =>
      let! planID := wrapM ("storage: no lifecycle plan found for session " +:+ sessionID)
        (query (fun d _ =>
           match last_by pr_resolved_at
                   (whereb (fun p => String.eqb (pr_session_id p) sessionID) (db_plans d)) with
           | Some p => Ok (pr_id p)
           | None => Err (ESentinel ErrNoRows)
           end)) in
      wrapM ("storage: recording wake facts for session " +:+ sessionID)
        (exec (fun d now =>
           let row := wake_row f planID now in
           let? _ := check_constraint "wake_facts" (wake_checks row) in
           let? _ := fk_plan planID d in
           Ok (set_wakes (fun l => l ++ [row]) d, tt)))
  end.

Definition RecordManifest (manifest : option AssemblyManifest) : M World (string * result unit) :=
  match manifest with
  | None => ret ("", Err (ENew "storage: assembly manifest is nil"))
  | Some m =>
      let! id := assign_id (mf_ID m) in
      try! r := wrapM ("storage: recording assembly manifest " +:+ id)
        (exec (fun d now =>
           let? _ := fk_plan (mf_PlanID m) d in
           let? rows := insert_pk mr_id (manifest_row m id now) (db_manifests d) in
           Ok (set_manifests (fun _ => rows) d, tt))) in
      ret (id, r)
  end.

Definition RecordDisclosure (sessionID policyPath policyHash previousHash changesSummary
    policySource policySnapshot : string) : M World unit :=
  wrapM ("storage: recording disclosure for session " +:+ sessionID)
    (exec (fun d now =>
       Ok (set_configs (fun l => l ++ [
         {| cf_session_id := sessionID; cf_policy_path := policyPath;
            cf_policy_hash := policyHash;
            cf_previous_hash := if str_empty previousHash then None else Some previousHash;
            cf_changes_summary := changesSummary; cf_policy_source := policySource;
            cf_policy_snapshot := policySnapshot; cf_applied_at := now |}]) d, tt))).

(** [SELECT ... ORDER BY t DESC LIMIT 1], [sql.ErrNoRows] read as a default. *)
Definition last_or {A B} (key : A -> Z) (get : A -> B) (dflt : B) (rows : Database -> list A)
    (msg : string) : M World B :=
  wrapM msg (query (fun d _ =>
    Ok (match last_by key (rows d) with Some r => get r | None => dflt end))).

Definition LastPolicyHash : M World string :=
  last_or cf_applied_at cf_policy_hash "" db_configs "storage: querying last policy hash".

(** [INSERT ... ON CONFLICT (id) DO UPDATE] *)
Definition upsert_checkpoint (row : CheckpointRow) (rows : list CheckpointRow) : list CheckpointRow :=
  match find_by cp_id (cp_id row) rows with
  | None => rows ++ [row]
  | Some _ =>
      updateb (fun r => String.eqb (cp_id r) (cp_id row))
        (fun r => {| cp_id := cp_id r; cp_session_id := cp_session_id r;
                     cp_turn_number := cp_turn_number row;
                     cp_t2_high_water := cp_t2_high_water row;
                     cp_token_usage := cp_token_usage row; cp_state := cp_state row;
                     cp_created_at := cp_created_at row |}) rows
  end.

Definition WriteCheckpoint (sessionID : string) (turnNumber : Z) (t2HighWater : string)
    (tokenUsage : Z) (state : string) : M World unit :=
  wrapM ("storage: write checkpoint for session " +:+ sessionID)
    (exec (fun d now =>
       let? _ := check_constraint "session_checkpoints" (one_of state checkpoint_states) in
       Ok (set_checkpoints (upsert_checkpoint
         {| cp_id := sessionID; cp_session_id := sessionID; cp_turn_number := turnNumber;
            cp_t2_high_water := t2HighWater; cp_token_usage := tokenUsage; cp_state := state;
            cp_created_at := now |}) d, tt))).

(** [state = 'active' AND created_at < ?], the cutoff cut to whole seconds. *)
Definition stale_checkpoint (cutoff : Z) (r : CheckpointRow) : bool :=
  String.eqb (cp_state r) SessionStateActive && (cp_created_at r <? cutoff / second).
Definition set_interrupted (r : CheckpointRow) : CheckpointRow :=
  {| cp_id := cp_id r; cp_session_id := cp_session_id r; cp_turn_number := cp_turn_number r;
     cp_t2_high_water := cp_t2_high_water r; cp_token_usage := cp_token_usage r;
     cp_state := SessionStateInterrupted; cp_created_at := cp_created_at r |}.

Definition InterruptStaleCheckpoints (cutoff : Z) : M World Z :=
  wrapM "storage: interrupting stale checkpoints"
    (exec (fun d _ =>
       Ok (set_checkpoints (updateb (stale_checkpoint cutoff) set_interrupted) d,
           Z.of_nat (countb (stale_checkpoint cutoff) (db_checkpoints d))))).

Definition LastCheckpointState : M World string :=
  last_or cp_created_at cp_state "" db_checkpoints "storage: querying last checkpoint state".
Definition LastWakeAt : M World Z :=
  last_or wr_wake_at (fun r => wr_wake_at r * second) time_zero db_wakes
    "storage: querying last wake time".

(** ** Assembly store *)

Definition HasWitnessLetter : M World bool :=
  wrapM "storage: querying founding_records"
    (query (fun d _ => Ok (negb (countb (String.eqb "witness_letter") (db_founding d) =? 0)%nat))).

Definition LogOperatorAction (actionType description : string) : M World unit :=
  let! id := newID in
  wrapM "storage: logging operator action"
    (exec (fun d now =>
       let? rows := insert_pk ar_id
         {| ar_id := id; ar_action_type := actionType; ar_actor := "system"; ar_reason := "";
            ar_description := description; ar_created_at := now |} (db_actions d) in
       Ok (set_actions (fun _ => rows) d, tt))).
End Store.

(** ** Lemmas *)
Section Lemmas.
Context `{Env}.

Lemma null_or_head valid l :
  (forall c, head l = Some c -> c ∈ valid) -> null_or valid (head l) = true.
Proof. destruct l; intros Hl; [done|]. by apply one_of_elem, Hl. Qed.

Lemma plan_ok_checks p id now : plan_ok p -> plan_checks (plan_row p id now) = true.
Proof.
  intros [? ? Hs ? ? ? ? ?]. unfold plan_checks. rewrite !andb_true_iff, !one_of_elem.
  assert (Hn : null_or ValidWakeCauses (plan_WakeCauseSecondary p) = true).
  { destruct (plan_WakeCauseSecondary p) as [c|]; [|done]. by apply one_of_elem, Hs. }
  by repeat split.
Qed.

(** The integrity of the lifecycle tables. *)
Record lifecycle_ok (d : Database) : Prop := {
  lo_plans : NoDup (map pr_id (db_plans d));
  lo_checks : Forall (fun r => plan_checks r = true) (db_plans d);
  lo_wakes : Forall (fun r => plan_exists (wr_plan_id r) d = true /\ wake_checks r = true) (db_wakes d);
  lo_manifests : NoDup (map mr_id (db_manifests d));
  lo_manifest_fk : db_foreign_keys = true -> Forall (fun r => plan_exists (mr_plan_id r) d = true) (db_manifests d);
  lo_checkpoints : NoDup (map cp_id (db_checkpoints d));
  lo_states : Forall (fun r => cp_state r ∈ checkpoint_states) (db_checkpoints d) }.

Lemma plan_exists_app id d r :
  plan_exists id d = true -> plan_exists id (set_plans (fun _ => db_plans d ++ [r]) d) = true.
Proof. unfold plan_exists. simpl. rewrite existsb_app. by intros ->. Qed.

Lemma upsert_keeps_ids row rows :
  NoDup (map cp_id rows) -> NoDup (map cp_id (upsert_checkpoint row rows)).
Proof.
  unfold upsert_checkpoint. intros Hnd. destruct (find_by cp_id (cp_id row) rows) eqn:E.
  - by rewrite map_updateb.
  - rewrite map_app. apply NoDup_app. split; [done|]. split; [|apply NoDup_singleton].
    intros k Hk Hin. apply list_elem_of_singleton in Hin as ->.
    apply list_elem_of_fmap in Hk as (x & Hx & Hin). by eapply find_by_None.
Qed.

Lemma upsert_states row rows (P : CheckpointRow -> Prop) :
  (forall a b, cp_state a = cp_state b -> P a -> P b) ->
  P row -> Forall P rows -> Forall P (upsert_checkpoint row rows).
Proof.
  intros HP Hrow Hrows. unfold upsert_checkpoint. destruct (find_by cp_id (cp_id row) rows).
  - apply Forall_updateb; [done|]. intros x _ _. by eapply HP; [|exact Hrow].
  - apply Forall_app. by split; [|constructor].
Qed.

Lemma upsert_find row rows k :
  find_by cp_id k (upsert_checkpoint row rows) =
  if String.eqb (cp_id row) k then
    Some {| cp_id := cp_id row;
            cp_session_id := match find_by cp_id k rows with
                             | Some r => cp_session_id r | None => cp_session_id row end;
            cp_turn_number := cp_turn_number row; cp_t2_high_water := cp_t2_high_water row;
            cp_token_usage := cp_token_usage row; cp_state := cp_state row;
            cp_created_at := cp_created_at row |}
  else find_by cp_id k rows.
Proof.
  unfold upsert_checkpoint. destruct (String.eqb_spec (cp_id row) k) as [<-|Hk].
  - destruct (find_by cp_id (cp_id row) rows) as [r|] eqn:E.
    + rewrite find_by_updateb, E by done. simpl.
      apply find_by_Some in E as [_ Hid]. by rewrite Hid, String.eqb_refl.
    + unfold find_by in *. rewrite find_snoc, E. simpl. rewrite String.eqb_refl. by destruct row.
  - destruct (find_by cp_id (cp_id row) rows) as [r|] eqn:E.
    + rewrite find_by_updateb by done. destruct (find_by cp_id k rows) as [x|] eqn:Ex; [|done].
      simpl. apply find_by_Some in Ex as [_ Hx]. rewrite Hx.
      destruct (String.eqb_spec k (cp_id row)); [congruence|done].
    + unfold find_by in *. rewrite find_snoc.
      destruct (String.eqb_spec (cp_id row) k); [done|].
      by destruct (List.find (fun r => String.eqb (cp_id r) k) rows).
Qed.
End Lemmas.

(** ** Properties *)
Section Properties.
Context `{Env}.

(** C26: Resolver and store agree. The plan [Resolve] builds from a validated policy
    and well-formed facts passes every CHECK constraint of [lifecycle_plans]: with a
    working driver and an unused ID, [RecordPlan] stores it, and the row read back
    carries the plan's fields. *)
Theorem RecordPlan_accepts_resolved policy facts op id t w :
  policy_ok policy -> facts_ok facts -> id <> "" -> db_fault (w_stmt w) = None ->
  find_by pr_id id (db_plans (w_db w)) = None ->
  let p := Resolve policy facts op id t in
  exists w', RecordPlan (Some p) w = (w', Ok (id, Ok tt)) /\
    w_db w' = set_plans (fun l => l ++ [plan_row p id (w_clock w)]) (w_db w) /\
    find_by pr_id id (db_plans (w_db w')) = Some (plan_row p id (w_clock w)).
Proof.
  intros Hp Hf Hid Hd Hfr p. pose proof (Resolve_plan_ok policy facts op id t Hp Hf) as Hok.
  unfold RecordPlan. assert (plan_ID p = id) as -> by apply Resolve_ID.
  unfold assign_id, bind, ret, attempt, wrapM. destruct (str_empty id) eqn:E.
  { by apply str_empty_true in E. }
  assert (Hi : insert_pk pr_id (plan_row p id (w_clock w)) (db_plans (w_db w))
               = Ok (db_plans (w_db w) ++ [plan_row p id (w_clock w)])).
  { by apply insert_pk_find. }
  erewrite exec_Ok; [|done|by rewrite plan_ok_checks by done; simpl; rewrite Hi].
  eexists. split; [done|]. split; [done|]. simpl. unfold find_by in *.
  rewrite find_snoc, Hfr. simpl. by rewrite String.eqb_refl.
Qed.

(** One mutating call of the two stores, whatever it returns. *)
Inductive store_op : World -> World -> Prop :=
  | op_plan p w w' r : RecordPlan p w = (w', r) -> store_op w w'
  | op_wake sid f w w' r : RecordWakeFacts sid f w = (w', r) -> store_op w w'
  | op_manifest m w w' r : RecordManifest m w = (w', r) -> store_op w w'
  | op_disclosure a b c d e f g w w' r : RecordDisclosure a b c d e f g w = (w', r) -> store_op w w'
  | op_checkpoint sid n hw tok st w w' r : WriteCheckpoint sid n hw tok st w = (w', r) -> store_op w w'
  | op_interrupt t w w' r : InterruptStaleCheckpoints t w = (w', r) -> store_op w w'
  | op_action a b w w' r : LogOperatorAction a b w = (w', r) -> store_op w w'.

Lemma lifecycle_ok_same d d' :
  db_plans d' = db_plans d -> db_wakes d' = db_wakes d -> db_manifests d' = db_manifests d ->
  db_checkpoints d' = db_checkpoints d -> lifecycle_ok d -> lifecycle_ok d'.
Proof.
  intros E1 E2 E3 E4 [? ? Hw ? Hm ? ?].
  split; rewrite ?E1, ?E2, ?E3, ?E4; try done; unfold plan_exists; by rewrite E1.
Qed.

Lemma lifecycle_add_plan d row rows :
  lifecycle_ok d -> plan_checks row = true -> insert_pk pr_id row (db_plans d) = Ok rows ->
  lifecycle_ok (set_plans (fun _ => rows) d).
Proof.
  intros [? ? Hw ? Hm ? ?] Hc Hi. apply insert_pk_Ok in Hi as [-> Hi].
  split; simpl; auto.
  - apply Forall_app. by split; [|constructor].
  - eapply Forall_impl; [exact Hw|]. intros x [? ?]. split; [by apply plan_exists_app|done].
  - intros Hfk. eapply Forall_impl; [exact (Hm Hfk)|]. intros x ?. by apply plan_exists_app.
Qed.

Lemma RecordWakeFacts_cases sid f w w' r :
  RecordWakeFacts sid f w = (w', r) ->
  w_db w' = w_db w \/
  exists row, w_db w' = set_wakes (fun l => l ++ [row]) (w_db w) /\
    wake_checks row = true /\ plan_exists (wr_plan_id row) (w_db w) = true.
Proof.
  unfold RecordWakeFacts. destruct f as [f|]; [|intros [= <- <-]; by left].
  unfold bind. destruct (wrapM _ (query _) w) as [w1 [pid|e]] eqn:E1;
    unfold query in E1; apply exec_wrap_cases in E1 as [_ E1]; [|intros [= <- <-]; by left].
  destruct (last_by _ _) as [p|] eqn:El; [|done]. injection E1 as E1 <-. intros E.
  assert (Hp : plan_exists (pr_id p) (w_db w) = true).
  { apply last_by_max in El as [[Hin _]%elem_of_whereb _]. apply existsb_exists. exists p.
    split; [by apply list_elem_of_In|apply String.eqb_refl]. }
  apply exec_wrap_cases in E as [_ E]. rewrite <- E1 in E.
  destruct r as [u|]; [|left; congruence]. right. unfold check_constraint, fk_plan in E.
  destruct (wake_checks _) eqn:Ec; [|done]. simpl in E. rewrite Hp in E.
  unfold foreign_key in E. rewrite orb_true_r in E. injection E as <- _. eauto.
Qed.

Lemma store_op_ok w w' : store_op w w' -> lifecycle_ok (w_db w) -> lifecycle_ok (w_db w').
Proof.
  intros Hs Hok. destruct Hs as [p w w' r E|sid f w w' r E|m w w' r E|a b c d e f g w w' r E|
                                 sid n hw tok st w w' r E|t w w' r E|a b w w' r E].
  - unfold RecordPlan, assign_id, bind, attempt, ret in E. destruct p as [p|]; [|by simplify_eq].
    destruct (str_empty (plan_ID p)); simpl in E;
      destruct (wrapM _ _ _) as [w1 r1] eqn:E1; apply exec_wrap_cases in E1 as [_ E1];
      injection E as -> _; (destruct r1; [|simpl in E1; by rewrite E1]);
      unfold check_constraint in E1; destruct (plan_checks _) eqn:Ec; try done; simpl in E1;
      destruct (insert_pk _ _ _) eqn:Ei; try done; injection E1 as <- _;
      by eapply lifecycle_add_plan.
  - apply RecordWakeFacts_cases in E as [->|(row & -> & Hc & Hp)]; [done|].
    destruct Hok as [? ? Hw ? ? ? ?]. split; try done. apply Forall_app. by repeat constructor.
  - unfold RecordManifest, assign_id, bind, attempt, ret in E. destruct m as [m|]; [|by simplify_eq].
    destruct (str_empty (mf_ID m)); simpl in E;
      destruct (wrapM _ _ _) as [w1 r1] eqn:E1; apply exec_wrap_cases in E1 as [_ E1];
      injection E as -> _; (destruct r1; [|simpl in E1; by rewrite E1]);
      unfold fk_plan, foreign_key in E1; destruct (negb _ || _) eqn:Ec; try done; simpl in E1;
      destruct (insert_pk _ _ _) eqn:Ei; try done; injection E1 as <- _;
      apply insert_pk_Ok in Ei as [-> Ei]; destruct Hok as [? ? ? ? Hm ? ?]; split; try done; try (by apply Ei);
      intros Hfk; rewrite Hfk in Ec; apply Forall_app;
      (split; [by apply Hm|by apply Forall_singleton]).
  - apply exec_wrap_cases in E as [_ E]. destruct r; [injection E as <- _|by rewrite E].
    by apply (lifecycle_ok_same (w_db w)).
  - apply exec_wrap_cases in E as [_ E]. destruct r; [|by rewrite E].
    unfold check_constraint in E. destruct (one_of st _) eqn:Es; [|done]. injection E as <- _.
    apply one_of_elem in Es. destruct Hok. split; try done; simpl; [by apply upsert_keeps_ids|].
    apply upsert_states; [by intros ? ? ->|done|done].
  - apply exec_wrap_cases in E as [_ E]. destruct r; [injection E as <- _|by rewrite E].
    destruct Hok. split; try done; simpl; [by rewrite map_updateb|].
    apply Forall_updateb; [done|]. intros x _ _. simpl. set_solver.
  - unfold LogOperatorAction, bind, newID in E. apply exec_wrap_cases in E as [_ E].
    destruct r; [|by rewrite E]. destruct (insert_pk _ _ _); [|done]. injection E as <- _.
    by apply (lifecycle_ok_same (w_db w)).
Qed.

(** Referential integrity of the lifecycle tables. Along every sequence of
    store calls, successful or not: plan IDs are unique and every plan satisfies its
    CHECK constraints, every wake-facts row refers to a stored plan, so
    does every manifest where the connection enforces foreign keys, and each session
    has at most one checkpoint, in a declared state. *)
Theorem lifecycle_store_invariant w w' :
  rtc store_op w w' -> lifecycle_ok (w_db w) -> lifecycle_ok (w_db w').
Proof. induction 1 as [|w w1 w2 Hs _ IH]; [done|]. intros Hok. by eapply IH, store_op_ok. Qed.

(** Checkpoints. A successful [WriteCheckpoint] leaves the session's single
    checkpoint with exactly the given turn, usage and state, and every other
    session's as it was. A successful sweep returns the number of checkpoints it
    interrupted; it interrupts exactly the active ones older than the cutoff's
    second, never a completed one, and sweeping again at that cutoff finds none. *)
Theorem checkpoint_upsert_and_sweep sid n hw tok st cutoff w w1 w2 k :
  WriteCheckpoint sid n hw tok st w = (w1, Ok tt) ->
  InterruptStaleCheckpoints cutoff w1 = (w2, Ok k) ->
  db_fault (w_stmt w2) = None ->
  (exists r, find_by cp_id sid (db_checkpoints (w_db w1)) = Some r /\
     cp_turn_number r = n /\ cp_t2_high_water r = hw /\ cp_token_usage r = tok /\ cp_state r = st) /\
  (forall j, j <> sid ->
     find_by cp_id j (db_checkpoints (w_db w1)) = find_by cp_id j (db_checkpoints (w_db w))) /\
  (forall j r, find_by cp_id j (db_checkpoints (w_db w1)) = Some r ->
     exists r', find_by cp_id j (db_checkpoints (w_db w2)) = Some r' /\
       cp_state r' = (if String.eqb (cp_state r) SessionStateActive && (cp_created_at r <? cutoff / second)
                      then SessionStateInterrupted else cp_state r) /\
       cp_turn_number r' = cp_turn_number r /\ cp_token_usage r' = cp_token_usage r) /\
  k = Z.of_nat (countb (stale_checkpoint cutoff) (db_checkpoints (w_db w1))) /\
  (InterruptStaleCheckpoints cutoff w2).2 = Ok 0.
Proof.
  intros Hw Hi Hf. apply exec_wrap_cases in Hw as [_ Hw]. apply exec_wrap_cases in Hi as [_ Hi].
  unfold check_constraint in Hw. destruct (one_of st checkpoint_states); [|done].
  injection Hw as Hw. injection Hi as Hi <-.
  split; [|split; [|split; [|split; [done|]]]].
  - rewrite <- Hw. simpl. rewrite upsert_find. simpl. rewrite String.eqb_refl. by eexists.
  - intros j Hj. rewrite <- Hw. simpl. rewrite upsert_find. simpl.
    destruct (String.eqb_spec sid j); [congruence|done].
  - intros j r Hr. rewrite <- Hi. simpl. rewrite find_by_updateb, Hr by done. simpl.
    eexists. split; [done|]. unfold stale_checkpoint. by destruct (_ && _).
  - unfold InterruptStaleCheckpoints, wrapM.
    erewrite exec_Ok; [|done|reflexivity]. simpl. rewrite <- Hi. simpl.
    assert (countb (stale_checkpoint cutoff)
      (updateb (stale_checkpoint cutoff) set_interrupted (db_checkpoints (w_db w1))) = 0%nat) as ->; [|done].
    apply countb_zero. intros x Hx. apply elem_of_updateb in Hx as (y & _ & ->).
    by destruct (stale_checkpoint cutoff y) eqn:Ey.
Qed.
End Properties.

(** ** Witnesses *)

Definition demo_plan : LifecyclePlan := Resolve demo_policy demo_facts demo_op "p1" 0.

Lemma RecordPlan_accepts_resolved_witness :
  exists w', @RecordPlan demo_env (Some demo_plan) demo_world = (w', Ok ("p1", Ok tt)) /\
    find_by pr_id "p1" (db_plans (w_db w')) = Some (plan_row demo_plan "p1" 1000).
Proof.
  destruct (@RecordPlan_accepts_resolved demo_env demo_policy demo_facts demo_op "p1" 0 demo_world
    demo_policy_ok (observed_facts_ok _ _ _) ltac:(discriminate) eq_refl eq_refl)
    as (w' & E & _ & F).
  exists w'. split; [exact E|exact F].
Defined.

Definition plan_world : World := (@RecordPlan demo_env (Some demo_plan) demo_world).1.

Lemma lifecycle_store_invariant_witness : @lifecycle_ok demo_env (w_db plan_world).
Proof.
  apply (@lifecycle_store_invariant demo_env demo_world).
  - eapply rtc_once, (@op_plan demo_env (Some demo_plan)). reflexivity.
  - split; constructor.
Defined.

(** The connection of [NewStore], which the application uses, checks no foreign key:
    a manifest of an unknown plan is stored. *)
Definition unchecked_env : Env :=
  {| rand_bytes := @rand_bytes demo_env; db_fault := fun _ => None; db_time_scan := None;
     db_foreign_keys := false |}.
Definition stray_manifest : AssemblyManifest :=
  {| mf_ID := "m"; mf_SessionID := "s"; mf_PlanID := "no plan"; mf_BudgetTotal := 0;
     mf_BudgetUsed := 0; mf_PhasesRun := []; mf_PhasesSkipped := []; mf_SkipReasons := ∅;
     mf_PhaseCosts := ∅; mf_CreatedAt := 0 |}.
Example manifest_of_unknown_plan :
  map mr_plan_id (db_manifests (w_db (@RecordManifest unchecked_env (Some stray_manifest) demo_world).1))
    = ["no plan"] /\
  db_manifests (w_db (@RecordManifest demo_env (Some stray_manifest) demo_world).1) = [].
Proof. by vm_compute. Qed.

Definition checkpointed : World := (@WriteCheckpoint demo_env "s1" 3 "" 40 "active" demo_world).1.
Definition swept := @InterruptStaleCheckpoints demo_env (2000 * second) checkpointed.

Lemma checkpoint_upsert_and_sweep_witness :
  swept.2 = Ok 1 /\ (@InterruptStaleCheckpoints demo_env (2000 * second) swept.1).2 = Ok 0.
Proof.
  split; [vm_compute; reflexivity|].
  refine (proj2 (proj2 (proj2 (proj2
    (@checkpoint_upsert_and_sweep demo_env "s1" 3 "" 40 "active" (2000 * second) demo_world
       checkpointed swept.1 1 _ _ _))))); vm_compute; reflexivity.
Defined.
