(* ===== verification/Session.v ===== *)
(** * Sessions and lifecycle policy: [internal/session]

    [session.go]: the session object. [policy.go]: reading, validating and
    canonicalising [lifecycle.json], and comparing its hash with the last one
    applied. [disclosure.go]: what a policy change tells the agent. *)

From S2P Require Import Prelude Types Lifecycle Db LifecycleStore.

(** ** The session object *)

(** [pkg.Session] with the runtime counters of [session.Session]. *)
Record Session := {
  s_ID : string; s_AgentName : string; s_StartedAt : Z; s_EndedAt : option Z;
  s_State : string; s_WakeReason : string; s_TokensUsed : Z; s_turnCount : Z }.

Definition NewSession `{Env} (agentName wakeReason : string) (now : Z) : M World Session :=
  fun w =>
    (bump_rng w,
     Ok {| s_ID := agentName +:+ "-" +:+ hex_string (rand_bytes (w_rng w));
           s_AgentName := agentName; s_StartedAt := now; s_EndedAt := None;
           s_State := SessionStateActive; s_WakeReason := wakeReason;
           s_TokensUsed := 0; s_turnCount := 0 |}).

Definition Start (agentName wakeReason : string) (now : Z) (s : Session) : Session :=
  if String.eqb (s_State s) SessionStateActive then s
  else {| s_ID := s_ID s; s_AgentName := agentName; s_StartedAt := now; s_EndedAt := s_EndedAt s;
          s_State := SessionStateActive; s_WakeReason := wakeReason;
          s_TokensUsed := s_TokensUsed s; s_turnCount := s_turnCount s |}.

Definition End_ (now : Z) (s : Session) : Session :=
  {| s_ID := s_ID s; s_AgentName := s_AgentName s; s_StartedAt := s_StartedAt s;
     s_EndedAt := Some now; s_State := SessionStateCompleted; s_WakeReason := s_WakeReason s;
     s_TokensUsed := s_TokensUsed s; s_turnCount := s_turnCount s |}.

Definition RecordTurn (promptToks completionToks : Z) (s : Session) : Session :=
  {| s_ID := s_ID s; s_AgentName := s_AgentName s; s_StartedAt := s_StartedAt s;
     s_EndedAt := s_EndedAt s; s_State := s_State s; s_WakeReason := s_WakeReason s;
     s_TokensUsed := wrap64 (s_TokensUsed s + wrap64 (promptToks + completionToks));
     s_turnCount := wrap64 (s_turnCount s + 1) |}.

(** ** Policy files *)

Record policyDocument := {
  pd_TemporalMode : string; pd_BridgePolicy : string;
  pd_MetabolismPolicy : string; pd_AssemblyProfile : string }.

(** What [os.ReadFile] finds at a path. *)
Inductive FileContent :=
  | NotExist
  | Unreadable (msg : string)
  | Contents (data : string).

(** The host and the codecs the reader calls: the file system, [filepath.Join],
    [json.Decoder.Decode] with unknown fields disallowed, and SHA-256 in hex. *)
Class Host := {
  os_ReadFile : string -> FileContent;
  filepath_Join : string -> string -> string;
  json_policy : string -> result policyDocument;
  sha256_hex : string -> string }.

Definition validate_field (name : string) (valid : list string) (v : string) : result unit :=
  if negb (str_empty v) && negb (one_of v valid)
  then Err (ENew ("policy: invalid " +:+ name +:+ " " +:+ fmt_q v)) else Ok tt.

Definition validate (d : policyDocument) : result unit :=
  let? _ := validate_field "temporal_mode" ValidTemporalModes (pd_TemporalMode d) in
  let? _ := validate_field "bridge_policy" ValidBridgePolicies (pd_BridgePolicy d) in
  let? _ := validate_field "metabolism_policy" ValidMetabolismPolicies (pd_MetabolismPolicy d) in
  validate_field "assembly_profile" ValidAssemblyProfiles (pd_AssemblyProfile d).

Definition toCanonical (d : policyDocument) (hash : string) : LifecyclePolicy :=
  {| lp_TemporalMode := str_or (pd_TemporalMode d) TemporalEpisodic;
     lp_DefaultAssembly := str_or (pd_AssemblyProfile d) AssemblyFull;
     lp_BridgePolicy := str_or (pd_BridgePolicy d) BridgeAgentRequested;
     lp_ActivityProfile := ActivityNormal;
     lp_MetabolismPolicy := pd_MetabolismPolicy d;
     lp_CommitHash := hash |}.

Section Policy.
Context `{Host}.

Definition PolicyPath (workspacePath : string) : string :=
  filepath_Join workspacePath "lifecycle.json".

Definition Read (workspacePath : string) : result (LifecyclePolicy * string) :=
  let path := PolicyPath workspacePath in
  match os_ReadFile path with
  | NotExist => Ok (zero_policy, "")
  | Unreadable msg => Err (EWrap ("policy: reading " +:+ path) (ENew msg))
  | Contents data =>
      let? doc := wrap_err ("policy: parsing " +:+ path) (json_policy data) in
      let? _ := validate doc in
      let hexHash := sha256_hex data in
      Ok (toCanonical doc hexHash, hexHash)
  end.
End Policy.

(** [HasChanged] on a present database: (changed, previousHash). *)
Definition HasChanged `{Env} (currentHash : string) : M World (bool * string) :=
  wrapM "policy: querying last applied hash"
    (query (fun d _ =>
       Ok (match last_by cf_applied_at (db_configs d) with
           | None => (true, "")
           | Some r => (negb (String.eqb currentHash (cf_policy_hash r)), cf_policy_hash r)
           end))).

(** ** Disclosures *)

Record ConfigDisclosure := {
  cd_PolicyPath : string; cd_OldHash : string; cd_NewHash : string;
  cd_Changes : list string; cd_AppliedAt : Z }.

Definition set_to (name v : string) : list string :=
  if str_empty v then [] else [name +:+ " set to " +:+ fmt_q v].
Definition changed_line (name old new : string) : string :=
  name +:+ " changed from " +:+ fmt_q old +:+ " to " +:+ fmt_q new.
Definition changed_from (name old new : string) : list string :=
  if String.eqb old new then [] else [changed_line name old new].
Definition or_note (note : string) (l : list string) : list string :=
  match l with [] => [note] | _ => l end.

Definition GenerateDisclosure (old : option LifecyclePolicy) (new : LifecyclePolicy) (now : Z)
    : ConfigDisclosure :=
  {| cd_PolicyPath := ""; cd_OldHash := ""; cd_NewHash := ""; cd_AppliedAt := now;
     cd_Changes :=
       match old with
       | None =>
           or_note "initial policy applied (all defaults)"
             (set_to "temporal_mode" (lp_TemporalMode new) ++
              set_to "bridge_policy" (lp_BridgePolicy new) ++
              set_to "metabolism_policy" (lp_MetabolismPolicy new) ++
              set_to "assembly_profile" (lp_DefaultAssembly new))
       | Some o =>
           or_note "no field-level changes detected (file content changed)"
             (changed_from "temporal_mode" (lp_TemporalMode o) (lp_TemporalMode new) ++
              changed_from "bridge_policy" (lp_BridgePolicy o) (lp_BridgePolicy new) ++
              changed_from "metabolism_policy" (lp_MetabolismPolicy o) (lp_MetabolismPolicy new) ++
              changed_from "assembly_profile" (lp_DefaultAssembly o) (lp_DefaultAssembly new))
       end |}.

Definition ForContext (d : ConfigDisclosure) : string :=
  "[configuration change]" +:+ newline +:+
  (if str_empty (cd_PolicyPath d) then "" else "Policy: " +:+ cd_PolicyPath d +:+ newline) +:+
  String.concat "" (map (fun c => "  - " +:+ c +:+ newline) (cd_Changes d)) +:+
  (if str_empty (cd_OldHash d) then "" else
   "Previous hash: " +:+
   (if 12 <? str_len (cd_OldHash d) then str_take 12 (cd_OldHash d) +:+ "..." else cd_OldHash d)
   +:+ newline) +:+
  "Applied at: " +:+ fmt_RFC3339 (cd_AppliedAt d).

(** ** Properties *)

Lemma validate_field_Ok name valid v :
  validate_field name valid v = Ok tt -> unset_or valid v.
Proof.
  unfold validate_field, unset_or. destruct (str_empty v) eqn:E; [left; by apply str_empty_true|].
  destruct (one_of v valid) eqn:Ev; simpl; [|done]. right. by apply one_of_elem.
Qed.

Lemma validate_field_Err name valid v e :
  validate_field name valid v = Err e -> ~ unset_or valid v.
Proof.
  unfold validate_field, unset_or. destruct (str_empty v) eqn:E; [done|].
  destruct (one_of v valid) eqn:Ev; simpl; [done|]. intros _ [->|Hv]; [done|].
  apply one_of_elem in Hv. congruence.
Qed.

Definition document_ok (d : policyDocument) : Prop :=
  unset_or ValidTemporalModes (pd_TemporalMode d) /\
  unset_or ValidBridgePolicies (pd_BridgePolicy d) /\
  unset_or ValidMetabolismPolicies (pd_MetabolismPolicy d) /\
  unset_or ValidAssemblyProfiles (pd_AssemblyProfile d).

Lemma validate_spec d :
  match validate d with Ok _ => document_ok d | Err _ => ~ document_ok d end.
Proof.
  unfold validate, document_ok, result_bind.
  repeat match goal with
  | |- context [validate_field ?n ?l ?v] =>
      let E := fresh "E" in destruct (validate_field n l v) as [[]|?] eqn:E;
      [apply validate_field_Ok in E|apply validate_field_Err in E]
  end; tauto.
Qed.

Lemma toCanonical_ok d h : document_ok d -> policy_ok (toCanonical d h).
Proof.
  intros (Ht & Hb & Hm & Ha). split; simpl; [| | | |done]; try (right; apply str_or_valid; [done|]);
    try set_solver. right. set_solver.
Qed.

Section Properties.
Context `{Host}.

(** Reading the policy file fails closed. Whatever the file holds: a missing
    file is the all-defaults policy with no hash; a policy that is returned has
    every field declared (so the resolver and the plan table accept it), equals the
    document with the documented defaults filled in, and is stamped with the
    SHA-256 of the bytes read; an unreadable file, a document that does not decode
    and a document with an undeclared value are errors. *)
Theorem Read_validates ws :
  match os_ReadFile (PolicyPath ws), Read ws with
  | NotExist, r => r = Ok (zero_policy, "")
  | Unreadable _, r => exists e, r = Err e
  | Contents data, Ok (p, h) =>
      policy_ok p /\ h = sha256_hex data /\ lp_CommitHash p = h /\
      exists doc, json_policy data = Ok doc /\ document_ok doc /\ p = toCanonical doc h
  | Contents data, Err _ => forall doc, json_policy data = Ok doc -> ~ document_ok doc
  end.
Proof.
  unfold Read. destruct (os_ReadFile (PolicyPath ws)) as [|msg|data]; [done|by eexists|].
  destruct (json_policy data) as [doc|e]; simpl; [|done].
  pose proof (validate_spec doc) as Hv. destruct (validate doc); simpl; [|by intros ? [= <-]].
  split; [by apply toCanonical_ok|]. split; [done|]. split; [done|]. by exists doc.
Qed.
End Properties.

Section Change.
Context `{Env}.

(** Change detection round trip. Once a policy's hash has been recorded later
    than every earlier record, the same file reads as unchanged and any other hash
    as changed, with the recorded hash as the previous one. *)
Theorem recorded_policy_is_detected sid path hash prev sum src snap w w1 h :
  (forall r, r ∈ db_configs (w_db w) -> cf_applied_at r < w_clock w) ->
  RecordDisclosure sid path hash prev sum src snap w = (w1, Ok tt) ->
  db_fault (w_stmt w1) = None ->
  (HasChanged h w1).2 = Ok (negb (String.eqb h hash), hash).
Proof.
  intros Hlt Hr Hf. apply exec_wrap_cases in Hr as [Hc Hr]. injection Hr as Hr.
  unfold HasChanged, wrapM, query. erewrite exec_Ok; [|done|reflexivity]. simpl.
  rewrite <- Hr. simpl.
  match goal with |- context [last_by _ (_ ++ [?x])] => set (row := x) end.
  destruct (last_by cf_applied_at (db_configs (w_db w) ++ [row])) as [r|] eqn:E.
  - apply last_by_max in E as [Hin Hmax]. apply elem_of_app in Hin as [Hin|Hin].
    + specialize (Hlt r Hin). specialize (Hmax row ltac:(set_solver)). simpl in Hmax. lia.
    + by apply list_elem_of_singleton in Hin as ->.
  - apply last_by_None in E. by destruct (db_configs (w_db w)).
Qed.
End Change.

(** A disclosure is never silent and never invents a change: against a previous
    policy, the line for a field is present exactly when that field's value differs,
    and when no field differs the disclosure is the single note that only the file's
    content changed. *)
Theorem GenerateDisclosure_exact old new now :
  let d := GenerateDisclosure (Some old) new now in
  let fields := [("temporal_mode", lp_TemporalMode old, lp_TemporalMode new);
                 ("bridge_policy", lp_BridgePolicy old, lp_BridgePolicy new);
                 ("metabolism_policy", lp_MetabolismPolicy old, lp_MetabolismPolicy new);
                 ("assembly_profile", lp_DefaultAssembly old, lp_DefaultAssembly new)] in
  (Forall (fun f => let '(_, a, b) := f in a = b) fields ->
     cd_Changes d = ["no field-level changes detected (file content changed)"]) /\
  (Exists (fun f => let '(_, a, b) := f in a <> b) fields ->
     forall l, l ∈ cd_Changes d <->
       exists f, f ∈ fields /\ let '(n, a, b) := f in a <> b /\ l = changed_line n a b).
Proof.
  cbv zeta. unfold GenerateDisclosure, changed_from. simpl cd_Changes. split.
  - intros Hall. repeat (apply Forall_cons in Hall as [? Hall]).
    repeat match goal with Heq : _ _ = _ _ |- _ => rewrite Heq, String.eqb_refl; clear Heq end. done.
  - intros Hex l.
    destruct (String.eqb_spec (lp_TemporalMode old) (lp_TemporalMode new)),
      (String.eqb_spec (lp_BridgePolicy old) (lp_BridgePolicy new)),
      (String.eqb_spec (lp_MetabolismPolicy old) (lp_MetabolismPolicy new)),
      (String.eqb_spec (lp_DefaultAssembly old) (lp_DefaultAssembly new)); simpl;
      try (exfalso; repeat (apply Exists_cons in Hex as [?|Hex]; [congruence|]);
           by apply Exists_nil in Hex);
      clear Hex; (split;
        [intros Hl; repeat (apply elem_of_cons in Hl as [->|Hl]); try (by apply elem_of_nil in Hl);
         eexists (_, _, _); (split; [|split; [|reflexivity]]); first [done | in_list]
        |intros (((fn & fa) & fb) & Hin & Hne & ->);
         repeat (apply elem_of_cons in Hin as [[= -> -> ->]|Hin]); try (by apply elem_of_nil in Hin);
         try done; in_list]).
Qed.

(** ** Witnesses *)

Definition demo_recorded :=
  @RecordDisclosure demo_env "s1" "lifecycle.json" "h2" "h1" "summary" "workspace" "{}" demo_world.

Lemma recorded_policy_is_detected_witness :
  (@HasChanged demo_env "h2" demo_recorded.1).2 = Ok (false, "h2").
Proof.
  refine (@recorded_policy_is_detected demo_env "s1" "lifecycle.json" "h2" "h1" "summary"
    "workspace" "{}" demo_world demo_recorded.1 "h2" _ _ eq_refl); [|reflexivity].
  intros r Hr. apply elem_of_nil in Hr. destruct Hr.
Defined.

Lemma GenerateDisclosure_exact_witness :
  cd_Changes (GenerateDisclosure (Some demo_policy) demo_policy 0)
  = ["no field-level changes detected (file content changed)"].
Proof.
  apply (proj1 (GenerateDisclosure_exact demo_policy demo_policy 0)). repeat constructor.
Defined.
