(* ===== verification/MemoryTiers.v ===== *)
(** * The upper memory tiers ([internal/platform/memory.go], [internal/memory/tier3.go],
    [tier4.go], [tier5.go])

    The SQLite statements on narratives (T3), reflections (T4), the knowledge graph (T5)
    and relational profiles, with the [LIKE] matching they use, and the tier operations
    on top of them. [MemoryWriter] and [KGMutationStore] are what the tier operations ask
    of a store; the SQLite instances are the statements of this file. *)

From S2P Require Import Prelude Frames Types Db Consolidation Memory MemoryStore Metabolism.

(** ** LIKE *)

(** [strings.ReplaceAll(s, old, new)] for a one-byte [old]. *)
Fixpoint replace_byte (old : Ascii.ascii) (new : string) (s : string) : string :=
  match s with
  | "" => ""
  | String c r => if Ascii.eqb c old then new +:+ replace_byte old new r
                  else String c (replace_byte old new r)
  end.

Definition backslash : Ascii.ascii := Ascii.ascii_of_nat 92.
Definition percent : Ascii.ascii := Ascii.ascii_of_nat 37.
Definition underscore : Ascii.ascii := Ascii.ascii_of_nat 95.
Definition escaped (c : Ascii.ascii) : string := String backslash (String c "").

Definition escapeLike (s : string) : string :=
  replace_byte underscore (escaped underscore)
    (replace_byte percent (escaped percent)
       (replace_byte backslash (escaped backslash) s)).

(** A pattern of [LIKE ... ESCAPE '\']: a literal byte, any text, any one character. A
    pattern that ends in the escape matches nothing. *)
Inductive like_token := Lit (c : Ascii.ascii) | AnyText | AnyChar.

Fixpoint like_tokens (p : string) : option (list like_token) :=
  match p with
  | "" => Some []
  | String c r =>
      if Ascii.eqb c backslash then
        match r with
        | "" => None
        | String d r' => cons (Lit d) <$> like_tokens r'
        end
      else cons (if Ascii.eqb c percent then AnyText
                 else if Ascii.eqb c underscore then AnyChar else Lit c) <$> like_tokens r
  end.

(** SQLite folds the case of ASCII letters only. Text is UTF-8: the continuation bytes
    belong to the character before them. *)
Definition fold_eqb (c d : Ascii.ascii) : bool := Ascii.eqb (lower_byte c) (lower_byte d).
Fixpoint skip_continuation (s : string) : string :=
  match s with
  | String c r => if (128 <=? ascii_code c) && (ascii_code c <? 192) then skip_continuation r else s
  | "" => ""
  end.
Fixpoint like_match (ts : list like_token) : string -> bool :=
  match ts with
  | [] => str_empty
  | Lit c :: ts => fun s =>
      match s with String d r => fold_eqb c d && like_match ts r | "" => false end
  | AnyChar :: ts => fun s =>
      match s with String _ r => like_match ts (skip_continuation r) | "" => false end
  | AnyText :: ts =>
      fix any s := like_match ts s || match s with String _ r => any r | "" => false end
  end.

(** [s LIKE p ESCAPE '\'] *)
Definition like (p s : string) : bool :=
  match like_tokens p with Some ts => like_match ts s | None => false end.

Definition contains_pattern (q : string) : string := "%" +:+ escapeLike q +:+ "%".

(** ** Rows *)

(** [decodeBelief]: as [decodeBeliefMeta], with the base confidence of its column and
    the emotional register. *)
Definition decodeBelief (c : option BeliefColumn) (baseConf : option float64) : BeliefMeta :=
  let b := decodeBeliefMeta c in
  {| bm_BaseConfidence := default f_zero baseConf; bm_AnchorAt := bm_AnchorAt b;
     bm_InferenceDistance := bm_InferenceDistance b;
     bm_VerificationState := bm_VerificationState b; bm_Source := bm_Source b;
     bm_EmotionalRegister :=
       match c with Some c => default "" (bc_emotional_register c) | None => "" end |}.

Definition narrative_of_row (r : NarrativeRow) : NarrativeSummary :=
  {| ns_ID := nr_id r; ns_SessionID := nr_session_id r; ns_Content := nr_content r;
     ns_Belief := Some (decodeBelief (nr_belief_meta r) None); ns_Embedding := [];
     ns_ContentSources := nr_content_sources r; ns_ExternalAnnotation := nr_aegis_meta r |}.
(** [reflection_type] is not selected: the type is empty. *)
Definition reflection_of_row (r : ReflectionRow) : Reflection :=
  {| rf_ID := re_id r; rf_Type := ""; rf_Content := re_content r;
     rf_Visibility := re_visibility r;
     rf_Belief := Some (decodeBelief (re_belief_meta r) (re_base_confidence r));
     rf_Embedding := [] |}.
Definition entity_of_row (r : EntityRow) : Entity :=
  {| en_ID := ke_id r; en_Name := ke_name r; en_Type := ke_type r; en_Content := ke_content r;
     en_Belief := Some (decodeBelief (ke_belief_meta r) None); en_Embedding := [] |}.
Definition profile_of_row (r : ProfileRow) : RelationalProfile :=
  {| rp_ID := pf_id r; rp_Name := pf_name r; rp_Aliases := []; rp_Content := pf_content r |}.

(** The belief a narrative or an entity is stored with: a new one when there is none, and
    the present for a missing anchor. *)
Definition stored_belief (b : option BeliefMeta) (now : Z) : BeliefMeta :=
  match b with
  | None => {| bm_BaseConfidence := f_of_Z 1; bm_AnchorAt := now; bm_InferenceDistance := 1;
               bm_VerificationState := "unverified"; bm_Source := ""; bm_EmotionalRegister := "" |}
  | Some b =>
      if time_IsZero (bm_AnchorAt b)
      then {| bm_BaseConfidence := bm_BaseConfidence b; bm_AnchorAt := now;
              bm_InferenceDistance := bm_InferenceDistance b;
              bm_VerificationState := bm_VerificationState b; bm_Source := bm_Source b;
              bm_EmotionalRegister := bm_EmotionalRegister b |}
      else b
  end.

(** A REAL parameter: SQLite stores NaN as NULL. *)
Definition sql_real (x : float64) : option float64 := if is_nan x then None else Some x.

(** [InsertReflection]'s reading of authorship: the confidence is written when the belief
    has an anchor. *)
Definition written_confidence (b : option BeliefMeta) : option float64 :=
  match b with
  | Some b => if time_IsZero (bm_AnchorAt b) then None else sql_real (bm_BaseConfidence b)
  | None => None
  end.

Definition VisibilityPrivate : string := "private".
Definition VisibilityShared : string := "shared".

Definition expire_entity (now : Z) (r : EntityRow) : EntityRow :=
  {| ke_id := ke_id r; ke_name := ke_name r; ke_type := ke_type r; ke_content := ke_content r;
     ke_belief_meta := ke_belief_meta r; ke_embedding := ke_embedding r;
     ke_created := ke_created r; ke_expired := Some now |}.
Definition expire_relationship (now : Z) (r : RelationshipRow) : RelationshipRow :=
  {| kr_id := kr_id r; kr_from := kr_from r; kr_to := kr_to r; kr_type := kr_type r;
     kr_summary := kr_summary r; kr_belief_meta := kr_belief_meta r; kr_expired := Some now |}.
Definition entity_live (i : string) (r : EntityRow) : bool :=
  String.eqb (ke_id r) i && match ke_expired r with None => true | Some _ => false end.
Definition relationship_live (i : string) (r : RelationshipRow) : bool :=
  String.eqb (kr_id r) i && match kr_expired r with None => true | Some _ => false end.

(** [ON CONFLICT(id) DO UPDATE]: creation time, expiry and embedding stay. *)
Definition update_entity (e : Entity) (b : option BeliefColumn) (r : EntityRow) : EntityRow :=
  {| ke_id := ke_id r; ke_name := en_Name e; ke_type := en_Type e; ke_content := en_Content e;
     ke_belief_meta := b; ke_embedding := ke_embedding r;
     ke_created := ke_created r; ke_expired := ke_expired r |}.
Definition upsert_entity (e : Entity) (now : Z) (rows : list EntityRow) : list EntityRow :=
  let b := beliefMetaJSON (Some (stored_belief (en_Belief e) (now * second))) in
  let same r := String.eqb (ke_id r) (en_ID e) in
  if existsb same rows then updateb same (update_entity e b) rows
  else rows ++ [{| ke_id := en_ID e; ke_name := en_Name e; ke_type := en_Type e;
                   ke_content := en_Content e; ke_belief_meta := b; ke_embedding := None;
                   ke_created := now; ke_expired := None |}].

Definition name_le (x y : ProfileRow) : Prop := String.le (pf_name x) (pf_name y).
#[global] Instance name_le_dec : RelDecision name_le.
Proof. intros x y. unfold name_le. apply _. Defined.

Section Statements.
Context `{Env}.

(** ** T3 *)

Definition SearchNarrative (_ : list float64) (limit : Z) : M World (list NarrativeSummary) :=
  query (fun d _ =>
    Ok (map narrative_of_row
          (sql_limit limit (order_by (fun r => - nr_created_at r) (db_narratives d))))).

(** The session ID and the embedding of the summary are not written. A missing anchor is
    also set on the caller's belief, which the program does not read again. *)
Definition InsertNarrative (summary : NarrativeSummary) : M World unit :=
  exec (fun d now =>
    let? rows := insert_pk nr_id
      {| nr_id := ns_ID summary; nr_session_id := ""; nr_content := ns_Content summary;
         nr_embedding := None;
         nr_belief_meta := beliefMetaJSON (Some (stored_belief (ns_Belief summary) (now * second)));
         nr_content_sources := ns_ContentSources summary;
         nr_aegis_meta := ns_ExternalAnnotation summary; nr_created_at := now |}
      (db_narratives d) in
    Ok (set_narratives (fun _ => rows) d, tt)).

(** ** T4 *)

(** [visibility] has a CHECK; the embedding is not written. *)
Definition InsertReflection (ref : Reflection) : M World unit :=
  let visibility := str_or (rf_Visibility ref) VisibilityPrivate in
  exec (fun d now =>
    if negb (one_of visibility [VisibilityPrivate; VisibilityShared])
    then Err (ENew "CHECK constraint failed: reflections") else
    let? rows := insert_pk re_id
      {| re_id := rf_ID ref; re_type := str_or (rf_Type ref) "note"; re_content := rf_Content ref;
         re_base_confidence := written_confidence (rf_Belief ref);
         re_belief_meta := beliefMetaJSON (rf_Belief ref); re_embedding := None;
         re_visibility := visibility; re_created_at := now |} (db_reflections d) in
    Ok (set_memory id (fun _ => rows) id d, tt)).

Definition SearchReflections (_ : list float64) (limit : Z) : M World (list Reflection) :=
  query (fun d _ =>
    Ok (map reflection_of_row
          (sql_limit limit (order_by (fun r => - re_created_at r) (db_reflections d))))).

Definition GetReflectionByID (i : string) : M World (option Reflection) :=
  query (fun d _ => Ok (reflection_of_row <$> find_by re_id i (db_reflections d))).

(** ** T5 *)

Definition matches_entity (q : string) (r : EntityRow) : bool :=
  (like (contains_pattern q) (ke_name r) || like (contains_pattern q) (ke_content r)) &&
  match ke_expired r with None => true | Some _ => false end.

Definition SearchEntities (q : string) (limit : Z) : M World (list Entity) :=
  query (fun d _ =>
    Ok (map entity_of_row
          (sql_limit limit
             (order_by (fun r => - ke_created r) (whereb (matches_entity q) (db_entities d)))))).

Definition UpsertEntity (entity : Entity) : M World unit :=
  exec (fun d now => Ok (set_memory id id (upsert_entity entity now) d, tt)).

(** The rows an UPDATE changed. *)
Definition rows_affected {A} (p : A -> bool) (rows : list A) : Z := Z.of_nat (countb p rows).

Definition store_InvalidateEntity (entityID : string) (now : Z) : M World Z :=
  exec (fun d _ =>
    Ok (set_memory id id (updateb (entity_live entityID) (expire_entity now)) d,
        rows_affected (entity_live entityID) (db_entities d))).

Definition store_InvalidateRelationship (relID : string) (now : Z) : M World Z :=
  exec (fun d _ =>
    Ok (set_relationships (updateb (relationship_live relID) (expire_relationship now)) d,
        rows_affected (relationship_live relID) (db_relationships d))).

(** No [ON CONFLICT]: a second edge of the same key violates the UNIQUE constraint. *)
Definition store_InsertSupersedgesEdge (edgeID newEntityID oldID : string) (now : Z) : M World Z :=
  exec (fun d _ =>
    let e := {| me_ID := edgeID; me_FromID := newEntityID; me_FromTier := 5; me_ToID := oldID;
                me_ToTier := 5; me_EdgeType := EdgeSupersedes; me_Author := EdgeAuthorSystem;
                me_CreatedAt := now |} in
    if existsb (same_edge e) (db_edges d) then Err (ENew "UNIQUE constraint failed") else
    let? rows := insert_pk me_ID e (db_edges d) in
    Ok (set_memory (fun _ => rows) id id d, 1)).

(** ** Relational profiles *)

Definition no_profiles : error := ENew "no such table: relational_profiles".

(** [WHERE name = ? OR aliases LIKE ? LIMIT 1]: the first such row. *)
Definition GetProfile (name : string) : M World (option RelationalProfile) :=
  query (fun d _ =>
    match db_profiles d with
    | None => Err no_profiles
    | Some rows =>
        Ok (profile_of_row <$>
            head (whereb (fun r => String.eqb (pf_name r) name ||
                                   like (contains_pattern name) (pf_aliases r)) rows))
    end).

Definition ListProfiles : M World (list RelationalProfile) :=
  query (fun d _ =>
    match db_profiles d with
    | None => Err no_profiles
    | Some rows => Ok (map profile_of_row (merge_sort name_le rows))
    end).
End Statements.

(** ** What the tier operations ask of a store *)

Class MemoryWriter (W : Type) := {
  mw_InsertNarrative : NarrativeSummary -> M W unit;
  mw_InsertReflection : Reflection -> M W unit;
  mw_SearchEntities : string -> Z -> M W (list Entity);
  mw_UpsertEntity : Entity -> M W unit }.
(** [pkg.KGMutationStore] *)
Class KGMutationStore (W : Type) := {
  kg_InvalidateEntity : string -> Z -> M W Z;
  kg_InvalidateRelationship : string -> Z -> M W Z;
  kg_InsertSupersedgesEdge : string -> string -> string -> Z -> M W Z }.

#[global] Instance SQLiteMemoryWriter `{Env} : MemoryWriter World :=
  {| mw_InsertNarrative := InsertNarrative; mw_InsertReflection := InsertReflection;
     mw_SearchEntities := SearchEntities; mw_UpsertEntity := UpsertEntity |}.
#[global] Instance SQLiteKGStore `{Env} : KGMutationStore World :=
  {| kg_InvalidateEntity := store_InvalidateEntity;
     kg_InvalidateRelationship := store_InvalidateRelationship;
     kg_InsertSupersedgesEdge := store_InsertSupersedgesEdge |}.

(** ** T3 ([tier3.go]) *)

Definition honestyTags : list string :=
  ["[UNCERTAIN]"; "[INFERRED]"; "[DELIBERATION NOT VISIBLE]"; "[RESOLVED BY SUMMARY]"].

(** One entry of the log listing, numbered from 1. *)
Definition log_entry (i : nat) (e : ExperientialLog) : string :=
  "[" +:+ fmt_d (Z.of_nat i + 1) +:+ "] source=" +:+ el_ContentSource e +:+ newline +:+
  el_Content e +:+ newline +:+ newline.
Definition compressionPrompt (sessionID : string) (entries : list ExperientialLog) : string :=
  "Compress the following session log into a concise narrative summary." +:+ newline +:+
  "Apply per-claim honesty tags where appropriate:" +:+ newline +:+
  "  [UNCERTAIN]              — claim is held with low confidence" +:+ newline +:+
  "  [INFERRED]               — claim was derived, not directly observed" +:+ newline +:+
  "  [DELIBERATION NOT VISIBLE] — reasoning steps were not logged" +:+ newline +:+
  "  [RESOLVED BY SUMMARY]    — conflicting entries collapsed to a single claim" +:+ newline +:+ newline +:+
  "Session ID: " +:+ sessionID +:+ newline +:+ newline +:+
  "Log entries (oldest first):" +:+ newline +:+
  String.concat "" (imap log_entry entries) +:+
  newline +:+ "Produce a coherent narrative. Apply tags inline, after each claim they qualify.".

(** [strings.Count] of a non-empty [sub]: occurrences that do not overlap, from the left. *)
Fixpoint count_loop (fuel : nat) (s sub : string) : Z :=
  match fuel with
  | O => 0
  | S fuel =>
      match str_index s sub with
      | Some i => 1 + count_loop fuel (str_drop (i + String.length sub) s) sub
      | None => 0
      end
  end.
Definition str_Count (s sub : string) : Z := count_loop (S (String.length s)) s sub.

(** The map of [countHonestyTags], in the order of [honestyTags]. *)
Definition countHonestyTags (content : string) : list (string * Z) :=
  map (fun tag => (tag, str_Count content tag)) honestyTags.

Definition SurfaceNarrative (summary : NarrativeSummary) (model : string) : string :=
  let tagParts := map (fun '(tag, n) => fmt_d n +:+ " " +:+ tag)
                    (whereb (fun '(_, n) => 0 <? n) (countHonestyTags (ns_Content summary))) in
  ns_Content summary +:+ newline +:+ newline +:+ "---" +:+ newline +:+
  "[compiled by " +:+ model +:+ "; tags: " +:+ str_join tagParts ", " +:+ "]".

(** ** T4 ([tier4.go]) *)

Definition validReflectionTypes : list string :=
  ["essay"; "note"; "dream"; "pattern"; "examination"; "challenge"].
Definition IsValidReflectionType (t : string) : bool := one_of t validReflectionTypes.

Definition with_embedding (vec : list float64) (r : Reflection) : Reflection :=
  {| rf_ID := rf_ID r; rf_Type := rf_Type r; rf_Content := rf_Content r;
     rf_Visibility := rf_Visibility r; rf_Belief := rf_Belief r; rf_Embedding := vec |}.

Definition FilterByVisibility (refs : list Reflection) (visibility : string) : list Reflection :=
  whereb (fun r => String.eqb (rf_Visibility r) visibility) refs.

Section Tiers.
Context {W : Type} `{!MemoryWriter W} `{!KGMutationStore W}.
(** [newID] and [time.Now().UTC()] *)
Variables (newID : M W string) (now_UTC : M W Z).

(** [provider.Embed]; without a provider, or when it fails, there is no vector. *)
Definition embed_or_none (provider : option (string -> M W (list float64))) (text : string)
    : M W (list float64) :=
  match provider with
  | None => ret []
  | Some embed => try! vec := embed text in ret (match vec with Ok v => v | Err _ => [] end)
  end.

Definition CompressSession (provider : option (string -> M W (list float64)))
    (sessionID : string) (entries : list ExperientialLog) (llmFn : string -> M W string)
    : M W NarrativeSummary :=
  match entries with
  | [] => fail (ENew ("tier3: no entries to compress for session " +:+ sessionID))
  | _ =>
      let! summaryText := wrapM ("tier3: LLM compression failed for session " +:+ sessionID)
                            (llmFn (compressionPrompt sessionID entries)) in
      let! now := now_UTC in
      let! embedding := embed_or_none provider summaryText in
      let! i := newID in
      let summary :=
        {| ns_ID := i; ns_SessionID := ""; ns_Content := summaryText;
           ns_Belief := Some {| bm_BaseConfidence := f_lit 85 100; bm_AnchorAt := now;
                                bm_InferenceDistance := 1; bm_VerificationState := "unverified";
                                bm_Source := "compression"; bm_EmotionalRegister := "" |};
           ns_Embedding := embedding; ns_ContentSources := []; ns_ExternalAnnotation := None |} in
      let! _ := wrapM ("tier3: inserting narrative summary for session " +:+ sessionID)
                  (mw_InsertNarrative summary) in
      ret summary
  end.

Definition WriteReflection (provider : option (string -> M W (list float64))) (ref : Reflection)
    : M W unit :=
  if str_empty (rf_ID ref) then fail (ENew "tier4: reflection ID is required")
  else if str_empty (rf_Content ref) then fail (ENew "tier4: reflection content is required")
  else
    let! ref := match provider, rf_Embedding ref with
                | Some _, [] => let! vec := embed_or_none provider (rf_Content ref) in
                                ret (with_embedding vec ref)
                | _, _ => ret ref
                end in
    mw_InsertReflection ref.

(** ** T5 ([tier5.go]) *)

Definition InvalidateEntity (entityID : string) (now : Z) : M W unit :=
  let! n := wrapM ("tier5: invalidating entity " +:+ entityID) (kg_InvalidateEntity entityID now) in
  if n =? 0 then fail (ENew ("tier5: entity " +:+ entityID +:+ " not found or already expired"))
  else ret tt.

Definition InvalidateRelationship (relID : string) (now : Z) : M W unit :=
  let! n := wrapM ("tier5: invalidating relationship " +:+ relID)
              (kg_InvalidateRelationship relID now) in
  if n =? 0 then fail (ENew ("tier5: relationship " +:+ relID +:+ " not found or already expired"))
  else ret tt.

Definition SupersedeEntity (oldID : string) (newEntity : Entity) (now : Z) : M W unit :=
  let! _ := InvalidateEntity oldID now in
  let! _ := wrapM "tier5: inserting successor entity" (mw_UpsertEntity newEntity) in
  let! edgeID := newID in
  let! _ := wrapM "tier5: writing supersedes edge"
              (kg_InsertSupersedgesEdge edgeID (en_ID newEntity) oldID now) in
  ret tt.

Definition ActiveEntities (q : string) (limit : Z) (_ : Z) : M W (list Entity) :=
  mw_SearchEntities q limit.
End Tiers.

(** ** LIKE on an escaped text is literal containment *)

Definition str_list (s : string) : list Ascii.ascii := String.list_ascii_of_string s.
Definition fold_case (s : string) : string := str_map lower_byte s.

Lemma escapeLike_cons c r :
  escapeLike (String c r) =
  (if Ascii.eqb c backslash || Ascii.eqb c percent || Ascii.eqb c underscore
   then escaped c else String c "") +:+ escapeLike r.
Proof.
  unfold escapeLike. cbn [replace_byte].
  destruct (Ascii.eqb_spec c backslash) as [->|Hb]; [done|].
  destruct (Ascii.eqb_spec c percent) as [->|Hp]; [done|].
  cbn [replace_byte orb].
  rewrite (proj2 (Ascii.eqb_neq c percent) Hp). cbn [replace_byte].
  by destruct (Ascii.eqb_spec c underscore) as [->|Hu].
Qed.

Lemma like_tokens_escaped q t :
  like_tokens (escapeLike q +:+ t) = app (map Lit (str_list q)) <$> like_tokens t.
Proof.
  induction q as [|c q IH]; [change (escapeLike "" +:+ t) with t; by destruct (like_tokens t)|].
  rewrite escapeLike_cons, str_app_assoc.
  assert (Hone : forall u, like_tokens ((if Ascii.eqb c backslash || Ascii.eqb c percent ||
      Ascii.eqb c underscore then escaped c else String c "") +:+ u) = cons (Lit c) <$> like_tokens u).
  { intros u. destruct (Ascii.eqb c backslash) eqn:Eb; [done|].
    destruct (Ascii.eqb c percent) eqn:Ep; [done|].
    destruct (Ascii.eqb c underscore) eqn:Eu; [done|].
    cbn [orb]. rewrite str_app_cons, str_app_nil_l. cbn [like_tokens]. by rewrite Eb, Ep, Eu. }
  rewrite Hone, IH. by destruct (like_tokens t).
Qed.

Lemma contains_tokens q :
  like_tokens (contains_pattern q) = Some (AnyText :: map Lit (str_list q) ++ [AnyText]).
Proof.
  unfold contains_pattern. rewrite str_app_cons, str_app_nil_l. cbn [like_tokens].
  rewrite like_tokens_escaped. done.
Qed.

Lemma like_any ts s :
  like_match (AnyText :: ts) s = true <-> exists a b, s = a +:+ b /\ like_match ts b = true.
Proof.
  split.
  - induction s as [|c s IH]; cbn; intros [H|H]%orb_true_iff; try done.
    + by exists "", "".
    + by exists "", (String c s).
    + destruct (IH H) as (a & b & -> & Hb). by exists (String c a), b.
  - intros (a & b & -> & Hb). induction a as [|c a IH].
    + rewrite str_app_nil_l. destruct b as [|d b]; cbn in *; by rewrite Hb.
    + rewrite str_app_cons. cbn. apply orb_true_iff. by right.
Qed.

Lemma like_literals q ts s :
  like_match (map Lit (str_list q) ++ ts) s = true <->
  exists a b, s = a +:+ b /\ fold_case a = fold_case q /\ like_match ts b = true.
Proof.
  revert s. induction q as [|c q IH]; intros s; cbn.
  - split; [intros H; by exists "", s|]. intros (a & b & -> & Ha & Hb).
    destruct a; [done|discriminate Ha].
  - destruct s as [|d s]; [split; [done|]|].
    { intros ([|x a] & b & E & Ha & _); [discriminate Ha|discriminate E]. }
    rewrite andb_true_iff. unfold fold_eqb. rewrite Ascii.eqb_eq, IH. split.
    + intros (Hc & a & b & -> & Ha & Hb). exists (String d a), b. split_and!; [done| |done].
      unfold fold_case in *. cbn. by rewrite Hc, Ha.
    + intros ([|x a] & b & E & Ha & Hb); [discriminate Ha|].
      rewrite str_app_cons in E. injection E as <- ->. unfold fold_case in Ha. cbn in Ha.
      injection Ha as Hx Ha. split; [done|]. by exists a, b.
Qed.

Lemma str_map_app f a b : str_map f (a +:+ b) = str_map f a +:+ str_map f b.
Proof. induction a as [|c a IH]; [done|]. rewrite !str_app_cons. cbn. by rewrite IH. Qed.
Lemma str_map_split f s : forall a b, str_map f s = a +:+ b ->
  exists a' b', s = a' +:+ b' /\ str_map f a' = a /\ str_map f b' = b.
Proof.
  induction s as [|c s IH]; intros [|x a] b E.
  - by exists "", "".
  - done.
  - rewrite str_app_nil_l in E. by exists "", (String c s).
  - rewrite str_app_cons in E. cbn in E. injection E as <- E.
    destruct (IH _ _ E) as (a' & b' & -> & <- & <-). by exists (String c a'), b'.
Qed.

Lemma like_contains_pattern q s :
  like (contains_pattern q) s = str_contains (fold_case s) (fold_case q).
Proof.
  unfold like. rewrite contains_tokens. apply eq_bool_prop_intro.
  rewrite !Is_true_true, like_any, str_contains_iff. split.
  - intros (a & b & -> & H). apply like_literals in H as (x & t & -> & Hx & _).
    exists (fold_case a), (fold_case t). unfold fold_case in *. by rewrite !str_map_app, Hx.
  - intros (a & b & E). apply str_map_split in E as (a' & s' & -> & <- & E).
    apply str_map_split in E as (x & t & -> & Hx & <-).
    exists a', (x +:+ t). split; [done|]. apply like_literals. exists x, t.
    split_and!; [done|done|]. apply like_any. exists t, "". by rewrite str_app_nil_r.
Qed.

(** ** Properties *)

Section Properties.
Context `{Env}.

Definition is_live (r : EntityRow) : Prop := ke_expired r = None.
Definition literal_match (q : string) (r : EntityRow) : Prop :=
  str_contains (fold_case (ke_name r)) (fold_case q) = true \/
  str_contains (fold_case (ke_content r)) (fold_case q) = true.

Lemma matches_entity_spec q r : matches_entity q r = true <-> is_live r /\ literal_match q r.
Proof using Type.
  unfold matches_entity, is_live, literal_match. rewrite !like_contains_pattern.
  rewrite andb_true_iff, orb_true_iff. destruct (ke_expired r); naive_solver.
Qed.

Lemma sql_limit_elem {A} limit (l : list A) x : x ∈ sql_limit limit l -> x ∈ l.
Proof using Type.
  unfold sql_limit. destruct (limit <? 0); [done|].
  intros Hx. rewrite <- (take_drop (Z.to_nat limit) l). apply elem_of_app. by left.
Qed.
Lemma sql_limit_all {A} limit (l : list A) :
  limit < 0 \/ Z.of_nat (length (sql_limit limit l)) < limit -> sql_limit limit l = l.
Proof using Type.
  unfold sql_limit. destruct (Z.ltb_spec limit 0); [done|]. intros [?|Hl]; [lia|].
  apply take_ge. rewrite length_take in Hl. lia.
Qed.
Lemma sql_limit_length {A} limit (l : list A) :
  0 <= limit -> Z.of_nat (length (sql_limit limit l)) <= limit.
Proof using Type.
  intros H0. unfold sql_limit. destruct (Z.ltb_spec limit 0); [lia|]. rewrite length_take. lia.
Qed.

(** C20: An entity search returns only entities believed now whose name or summary
    contains the query literally, up to the case of ASCII letters, whatever wildcards the
    query contains; at most [limit] of them; and all of them when the limit does not cut. *)
Theorem SearchEntities_exact q limit w w' l :
  SearchEntities q limit w = (w', Ok l) ->
  w_db w' = w_db w /\
  (forall e, e ∈ l -> exists r, r ∈ db_entities (w_db w) /\ is_live r /\ literal_match q r /\
                                entity_of_row r = e) /\
  (0 <= limit -> Z.of_nat (length l) <= limit) /\
  (limit < 0 \/ Z.of_nat (length l) < limit ->
   forall r, r ∈ db_entities (w_db w) -> is_live r -> literal_match q r -> entity_of_row r ∈ l).
Proof.
  intros E. apply query_cases in E as [-> E]. injection E as <-. split; [done|].
  split; [|split].
  - intros e (r & Hr & <-)%elem_of_map. apply sql_limit_elem in Hr.
    rewrite order_by_Permutation, elem_of_whereb, matches_entity_spec in Hr.
    destruct Hr as (? & ? & ?). by exists r.
  - intros H0. rewrite length_map. by apply sql_limit_length.
  - rewrite length_map. intros Hl r Hr Hv Hm. apply elem_of_map. exists r. split; [|done].
    rewrite sql_limit_all by done.
    by rewrite order_by_Permutation, elem_of_whereb, matches_entity_spec.
Qed.

Definition supersedes_edge (i newID oldID : string) (now : Z) : MemoryEdge :=
  {| me_ID := i; me_FromID := newID; me_FromTier := 5; me_ToID := oldID; me_ToTier := 5;
     me_EdgeType := EdgeSupersedes; me_Author := EdgeAuthorSystem; me_CreatedAt := now |}.

Lemma InvalidateEntity_cases oldID now w w' r :
  InvalidateEntity oldID now w = (w', r) ->
  w_clock w' = w_clock w /\
  match r with
  | Ok _ => (exists x, x ∈ db_entities (w_db w) /\ entity_live oldID x = true) /\
            w_db w' = set_memory id id (updateb (entity_live oldID) (expire_entity now)) (w_db w)
  | Err _ => w_db w' = w_db w
  end.
Proof.
  unfold InvalidateEntity, bind. change (@kg_InvalidateEntity World _) with store_InvalidateEntity.
  destruct (wrapM _ (store_InvalidateEntity oldID now) w) as [w1 [n|e]] eqn:E;
    apply exec_wrap_cases in E as [Hc E]; [|intros [= <- <-]; by split].
  injection E as E En. destruct (Z.eqb_spec n 0) as [->|Hn].
  - intros [= <- <-]. split; [done|]. rewrite <- E. unfold rows_affected in En.
    assert (H0 : countb (entity_live oldID) (db_entities (w_db w)) = 0%nat) by lia.
    destruct (w_db w). unfold set_memory. simpl in *. f_equal.
    apply updateb_none. by apply countb_zero.
  - intros [= <- <-]. split; [done|]. split; [|done].
    apply countb_pos. unfold rows_affected in En. lia.
Qed.

Lemma SupersedeEntity_Ok oldID e now w w' :
  SupersedeEntity newID oldID e now w = (w', Ok tt) ->
  exists i, (exists x, x ∈ db_entities (w_db w) /\ entity_live oldID x = true) /\
  w_db w' = set_memory (fun l => l ++ [supersedes_edge i (en_ID e) oldID now]) id
    (fun l => upsert_entity e (w_clock w) (updateb (entity_live oldID) (expire_entity now) l)) (w_db w).
Proof.
  unfold SupersedeEntity, bind.
  destruct (InvalidateEntity oldID now w) as [w1 [u|e1]] eqn:E1; [|done].
  apply InvalidateEntity_cases in E1 as (C1 & Hx & D1).
  destruct (wrapM _ (mw_UpsertEntity e) w1) as [w2 [u2|e2]] eqn:E2; [|done].
  change (@mw_UpsertEntity World _) with UpsertEntity in E2. unfold UpsertEntity in E2.
  apply exec_wrap_cases in E2 as [C2 D2]. injection D2 as D2 _.
  unfold newID at 1.
  change (@kg_InsertSupersedgesEdge World _) with store_InsertSupersedgesEdge.
  set (w3 := bump_rng w2). set (i := format_uuid _).
  destruct (wrapM _ (store_InsertSupersedgesEdge i (en_ID e) oldID now) w3) as [w4 [n|e4]] eqn:E4; [|done].
  unfold store_InsertSupersedgesEdge in E4. apply exec_wrap_cases in E4 as [_ D4]. cbv zeta in D4.
  destruct (existsb _ _); [done|]. change (w_db w3) with (w_db w2) in D4.
  destruct (insert_pk _ _ _) as [rows|] eqn:Ei; [|done]. apply insert_pk_Ok in Ei as [-> _].
  simpl in D4. injection D4 as D4 _. unfold ret. intros [= <-]. exists i. split; [done|].
  rewrite <- D4, <- D2, D1, C1. done.
Qed.

Lemma upsert_entity_other e now rows r :
  r ∈ rows -> ke_id r <> en_ID e -> r ∈ upsert_entity e now rows.
Proof using Type.
  intros Hr Hn. unfold upsert_entity. cbv zeta. destruct (existsb _ rows).
  - apply elem_of_updateb. exists r. split; [done|]. by apply String.eqb_neq in Hn as ->.
  - apply elem_of_app. by left.
Qed.
Lemma upsert_entity_new e now rows :
  exists r, r ∈ upsert_entity e now rows /\ ke_id r = en_ID e /\ ke_name r = en_Name e /\
    ke_type r = en_Type e /\ ke_content r = en_Content e /\
    ((forall x, x ∈ rows -> ke_id x = en_ID e -> is_live x) -> is_live r).
Proof using Type.
  unfold upsert_entity. cbv zeta. destruct (existsb _ rows) eqn:Ex.
  - apply existsb_exists in Ex as (x & Hx & Hs). apply list_elem_of_In in Hx.
    exists (update_entity e (beliefMetaJSON (Some (stored_belief (en_Belief e) (now * second)))) x).
    pose proof Hs as Hi. apply String.eqb_eq in Hi.
    split; [apply elem_of_updateb; exists x; by rewrite Hs|]. repeat (split; [done|]).
    intros Hl. exact (Hl x Hx Hi).
  - eexists. split; [apply elem_of_app; right; by left|]. by repeat (split; [done|]).
Qed.
Lemma upsert_entity_ids e now rows i :
  i ∈ map ke_id (upsert_entity e now rows) <-> i ∈ map ke_id rows \/ i = en_ID e.
Proof using Type.
  unfold upsert_entity. cbv zeta. destruct (existsb _ rows) eqn:Ex.
  - rewrite map_updateb by done. split; [by left|]. intros [Hin| ->]; [done|].
    apply existsb_exists in Ex as (x & Hx & Hs). apply String.eqb_eq in Hs.
    apply elem_of_map. exists x. split; [by apply list_elem_of_In|done].
  - rewrite map_app, elem_of_app. simpl. by rewrite list_elem_of_singleton.
Qed.

(** C27: Superseding an entity keeps its history: the old entity is found expired with its
    name and content, every other row is untouched, no ID is lost, the successor stands
    under its ID and is believed unless its ID was expired before, and an edge leads from
    it to the old entity. *)
Theorem SupersedeEntity_keeps_history oldID e now w w' :
  en_ID e <> oldID ->
  SupersedeEntity newID oldID e now w = (w', Ok tt) ->
  let d := w_db w in let d' := w_db w' in
  (exists r, r ∈ db_entities d /\ ke_id r = oldID /\ is_live r /\
             expire_entity now r ∈ db_entities d') /\
  (forall r, r ∈ db_entities d -> ke_id r <> oldID -> ke_id r <> en_ID e -> r ∈ db_entities d') /\
  (forall i, i ∈ map ke_id (db_entities d') <-> i ∈ map ke_id (db_entities d) \/ i = en_ID e) /\
  (exists r, r ∈ db_entities d' /\ ke_id r = en_ID e /\ ke_name r = en_Name e /\
             ke_type r = en_Type e /\ ke_content r = en_Content e /\
             ((forall x, x ∈ db_entities d -> ke_id x = en_ID e -> is_live x) -> is_live r)) /\
  (exists i, db_edges d' = db_edges d ++ [supersedes_edge i (en_ID e) oldID now]).
Proof.
  intros Hne E d d'. apply SupersedeEntity_Ok in E as (i & (x & Hx & Hl) & E).
  unfold d', d. rewrite E. cbn [db_entities db_edges set_memory]. clear E d d'.
  unfold entity_live in Hl. apply andb_true_iff in Hl as [Hi Hv].
  set (rows := updateb (entity_live oldID) (expire_entity now) (db_entities (w_db w))).
  assert (Hrest : forall r, r ∈ db_entities (w_db w) -> ke_id r <> oldID -> r ∈ rows).
  { intros r Hr Hn. apply elem_of_updateb. exists r. split; [done|].
    unfold entity_live. by apply String.eqb_neq in Hn as ->. }
  split_and!.
  - pose proof Hi as Hi'. apply String.eqb_eq in Hi'. exists x. split_and!; [done|done| |].
    { unfold is_live. by destruct (ke_expired x). }
    apply upsert_entity_other; [|simpl; congruence]. apply elem_of_updateb. exists x.
    split; [done|]. unfold entity_live. by rewrite Hi, Hv.
  - intros r Hr Ho Hn. apply upsert_entity_other; [by apply Hrest|done].
  - intros k. rewrite upsert_entity_ids. unfold rows. by rewrite map_updateb.
  - destruct (upsert_entity_new e (w_clock w) rows) as (r & ? & ? & ? & ? & ? & Hlive).
    exists r. repeat (split; [done|]). intros Hall. apply Hlive. intros y Hy Hk.
    apply elem_of_updateb in Hy as (z & Hz & ->). unfold entity_live in Hk |- *.
    destruct (String.eqb_spec (ke_id z) oldID) as [Ez|Ez]; simpl in Hk |- *.
    + destruct (ke_expired z); simpl in *; congruence.
    + by apply Hall.
  - by exists i.
Qed.

(** Superseding an entity by itself makes it disappear: its row stays expired. *)
Lemma supersede_by_itself_hides e now w w' :
  SupersedeEntity newID (en_ID e) e now w = (w', Ok tt) ->
  forall r, r ∈ db_entities (w_db w') -> ke_id r = en_ID e -> ~ is_live r.
Proof.
  intros E. apply SupersedeEntity_Ok in E as (i & (x & Hx & Hl) & ->).
  cbn [db_entities set_memory]. set (rows := updateb _ _ _).
  assert (Hdead : forall y, y ∈ rows -> ke_id y = en_ID e -> ~ is_live y).
  { intros y (z & Hz & ->)%elem_of_updateb Hk. unfold is_live.
    destruct (entity_live (en_ID e) z) eqn:Ez; [done|]. unfold entity_live in Ez.
    apply String.eqb_eq in Hk. rewrite Hk in Ez. by destruct (ke_expired z). }
  intros r Hr Hk. unfold upsert_entity in Hr. cbv zeta in Hr.
  assert (Hs : existsb (fun r => String.eqb (ke_id r) (en_ID e)) rows = true).
  { apply existsb_exists. exists (expire_entity now x). unfold entity_live in Hl.
    apply andb_true_iff in Hl as [Hi Hv]. split; [|done]. apply list_elem_of_In, elem_of_updateb.
    exists x. split; [done|]. unfold entity_live. by rewrite Hi, Hv. }
  rewrite Hs in Hr. apply elem_of_updateb in Hr as (y & Hy & ->).
  destruct (String.eqb (ke_id y) (en_ID e)) eqn:Ey; [|by apply (Hdead y)].
  apply String.eqb_eq in Ey. by apply (Hdead y).
Qed.

Lemma InsertReflection_cases ref w w' r :
  InsertReflection ref w = (w', r) ->
  match r with
  | Err _ => w_db w' = w_db w
  | Ok _ => exists row, w_db w' = set_memory id (fun l => l ++ [row]) id (w_db w) /\
      find_by re_id (re_id row) (db_reflections (w_db w)) = None /\
      re_id row = rf_ID ref /\ re_type row = str_or (rf_Type ref) "note" /\
      re_content row = rf_Content ref /\
      re_base_confidence row = written_confidence (rf_Belief ref) /\
      re_belief_meta row = beliefMetaJSON (rf_Belief ref) /\ re_embedding row = None /\
      re_visibility row = str_or (rf_Visibility ref) VisibilityPrivate /\
      re_visibility row ∈ [VisibilityPrivate; VisibilityShared]
  end.
Proof.
  unfold InsertReflection. intros E. apply exec_cases in E as [_ E]. cbv zeta in E.
  destruct r as [u|e]; [|done].
  destruct (one_of _ _) eqn:Ev; [|done]. apply one_of_elem in Ev.
  destruct (insert_pk _ _ _) as [rows|] eqn:Ei; [|done].
  pose proof (insert_pk_fresh _ _ _ _ Ei) as Hf. apply insert_pk_Ok in Ei as [-> _].
  simpl in E. injection E as <-. eexists. split; [reflexivity|]. by repeat (split; [done|]).
Qed.

(** A reflection reads back as it was written: content, visibility (private unless
    said otherwise), the agent's confidence and its belief with the anchor to the second;
    the type and the embedding do not read back. *)
Theorem reflection_roundtrip ref b w w1 w2 o :
  rf_Belief ref = Some b -> time_IsZero (bm_AnchorAt b) = false ->
  is_nan (bm_BaseConfidence b) = false ->
  seconds_min <= bm_AnchorAt b / second <= seconds_max ->
  - 2 ^ 53 < bm_InferenceDistance b < 2 ^ 53 ->
  InsertReflection ref w = (w1, Ok tt) ->
  GetReflectionByID (rf_ID ref) w1 = (w2, Ok o) ->
  o = Some {| rf_ID := rf_ID ref; rf_Type := ""; rf_Content := rf_Content ref;
              rf_Visibility := str_or (rf_Visibility ref) VisibilityPrivate;
              rf_Belief := Some {| bm_BaseConfidence := bm_BaseConfidence b;
                                   bm_AnchorAt := bm_AnchorAt b / second * second;
                                   bm_InferenceDistance := bm_InferenceDistance b;
                                   bm_VerificationState := bm_VerificationState b;
                                   bm_Source := bm_Source b;
                                   bm_EmotionalRegister := bm_EmotionalRegister b |};
              rf_Embedding := [] |}.
Proof.
  intros Hb Hz Hn Ha Hd E1 E2.
  apply InsertReflection_cases in E1 as (row & D & Hf & Hi & _ & Hc & Hbc & Hbm & _ & Hv & _).
  apply query_cases in E2 as [_ E2]. rewrite D in E2. cbn [db_reflections set_memory] in E2.
  rewrite <- Hi in E2. unfold find_by in E2. rewrite find_snoc in E2.
  unfold find_by in Hf. rewrite Hf, String.eqb_refl in E2. injection E2 as <-. f_equal.
  unfold reflection_of_row. rewrite Hi, Hc, Hv, Hbc, Hbm, Hb. f_equal. f_equal.
  unfold written_confidence, decodeBelief, sql_real. rewrite Hz, Hn, belief_column_eq by done.
  cbn. destruct (str_empty (bm_EmotionalRegister b)) eqn:Ee; [|done].
  apply str_empty_true in Ee. by rewrite Ee.
Qed.

(** The consent boundary when a reflection is written. Whatever the provider and the
    driver do, the reflections stored before stay as they were; a successful write adds
    one row, whose base confidence is the writer's and present only if the writer
    anchored it, and which is private unless the writer shared it; a failed one adds none. *)
Theorem WriteReflection_consent provider ref w w' r :
  (forall embed, provider = Some embed -> forall text, keeps_db (embed text)) ->
  WriteReflection provider ref w = (w', r) ->
  match r with
  | Err _ => w_db w' = w_db w
  | Ok _ => exists row, db_reflections (w_db w') = db_reflections (w_db w) ++ [row] /\
      re_id row = rf_ID ref /\ re_id row <> "" /\ re_content row = rf_Content ref /\
      re_content row <> "" /\ re_id row ∉ map re_id (db_reflections (w_db w)) /\
      (forall c, re_base_confidence row = Some c -> exists b, rf_Belief ref = Some b /\
         bm_BaseConfidence b = c /\ bm_AnchorAt b <> time_zero) /\
      (re_visibility row = VisibilityShared <-> rf_Visibility ref = VisibilityShared) /\
      (re_visibility row = VisibilityPrivate \/ re_visibility row = VisibilityShared)
  end.
Proof.
  intros Hp. unfold WriteReflection.
  destruct (str_empty (rf_ID ref)) eqn:Ei; [by intros [= <- <-]|].
  destruct (str_empty (rf_Content ref)) eqn:Ec; [by intros [= <- <-]|].
  set (step := match provider with Some _ => _ | None => _ end).
  assert (Hstep : forall w1 r1, step w = (w1, r1) ->
    w_db w1 = w_db w /\ exists vec, r1 = Ok (with_embedding vec ref)).
  { intros w1 r1. unfold step, embed_or_none, ret, bind, attempt.
    assert (Href : forall v, rf_Embedding ref = v -> ref = with_embedding v ref)
      by (by intros v <-; destruct ref).
    destruct provider as [embed|]; [destruct (rf_Embedding ref) as [|x l] eqn:Ev|];
      try (intros [= <- <-]; split; [done|]; eexists; f_equal; by apply Href).
    pose proof (Hp embed eq_refl (rf_Content ref) w) as Hk.
    revert Hk. destruct (embed (rf_Content ref) w) as [w2 [v|e]]; cbn; intros Hk [= <- <-];
      (split; [exact Hk|by eexists]). }
  unfold bind at 1. destruct (step w) as [w1 r1] eqn:E1.
  destruct (Hstep _ _ eq_refl) as (D1 & vec & ->). clear Hstep.
  intros E. change (@mw_InsertReflection World _) with InsertReflection in E.
  apply InsertReflection_cases in E. rewrite D1 in E. destruct r as [u|e]; [|done].
  destruct E as (row & -> & Hf & Hid & _ & Hc & Hbc & _ & _ & Hv & Hin). simpl in Hid, Hc, Hbc, Hv.
  exists row. split; [done|]. rewrite Hid, Hc. split; [done|].
  split. { intros E0. by rewrite E0 in Ei. } split; [done|].
  split. { intros E0. by rewrite E0 in Ec. }
  split. { rewrite <- Hid. intros (x & Hx & Hk)%elem_of_map. by eapply find_by_None. }
  split; [|split].
  - rewrite Hbc. intros c. unfold written_confidence, sql_real.
    destruct (rf_Belief ref) as [b|]; [|done]. destruct (time_IsZero (bm_AnchorAt b)) eqn:Ez; [done|].
    destruct (is_nan _); [done|]. intros [= <-]. exists b. split_and!; [done|done|].
    unfold time_IsZero in Ez. lia.
  - rewrite Hv. unfold str_or. destruct (str_empty (rf_Visibility ref)) eqn:Es; [|done].
    apply str_empty_true in Es. by rewrite Es.
  - elem_cases Hin; [by left|by right].
Qed.

(** No migration creates [relational_profiles]: without the table, no profile can be read. *)
Lemma profiles_unreadable w :
  db_profiles (w_db w) = None ->
  (forall name, is_ok (GetProfile name w).2 = false) /\ is_ok (ListProfiles w).2 = false.
Proof.
  intros H0. split; [intros name|]; [unfold GetProfile|unfold ListProfiles];
    (destruct (query _ w) as [w' [a|e]] eqn:E; [|done]);
    apply query_cases in E as [_ E]; by rewrite H0 in E.
Qed.
End Properties.

(** ** Witnesses *)

Section Witnesses.
#[local] Existing Instance demo_env.

Definition demo_entity (i name content : string) : Entity :=
  {| en_ID := i; en_Name := name; en_Type := "idea"; en_Content := content; en_Belief := None;
     en_Embedding := [] |}.
Definition demo_kg : World :=
  ((UpsertEntity (demo_entity "e1" "100% sure" "a claim") demo_world).1).

Example LIKE_is_literal :
  (like (contains_pattern "0% S") "100% sure", like (contains_pattern "0_") "100% sure",
   like "1%s_r_" "100% SURE", like "\" "x") = (true, false, true, false).
Proof. vm_compute. reflexivity. Qed.

Lemma SearchEntities_exact_witness :
  exists w' l, SearchEntities "0% SU" 5 demo_kg = (w', Ok l) /\ map en_ID l = ["e1"] /\
    Z.of_nat (length l) <= 5.
Proof.
  destruct (SearchEntities "0% SU" 5 demo_kg) as [w' [l|e]] eqn:E; [|vm_compute in E; discriminate E].
  exists w', l. destruct (SearchEntities_exact "0% SU" 5 demo_kg w' l E) as (_ & _ & Hlen & _).
  split; [done|]. split; [|by apply Hlen]. vm_compute in E. injection E as _ <-. reflexivity.
Defined.

Lemma SupersedeEntity_keeps_history_witness :
  exists w', SupersedeEntity newID "e1" (demo_entity "e2" "fairly sure" "a weaker claim") 7 demo_kg
      = (w', Ok tt) /\
    map ke_expired (db_entities (w_db w')) = [Some 7; None] /\
    exists i, db_edges (w_db w') = [supersedes_edge i "e2" "e1" 7].
Proof.
  destruct (SupersedeEntity newID "e1" (demo_entity "e2" "fairly sure" "a weaker claim") 7 demo_kg)
    as [w' r] eqn:E.
  assert (Hr : r = Ok tt) by (vm_compute in E; congruence). subst r. exists w'. split; [done|].
  assert (Hne : en_ID (demo_entity "e2" "fairly sure" "a weaker claim") <> "e1") by done.
  destruct (SupersedeEntity_keeps_history "e1" _ 7 demo_kg w' Hne E) as (_ & _ & _ & _ & i & Hi).
  split; [vm_compute in E; injection E as <-; reflexivity|]. exists i. exact Hi.
Defined.

(** The successor cannot be written: the old entity stays expired without one. *)
Definition upsert_fails : Env :=
  {| rand_bytes := @rand_bytes demo_env;
     db_fault := fun n => if (n =? 2)%nat then Some "disk full" else None;
     db_time_scan := None; db_foreign_keys := true |}.
Example SupersedeEntity_not_atomic :
  let '(w', r) := @SupersedeEntity World (@SQLiteMemoryWriter upsert_fails) (@SQLiteKGStore upsert_fails)
                    (@newID upsert_fails) "e1" (demo_entity "e2" "" "") 7 demo_kg in
  is_ok r = false /\ map ke_expired (db_entities (w_db w')) = [Some 7] /\ db_edges (w_db w') = [].
Proof. vm_compute. by split_and!. Qed.

Definition demo_belief : BeliefMeta :=
  {| bm_BaseConfidence := f_lit 3 4; bm_AnchorAt := 1709210096 * second + 5;
     bm_InferenceDistance := 2; bm_VerificationState := "verified"; bm_Source := "inference";
     bm_EmotionalRegister := "calm" |}.
Definition demo_reflection : Reflection :=
  {| rf_ID := "r1"; rf_Type := "essay"; rf_Content := "a thought"; rf_Visibility := "";
     rf_Belief := Some demo_belief; rf_Embedding := [] |}.

Lemma reflection_roundtrip_witness :
  exists w1 w2 r, InsertReflection demo_reflection demo_world = (w1, Ok tt) /\
    GetReflectionByID "r1" w1 = (w2, Ok (Some r)) /\ rf_Visibility r = "private" /\
    (bm_EmotionalRegister <$> rf_Belief r) = Some "calm".
Proof.
  destruct (InsertReflection demo_reflection demo_world) as [w1 [[]|e]] eqn:E1;
    [|vm_compute in E1; discriminate E1].
  destruct (GetReflectionByID "r1" w1) as [w2 [o|e]] eqn:E2.
  - pose proof (reflection_roundtrip demo_reflection demo_belief demo_world w1 w2 o eq_refl eq_refl eq_refl
      ltac:(vm_compute; split; discriminate) ltac:(vm_compute; split; reflexivity) E1 E2) as ->.
    exists w1, w2. eexists. split_and!; [done|done|reflexivity|reflexivity].
  - exfalso. vm_compute in E1. injection E1 as <-. vm_compute in E2. discriminate E2.
Defined.

Lemma WriteReflection_consent_witness :
  exists w' row, WriteReflection (Some (fun _ => ret [f_of_Z 1])) demo_reflection demo_world = (w', Ok tt) /\
    db_reflections (w_db w') = [row] /\ re_id row = "r1".
Proof.
  destruct (WriteReflection (Some (fun _ => ret [f_of_Z 1])) demo_reflection demo_world)
    as [w' [[]|e]] eqn:E; [|vm_compute in E; discriminate E].
  assert (Hp : forall embed, Some (fun _ : string => ret [f_of_Z 1]) = Some embed ->
    forall text, keeps_db (embed text)) by (intros ? [= <-] ? ?; done).
  destruct (WriteReflection_consent _ _ _ _ _ Hp E) as (row & Hrow & Hid & _).
  exists w', row. split_and!; [done|exact Hrow|exact Hid].
Defined.
End Witnesses.
