(* ===== verification/Json.v ===== *)
(** * JSON texts: the scanner of [encoding/json]

    [json.Unmarshal] into [map[string]json.RawMessage], which is all the settings store
    needs of JSON: whether a text is valid, and the raw text of an object's members. The
    scanner follows RFC 8259, which the package implements, and its fuel is the length of
    the text. *)

From S2P Require Import Prelude.

Definition char_of (n : Z) : Ascii.ascii := Ascii.ascii_of_nat (Z.to_nat n).
Definition is_ws (c : Ascii.ascii) : bool :=
  let n := ascii_code c in (n =? 32) || (n =? 9) || (n =? 10) || (n =? 13).
Fixpoint skip_ws (s : string) : string :=
  match s with String c r => if is_ws c then skip_ws r else s | "" => "" end.

(** Consumes one byte. *)
Definition eat (n : Z) (s : string) : option string :=
  match s with String c r => if ascii_code c =? n then Some r else None | "" => None end.
Fixpoint eat_text (p s : string) : option string :=
  match p with "" => Some s | String c p => r ← eat (ascii_code c) s; eat_text p r end.
Definition orelse (a b : option string) : option string := match a with Some _ => a | None => b end.

(** ** Numbers *)

Definition is_digit (c : Ascii.ascii) : bool := (48 <=? ascii_code c) && (ascii_code c <=? 57).
Fixpoint skip_digits (s : string) : string :=
  match s with String c r => if is_digit c then skip_digits r else s | "" => "" end.
Definition digits1 (s : string) : option string :=
  match s with String c r => if is_digit c then Some (skip_digits r) else None | "" => None end.
Definition int_part (s : string) : option string :=
  match s with
  | String c r => if ascii_code c =? 48 then Some r else digits1 s
  | "" => None
  end.
(** An optional part: absent unless its first byte is there. *)
Definition opt_part (first : Ascii.ascii -> bool) (rest : string -> option string) (s : string)
    : option string :=
  match s with String c r => if first c then rest r else Some s | "" => Some "" end.
Definition is_code (n : Z) (c : Ascii.ascii) : bool := ascii_code c =? n.
Definition is_exp (c : Ascii.ascii) : bool := is_code 101 c || is_code 69 c.
Definition is_sign (c : Ascii.ascii) : bool := is_code 43 c || is_code 45 c.
Definition scan_number (s : string) : option string :=
  r ← opt_part (is_code 45) Some s;
  r ← int_part r;
  r ← opt_part (is_code 46) digits1 r;
  opt_part is_exp (fun r => r ← opt_part is_sign Some r; digits1 r) r.

(** ** Strings: the code of each character and the text after the closing quote *)

Definition hex_digit_of (c : Ascii.ascii) : option Z :=
  let n := ascii_code c in
  if is_digit c then Some (n - 48)
  else if (97 <=? n) && (n <=? 102) then Some (n - 87)
  else if (65 <=? n) && (n <=? 70) then Some (n - 55) else None.
Definition simple_escape (c : Ascii.ascii) : option Z :=
  let n := ascii_code c in
  if (n =? 34) || (n =? 92) || (n =? 47) then Some n
  else if n =? 98 then Some 8 else if n =? 102 then Some 12 else if n =? 110 then Some 10
  else if n =? 114 then Some 13 else if n =? 116 then Some 9 else None.

(** After the opening quote. Bytes from 128 up stand for themselves, an escape for its
    UTF-16 unit: neither makes a name equal to an ASCII one it does not spell. *)
Fixpoint scan_chars (s : string) : option (list Z * string) :=
  match s with
  | "" => None
  | String c r =>
      let n := ascii_code c in
      if n =? 34 then Some ([], r)
      else if n <? 32 then None
      else if n =? 92 then
        match r with
        | "" => None
        | String d r =>
            if is_code 117 d then
              match r with
              | String a (String b (String c (String e r))) =>
                  a ← hex_digit_of a; b ← hex_digit_of b; c ← hex_digit_of c; e ← hex_digit_of e;
                  '(l, r) ← scan_chars r; Some (((a * 16 + b) * 16 + c) * 16 + e :: l, r)
              | _ => None
              end
            else k ← simple_escape d; '(l, r) ← scan_chars r; Some (k :: l, r)
        end
      else '(l, r) ← scan_chars r; Some (n :: l, r)
  end.
Definition scan_string (s : string) : option (list Z * string) := r ← eat 34 s; scan_chars r.

(** ** Values *)

(** What follows an element: a comma and the next one, or the closing byte. *)
Definition next_element (close : Z) (again : string -> option string) (s : string) : option string :=
  let s := skip_ws s in orelse (eat close s) (r ← eat 44 s; again r).

Fixpoint elements (value : string -> option string) (n : nat) (s : string) : option string :=
  match n with
  | O => None
  | S n => r ← value (skip_ws s); next_element 93 (elements value n) r
  end.
Fixpoint members (value : string -> option string) (n : nat) (s : string) : option string :=
  match n with
  | O => None
  | S n =>
      '(_, r) ← scan_string (skip_ws s);
      r ← eat 58 (skip_ws r);
      r ← value (skip_ws r);
      next_element 125 (members value n) r
  end.

(** The nesting limit of the package (10000) is not imposed. *)
Fixpoint scan_value (fuel : nat) (s : string) : option string :=
  match fuel, s with
  | S fuel, String c r =>
      if is_code 34 c then snd <$> scan_chars r
      else if is_code 91 c then orelse (eat 93 (skip_ws r)) (elements (scan_value fuel) fuel r)
      else if is_code 123 c then orelse (eat 125 (skip_ws r)) (members (scan_value fuel) fuel r)
      else if is_code 116 c then eat_text "true" s
      else if is_code 102 c then eat_text "false" s
      else if is_code 110 c then eat_text "null" s
      else scan_number s
  | _, _ => None
  end.

Definition json_value (s : string) : option string := scan_value (S (String.length s)) s.

(** A complete JSON value without white space around it. *)
Definition is_json (s : string) : bool := bool_decide (json_value s = Some "").

(** ** Objects of raw values *)

(** The members of an object whose opening brace is consumed, in order, and the rest. *)
Fixpoint raw_members (n : nat) (s : string) : option (list (list Z * string) * string) :=
  match n with
  | O => None
  | S n =>
      '(k, r) ← scan_string (skip_ws s);
      r ← eat 58 (skip_ws r);
      let v := skip_ws r in
      r ← json_value v;
      let raw := str_take (String.length v - String.length r) v in
      let r := skip_ws r in
      match eat 125 r with
      | Some r => Some ([(k, raw)], r)
      | None => r ← eat 44 r; '(l, r) ← raw_members n r; Some ((k, raw) :: l, r)
      end
  end.

(** [json.Unmarshal(data, &m)] for [m map[string]json.RawMessage]: [None] for an error;
    [null] leaves the map empty. *)
Definition unmarshal_raw (data : string) : option (list (list Z * string)) :=
  let s := skip_ws data in
  match eat 123 s with
  | Some r =>
      '(l, r) ← match eat 125 (skip_ws r) with
                | Some r => Some ([], r)
                | None => raw_members (S (String.length data)) r
                end;
      if str_empty (skip_ws r) then Some l else None
  | None => r ← eat_text "null" s; if str_empty (skip_ws r) then Some [] else None
  end.

Definition codes (s : string) : list Z := map ascii_code (String.list_ascii_of_string s).
(** The last member of a name counts. *)
Definition raw_lookup (key : string) (m : list (list Z * string)) : option string :=
  snd <$> last (whereb (fun kv => bool_decide (kv.1 = codes key)) m).

(** Single quotes stand for double ones in the examples. *)
Definition quoted (s : string) : string := str_map (fun c => if is_code 39 c then char_of 34 else c) s.

Example unmarshal_ex :
  (fun m => (raw_lookup "min" m, raw_lookup "max" m)) <$>
    unmarshal_raw (quoted "{ 'min' : -0.5e3 , '\u006dax':[1, {'a':null}], 'x':true } ")
  = Some (Some "-0.5e3", Some (quoted "[1, {'a':null}]")) /\
  unmarshal_raw (quoted "{'min':01}") = None /\ unmarshal_raw (quoted "{'min':,'max':1}") = None /\
  unmarshal_raw "[1]" = None /\ unmarshal_raw "null" = Some [].
Proof. vm_compute. by split_and!. Qed.

(** ** The scanner does not look past a value *)

Section Extension.
(** What follows: a comma or a closing brace. *)
Variables (c : Ascii.ascii) (u : string).
Hypothesis Hc : ascii_code c = 44 \/ ascii_code c = 125.
#[local] Notation t := (String c u).

Definition extends (f : string -> option string) : Prop :=
  forall s r, f s = Some r -> f (s +:+ t) = Some (r +:+ t).

Lemma delimiter_not_ws : is_ws c = false.
Proof. unfold is_ws. lia. Qed.
Lemma delimiter_not_digit : is_digit c = false.
Proof. unfold is_digit. lia. Qed.

Lemma skip_ws_app s : skip_ws (s +:+ t) = skip_ws s +:+ t.
Proof.
  induction s as [|d s IH]; [rewrite !str_app_nil_l; cbn [skip_ws]; by rewrite delimiter_not_ws|].
  rewrite str_app_cons. cbn [skip_ws]. by destruct (is_ws d).
Qed.
Lemma skip_digits_app s : skip_digits (s +:+ t) = skip_digits s +:+ t.
Proof.
  induction s as [|d s IH]; [rewrite !str_app_nil_l; cbn [skip_digits]; by rewrite delimiter_not_digit|].
  rewrite str_app_cons. cbn [skip_digits]. by destruct (is_digit d).
Qed.

Lemma extends_eat n : extends (eat n).
Proof. intros [|d s] r; [done|]. rewrite str_app_cons. cbn [eat]. destruct (_ =? _); [|done]. by intros [= ->]. Qed.
Lemma extends_bind f g : extends f -> extends g -> extends (fun s => r ← f s; g r).
Proof. intros Hf Hg s r. destruct (f s) as [x|] eqn:E; [|done]. rewrite (Hf _ _ E). apply Hg. Qed.
Lemma extends_Some : extends Some.
Proof. by intros s r [= ->]. Qed.
Lemma extends_eat_text p : extends (eat_text p).
Proof. induction p as [|d p IH]; [apply extends_Some|]. by apply extends_bind; [apply extends_eat|]. Qed.
Lemma extends_digits1 : extends digits1.
Proof.
  intros [|d s] r; [done|]. rewrite str_app_cons. cbn [digits1]. destruct (is_digit d); [|done].
  intros [= <-]. by rewrite skip_digits_app.
Qed.
Lemma extends_int_part : extends int_part.
Proof.
  intros [|d s] r; [done|]. pose proof (extends_digits1 (String d s) r) as Hd.
  rewrite str_app_cons in *. cbn [int_part]. destruct (_ =? _); [by intros [= ->]|]. exact Hd.
Qed.
Lemma extends_opt_part first rest : first c = false -> extends rest -> extends (opt_part first rest).
Proof.
  intros Hf Hr [|d s] r.
  - rewrite str_app_nil_l. cbn [opt_part]. intros [= <-]. by rewrite Hf.
  - rewrite str_app_cons. cbn [opt_part]. destruct (first d); [apply Hr|]. by intros [= <-].
Qed.
Lemma extends_number : extends scan_number.
Proof.
  assert (He : is_exp c = false /\ is_sign c = false /\ is_code 45 c = false /\ is_code 46 c = false)
    by (unfold is_exp, is_sign, is_code; lia). destruct He as (? & ? & ? & ?).
  apply extends_bind; [apply extends_opt_part; [done|apply extends_Some]|].
  apply extends_bind; [apply extends_int_part|].
  apply extends_bind; [apply extends_opt_part; [done|apply extends_digits1]|].
  apply extends_opt_part; [done|].
  apply extends_bind; [apply extends_opt_part; [done|apply extends_Some]|apply extends_digits1].
Qed.

Lemma scan_chars_app n : forall s l r, (String.length s <= n)%nat ->
  scan_chars s = Some (l, r) -> scan_chars (s +:+ t) = Some (l, r +:+ t).
Proof.
  induction n as [|n IH]; intros [|a s] l r Hn; try done; cbn [String.length] in Hn; [lia|].
  rewrite str_app_cons. cbn [scan_chars].
  destruct (ascii_code a =? 34); [by intros [= <- <-]|].
  destruct (ascii_code a <? 32); [done|].
  assert (Hrest : forall k s', (String.length s' <= n)%nat ->
    ('(l, r) ← scan_chars s'; Some (k :: l, r)) = Some (l, r) ->
    ('(l, r) ← scan_chars (s' +:+ t); Some (k :: l, r)) = Some (l, r +:+ t)).
  { intros k s' Hs'. destruct (scan_chars s') as [[l' r']|] eqn:E; [|done].
    intros [= <- <-]. by rewrite (IH _ _ _ Hs' E). }
  destruct (ascii_code a =? 92); [|by apply Hrest; lia].
  destruct s as [|d s]; [done|]. rewrite str_app_cons. cbn [String.length] in Hn.
  destruct (is_code 117 d).
  - destruct s as [|x1 [|x2 [|x3 [|x4 s]]]]; try done. rewrite !str_app_cons. cbn [String.length] in Hn.
    destruct (hex_digit_of x1) as [h1|]; [|done]. destruct (hex_digit_of x2) as [h2|]; [|done].
    destruct (hex_digit_of x3) as [h3|]; [|done]. destruct (hex_digit_of x4) as [h4|]; [|done].
    apply Hrest. lia.
  - destruct (simple_escape d) as [k|]; [|done]. apply Hrest. lia.
Qed.
Lemma scan_chars_rest s l r : scan_chars s = Some (l, r) -> scan_chars (s +:+ t) = Some (l, r +:+ t).
Proof. by apply (scan_chars_app (String.length s)). Qed.
Lemma scan_string_rest s l r : scan_string s = Some (l, r) -> scan_string (s +:+ t) = Some (l, r +:+ t).
Proof.
  unfold scan_string. destruct (eat 34 s) as [x|] eqn:E; [|done].
  rewrite (extends_eat _ _ _ E). apply scan_chars_rest.
Qed.

Lemma eat_None_app k s : eat k s = None -> s <> "" -> eat k (s +:+ t) = None.
Proof. destruct s as [|d s]; [done|]. rewrite str_app_cons. cbn [eat]. by destruct (_ =? _). Qed.
Lemma extends_next k again : extends again -> extends (next_element k again).
Proof.
  intros Ha s r. unfold next_element. cbv zeta. rewrite skip_ws_app.
  destruct (eat k (skip_ws s)) as [x|] eqn:E.
  - rewrite (extends_eat _ _ _ E). by intros [= ->].
  - destruct (eat 44 (skip_ws s)) as [x|] eqn:E2; [|done]. cbn. intros H.
    rewrite eat_None_app by (done || by intros E0; rewrite E0 in E2).
    rewrite (extends_eat _ _ _ E2). by apply Ha.
Qed.
Lemma extends_skip f : extends f -> extends (fun s => f (skip_ws s)).
Proof. intros Hf s r. rewrite skip_ws_app. apply Hf. Qed.
Lemma extends_elements value n : extends value -> extends (elements value n).
Proof.
  intros Hv. induction n as [|n IH]; [done|]. apply extends_bind; [by apply extends_skip|].
  by apply extends_next.
Qed.
Lemma extends_members value n : extends value -> extends (members value n).
Proof.
  intros Hv. induction n as [|n IH]; [done|]. intros s r. cbn [members]. rewrite skip_ws_app.
  destruct (scan_string (skip_ws s)) as [[k x]|] eqn:E; [|done]. rewrite (scan_string_rest _ _ _ E).
  assert (Hx : extends (fun x => y ← eat 58 (skip_ws x); z ← value (skip_ws y);
                                 next_element 125 (members value n) z)).
  { apply (extends_bind (fun x => eat 58 (skip_ws x))); [apply extends_skip, extends_eat|].
    apply (extends_bind (fun y => value (skip_ws y))); [by apply extends_skip|by apply extends_next]. }
  exact (Hx x r).
Qed.
Lemma extends_opened k f : extends f -> (forall s, skip_ws s = "" -> f s = None) ->
  extends (fun s => orelse (eat k (skip_ws s)) (f s)).
Proof.
  intros Hf H0 s r. rewrite skip_ws_app.
  destruct (eat k (skip_ws s)) as [x|] eqn:E; [rewrite (extends_eat _ _ _ E); by intros [= ->]|].
  cbn. intros H. rewrite eat_None_app; [by apply Hf|done|]. intros E0. by rewrite H0 in H.
Qed.
Lemma extends_value n : extends (scan_value n).
Proof.
  induction n as [|n IH]; intros [|a s] r; try done.
  pose proof (extends_eat_text "true" (String a s) r) as Ht.
  pose proof (extends_eat_text "false" (String a s) r) as Hf.
  pose proof (extends_eat_text "null" (String a s) r) as Hn.
  pose proof (extends_number (String a s) r) as Hnum.
  assert (H0 : forall s', skip_ws s' = "" -> scan_value n (skip_ws s') = None)
    by (intros s' ->; by destruct n).
  rewrite str_app_cons in *. cbn [scan_value].
  destruct (is_code 34 a).
  { destruct (scan_chars s) as [[l x]|] eqn:E; [|done]. rewrite (scan_chars_rest _ _ _ E).
    by intros [= ->]. }
  destruct (is_code 91 a).
  { apply extends_opened; [by apply extends_elements|]. intros s' Hs.
    destruct n; [done|]. cbn [elements]. by rewrite H0. }
  destruct (is_code 123 a).
  { apply extends_opened; [by apply extends_members|]. intros s' Hs.
    destruct n; [done|]. cbn [members]. by rewrite Hs. }
  destruct (is_code 116 a); [exact Ht|]. destruct (is_code 102 a); [exact Hf|].
  destruct (is_code 110 a); [exact Hn|exact Hnum].
Qed.
End Extension.

(** ** More fuel changes nothing *)

Definition below (f g : string -> option string) : Prop := forall s r, f s = Some r -> g s = Some r.

Lemma next_below k f g : below f g -> below (next_element k f) (next_element k g).
Proof.
  intros Hfg s r. unfold next_element. cbv zeta. destruct (eat k (skip_ws s)); [done|]. cbn.
  destruct (eat 44 (skip_ws s)); [|done]. apply Hfg.
Qed.
Lemma elements_below v1 v2 n : below v1 v2 -> forall m, (n <= m)%nat ->
  below (elements v1 n) (elements v2 m).
Proof.
  intros Hv. induction n as [|n IH]; intros m Hm s r; [done|]. destruct m as [|m]; [lia|].
  cbn [elements]. destruct (v1 (skip_ws s)) as [x|] eqn:E; [|done]. rewrite (Hv _ _ E).
  apply next_below, IH. lia.
Qed.
Lemma members_below v1 v2 n : below v1 v2 -> forall m, (n <= m)%nat ->
  below (members v1 n) (members v2 m).
Proof.
  intros Hv. induction n as [|n IH]; intros m Hm s r; [done|]. destruct m as [|m]; [lia|].
  cbn [members]. destruct (scan_string (skip_ws s)) as [[k x]|]; [|done]. cbn.
  destruct (eat 58 (skip_ws x)) as [y|]; [|done]. cbn.
  destruct (v1 (skip_ws y)) as [z|] eqn:E; [|done]. rewrite (Hv _ _ E).
  apply next_below, IH. lia.
Qed.
Lemma value_below n : forall m, (n <= m)%nat -> below (scan_value n) (scan_value m).
Proof.
  induction n as [|n IH]; intros m Hm [|a s] r; try done. destruct m as [|m]; [lia|].
  assert (Hb : below (scan_value n) (scan_value m)) by (apply IH; lia).
  cbn [scan_value]. destruct (is_code 34 a); [done|].
  destruct (is_code 91 a).
  { destruct (eat 93 (skip_ws s)); [done|]. apply (elements_below _ _ n Hb); lia. }
  destruct (is_code 123 a); [|done].
  destruct (eat 125 (skip_ws s)); [done|]. apply (members_below _ _ n Hb); lia.
Qed.

(** A value followed by a comma or a closing brace is scanned to its end. *)
Lemma json_value_delimited v c u :
  is_json v = true -> ascii_code c = 44 \/ ascii_code c = 125 ->
  json_value (v +:+ String c u) = Some (String c u).
Proof.
  intros Hv Hc. apply bool_decide_eq_true in Hv. unfold json_value in *.
  apply (extends_value c u Hc) in Hv. eapply value_below; [|exact Hv].
  rewrite length_str_app. lia.
Qed.

Lemma is_json_head v : is_json v = true -> exists a s, v = String a s /\ is_ws a = false.
Proof.
  intros Hv. apply bool_decide_eq_true in Hv. destruct v as [|a s]; [done|]. exists a, s.
  split; [done|]. destruct (is_ws a) eqn:Ew; [|done]. exfalso. revert Hv. unfold json_value. cbn [scan_value].
  assert (Hn : is_code 34 a = false /\ is_code 91 a = false /\ is_code 123 a = false /\
    is_code 116 a = false /\ is_code 102 a = false /\ is_code 110 a = false /\ is_code 45 a = false /\
    (ascii_code a =? 48) = false /\ is_digit a = false) by (unfold is_ws, is_code, is_digit in *; lia).
  destruct Hn as (-> & -> & -> & -> & -> & -> & H1 & H2 & H3).
  unfold scan_number. cbn [opt_part]. rewrite H1. cbn. unfold int_part. rewrite H2.
  unfold digits1. by rewrite H3.
Qed.
Lemma skip_ws_json v u : is_json v = true -> skip_ws (v +:+ u) = v +:+ u.
Proof.
  intros (a & s & -> & Hw)%is_json_head. rewrite str_app_cons. cbn [skip_ws]. by rewrite Hw.
Qed.

Lemma unmarshal_object body :
  eat 125 (skip_ws body) = None ->
  unmarshal_raw ("{" +:+ body) =
    '(l, r) ← raw_members (S (S (String.length body))) body;
    if str_empty (skip_ws r) then Some l else None.
Proof.
  intros H. unfold unmarshal_raw. cbv zeta. rewrite str_app_cons, str_app_nil_l.
  cbn [skip_ws]. change (is_ws _) with false. cbv iota.
  change (eat 123 (String _ body)) with (Some body). cbv iota. by rewrite H.
Qed.
