(* ===== verification/Settings.v ===== *)
(** * Agent settings ([internal/platform/settings.go], SQLite)

    The settings table, the proposal protocol by owner (operator, agent, negotiated) with
    its log in [operator_actions], and the JSON text the declared bounds are kept in. *)

From S2P Require Import Prelude Types Db Consolidation MemoryTiers Json.

(** ** Bounds *)

Definition member_text (key value : string) : string := dquote +:+ key +:+ dquote +:+ ":" +:+ value.
Definition buildBoundsJSON (min max : string) : string :=
  if str_empty min && str_empty max then "{}"
  else "{" +:+ member_text "min" min +:+ "," +:+ member_text "max" max +:+ "}".

Definition parseBounds (boundsJSON : string) : string * string :=
  match unmarshal_raw boundsJSON with
  | None => ("", "")
  | Some m => (default "" (raw_lookup "min" m), default "" (raw_lookup "max" m))
  end.

(** ** Entries *)

Record SettingsEntry := {
  se_Name : string; se_Value : string; se_DefaultValue : string; se_BoundsMin : string;
  se_BoundsMax : string; se_Owner : string; se_ConsentRequired : bool; se_Description : string;
  se_LastChanged : Z; se_ChangedBy : string; se_Reason : string }.

Definition entry_of_row (r : SettingRow) : SettingsEntry :=
  let '(min, max) := parseBounds (sg_bounds r) in
  {| se_Name := sg_name r; se_Value := sg_value r; se_DefaultValue := sg_default_value r;
     se_BoundsMin := min; se_BoundsMax := max; se_Owner := sg_owner r;
     se_ConsentRequired := sg_consent_required r; se_Description := sg_description r;
     se_LastChanged := sg_last_changed r; se_ChangedBy := sg_changed_by r; se_Reason := sg_reason r |}.

Definition setting_owners : list string := ["operator"; "agent"; "negotiated"].

(** [ON CONFLICT(name) DO UPDATE]: the default value stays. *)
Definition upsert_setting (e : SettingsEntry) (now : Z) (rows : list SettingRow) : list SettingRow :=
  let row default :=
    {| sg_name := se_Name e; sg_value := se_Value e; sg_default_value := default;
       sg_bounds := buildBoundsJSON (se_BoundsMin e) (se_BoundsMax e); sg_owner := se_Owner e;
       sg_consent_required := se_ConsentRequired e; sg_description := se_Description e;
       sg_last_changed := now; sg_changed_by := se_ChangedBy e; sg_reason := se_Reason e |} in
  let same r := String.eqb (sg_name r) (se_Name e) in
  if existsb same rows then updateb same (fun r => row (sg_default_value r)) rows
  else rows ++ [row (se_DefaultValue e)].

(** [UPDATE agent_settings SET value, last_changed, changed_by, reason] *)
Definition change_setting (value reason by_ : string) (now : Z) (r : SettingRow) : SettingRow :=
  {| sg_name := sg_name r; sg_value := value; sg_default_value := sg_default_value r;
     sg_bounds := sg_bounds r; sg_owner := sg_owner r;
     sg_consent_required := sg_consent_required r; sg_description := sg_description r;
     sg_last_changed := now; sg_changed_by := by_; sg_reason := reason |}.

Definition setting_le (x y : SettingRow) : Prop := String.le (sg_name x) (sg_name y).
#[global] Instance setting_le_dec : RelDecision setting_le.
Proof. intros x y. unfold setting_le. apply _. Defined.

Section Store.
Context `{Env}.

(** [nil, nil] when there is no such setting. *)
Definition GetSetting (name : string) : M World (option SettingsEntry) :=
  let msg := "platform: getting setting " +:+ fmt_q name in
  let! row := wrapM msg (query (fun d _ => Ok (find_by sg_name name (db_settings d)))) in
  let! row := scan_time msg row in
  ret (entry_of_row <$> row).

Definition ListSettings (ownerFilter : string) : M World (list SettingsEntry) :=
  let! rows := wrapM "platform: listing settings"
    (query (fun d _ =>
       Ok (merge_sort setting_le
             (whereb (fun r => str_empty ownerFilter || String.eqb (sg_owner r) ownerFilter)
                (db_settings d))))) in
  let! rows := scan_times "platform: scanning settings row" rows in
  ret (map entry_of_row rows).

Definition UpsertSetting (entry : SettingsEntry) : M World unit :=
  wrapM ("platform: upserting setting " +:+ fmt_q (se_Name entry))
    (exec (fun d now =>
       if negb (one_of (se_Owner entry) setting_owners)
       then Err (ENew "CHECK constraint failed: agent_settings")
       else Ok (set_settings (upsert_setting entry (now * second)) d, tt))).

Definition log_action (actionType actor description reason : string) : M World unit :=
  let! i := newID in
  exec (fun d now =>
    let? rows := insert_pk ar_id
      {| ar_id := i; ar_action_type := actionType; ar_actor := actor;
         ar_description := description; ar_reason := reason; ar_created_at := now |} (db_actions d) in
    Ok (set_actions (fun _ => rows) d, tt)).

Definition applyOrProposeSQLite (entry : SettingsEntry) (value reason proposedBy : string)
    : M World unit :=
  let name := se_Name entry in
  if String.eqb (se_Owner entry) "operator" then
    fail (ENew ("platform: setting " +:+ fmt_q name +:+ " is operator-only; agent cannot change it"))
  else if String.eqb (se_Owner entry) "agent" then
    let! _ := wrapM ("platform: applying setting " +:+ fmt_q name)
      (exec (fun d now =>
         Ok (set_settings (updateb (fun r => String.eqb (sg_name r) name)
                             (change_setting value reason proposedBy (now * second))) d, tt))) in
    log_action "settings_change" proposedBy
      ("agent setting " +:+ fmt_q name +:+ " changed to " +:+ value) reason
  else if String.eqb (se_Owner entry) "negotiated" then
    log_action "settings_proposal" proposedBy
      ("proposal: change " +:+ fmt_q name +:+ " to " +:+ value) reason
  else fail (ENew ("platform: unknown owner " +:+ fmt_q (se_Owner entry) +:+ " for setting " +:+ fmt_q name)).

Definition ProposeSetting (name value reason proposedBy : string) : M World unit :=
  let! existing := GetSetting name in
  match existing with
  | None => fail (ENew ("platform: setting " +:+ fmt_q name +:+ " not found"))
  | Some entry => applyOrProposeSQLite entry value reason proposedBy
  end.
End Store.

(** [platform.SettingsStore] *)
Class SettingsStore (W : Type) := {
  ss_GetSetting : string -> M W (option SettingsEntry);
  ss_ListSettings : string -> M W (list SettingsEntry);
  ss_UpsertSetting : SettingsEntry -> M W unit;
  ss_ProposeSetting : string -> string -> string -> string -> M W unit }.
#[global] Instance SQLiteSettings `{Env} : SettingsStore World :=
  {| ss_GetSetting := GetSetting; ss_ListSettings := ListSettings;
     ss_UpsertSetting := UpsertSetting; ss_ProposeSetting := ProposeSetting |}.

(** ** Properties *)

Lemma member_text_min v u :
  scan_string (member_text "min" v +:+ u) = Some (codes "min", ":" +:+ v +:+ u).
Proof. reflexivity. Qed.
Lemma member_text_max v u :
  scan_string (member_text "max" v +:+ u) = Some (codes "max", ":" +:+ v +:+ u).
Proof. reflexivity. Qed.

(** One member of an object, its value followed by a comma or a closing brace. *)
Lemma raw_member n key v c u :
  (forall x, scan_string (member_text key v +:+ x) = Some (codes key, ":" +:+ v +:+ x)) ->
  skip_ws (member_text key v +:+ String c u) = member_text key v +:+ String c u ->
  is_json v = true -> ascii_code c = 44 \/ ascii_code c = 125 ->
  raw_members (S n) (member_text key v +:+ String c u) =
    match eat 125 (String c u) with
    | Some r => Some ([(codes key, v)], r)
    | None => r ← eat 44 (String c u); '(l, r) ← raw_members n r; Some ((codes key, v) :: l, r)
    end.
Proof.
  intros Hs Hw Hv Hc. cbn [raw_members]. rewrite Hw, Hs. cbn [mbind option_bind].
  rewrite str_app_cons, str_app_nil_l. cbn [skip_ws]. change (is_ws _) with false. cbv iota.
  change (eat 58 (String _ (v +:+ String c u))) with (Some (v +:+ String c u)). cbn [mbind option_bind].
  rewrite skip_ws_json, json_value_delimited by done. cbn [mbind option_bind].
  assert (Hskip : skip_ws (String c u) = String c u).
  { cbn [skip_ws]. replace (is_ws c) with false; [done|]. symmetry. unfold is_ws. lia. }
  rewrite Hskip, length_str_app.
  replace (String.length v + String.length (String c u) - String.length (String c u))%nat
    with (String.length v) by lia.
  by rewrite str_take_app.
Qed.

(** Bounds survive the settings table: any two JSON values written as bounds read
    back as they were. *)
Theorem bounds_roundtrip min max :
  is_json min = true -> is_json max = true ->
  parseBounds (buildBoundsJSON min max) = (min, max).
Proof.
  intros Hmin Hmax. unfold buildBoundsJSON, parseBounds.
  destruct (is_json_head _ Hmin) as (a & s & Ea & _).
  replace (str_empty min) with false by (by rewrite Ea). cbn [andb].
  rewrite unmarshal_object by done. rewrite str_app_cons, str_app_nil_l.
  rewrite raw_member; [|done|done|done|by left]. change (eat 125 (String _ _)) with (@None string).
  cbv iota. change (eat 44 (String _ ?u)) with (Some u). cbn [mbind option_bind String.length].
  rewrite length_str_app. cbn [String.length]. rewrite Nat.add_succ_r.
  rewrite raw_member; [|done|done|done|by right]. reflexivity.
Qed.

(** A bound given without the other loses both. *)
Lemma single_bound_is_lost v :
  is_json v = true ->
  parseBounds (buildBoundsJSON v "") = ("", "") /\ parseBounds (buildBoundsJSON "" v) = ("", "").
Proof.
  intros Hv. destruct (is_json_head _ Hv) as (a & s & Ea & _). unfold buildBoundsJSON, parseBounds.
  replace (str_empty v) with false by (by rewrite Ea). cbn [andb str_empty String.eqb]. split.
  - rewrite unmarshal_object by done. rewrite str_app_cons, str_app_nil_l.
    rewrite raw_member; [|done|done|done|by left]. change (eat 125 (String _ _)) with (@None string).
    cbv iota. change (eat 44 (String _ ?u)) with (Some u). cbn [mbind option_bind String.length].
    reflexivity.
  - rewrite unmarshal_object by done. reflexivity.
Qed.

Section Governance.
Context `{Env}.

Definition setting_keys (d : Database) : list (string * string * string * string) :=
  map (fun s => (sg_name s, sg_owner s, sg_bounds s, sg_default_value s)) (db_settings d).
(** One new row in [operator_actions]. *)
Definition logged (ty by_ reason : string) (d d' : Database) : Prop :=
  exists a, db_actions d' = db_actions d ++ [a] /\ ar_action_type a = ty /\
            ar_actor a = by_ /\ ar_reason a = reason.
(** The change a proposal applies to its setting, at some time. *)
Definition applied (name value reason by_ : string) (d d' : Database) : Prop :=
  exists now, db_settings d' = updateb (fun r => String.eqb (sg_name r) name)
                                 (change_setting value reason by_ now) (db_settings d).

Lemma GetSetting_cases name w w' r :
  GetSetting name w = (w', r) ->
  w_db w' = w_db w /\
  match r with
  | Ok o => o = entry_of_row <$> find_by sg_name name (db_settings (w_db w))
  | Err _ => True
  end.
Proof.
  unfold GetSetting, bind. cbv zeta.
  destruct (wrapM _ (query _) w) as [w1 [row|e]] eqn:E; apply exec_wrap_cases in E as [_ E];
    [|by intros [= <- <-]].
  injection E as E <-.
  destruct (scan_time _ _ w1) as [w2 [row|e]] eqn:Es; apply scan_time_cases in Es as [-> Es];
    intros [= <- <-]; split; try done. by rewrite Es.
Qed.

Lemma log_action_cases ty by_ desc reason w w' r :
  log_action ty by_ desc reason w = (w', r) ->
  db_settings (w_db w') = db_settings (w_db w) /\
  match r with
  | Ok _ => logged ty by_ reason (w_db w) (w_db w')
  | Err _ => w_db w' = w_db w
  end.
Proof.
  unfold log_action, bind, newID. intros E. apply exec_cases in E as [_ E].
  destruct r as [u|e]; [|split; [by rewrite E|done]].
  destruct (insert_pk _ _ _) as [rows|] eqn:Ei; [|done]. apply insert_pk_Ok in Ei as [-> _].
  simpl in E. injection E as <-. split; [done|]. eexists. split; [reflexivity|]. done.
Qed.

Lemma entry_of_row_fields s : se_Name (entry_of_row s) = sg_name s /\ se_Owner (entry_of_row s) = sg_owner s.
Proof using Type. unfold entry_of_row. by destruct (parseBounds _). Qed.

Lemma applied_keys name value reason by_ d d' :
  applied name value reason by_ d d' -> setting_keys d' = setting_keys d.
Proof using Type. intros [now E]. unfold setting_keys. rewrite E. by apply map_updateb. Qed.
Lemma applied_other name value reason by_ d d' s :
  applied name value reason by_ d d' -> s ∈ db_settings d -> sg_name s <> name -> s ∈ db_settings d'.
Proof using Type.
  intros [now ->] Hs Hn. apply elem_of_updateb. exists s. split; [done|]. by apply String.eqb_neq in Hn as ->.
Qed.

(** C25: A proposal changes a setting only when the agent owns it. An accepted proposal is
    logged with its author and reason: a change of an agent's setting, which is applied,
    or a proposal on a negotiated one, which is not; a refused one logs nothing and at
    most leaves an agent's setting changed. No other setting, and no name, owner, bound
    or default, ever changes. *)
Theorem ProposeSetting_governed name value reason by_ w w' r :
  ProposeSetting name value reason by_ w = (w', r) ->
  let d := w_db w in let d' := w_db w' in
  setting_keys d' = setting_keys d /\
  (forall s, s ∈ db_settings d -> sg_name s <> name -> s ∈ db_settings d') /\
  match find_by sg_name name (db_settings d), r with
  | Some s, Ok _ =>
      (sg_owner s = "agent" /\ applied name value reason by_ d d' /\
       logged "settings_change" by_ reason d d') \/
      (sg_owner s = "negotiated" /\ db_settings d' = db_settings d /\
       logged "settings_proposal" by_ reason d d')
  | Some s, Err _ =>
      d' = d \/ (sg_owner s = "agent" /\ applied name value reason by_ d d' /\ db_actions d' = db_actions d)
  | None, Ok _ => False
  | None, Err _ => d' = d
  end.
Proof.
  unfold ProposeSetting, bind. destruct (GetSetting name w) as [w1 [o|e]] eqn:E1;
    apply GetSetting_cases in E1 as [D1 E1]; cbv zeta; rewrite <- D1;
    [|intros [= <- <-]; split_and!; [done|done|]; by destruct (find_by _ _ _); [left|]].
  rewrite <- D1 in E1. subst o.
  destruct (find_by sg_name name (db_settings (w_db w1))) as [s|] eqn:Ef; simpl;
    [|intros [= <- <-]; by split_and!].
  apply find_by_Some in Ef as [_ Hname]. unfold applyOrProposeSQLite. cbv zeta.
  destruct (entry_of_row_fields s) as [-> ->]. rewrite Hname.
  destruct (String.eqb_spec (sg_owner s) "operator") as [Eo|_];
    [intros [= <- <-]; split_and!; [done|done|by left]|].
  destruct (String.eqb_spec (sg_owner s) "agent") as [Ea|_].
  { unfold bind. destruct (wrapM _ (exec _) w1) as [w2 [u|e]] eqn:E2;
      apply exec_wrap_cases in E2 as [_ E2]; [injection E2 as E2 _|].
    - assert (Ha : applied name value reason by_ (w_db w1) (w_db w2)) by (rewrite <- E2; by eexists).
      assert (Hact : db_actions (w_db w2) = db_actions (w_db w1)) by (by rewrite <- E2).
      intros E3. apply log_action_cases in E3 as [Hs E3].
      assert (Ha' : applied name value reason by_ (w_db w1) (w_db w'))
        by (destruct Ha as [now Ha]; exists now; congruence).
      split; [by eapply applied_keys|]. split; [intros s'; by eapply applied_other|].
      destruct r as [x|e].
      + left. destruct E3 as (a & E3 & Hrest). split_and!; [done|done|]. exists a. by rewrite <- Hact.
      + right. split_and!; [done|done|]. by rewrite E3.
    - intros [= <- <-]. rewrite E2. split_and!; [done|done|by left]. }
  destruct (String.eqb_spec (sg_owner s) "negotiated") as [En|_];
    [|intros [= <- <-]; split_and!; [done|done|by left]].
  intros E3. apply log_action_cases in E3 as [Hs E3]. unfold setting_keys. rewrite Hs.
  split_and!; [done|done|]. destruct r as [x|e]; [by right|by left].
Qed.

(** Along any sequence of proposals, whatever fails, a setting the agent does not
    own stays as it is. *)
Theorem proposals_respect_owners ps w s :
  NoDup (map sg_name (db_settings (w_db w))) ->
  s ∈ db_settings (w_db w) -> sg_owner s <> "agent" ->
  let run w '(name, value, reason, by_) := (ProposeSetting name value reason by_ w).1 in
  s ∈ db_settings (w_db (fold_left run ps w)).
Proof.
  intros Hnd Hs Ho run. revert w Hnd Hs.
  induction ps as [|[[[name value] reason] by_] ps IH]; intros w Hnd Hs; [done|]. simpl.
  destruct (ProposeSetting name value reason by_ w) as [w1 r] eqn:E.
  apply ProposeSetting_governed in E as (Hk & Hother & Hcase). simpl. apply IH.
  { assert (Hnames : forall d, map sg_name (db_settings d) = map (fun k => k.1.1.1) (setting_keys d))
      by (intros d; unfold setting_keys; by rewrite map_map).
    by rewrite Hnames, Hk, <- Hnames. }
  destruct (decide (sg_name s = name)) as [En|]; [|by apply Hother]. subst name.
  rewrite (find_by_NoDup sg_name _ s) in Hcase by done.
  destruct r; [destruct Hcase as [(? & _)|(_ & -> & _)]|destruct Hcase as [->|(? & _)]]; done.
Qed.
End Governance.

(** ** Witnesses *)

Section Witnesses.
#[local] Existing Instance demo_env.

Definition demo_setting (name owner : string) : SettingsEntry :=
  {| se_Name := name; se_Value := "5"; se_DefaultValue := "5"; se_BoundsMin := "1";
     se_BoundsMax := "20"; se_Owner := owner; se_ConsentRequired := false; se_Description := "";
     se_LastChanged := 0; se_ChangedBy := "system"; se_Reason := "" |}.
Definition demo_settings : World :=
  (UpsertSetting (demo_setting "awareness.echo_count" "agent")
     (UpsertSetting (demo_setting "max_tokens" "operator") demo_world).1).1.

Lemma bounds_roundtrip_witness :
  parseBounds (buildBoundsJSON "-0.5e3" (quoted "{'a': [1, null]}")) =
    ("-0.5e3", quoted "{'a': [1, null]}").
Proof. apply bounds_roundtrip; vm_compute; reflexivity. Defined.

(** The declared bounds are 1 and 20. *)
Lemma ProposeSetting_governed_witness :
  exists w', ProposeSetting "awareness.echo_count" "1000" "more" "agent" demo_settings = (w', Ok tt) /\
    map sg_value (db_settings (w_db w')) = ["5"; "1000"] /\
    logged "settings_change" "agent" "more" (w_db demo_settings) (w_db w').
Proof.
  destruct (ProposeSetting "awareness.echo_count" "1000" "more" "agent" demo_settings) as [w' r] eqn:E.
  assert (Hr : r = Ok tt) by (vm_compute in E; congruence). subst r. exists w'. split; [done|].
  pose proof (ProposeSetting_governed _ _ _ _ _ _ _ E) as (_ & _ & Hc). split.
  - vm_compute in E. injection E as <-. reflexivity.
  - replace (find_by _ _ _) with (Some {| sg_name := "awareness.echo_count"; sg_value := "5";
      sg_default_value := "5"; sg_bounds := buildBoundsJSON "1" "20"; sg_owner := "agent";
      sg_consent_required := false; sg_description := ""; sg_last_changed := 1000 * second;
      sg_changed_by := "system"; sg_reason := "" |}) in Hc by reflexivity.
    destruct Hc as [(_ & _ & Hl)|(Ho & _)]; [exact Hl|discriminate Ho].
Defined.

Lemma proposals_respect_owners_witness :
  exists s, sg_name s = "max_tokens" /\
    s ∈ db_settings (w_db (fold_left (fun w '(name, value, reason, by_) =>
          (ProposeSetting name value reason by_ w).1)
        [("max_tokens", "9", "", "agent"); ("awareness.echo_count", "7", "", "agent")] demo_settings)).
Proof.
  destruct (db_settings (w_db demo_settings)) as [|s l] eqn:E; [vm_compute in E; discriminate E|].
  exists s. assert (Hs : s ∈ db_settings (w_db demo_settings)) by (rewrite E; left).
  split; [vm_compute in E; injection E as <- _; reflexivity|].
  apply (proposals_respect_owners _ demo_settings s);
    [|exact Hs|vm_compute in E; injection E as <- _; discriminate].
  vm_compute. repeat (apply NoDup_cons; split; [set_solver|]). by apply NoDup_nil.
Defined.

(** Where times are TEXT, a setting that exists cannot be read or changed. *)
Definition text_times : Env :=
  {| rand_bytes := @rand_bytes demo_env; db_fault := fun _ => None;
     db_time_scan := Some "unsupported Scan, storing driver.Value type string into type *time.Time";
     db_foreign_keys := true |}.
Example settings_unreadable_with_text_times :
  is_ok (@ProposeSetting text_times "awareness.echo_count" "7" "" "agent" demo_settings).2 = false /\
  is_ok (@ListSettings text_times "" demo_settings).2 = false.
Proof. by vm_compute. Qed.
End Witnesses.
