(* ===== verification/Runner.v ===== *)
(** * Running metabolism jobs: [internal/metabolism/runner.go], [supervisor.go]

    [Run] takes a job through claim, processing and its final status against the
    job-store interface. The supervisor bounds how many run at once; its goroutines,
    semaphore, wait group and drain flag are a step relation. *)

From S2P Require Import Prelude Types Db Jobs Consolidation Metabolism.

(** ** One job *)

Section Runner.
Context {S : Type} `{JobStore S}.
(** [pipeline.ProcessSession(ctx, sessionID, WithClaimFence(jobID, token))] *)
Variable process : string -> string -> string -> M S unit.

Definition Run (jobID sessionID : string) : M S unit :=
  try! claim := js_Claim jobID (5 * minute) in
  match claim with
  | Err e => if errors_Is e ErrJobNotPending then ret tt
             else fail (EWrap ("jobrunner: claim " +:+ jobID) e)
  | Ok claimToken =>
      try! processed := process sessionID jobID claimToken in
      match processed with
      | Err e =>
          if errors_Is e ErrReviewRequired then
            try! _ := js_MarkReviewRequired jobID claimToken (error_Error e) in ret tt
          else
            try! _ := js_Fail jobID claimToken (error_Error e) in
            fail (EWrap ("jobrunner: process " +:+ jobID) e)
      | Ok _ =>
          try! completed := js_Complete jobID claimToken in
          match completed with
          | Err e => fail (EWrap ("jobrunner: complete " +:+ jobID) e)
          | Ok _ => ret tt
          end
      end
  end.

(** The synchronous part of [JobRunner.Submit] and of [RecoverStalled]: the jobs
    whose [Run] is then started in goroutines. *)
Definition Submit (sessionID jobType : string) : M S (string * string) :=
  let! jobID := wrapM "jobrunner: commit" (js_Commit sessionID jobType) in
  ret (jobID, sessionID).

Definition RecoverStalled (maxRetries : Z) : M S (Z * list (string * string)) :=
  let! jobs := wrapM "jobrunner: recovery scan" (js_Recoverable maxRetries) in
  ret (Z.of_nat (length jobs), map (fun rj => (rj_JobID rj, rj_SessionID rj)) jobs).

Context (view : S -> string -> option JobView) (inv : S -> Prop) `{!JobStoreLaws S view inv}.
(** Processing leaves the job table alone. *)
Hypothesis process_frame : forall sid id tok s s' r,
  inv s -> process sid id tok s = (s', r) -> inv s' /\ unchanged view s s'.

Definition status_of (s : S) (id : string) : option string := jv_status <$> view s id.

Lemma unchanged_trans s1 s2 s3 :
  unchanged view s1 s2 -> unchanged view s2 s3 -> unchanged view s1 s3.
Proof. intros H1 H2 j. by rewrite H2, H1. Qed.
Lemma only_changed_trans id s1 s2 s3 :
  only_changed view id s1 s2 -> only_changed view id s2 s3 -> only_changed view id s1 s3.
Proof. intros H1 H2 j Hj. by rewrite H2, H1. Qed.
Lemma unchanged_only id s s' : unchanged view s s' -> only_changed view id s s'.
Proof. intros Hu j _. apply Hu. Qed.

(** The three ways a claimed job's run ends. *)
Inductive final (id tok : string) (s2 s' : S) : result unit -> result unit -> Prop :=
  | fin_done u r : js_Complete id tok s2 = (s', r) ->
      final id tok s2 s' (Ok u) (match r with Ok _ => Ok tt
                                 | Err e => Err (EWrap ("jobrunner: complete " +:+ id) e) end)
  | fin_review e r : errors_Is e ErrReviewRequired = true ->
      js_MarkReviewRequired id tok (error_Error e) s2 = (s', r) ->
      final id tok s2 s' (Err e) (Ok tt)
  | fin_failed e r : errors_Is e ErrReviewRequired = false ->
      js_Fail id tok (error_Error e) s2 = (s', r) ->
      final id tok s2 s' (Err e) (Err (EWrap ("jobrunner: process " +:+ id) e)).

Lemma Run_cases id sid s s' r :
  Run id sid s = (s', r) ->
  (exists e, js_Claim id (5 * minute) s = (s', Err e) /\
     r = if errors_Is e ErrJobNotPending then Ok tt
         else Err (EWrap ("jobrunner: claim " +:+ id) e)) \/
  (exists s1 tok s2 p, js_Claim id (5 * minute) s = (s1, Ok tok) /\
     process sid id tok s1 = (s2, p) /\ final id tok s2 s' p r).
Proof.
  unfold Run, attempt, ret, fail. destruct (js_Claim id _ s) as [s1 [tok|e]].
  - intros E. right. exists s1, tok. destruct (process sid id tok s1) as [s2 [u|e]].
    + exists s2, (Ok u). split; [done|]. split; [done|].
      destruct (js_Complete id tok s2) as [s3 rc] eqn:Ec.
      assert (s3 = s' /\ r = match rc with Ok _ => Ok tt
                | Err e => Err (EWrap ("jobrunner: complete " +:+ id) e) end) as [<- ->]
        by (destruct rc; by simplify_eq).
      by constructor.
    + exists s2, (Err e). split; [done|]. split; [done|].
      destruct (errors_Is e ErrReviewRequired) eqn:Er.
      * destruct (js_MarkReviewRequired id tok _ s2) as [s3 rm] eqn:Em.
        simplify_eq. by econstructor.
      * destruct (js_Fail id tok _ s2) as [s3 rm] eqn:Em. simplify_eq. by econstructor.
  - left. exists e. split; [|by destruct (errors_Is e ErrJobNotPending); simplify_eq].
    by destruct (errors_Is e ErrJobNotPending); simplify_eq.
Qed.

Lemma fenced_status op id tok st s s' r :
  fenced_law view inv op id tok st -> inv s -> op s = (s', r) ->
  inv s' /\ only_changed view id s s' /\
  ((exists u, r = Ok u) /\ status_of s' id = Some st \/
   (exists e, r = Err e) /\ status_of s' id = status_of s id).
Proof.
  intros Hl Hi E. destruct (Hl s s' r Hi E) as [Hi' Hr]. split; [done|].
  destruct r as [u|e].
  - destruct Hr as (_ & Hv & Ho). split; [done|]. left. split; [eauto|]. unfold status_of. by rewrite Hv.
  - split; [by apply unchanged_only|]. right. split; [eauto|]. unfold status_of. by rewrite Hr.
Qed.

(** The last write of a run: [op] was called and its status recorded, or it was refused
    and the job still reads running, for recovery to find. *)
Definition recorded_as (id st : string) (s' : S) (rc : result unit) : Prop :=
  status_of s' id = Some (match rc with Ok _ => st | Err _ => "running" end).

(** C9: Job life cycle, for any store that keeps the interface's laws. [Run] touches
    no other job. If the claim is refused nothing is processed and the job stays as it
    is, silently when another worker has it. Otherwise the session was processed under
    the granted token, and under that token the store was asked to record how that went:
    completed after a success, review_required after [ErrReviewRequired], failed with the
    error's text after another error. That status is what the job reads, unless the
    store refused that very write; then it still reads running, and a refused completion
    is [Run]'s error. *)
Theorem Run_outcome id sid s s' r :
  inv s -> Run id sid s = (s', r) ->
  inv s' /\ only_changed view id s s' /\
  ((exists e, js_Claim id (5 * minute) s = (s', Err e) /\ unchanged view s s' /\
      (r = Ok tt <-> errors_Is e ErrJobNotPending = true)) \/
   (exists s1 tok s2 p rc, js_Claim id (5 * minute) s = (s1, Ok tok) /\
      process sid id tok s1 = (s2, p) /\
      match p with
      | Ok _ => js_Complete id tok s2 = (s', rc) /\ recorded_as id "completed" s' rc /\
          r = wrap_err ("jobrunner: complete " +:+ id) rc
      | Err e =>
          if errors_Is e ErrReviewRequired
          then js_MarkReviewRequired id tok (error_Error e) s2 = (s', rc) /\
               recorded_as id "review_required" s' rc /\ r = Ok tt
          else js_Fail id tok (error_Error e) s2 = (s', rc) /\
               recorded_as id "failed" s' rc /\ r = Err (EWrap ("jobrunner: process " +:+ id) e)
      end)).
Proof.
  intros Hi E. apply Run_cases in E as [(e & Hc & ->)|(s1 & tok & s2 & p & Hc & Hp & Hf)].
  - destruct (js_claim_law _ _ _ _ _ Hi Hc) as [Hi' Hu].
    split; [done|]. split; [by apply unchanged_only|]. left. exists e.
    split; [done|]. split; [done|]. by destruct (errors_Is e ErrJobNotPending).
  - destruct (js_claim_law _ _ _ _ _ Hi Hc) as (Hi1 & _ & Hv1 & Ho1).
    destruct (process_frame _ _ _ _ _ _ Hi1 Hp) as [Hi2 Hu2].
    assert (Hrun : status_of s2 id = Some "running") by (unfold status_of; by rewrite Hu2, Hv1).
    pose proof (only_changed_trans id _ _ _ Ho1 (unchanged_only id _ _ Hu2)) as Ho2.
    destruct Hf as [u rc Ef|e rc Er Ef|e rc Er Ef]; pose proof Ef as Ef';
      (eapply fenced_status in Ef as (Hi' & Ho & Hst);
         [|first [apply js_complete_law|apply js_review_law|apply js_fail_law]|done]);
      (split; [done|]); (split; [by eapply only_changed_trans|]);
      right; exists s1, tok, s2; (eexists _, rc; split; [done|]; split; [exact Hp|]); cbv iota; rewrite ?Er;
      (split; [exact Ef'|]); unfold recorded_as;
      destruct rc as [[]|]; destruct Hst as [[[? Hr] Hst]|[[? Hr] Hst]]; rewrite ?Hst, ?Hrun; done.
Qed.
End Runner.

(** ** The SQLite store and the shipped pipeline *)

Section Shipped.
Context `{Env}.

Definition same_memory (d d' : Database) : Prop :=
  db_logs d' = db_logs d /\ db_narratives d' = db_narratives d.

Lemma exec_jobs_memory {A} msg (f : Database -> Z -> result (Database * A)) w w' r :
  (forall d now d' a, f d now = Ok (d', a) -> same_memory d d') ->
  wrapM msg (exec f) w = (w', r) -> same_memory (w_db w) (w_db w').
Proof.
  intros Hf E. apply exec_wrap_cases in E as [_ E]. destruct r; [by eapply Hf|]. by rewrite E.
Qed.

Lemma Claim_memory id dur w w' r : Claim id dur w = (w', r) -> same_memory (w_db w) (w_db w').
Proof.
  unfold Claim, bind, newID. destruct (wrapM _ _ _) as [w1 [n|e]] eqn:E;
    apply exec_jobs_memory in E; try (by intros ???? [= <- _]); simpl in E;
    [destruct (_ =? _)%nat|]; unfold fail, ret; by intros [= <- <-].
Qed.

Lemma fenced_update_memory msg id tok f w w' r :
  fenced_update msg id tok f w = (w', r) -> same_memory (w_db w) (w_db w').
Proof.
  unfold fenced_update, bind at 1. destruct (wrapM _ _ _) as [w1 [n|e]] eqn:E;
    apply exec_jobs_memory in E; try (by intros ???? [= <- _]); [|by intros [= <- <-]].
  destruct (_ =? _)%nat; [|unfold ret; by intros [= <- <-]].
  intros Hf. apply fencedOrNotFound_cases in Hf as (_ & Hd & _). by rewrite Hd.
Qed.

Lemma ProcessSession_frame p tx sid id tok w w' r :
  collaborators_ok p -> pl_consolidation p = Some tx -> sqlite_inv w ->
  ProcessSession p sid id tok w = (w', r) -> sqlite_inv w' /\ unchanged sqlite_view w w'.
Proof.
  intros Hc Hp Hi E. eapply ProcessSession_effect in E; [|done|done].
  assert (Hj : jobs_of w' = jobs_of w).
  { unfold pipeline_effect in E. destruct r; [|by apply trust_only_tables in E as [? _]].
    destruct E as [[E _]|(? & ? & ? & Hco)]; [unfold jobs_of; by rewrite E|apply Hco]. }
  split; [unfold sqlite_inv; by rewrite Hj|by apply sqlite_same].
Qed.

(** [NewJobRunner(store, pipeline)] over the SQLite store. *)
Definition RunSession_job (p : Pipeline) : string -> string -> M World unit :=
  Run (ProcessSession p).

(** C8: End to end. With the consolidation store wired and compression configured,
    a job that [Run] moves to [completed] leaves no log of its session uncovered:
    a job reads completed only when the session's whole experience is in T3. *)
Theorem completed_job_consolidated p tx id sid w w' r :
  collaborators_ok p -> pl_consolidation p = Some tx ->
  pl_llmFn p <> None \/ pl_db p <> None -> sqlite_inv w ->
  status_of sqlite_view w id <> Some "completed" ->
  RunSession_job p id sid w = (w', r) ->
  status_of sqlite_view w' id = Some "completed" ->
  whereb (uncovered sid) (db_logs (w_db w')) = [].
Proof.
  intros Hc Hp Hconf Hi Hbefore E Hafter.
  apply Run_cases in E as [(e & E & _)|(w1 & tok & w2 & pr & E & Hpr & Hf)].
  - apply (js_claim_law (S := World)) in E as [_ Hu]; [|done].
    unfold status_of in *. by rewrite Hu in Hafter.
  - apply (js_claim_law (S := World)) in E as (Hi1 & _ & Hv1 & _); [|done].
    destruct (ProcessSession_frame _ _ _ _ _ _ _ _ Hc Hp Hi1 Hpr) as [Hi2 Hu2].
    assert (Hrun : status_of sqlite_view w2 id = Some "running").
    { unfold status_of. by rewrite Hu2, Hv1. }
    eapply ProcessSession_effect in Hpr; [|done|done].
    destruct Hf as [u rc Ef|e rc Er Ef|e rc Er Ef].
    + simpl in Ef. apply fenced_update_memory in Ef as [-> _]. simpl in Hpr.
      destruct Hpr as [[-> Hun]|(n & nid & row & Hco)].
      * destruct Hun as [Hun|[? ?]]; [|naive_solver]. unfold uncovered_ids in Hun.
        apply map_eq_nil in Hun.
        apply Permutation_nil. by rewrite <- Hun, order_by_Permutation.
      * rewrite (uncovered_consolidated _ _ _ _ _ _ sid Hco). apply whereb_nil.
        intros x Hx. destruct (uncovered sid x) eqn:Eu; [|done]. apply negb_false_iff, one_of_elem.
        apply elem_of_map. exists x. split; [|done]. rewrite order_by_Permutation.
        by apply elem_of_whereb.
    + eapply fenced_status in Ef as (_ & _ & [[_ Hs]|[_ Hs]]); [| |apply (js_review_law (S := World))|done];
        congruence.
    + eapply fenced_status in Ef as (_ & _ & [[_ Hs]|[_ Hs]]); [| |apply (js_fail_law (S := World))|done];
        congruence.
Qed.
End Shipped.

(** ** The supervisor

    A submission that has passed the [stopped] check is a thread; the goroutine it
    starts continues as the same thread. [defer]s run last-in first-out, so a job
    frees its slot before it leaves the wait group. *)

Inductive phase :=
  | Waiting      (** committed, blocked on [s.sem <- struct{}{}] *)
  | Acquired     (** slot taken, [s.wg.Add(1)] not yet executed *)
  | Working      (** goroutine running [Run] *)
  | Releasing    (** slot released, [s.wg.Done()] not yet executed *)
  | Finished.

#[global] Instance phase_eq_dec : EqDecision phase.
Proof. solve_decision. Defined.

(** [Drain]: not called, in its [select], returned nil, returned the timeout's error. The
    goroutine it starts goes its own way: in [s.wg.Wait()], past it, past [close(done)]. *)
Inductive drain_state := NotDraining | Draining | DrainedNil | DrainTimeout.
Inductive waiter_state := NotStarted | InWait | WaitReturned | DoneClosed.
#[global] Instance waiter_state_eq_dec : EqDecision waiter_state.
Proof. solve_decision. Defined.

Record Supervisor := {
  su_stopped : bool; su_sem : nat; su_wg : nat; su_threads : list phase;
  su_drain : drain_state; su_waiter : waiter_state }.

Definition effective_cap (maxConcurrent : Z) : nat :=
  if maxConcurrent <=? 0 then 2 else Z.to_nat maxConcurrent.
Definition NewSupervisor : Supervisor :=
  {| su_stopped := false; su_sem := 0; su_wg := 0; su_threads := [];
     su_drain := NotDraining; su_waiter := NotStarted |}.

Inductive sup_event :=
  | EvSubmit | EvAcquire (i : nat) | EvAdd (i : nat) | EvRelease (i : nat) | EvDone (i : nat)
  | EvDrain | EvWaitReturned | EvCloseDone | EvDrainDone | EvDrainTimeout.

Definition set_thread (i : nat) (ph : phase) (s : Supervisor) (sem wg : nat) : Supervisor :=
  {| su_stopped := su_stopped s; su_sem := sem; su_wg := wg;
     su_threads := <[i := ph]> (su_threads s); su_drain := su_drain s; su_waiter := su_waiter s |}.
Definition set_drain (st : bool) (d : drain_state) (wt : waiter_state) (s : Supervisor) : Supervisor :=
  {| su_stopped := st; su_sem := su_sem s; su_wg := su_wg s;
     su_threads := su_threads s; su_drain := d; su_waiter := wt |}.

(** One atomic action; [None] when it is not enabled. *)
Definition sup_step (cap : nat) (ev : sup_event) (s : Supervisor) : option Supervisor :=
  match ev with
  | EvSubmit =>
      if su_stopped s then None
      else Some {| su_stopped := false; su_sem := su_sem s; su_wg := su_wg s;
                   su_threads := su_threads s ++ [Waiting]; su_drain := su_drain s;
                   su_waiter := su_waiter s |}
  | EvAcquire i =>
      match su_threads s !! i with
      | Some Waiting => if (su_sem s <? cap)%nat
                        then Some (set_thread i Acquired s (S (su_sem s)) (su_wg s)) else None
      | _ => None
      end
  | EvAdd i =>
      match su_threads s !! i with
      | Some Acquired => Some (set_thread i Working s (su_sem s) (S (su_wg s)))
      | _ => None
      end
  | EvRelease i =>
      match su_threads s !! i with
      | Some Working => Some (set_thread i Releasing s (pred (su_sem s)) (su_wg s))
      | _ => None
      end
  | EvDone i =>
      match su_threads s !! i with
      | Some Releasing => Some (set_thread i Finished s (su_sem s) (pred (su_wg s)))
      | _ => None
      end
  | EvDrain =>
      match su_drain s with NotDraining => Some (set_drain true Draining InWait s) | _ => None end
  | EvWaitReturned =>
      match su_waiter s with
      | InWait => if (su_wg s =? 0)%nat then Some (set_drain (su_stopped s) (su_drain s) WaitReturned s)
                  else None
      | _ => None
      end
  | EvCloseDone =>
      match su_waiter s with
      | WaitReturned => Some (set_drain (su_stopped s) (su_drain s) DoneClosed s)
      | _ => None
      end
  | EvDrainDone =>
      match su_drain s, su_waiter s with
      | Draining, DoneClosed => Some (set_drain (su_stopped s) DrainedNil DoneClosed s)
      | _, _ => None
      end
  | EvDrainTimeout =>
      match su_drain s with
      | Draining => Some (set_drain (su_stopped s) DrainTimeout (su_waiter s) s)
      | _ => None
      end
  end.

Fixpoint sup_run (cap : nat) (evs : list sup_event) (s : Supervisor) : option Supervisor :=
  match evs with
  | [] => Some s
  | ev :: rest => match sup_step cap ev s with Some s' => sup_run cap rest s' | None => None end
  end.

Definition is_phase (ph : phase) (x : phase) : bool := bool_decide (x = ph).
Definition threads_in (ph : phase) (s : Supervisor) : nat := countb (is_phase ph) (su_threads s).

Lemma countb_app {A} (p : A -> bool) l1 l2 : countb p (l1 ++ l2) = (countb p l1 + countb p l2)%nat.
Proof. unfold countb, whereb. by rewrite List.filter_app, length_app. Qed.

Lemma countb_insert {A} (p : A -> bool) l i x y :
  l !! i = Some x ->
  (countb p (<[i := y]> l) + (if p x then 1 else 0) = countb p l + (if p y then 1 else 0))%nat.
Proof.
  revert i. induction l as [|z l IH]; intros [|i] Hi; simpl in Hi; [done|done| |].
  - simplify_eq. unfold countb, whereb. simpl. destruct (p x), (p y); simpl; lia.
  - specialize (IH i Hi). unfold countb, whereb in *. simpl.
    destruct (p z); simpl; lia.
Qed.

Record sup_ok (cap : nat) (s : Supervisor) : Prop := {
  so_sem : su_sem s = (threads_in Acquired s + threads_in Working s)%nat;
  so_wg : su_wg s = (threads_in Working s + threads_in Releasing s)%nat;
  so_cap : (su_sem s <= cap)%nat;
  so_stop : su_drain s <> NotDraining -> su_stopped s = true;
  so_waiter : su_drain s = NotDraining <-> su_waiter s = NotStarted;
  so_done : su_drain s = DrainedNil -> su_waiter s = DoneClosed }.

Lemma set_thread_count ph i x y s sem wg :
  su_threads s !! i = Some x ->
  (threads_in ph (set_thread i y s sem wg) + (if is_phase ph x then 1 else 0)
   = threads_in ph s + (if is_phase ph y then 1 else 0))%nat.
Proof. intros Hi. unfold threads_in. simpl. by apply countb_insert. Qed.

(** Replacing one thread's phase moves one unit between the counts. *)
Ltac thread_moves H :=
  match type of H with su_threads ?s !! ?i = Some ?x =>
    match goal with |- context [set_thread i ?y s ?sem ?wg] =>
      pose proof (set_thread_count Acquired i x y s sem wg H);
      pose proof (set_thread_count Working i x y s sem wg H);
      pose proof (set_thread_count Releasing i x y s sem wg H)
    end
  end; unfold is_phase in *; simpl in *; lia.

Lemma sup_step_ok cap ev s s' : sup_step cap ev s = Some s' -> sup_ok cap s -> sup_ok cap s'.
Proof.
  intros E [Hsem Hwg Hcap Hstop Hwt Hdn].
  assert (Hset : forall i x y sem wg, su_threads s !! i = Some x ->
    sem = (threads_in Acquired (set_thread i y s sem wg) + threads_in Working (set_thread i y s sem wg))%nat ->
    wg = (threads_in Working (set_thread i y s sem wg) + threads_in Releasing (set_thread i y s sem wg))%nat ->
    (sem <= cap)%nat -> sup_ok cap (set_thread i y s sem wg)) by (by intros; split).
  destruct ev; simpl in E.
  - destruct (su_stopped s) eqn:Es; [done|]. simplify_eq.
    split; unfold threads_in; simpl; rewrite ?countb_app; simpl; rewrite ?Nat.add_0_r; auto.
  - destruct (su_threads s !! i) as [[]|] eqn:Ei; try done.
    destruct (su_sem s <? cap)%nat eqn:Ec; [|done]. apply Nat.ltb_lt in Ec. simplify_eq.
    eapply Hset; [done| | |lia]; thread_moves Ei.
  - destruct (su_threads s !! i) as [[]|] eqn:Ei; try done. simplify_eq.
    eapply Hset; [done| | |lia]; thread_moves Ei.
  - destruct (su_threads s !! i) as [[]|] eqn:Ei; try done. simplify_eq.
    eapply Hset; [done| | |lia]; thread_moves Ei.
  - destruct (su_threads s !! i) as [[]|] eqn:Ei; try done. simplify_eq.
    eapply Hset; [done| | |lia]; thread_moves Ei.
  - destruct (su_drain s); try done. simplify_eq. by split.
  - destruct (su_waiter s) eqn:Ew; try done. destruct (su_wg s =? 0)%nat; [|done]. simplify_eq.
    split; try done; simpl; [split; [intros Hd; by apply Hwt in Hd|done]|intros Hd; by apply Hdn in Hd].
  - destruct (su_waiter s) eqn:Ew; try done. simplify_eq.
    split; try done. simpl. split; [intros Hd; by apply Hwt in Hd|done].
  - destruct (su_drain s) eqn:Ed, (su_waiter s) eqn:Ew; try done. simplify_eq.
    split; try done. simpl. intros _. by apply Hstop.
  - destruct (su_drain s) eqn:Ed; try done. simplify_eq.
    split; try done; simpl; [intros _; by apply Hstop|]. split; [done|]. intros Hw. by apply Hwt in Hw.
Qed.

Lemma sup_run_ok cap evs s s' : sup_run cap evs s = Some s' -> sup_ok cap s -> sup_ok cap s'.
Proof.
  revert s. induction evs as [|ev evs IH]; intros s E Hok; simpl in E; [by simplify_eq|].
  destruct (sup_step cap ev s) as [s1|] eqn:E1; [|done]. by eapply IH, sup_step_ok.
Qed.

Lemma NewSupervisor_ok cap : sup_ok cap NewSupervisor.
Proof. split; try done. simpl. lia. Qed.

(** Threads that have passed the [stopped] check and are not yet in the wait group. *)
Definition in_flight (s : Supervisor) : nat := (threads_in Waiting s + threads_in Acquired s)%nat.

Lemma sup_run_app cap evs1 evs2 s :
  sup_run cap (evs1 ++ evs2) s = match sup_run cap evs1 s with Some s1 => sup_run cap evs2 s1 | None => None end.
Proof.
  revert s. induction evs1 as [|ev evs1 IH]; intros s; [done|]. simpl. destruct (sup_step cap ev s); [apply IH|done].
Qed.

Lemma thread_counted ph s i : su_threads s !! i = Some ph -> threads_in ph s <> 0%nat.
Proof.
  intros Hi. apply countb_pos. exists ph. split; [by eapply list_elem_of_lookup_2|]. by apply bool_decide_eq_true.
Qed.
Lemma threads_in_pos ph s : (0 < threads_in ph s)%nat -> exists i, su_threads s !! i = Some ph.
Proof.
  intros Hp. destruct (proj1 (countb_pos (is_phase ph) (su_threads s))) as (x & Hx & Hph);
    [unfold threads_in in Hp; lia|].
  apply bool_decide_eq_true in Hph as ->. by apply list_elem_of_lookup in Hx.
Qed.

(** C35: Bounded concurrency without deadlock. However submissions, goroutines and a
    drain interleave, at most [maxConcurrent] jobs (2 when it is not positive) run at
    once, and a submission blocked on a slot is never stuck: whenever one waits, either
    a slot is free and it can take it, or some job holding a slot has an enabled step
    towards releasing it. *)
Theorem supervisor_bounded maxConcurrent evs s :
  sup_run (effective_cap maxConcurrent) evs NewSupervisor = Some s ->
  (threads_in Working s <= effective_cap maxConcurrent)%nat /\
  ((0 < threads_in Waiting s)%nat ->
     (exists i s', sup_step (effective_cap maxConcurrent) (EvAcquire i) s = Some s') \/
     (exists i s', sup_step (effective_cap maxConcurrent) (EvAdd i) s = Some s' \/
                   sup_step (effective_cap maxConcurrent) (EvRelease i) s = Some s')).
Proof.
  intros E. apply sup_run_ok in E as [Hsem Hwg Hcap _ _ _]; [|apply NewSupervisor_ok].
  set (cap := effective_cap maxConcurrent) in *.
  assert (Hpos : (0 < cap)%nat) by (unfold cap, effective_cap; destruct (maxConcurrent <=? 0) eqn:E0; bools; lia).
  split; [lia|]. intros Hw. destruct (Nat.ltb_spec (su_sem s) cap) as [Hlt|Hge].
  - left. apply threads_in_pos in Hw as [i Hi]. exists i. unfold sup_step. rewrite Hi.
    apply Nat.ltb_lt in Hlt. rewrite Hlt. eauto.
  - right. destruct (Nat.eq_dec (threads_in Acquired s) 0%nat) as [H0|H0].
    + assert (Hk : (0 < threads_in Working s)%nat) by lia. apply threads_in_pos in Hk as [i Hi].
      exists i. unfold sup_step. rewrite Hi. eauto.
    + assert (Hk : (0 < threads_in Acquired s)%nat) by lia. apply threads_in_pos in Hk as [i Hi].
      exists i. unfold sup_step. rewrite Hi. eauto.
Qed.

(** What became of the submissions since [s0], when the wait group was found empty: none
    was accepted, and whatever has not finished was still on its way in. *)
Record settled (s0 s : Supervisor) : Prop := {
  se_stopped : su_stopped s0 = true;
  se_idle : threads_in Working s0 = 0%nat /\ threads_in Releasing s0 = 0%nat;
  se_same : length (su_threads s) = length (su_threads s0);
  se_late : forall i ph, su_threads s !! i = Some ph -> ph <> Finished ->
    su_threads s0 !! i = Some Waiting \/ su_threads s0 !! i = Some Acquired }.

Lemma settled_thread s0 s i x y sem wg : settled s0 s -> su_threads s !! i = Some x ->
  x <> Finished -> settled s0 (set_thread i y s sem wg).
Proof.
  intros [H1 H2 H3 H4] Hi Hx. split; [done|done|by simpl; rewrite length_insert|].
  simpl. intros j ph Hj Hph. destruct (decide (i = j)) as [<-|Hne]; [by eapply H4|].
  rewrite list_lookup_insert_ne in Hj by done. by eapply H4.
Qed.
Lemma settled_step cap ev s0 s s' : settled s0 s -> su_stopped s = true ->
  sup_step cap ev s = Some s' -> settled s0 s'.
Proof.
  intros Hs Hst E. assert (Hd : forall st d wt, settled s0 (set_drain st d wt s)) by (intros; destruct Hs; by split).
  destruct ev; simpl in E; rewrite ?Hst in E; try done; repeat (case_match; try done); simplify_eq;
    try apply Hd; by eapply settled_thread.
Qed.

(** Once the wait has returned, it did so at some point of the run. *)
Lemma wait_returned cap evs s : sup_run cap evs NewSupervisor = Some s ->
  su_waiter s = WaitReturned \/ su_waiter s = DoneClosed ->
  exists before after s0, evs = before ++ EvWaitReturned :: after /\
    sup_run cap before NewSupervisor = Some s0 /\ settled s0 s.
Proof.
  revert s. induction evs as [|ev evs IH] using rev_ind; intros s E Hw; [simpl in E; by destruct Hw; simplify_eq|].
  rewrite sup_run_app in E. destruct (sup_run cap evs NewSupervisor) as [s1|] eqn:E1; [|done]. simpl in E.
  destruct (sup_step cap ev s1) as [s2|] eqn:E2; [|done]. simplify_eq.
  pose proof (sup_run_ok _ _ _ _ E1 (NewSupervisor_ok cap)) as Hok.
  assert (Hst : su_waiter s1 <> NotStarted -> su_stopped s1 = true).
  { intros Hn. apply (so_stop _ _ Hok). intros Hd. by apply (so_waiter _ _ Hok) in Hd. }
  destruct (decide (su_waiter s1 = WaitReturned \/ su_waiter s1 = DoneClosed)) as [Hw1|Hw1].
  - destruct (IH s1 eq_refl Hw1) as (b & a & s0 & -> & Eb & Hs). exists b, (a ++ [ev]), s0.
    split; [by rewrite <- app_assoc|]. split; [done|].
    eapply settled_step; [exact Hs| |exact E2]. apply Hst. by destruct Hw1 as [->| ->].
  - exists evs, [], s1. destruct ev; simpl in E2; repeat (case_match; try done); simplify_eq/=;
      try (exfalso; tauto); try (destruct Hw; congruence).
    split; [done|]. split; [done|]. bools.
    match goal with H : (su_wg _ =? 0)%nat = true |- _ => apply Nat.eqb_eq in H; rename H into Hz end.
    pose proof (so_wg _ _ Hok) as Hwg.
    split; [apply Hst; congruence|unfold threads_in in *; lia|done|]. simpl. intros i ph Hi Hph.
    destruct ph; [by left|by right|apply thread_counted in Hi; lia..|done].
Qed.

(** While it drains, letting the jobs end brings [Drain] to return nil. *)
Lemma drain_can_finish cap s : sup_ok cap s -> su_drain s = Draining ->
  exists evs s', sup_run cap evs s = Some s' /\ su_drain s' = DrainedNil.
Proof.
  remember (2 * threads_in Working s + threads_in Releasing s)%nat as m eqn:Em. revert s Em.
  induction (lt_wf m) as [m _ IH]. intros s -> Hok Hd.
  assert (Hgo : forall ev i x y sem wg, su_threads s !! i = Some x ->
    sup_step cap ev s = Some (set_thread i y s sem wg) ->
    (2 * threads_in Working (set_thread i y s sem wg) + threads_in Releasing (set_thread i y s sem wg)
     < 2 * threads_in Working s + threads_in Releasing s)%nat ->
    exists evs s', sup_run cap evs s = Some s' /\ su_drain s' = DrainedNil).
  { intros ev i x y sem wg Hi E Hlt.
    destruct (IH _ Hlt _ eq_refl (sup_step_ok _ _ _ _ E Hok) Hd) as (evs & s' & E' & Hd').
    exists (ev :: evs), s'. simpl. by rewrite E. }
  destruct (Nat.eq_dec (threads_in Working s) 0%nat) as [HW|HW].
  2: { destruct (threads_in_pos Working s ltac:(lia)) as [i Hi].
       eapply (Hgo (EvRelease i) i); [exact Hi|simpl; by rewrite Hi|thread_moves Hi]. }
  destruct (Nat.eq_dec (threads_in Releasing s) 0%nat) as [HR|HR].
  2: { destruct (threads_in_pos Releasing s ltac:(lia)) as [i Hi].
       eapply (Hgo (EvDone i) i); [exact Hi|simpl; by rewrite Hi|thread_moves Hi]. }
  assert (Hz : su_wg s = 0%nat) by (rewrite (so_wg _ _ Hok); lia).
  destruct (su_waiter s) eqn:Ew.
  - apply (so_waiter _ _ Hok) in Ew. congruence.
  - exists [EvWaitReturned; EvCloseDone; EvDrainDone]. simpl. rewrite Ew, Hz. simpl. rewrite Hd. eauto.
  - exists [EvCloseDone; EvDrainDone]. simpl. rewrite Ew. simpl. rewrite Hd. eauto.
  - exists [EvDrainDone]. simpl. rewrite Ew, Hd. eauto.
Qed.

(** C37: What a drain promises. A drain in progress can always come to return nil, by
    letting the running jobs end. When it has returned nil, there was a moment, after
    new submissions were refused, at which no job was running: none has been accepted
    since, and whatever has not finished belongs to a submission that had passed the
    check before and had not yet joined the wait group at that moment. If there was none,
    every job has finished. *)
Theorem drain_nil_sound cap evs s :
  sup_run cap evs NewSupervisor = Some s ->
  (su_drain s = Draining -> exists evs' s', sup_run cap evs' s = Some s' /\ su_drain s' = DrainedNil) /\
  (su_drain s = DrainedNil ->
   exists before after s0, evs = before ++ EvWaitReturned :: after /\
     sup_run cap before NewSupervisor = Some s0 /\ settled s0 s /\
     (in_flight s0 = 0%nat -> forall ph, ph ∈ su_threads s -> ph = Finished)).
Proof.
  intros E. pose proof (sup_run_ok _ _ _ _ E (NewSupervisor_ok cap)) as Hok. split.
  - by apply drain_can_finish.
  - intros Hd. destruct (wait_returned cap evs s E) as (b & a & s0 & -> & Eb & Hs);
      [right; by apply (so_done _ _ Hok)|].
    exists b, a, s0. split; [done|]. split; [done|]. split; [done|]. intros Hz ph Hin.
    destruct (decide (ph = Finished)) as [|Hne]; [done|]. exfalso. unfold in_flight in Hz.
    apply list_elem_of_lookup in Hin as [i Hi]. destruct (se_late _ _ Hs i ph Hi Hne) as [Hl|Hl];
      apply thread_counted in Hl; lia.
Qed.

(** But a nil [Drain] does not mean that no job is running: a submission that passed the
    [stopped] check before [Drain] set it joins the wait group after [Wait] has returned,
    and its job may even be running before [Drain] returns. *)
Theorem drain_nil_misses_submission :
  exists s,
    sup_run 2 [EvSubmit; EvDrain; EvWaitReturned; EvAcquire 0; EvAdd 0; EvCloseDone; EvDrainDone]
      NewSupervisor = Some s /\
    su_drain s = DrainedNil /\ threads_in Working s = 1%nat.
Proof. eexists. repeat split; vm_compute; reflexivity. Qed.

(** ** Witnesses *)

Lemma stale_inv : sqlite_inv stale_world.
Proof.
  change (jobs_of stale_world) with (jobs_of demo_w4).
  exact (@history_ok demo_env _ _ _ demo_history demo_w1_ok).
Qed.
#[local] Notation taken_over :=
  (@Run World (@SQLiteJobStore demo_env) (@ProcessSession demo_env (demo_pipeline (Some true)))
     demo_id "sess-1" (tick 301 stale_world)).

(** A stale claim is taken over, the session processed and the job closed. *)
Lemma Run_outcome_witness :
  only_changed sqlite_view demo_id (tick 301 stale_world) taken_over.1 /\
  exists tok s2 rc, @js_Complete World (@SQLiteJobStore demo_env) demo_id tok s2 = (taken_over.1, rc) /\
    recorded_as sqlite_view demo_id "completed" taken_over.1 rc.
Proof.
  destruct (@Run_outcome World (@SQLiteJobStore demo_env) (@ProcessSession demo_env (demo_pipeline (Some true)))
    sqlite_view sqlite_inv (@SQLiteJobStore_laws demo_env)
    (fun sid id tok s s' r => @ProcessSession_frame demo_env _ _ sid id tok s s' r
                                (demo_collaborators _) eq_refl)
    demo_id "sess-1" (tick 301 stale_world) taken_over.1 taken_over.2 stale_inv (surjective_pairing taken_over))
    as (_ & Ho & H).
  split; [exact Ho|].
  assert (Hst : status_of sqlite_view taken_over.1 demo_id = Some "completed") by (vm_compute; reflexivity).
  destruct H as [(e & Hc & _)|(s1 & tok & s2 & p & rc & _ & _ & H)].
  - apply (f_equal (fun x => is_ok x.2)) in Hc. vm_compute in Hc. discriminate Hc.
  - exists tok, s2, rc. destruct p as [u|e]; [destruct H as (H1 & H2 & _); exact (conj H1 H2)|]. exfalso.
    destruct (errors_Is e ErrReviewRequired); destruct H as (_ & Hr & _); unfold recorded_as in Hr;
      rewrite Hst in Hr; destruct rc; discriminate Hr.
Defined.

Lemma completed_job_consolidated_witness :
  whereb (uncovered "sess-1")
    (db_logs (w_db (@RunSession_job demo_env (demo_pipeline (Some true)) demo_id "sess-1"
                      (tick 301 stale_world)).1)) = [].
Proof.
  destruct (@RunSession_job demo_env (demo_pipeline (Some true)) demo_id "sess-1" (tick 301 stale_world))
    as [w' r] eqn:E.
  apply (@completed_job_consolidated demo_env (demo_pipeline (Some true)) true demo_id "sess-1"
           (tick 301 stale_world) w' r).
  - apply demo_collaborators.
  - reflexivity.
  - left. discriminate.
  - exact stale_inv.
  - vm_compute. discriminate.
  - exact E.
  - change w' with (w', r).1. rewrite <- E. vm_compute. reflexivity.
Defined.

Lemma supervisor_bounded_witness :
  exists s, sup_run 1 [EvSubmit; EvSubmit; EvAcquire 0] NewSupervisor = Some s /\
    (threads_in Working s <= 1)%nat.
Proof.
  eexists. split; [vm_compute; reflexivity|].
  apply (supervisor_bounded 1 [EvSubmit; EvSubmit; EvAcquire 0]). vm_compute. reflexivity.
Defined.

Lemma drain_nil_sound_witness :
  exists s, sup_run 2 [EvSubmit; EvAcquire 0; EvAdd 0; EvDrain; EvRelease 0; EvDone 0; EvWaitReturned;
                       EvCloseDone; EvDrainDone] NewSupervisor = Some s /\
    forall ph, ph ∈ su_threads s -> ph = Finished.
Proof.
  eexists. split; [vm_compute; reflexivity|].
  destruct (drain_nil_sound 2 [EvSubmit; EvAcquire 0; EvAdd 0; EvDrain; EvRelease 0; EvDone 0; EvWaitReturned;
                       EvCloseDone; EvDrainDone] _ eq_refl) as [_ H].
  destruct (H eq_refl) as (b & a & s0 & Ev & Eb & _ & Hf). apply Hf.
  destruct b as [|? [|? [|? [|? [|? [|? [|? [|? [|? [|? b]]]]]]]]]]; cbn in Ev; try discriminate Ev.
  injection Ev as <- <- <- <- <- <- <-. vm_compute in Eb. injection Eb as <-. reflexivity.
Defined.
