(* ===== verification/Registry.v ===== *)
(** * Tools: [internal/tools/registry.go] and the tier activation of
    [internal/engine/tools.go]

    The registry keeps five maps keyed by tool name. Go iterates a map in an
    unspecified order, so [List] takes the order in which it visits the handlers. *)

From S2P Require Import Prelude Types Aegis.
Import Utf8.

Section Registry.
(** [pkg.ToolHandler]: its [Name], and [Define] when it is a [Definer]. *)
Context {H : Type} (Name : H -> string) (Define : H -> option ToolDef).

Record DefaultRegistry := {
  rg_handlers : gmap string H; rg_tiers : gmap string Z; rg_keywords : gmap string (list string);
  rg_execModes : gmap string string; rg_contentSources : gmap string string }.

Definition NewDefaultRegistry : DefaultRegistry :=
  {| rg_handlers := ∅; rg_tiers := ∅; rg_keywords := ∅; rg_execModes := ∅; rg_contentSources := ∅ |}.

(** [None]: panic on a duplicate name. *)
Definition registerFull (h : H) (tier : Z) (keywords : list string) (mode contentSource : string)
    (r : DefaultRegistry) : option DefaultRegistry :=
  let name := Name h in
  match rg_handlers r !! name with
  | Some _ => None
  | None =>
      Some {| rg_handlers := <[name := h]> (rg_handlers r);
              rg_tiers := <[name := tier]> (rg_tiers r);
              rg_keywords := <[name := keywords]> (rg_keywords r);
              rg_execModes := <[name := mode]> (rg_execModes r);
              rg_contentSources := if str_empty contentSource then rg_contentSources r
                                   else <[name := contentSource]> (rg_contentSources r) |}
  end.
Definition RegisterFull (h : H) (tier : Z) (keywords : list string) (mode : string) :=
  registerFull h tier keywords mode "".
Definition RegisterWithMeta (h : H) (tier : Z) (keywords : list string) :=
  RegisterFull h tier keywords ExecParallel.
Definition Register (h : H) := RegisterWithMeta h 1 [].
Definition RegisterExternal (h : H) (tier : Z) (keywords : list string) (contentSource : string) :=
  registerFull h tier keywords ExecParallel contentSource.

Definition Get (r : DefaultRegistry) (name : string) : option H := rg_handlers r !! name.

Definition GetMeta (r : DefaultRegistry) (name : string) : option ToolMeta :=
  match rg_handlers r !! name with
  | None => None
  | Some _ =>
      let cs := default "" (rg_contentSources r !! name) in
      let internal := str_empty cs || one_of cs ["tool-result"; "self"; "operator"] in
      Some {| tm_ExecMode := str_or (default "" (rg_execModes r !! name)) ExecParallel;
              tm_Tier := default 0 (rg_tiers r !! name);
              tm_Keywords := default [] (rg_keywords r !! name);
              tm_ContentSource := cs;
              tm_Destination := if internal then "internal" else "external" |}
  end.

Definition tierName (tier : Z) : string :=
  if tier =? 1 then "core" else if tier =? 2 then "extended" else if tier =? 3 then "experimental"
  else "tier-" +:+ EncodeRune (48 + tier).

Definition def_of (name : string) (h : H) : ToolDef :=
  match Define h with Some d => d | None => {| td_Name := name; td_Description := "" |} end.

Definition name_le : relation ToolDef := fun a b => String.le (td_Name a) (td_Name b).
#[local] Instance name_le_dec : RelDecision name_le.
Proof. intros a b. unfold name_le. apply _. Defined.
#[local] Instance name_le_total : Total name_le.
Proof. intros a b. unfold name_le. apply (total String.le). Qed.
#[local] Instance name_le_trans : Transitive name_le.
Proof. intros a b c. unfold name_le. apply (transitivity (R := String.le)). Qed.

(** First occurrences, the [seen] map of the code. *)
Fixpoint dedup (l : list string) (seen : gset string) : list string :=
  match l with
  | [] => []
  | k :: rest => if bool_decide (k ∈ seen) then dedup rest seen else k :: dedup rest ({[k]} ∪ seen)
  end.

Definition tier_of (r : DefaultRegistry) (name : string) : Z := default 0 (rg_tiers r !! name).
Definition group_of (r : DefaultRegistry) (visit : list (string * H)) (tier : Z) : ToolGroup :=
  let mine := whereb (fun p => tier_of r p.1 =? tier) visit in
  {| tg_Name := tierName tier; tg_Tier := tier;
     tg_Keywords := sort_strings (dedup (concat (map (fun p => default [] (rg_keywords r !! p.1)) mine)) ∅);
     tg_Tools := merge_sort name_le (map (fun p => def_of p.1 p.2) mine) |}.

Definition tiers_in (r : DefaultRegistry) : list Z :=
  merge_sort Z.le (elements (list_to_set (map snd (map_to_list (rg_tiers r))) : gset Z)).
Definition List_ (visit : list (string * H)) (r : DefaultRegistry) : list ToolGroup :=
  map (group_of r visit) (tiers_in r).

(** ** Tier activation *)
Definition matchesAnySignal (unicode_lower : string -> string) (keywords signals : list string) : bool :=
  existsb (fun kw => existsb (fun sig =>
    str_contains (to_lower unicode_lower sig) (to_lower unicode_lower kw)) signals) keywords.

Definition ActivateTier2 (unicode_lower : string -> string) (groups : list ToolGroup) (signals : list string) : list string :=
  map tg_Name (whereb (fun g => (tg_Tier g =? 2) && matchesAnySignal unicode_lower (tg_Keywords g) signals) groups).

Definition BuildToolList (groups : list ToolGroup) (activatedGroups : list string) : list ToolDef :=
  concat (map (fun g => if (tg_Tier g =? 1) || ((tg_Tier g =? 2) && one_of (tg_Name g) activatedGroups)
                        then tg_Tools g else []) groups).

(** ** Properties *)

(** The maps agree: every handler has a tier, no other name has one, and names match. *)
Record registry_ok (r : DefaultRegistry) : Prop := {
  ro_tiers : forall n, is_Some (rg_tiers r !! n) <-> is_Some (rg_handlers r !! n);
  ro_names : forall n h, rg_handlers r !! n = Some h -> Name h = n;
  ro_defs : forall n1 n2 h1 h2, rg_handlers r !! n1 = Some h1 -> rg_handlers r !! n2 = Some h2 ->
    td_Name (def_of n1 h1) = td_Name (def_of n2 h2) -> n1 = n2 }.

Definition visits (r : DefaultRegistry) (visit : list (string * H)) : Prop :=
  visit ≡ₚ map_to_list (rg_handlers r).

Lemma sorted_defs_unique l1 l2 :
  NoDup (map td_Name l1) -> l1 ≡ₚ l2 -> merge_sort name_le l1 = merge_sort name_le l2.
Proof.
  intros Hnd Hp. apply (Sorted_unique_strong name_le).
  - intros a b Ha Hb Hab Hba. rewrite merge_sort_Permutation in Ha, Hb. rewrite <- Hp in Hb.
    assert (Hn : td_Name a = td_Name b) by (by apply (anti_symm String.le)).
    clear -Hnd Ha Hb Hn. induction l1 as [|x l IH]; [by apply elem_of_nil in Ha|].
    simpl in Hnd. apply NoDup_cons in Hnd as [Hx Hnd].
    apply elem_of_cons in Ha as [->|Ha], Hb as [->|Hb]; auto.
    + exfalso. apply Hx. rewrite Hn. apply elem_of_map. eauto.
    + exfalso. apply Hx. rewrite <- Hn. apply elem_of_map. eauto.
  - apply Sorted_merge_sort, _.
  - apply Sorted_merge_sort, _.
  - by rewrite !merge_sort_Permutation.
Qed.

Lemma dedup_spec l seen :
  NoDup (dedup l seen) /\ forall k, k ∈ dedup l seen <-> k ∈ l /\ k ∉ seen.
Proof.
  revert seen. induction l as [|x l IH]; intros seen; simpl; [split; [constructor|set_solver]|].
  case_bool_decide as Hx.
  - destruct (IH seen) as [H1 H2]. split; [done|]. intros k. rewrite H2. set_solver.
  - destruct (IH ({[x]} ∪ seen)) as [H1 H2]. split.
    + apply NoDup_cons. split; [rewrite H2; set_solver|done].
    + intros k. rewrite elem_of_cons, H2. destruct (decide (k = x)) as [->|]; set_solver.
Qed.

Lemma sort_strings_perm l1 l2 : l1 ≡ₚ l2 -> sort_strings l1 = sort_strings l2.
Proof.
  intros Hp. apply (Sorted_unique String.le); try apply sort_strings_Sorted.
  by rewrite !sort_strings_Permutation.
Qed.

Lemma visit_elem r visit n h : visits r visit -> (n, h) ∈ visit <-> rg_handlers r !! n = Some h.
Proof. intros Hv. rewrite Hv. apply elem_of_map_to_list. Qed.

Lemma visit_defs_NoDup r visit t :
  registry_ok r -> visits r visit ->
  NoDup (map td_Name (map (fun p => def_of p.1 p.2) (whereb (fun p => tier_of r p.1 =? t) visit))).
Proof.
  intros Hok Hv. rewrite map_map. assert (Hnd : NoDup visit).
  { rewrite Hv. apply NoDup_map_to_list. }
  assert (Hsub : forall p, p ∈ visit -> rg_handlers r !! p.1 = Some p.2).
  { intros [n h] Hp. by apply (visit_elem r visit n h Hv). }
  clear Hv. induction visit as [|[n h] l IH]; [constructor|].
  apply NoDup_cons in Hnd as [Hx Hnd].
  assert (IH' := IH Hnd (fun p Hp => Hsub p (proj2 (elem_of_cons _ _ _) (or_intror Hp)))).
  unfold whereb in *. simpl. destruct (tier_of r n =? t); [|done]. simpl.
  apply NoDup_cons. split; [|done]. rewrite elem_of_map. intros ([n' h'] & Hin & Heq).
  apply elem_of_whereb in Hin as [Hin _]. simpl in Heq.
  pose proof (Hsub (n', h') ltac:(by right)) as H1. pose proof (Hsub (n, h) ltac:(by left)) as H2.
  simpl in H1, H2. assert (n' = n) as -> by (by eapply (ro_defs r Hok)).
  rewrite H1 in H2. simplify_eq. done.
Qed.

Lemma group_visit_order r v1 v2 t :
  registry_ok r -> visits r v1 -> visits r v2 -> group_of r v1 t = group_of r v2 t.
Proof.
  intros Hok H1 H2. assert (Hp : v1 ≡ₚ v2) by (by rewrite H1, H2). unfold group_of. f_equal.
  - apply sort_strings_perm. apply NoDup_Permutation; [apply dedup_spec|apply dedup_spec|].
    intros k. rewrite !(proj2 (dedup_spec _ _)).
    assert (Hc : concat (map (fun p => default [] (rg_keywords r !! p.1)) (whereb (fun p => tier_of r p.1 =? t) v1))
        ≡ₚ concat (map (fun p => default [] (rg_keywords r !! p.1)) (whereb (fun p => tier_of r p.1 =? t) v2))).
    { by rewrite (whereb_perm _ _ _ Hp). }
    by rewrite Hc.
  - apply sorted_defs_unique; [by apply visit_defs_NoDup|]. by rewrite (whereb_perm _ _ _ Hp).
Qed.

Lemma tiers_in_elem r t : t ∈ tiers_in r <-> exists n, rg_tiers r !! n = Some t.
Proof.
  unfold tiers_in. rewrite merge_sort_Permutation, elem_of_elements, elem_of_list_to_set, elem_of_map.
  split; [intros ([n t'] & Hin & <-); apply elem_of_map_to_list in Hin; by exists n|].
  intros [n Hn]. exists (n, t). by rewrite elem_of_map_to_list.
Qed.

Lemma group_tools r visit t d :
  visits r visit -> d ∈ tg_Tools (group_of r visit t) <->
  exists n h, rg_handlers r !! n = Some h /\ tier_of r n = t /\ d = def_of n h.
Proof.
  intros Hv. simpl. rewrite merge_sort_Permutation, elem_of_map. split.
  - intros ([n h] & [Hin Ht]%elem_of_whereb & <-). simpl in Ht. apply Z.eqb_eq in Ht.
    apply (visit_elem r visit n h Hv) in Hin. eauto.
  - intros (n & h & Hh & Ht & ->). exists (n, h). split; [|done]. apply elem_of_whereb.
    split; [by apply (visit_elem r visit n h Hv)|]. by apply Z.eqb_eq.
Qed.

Lemma register_ok h tier kws mode cs r r' :
  registerFull h tier kws mode cs r = Some r' -> registry_ok r ->
  (forall n h', rg_handlers r !! n = Some h' -> td_Name (def_of n h') <> td_Name (def_of (Name h) h)) ->
  registry_ok r'.
Proof.
  unfold registerFull. destruct (rg_handlers r !! Name h) eqn:E; [done|]. intros [= <-] [Ht Hn Hd] Hfresh.
  split; simpl.
  - intros n. rewrite !lookup_insert_is_Some', Ht. tauto.
  - intros n h'. rewrite lookup_insert_Some. intros [[<- <-]|[_ Hh]]; [done|by apply Hn].
  - intros n1 n2 h1 h2. rewrite !lookup_insert_Some.
    intros [[<- <-]|[Hx H1]] [[<- <-]|[Hy H2]] Heq; [done| | |by eapply Hd].
    + by destruct (Hfresh n2 h2 H2).
    + by destruct (Hfresh n1 h1 H1).
Qed.

(** Registration. Registering a handler panics exactly when its name is taken.
    Otherwise [Get] returns it and [GetMeta] the declared tier, keywords, mode and
    content source, with destination external exactly for a declared source that is
    none of the internal ones; every other name reads as before. *)
Theorem register_lookup h tier kws mode cs r :
  mode <> "" -> rg_contentSources r !! Name h = None ->
  (registerFull h tier kws mode cs r = None <-> is_Some (Get r (Name h))) /\
  forall r', registerFull h tier kws mode cs r = Some r' ->
    Get r' (Name h) = Some h /\
    GetMeta r' (Name h) =
      Some {| tm_ExecMode := mode; tm_Tier := tier; tm_Keywords := kws; tm_ContentSource := cs;
              tm_Destination := if decide (cs ∈ [""; "tool-result"; "self"; "operator"])
                                then "internal" else "external" |} /\
    forall n, n <> Name h -> Get r' n = Get r n /\ GetMeta r' n = GetMeta r n.
Proof using Name.
  intros Hmode Hcs. unfold registerFull, Get. destruct (rg_handlers r !! Name h) as [h0|] eqn:E.
  - split; [|done]. split; [by eexists|done].
  - split; [split; [done|by intros [? ?]]|]. intros r' [= <-]. simpl. rewrite lookup_insert_eq.
    split; [done|]. split.
    + unfold GetMeta. simpl. rewrite !lookup_insert_eq. simpl.
      assert (default "" ((if str_empty cs then rg_contentSources r
                           else <[Name h:=cs]> (rg_contentSources r)) !! Name h) = cs) as ->.
      { destruct (str_empty cs) eqn:Ec; [|by rewrite lookup_insert_eq].
        rewrite Hcs. by apply str_empty_true in Ec as ->. }
      assert (str_or mode ExecParallel = mode) as ->.
      { unfold str_or. destruct (str_empty mode) eqn:Em; [|done]. by apply str_empty_true in Em. }
      f_equal. f_equal. destruct (decide _) as [Hin|Hnot].
      * elem_cases Hin; done.
      * destruct (str_empty cs) eqn:Ec; [apply str_empty_true in Ec as ->; exfalso; apply Hnot; left|].
        destruct (existsb (String.eqb cs) ["tool-result"; "self"; "operator"]) eqn:Eo;
          [|cbn [existsb] in Eo; by rewrite ?orb_false_l, Eo].
        apply one_of_elem in Eo. exfalso. apply Hnot. right. exact Eo.
    + intros n Hn. rewrite lookup_insert_ne by done. split; [done|]. unfold GetMeta. simpl.
      rewrite !lookup_insert_ne by done.
      assert ((if str_empty cs then rg_contentSources r
               else <[Name h:=cs]> (rg_contentSources r)) !! n = rg_contentSources r !! n) as ->; [|done].
      destruct (str_empty cs); [done|]. by rewrite lookup_insert_ne.
Qed.

(** Tool visibility. Whatever order Go visits the handler map in, the listing is
    the same; and the tools offered to the model are exactly the registered tier-1
    tools and, when their group is activated, the tier-2 tools: a tier-3 tool is
    never offered. *)
Theorem BuildToolList_exact r v1 v2 activated d :
  registry_ok r -> visits r v1 -> visits r v2 ->
  List_ v1 r = List_ v2 r /\
  (d ∈ BuildToolList (List_ v1 r) activated <->
   exists n h, rg_handlers r !! n = Some h /\ d = def_of n h /\
     (tier_of r n = 1 \/ (tier_of r n = 2 /\ "extended" ∈ activated))).
Proof.
  intros Hok H1 H2. split.
  { unfold List_. apply map_ext. intros t. by apply group_visit_order. }
  unfold BuildToolList. rewrite list_elem_of_In, in_concat.
  setoid_rewrite <- list_elem_of_In. setoid_rewrite elem_of_map. split.
  - intros (tools & (g & Hg & <-) & Hd). unfold List_ in Hg. apply elem_of_map in Hg as (t & Ht & <-).
    destruct (_ || _) eqn:Eb; [|by apply elem_of_nil in Hd].
    apply (group_tools r v1 t d H1) in Hd as (n & h & Hh & Htier & ->).
    exists n, h. split; [done|]. split; [done|]. apply orb_true_iff in Eb as [Eb|Eb]; bools; simpl in *.
    + left. congruence.
    + right. assert (t = 2) as -> by done. split; [done|]. by apply one_of_elem.
  - intros (n & h & Hh & -> & Htier).
    destruct (proj2 (ro_tiers r Hok n)) as [t Ht]; [by eexists|].
    assert (Htn : tier_of r n = t) by (unfold tier_of; by rewrite Ht).
    exists (tg_Tools (group_of r v1 t)). split.
    + exists (group_of r v1 t). split; [apply elem_of_map; exists t; split; [|done]; apply tiers_in_elem; eauto|].
      simpl tg_Tier. simpl tg_Name. rewrite Htn in Htier. destruct Htier as [->|[-> Hact]]; [done|].
      apply one_of_elem in Hact.
      change (tierName 2) with "extended". by rewrite Hact.
    + apply (group_tools r v1 t _ H1). eauto.
Qed.
End Registry.

(** ** Witnesses: a handler is its name; none is a [Definer] *)

Definition or_same (r : DefaultRegistry (H := string)) (o : option DefaultRegistry) : DefaultRegistry :=
  default r o.
Definition registry_1 : DefaultRegistry := or_same NewDefaultRegistry (Register id "bash" NewDefaultRegistry).
Definition registry_2 : DefaultRegistry :=
  or_same registry_1 (RegisterExternal id "browse_web" 2 ["web"] "browser-content" registry_1).
Definition demo_registry : DefaultRegistry :=
  or_same registry_2 (RegisterWithMeta id "advisor" 3 [] registry_2).

Lemma register_lookup_witness :
  registerFull id "bash" 1 [] ExecParallel "" demo_registry = None.
Proof.
  apply (register_lookup id "bash" 1 [] ExecParallel "" demo_registry);
    [discriminate|reflexivity|]. eexists. reflexivity.
Defined.

Lemma demo_registry_ok : registry_ok id (fun _ => None) demo_registry.
Proof.
  assert (Hfresh : forall (r : DefaultRegistry) h, registry_ok id (fun _ => None) r ->
    rg_handlers r !! id h = None -> forall n h', rg_handlers r !! n = Some h' ->
    td_Name (def_of (fun _ : string => None) n h') <> td_Name (def_of (fun _ => None) (id h) h)).
  { intros r h Hr Hn n h' Hh Heq. simpl in Heq. subst n. unfold id in *. congruence. }
  assert (H0 : registry_ok id (fun _ => None) (NewDefaultRegistry (H := string))).
  { split; try done. intros n. split; intros [x Hx]; simpl in Hx; discriminate Hx. }
  assert (H1 : registry_ok id (fun _ => None) registry_1).
  { apply (register_ok id (fun _ => None) "bash" 1 [] ExecParallel "" NewDefaultRegistry);
      [reflexivity|exact H0|by apply Hfresh]. }
  assert (H2 : registry_ok id (fun _ => None) registry_2).
  { apply (register_ok id (fun _ => None) "browse_web" 2 ["web"] ExecParallel "browser-content" registry_1);
      [reflexivity|exact H1|by apply Hfresh]. }
  apply (register_ok id (fun _ => None) "advisor" 3 [] ExecParallel "" registry_2);
    [reflexivity|exact H2|by apply Hfresh].
Qed.

Lemma BuildToolList_exact_witness :
  let v := map_to_list (rg_handlers demo_registry) in
  BuildToolList (List_ (fun _ => None) v demo_registry) []
  = [{| td_Name := "bash"; td_Description := "" |}] /\
  List_ (fun _ => None) v demo_registry = List_ (fun _ => None) (reverse v) demo_registry.
Proof.
  cbv zeta. split; [vm_compute; reflexivity|].
  refine (proj1 (BuildToolList_exact id (fun _ => None) demo_registry _ _ []
    {| td_Name := "bash"; td_Description := "" |} demo_registry_ok _ _)).
  - unfold visits; reflexivity.
  - unfold visits. apply reverse_Permutation.
Defined.
