(* ===== verification/Engine.v ===== *)
(** * The agentic loop: [internal/engine/engine.go], [hooks.go] and the T2 logger of
    [hooks_phase3.go]

    The world [W] is whatever the model client, the tools, the hooks and the gateway
    act on; each of them is an argument, a function on that world. Events and logging
    are not modelled. A batch that runs in parallel runs in some order: the order is an
    argument, and a call is atomic in it. A channel is its non-blocking receive; the loop
    that empties the steering channel has a fuel of its own, since nothing in the code
    bounds it. *)

From S2P Require Import Prelude Types.
From S2P Require Aegis.

Definition maxToolIterationsDefault : Z := 25.
Definition toolTimeoutDefault : Z := 2 * minute.
Definition maxSteeringDrain : nat := 16.
Definition maxArguments : Z := 1048576.

(** ** Hooks *)

Record TurnResult := {
  tn_SessionID : string; tn_TurnNumber : Z; tn_Content : string; tn_ToolCalls : list string;
  tn_ToolResults : list ToolResult; tn_PromptTokens : Z; tn_CompletionTokens : Z;
  tn_ThinkingTokens : Z; tn_TTFT : Z; tn_TotalDuration : Z }.

Section Hooks.
Context {W : Type}.

Record hookEntry := { he_run : TurnResult -> M W unit; he_critical : bool }.
Definition HookPipeline := list hookEntry.

Definition Register (h : TurnResult -> M W unit) (p : HookPipeline) : HookPipeline :=
  p ++ [{| he_run := h; he_critical := false |}].
Definition RegisterCritical (h : TurnResult -> M W unit) (p : HookPipeline) : HookPipeline :=
  p ++ [{| he_run := h; he_critical := true |}].

Fixpoint RunAll (p : HookPipeline) (turn : TurnResult) : M W unit :=
  match p with
  | [] => ret tt
  | entry :: rest =>
      try! r := he_run entry turn in
      match r with
      | Err e => if he_critical entry then fail e else RunAll rest turn
      | Ok _ => RunAll rest turn
      end
  end.

(** [T2LoggerHook.Run]; [append] is [store.AppendExperiential], [now] the clock. *)
Variable append : ExperientialLog -> M W unit.

Definition t2_entry (id : string) (turn : TurnResult) (content source : string) : ExperientialLog :=
  {| el_ID := id; el_SessionID := tn_SessionID turn; el_Content := content;
     el_ContentSource := source; el_CreatedAt := time_zero; el_AegisAnnotation := None |}.
Definition t2_id (turn : TurnResult) (now : Z) (suffix : string) : string :=
  "t2-" +:+ tn_SessionID turn +:+ "-" +:+ fmt_d (tn_TurnNumber turn) +:+ "-" +:+ fmt_d now
  +:+ "-" +:+ suffix.

Fixpoint log_results (turn : TurnResult) (now : Z) (i : nat) (rs : list ToolResult) : M W unit :=
  match rs with
  | [] => ret tt
  | r :: rest =>
      if str_empty (tr_Content r) then log_results turn now (S i) rest
      else
        let! _ := wrapM ("tier2-logger: tool-result append failed (turn " +:+ fmt_d (tn_TurnNumber turn)
                         +:+ ", call " +:+ tr_CallID r +:+ ")")
          (append (t2_entry (t2_id turn now ("tool" +:+ fmt_d (Z.of_nat i))) turn (tr_Content r)
                     (str_or (tr_ContentSource r) ContentSourceToolResult))) in
        log_results turn now (S i) rest
  end.

Definition T2LoggerHook_Run (now : Z) (turn : TurnResult) : M W unit :=
  let! _ :=
    if str_empty (tn_Content turn) then ret tt
    else wrapM ("tier2-logger: self-content append failed (turn " +:+ fmt_d (tn_TurnNumber turn) +:+ ")")
           (append (t2_entry (t2_id turn now "self") turn (tn_Content turn) ContentSourceSelf)) in
  log_results turn now 0 (tn_ToolResults turn).
End Hooks.
Arguments HookPipeline W : clear implicits.

(** ** Engine configuration *)

Record HookResult := { hr_Block : bool; hr_Reason : string }.

Section Engine.
Context {W Args : Type}.

Inductive ToolHandler :=
  | HandlerV1 (Execute : Args -> M W string)
  | HandlerV2 (ExecuteV2 : Args -> M W (option ToolResult)).

(** What the engine asks of [pkg.ToolRegistry]. *)
Record ToolRegistry := {
  reg_Get : string -> option ToolHandler;
  reg_GetMeta : string -> option ToolMeta;
  reg_List : list ToolGroup }.

Record ContentGateway := {
  gw_ProcessInbound : string -> string -> string -> M W AnnotatedContent;
  gw_ReviewOutbound : string -> M W OutboundReport }.

(** A channel is its receive inside a [select] with a [default]: the message received,
    or [None] when nothing is ready and [default] runs. A closed channel is always ready
    and yields the zero message. *)
Record Channel := { ch_recv : W -> W * option Message }.

Record EngineConfig := {
  cfg_MaxIterations : Z; cfg_ParallelTools : bool; cfg_ToolTimeout : Z;
  cfg_DryRun : bool; cfg_Rehearsal : bool;
  cfg_BeforeToolCall : option (ToolCall -> Args -> M W (option HookResult));
  cfg_AfterToolCall : option (ToolCall -> ToolResult -> M W (option ToolResult));
  cfg_ShouldStop : option (CompletionResponse -> list ToolResult -> W -> bool);
  cfg_SteeringChan : option Channel; cfg_FollowUpChan : option Channel;
  cfg_TransformContext : option (string -> list Message -> M W (string * list Message)) }.

Record LoopResult := {
  lr_FinalResponse : option CompletionResponse; lr_History : list Message;
  lr_Iterations : Z; lr_Terminated : bool }.

Record EngineT := {
  en_client : CompletionRequest -> M W CompletionResponse;
  en_registry : ToolRegistry;
  en_hooks : option (HookPipeline W);
  en_aegis : option ContentGateway;
  en_sessionID : string }.

(** [encoding/json] on tool arguments ([None]: JSON null, a nil map), the empty map,
    the deadline of the tool's context, [time.Duration.String] and [%v] on a list. *)
Variable json_Unmarshal : string -> result (option Args).
Variable json_Marshal : Args -> result string.
Variable empty_args : Args.
Variable deadline_exceeded : W -> bool.
Variable fmt_duration : Z -> string.
Variable fmt_list : list string -> string.
Variable blocked_json : BlockedOutbound -> string.

(** ** The gateway in the hook slots *)

Definition block (reason : string) : option HookResult := Some {| hr_Block := true; hr_Reason := reason |}.

Definition aegis_before (gw : ContentGateway) (tc : ToolCall) (args : Args)
    : M W (option HookResult) :=
  match json_Marshal args with
  | Err e => ret (block ("aegis: failed to marshal args: " +:+ error_Error e))
  | Ok argsJSON =>
      try! annotated := gw_ProcessInbound gw argsJSON (tc_Name tc) "tool_args" in
      match annotated with
      | Err e => ret (block ("aegis: inbound scan error: " +:+ error_Error e))
      | Ok ac =>
          let a := ac_Annotation ac in
          if aa_ScanPassed a then ret None
          else ret (block ("aegis: inbound scan failed — flags: " +:+ fmt_list (aa_Flags a) +:+
                           ", trust: " +:+ fmt_2f (aa_TrustScore a)))
      end
  end.

Definition with_content (r : ToolResult) (content : string) (isError : bool) : ToolResult :=
  {| tr_CallID := tr_CallID r; tr_Content := content; tr_IsError := isError;
     tr_Terminate := tr_Terminate r; tr_ContentSource := tr_ContentSource r |}.

Definition aegis_after (gw : ContentGateway) (tc : ToolCall) (result_ : ToolResult)
    : M W (option ToolResult) :=
  try! reviewed := gw_ReviewOutbound gw (tr_Content result_) in
  match reviewed with
  | Err _ => ret None
  | Ok report =>
      if or_Clean report then ret None
      else if String.eqb (tc_Destination tc) "external" && String.eqb (or_Severity report) "critical" then
        let blocked := {| bo_ToolName := tc_Name tc; bo_CallID := tc_ID tc;
                          bo_Destination := tc_Destination tc; bo_Severity := or_Severity report;
                          bo_Findings := or_Findings report;
                          bo_Reason := "aegis: critical outbound findings blocked for external tool "
                                       +:+ tc_Name tc |} in
        ret (Some (with_content result_
          ("[BLOCKED: outbound content blocked by Aegis]" +:+ newline +:+ blocked_json blocked) true))
      else
        ret (Some (with_content result_
          ("[aegis: outbound findings (" +:+ or_Severity report +:+ "): " +:+
           fmt_list (or_Findings report) +:+ "]" +:+ newline +:+ tr_Content result_)
          (tr_IsError result_)))
  end.

(** The defaults and the auto-wiring at the head of [RunLoop]. *)
Definition wire (e : EngineT) (cfg : EngineConfig) : EngineConfig :=
  {| cfg_MaxIterations := if cfg_MaxIterations cfg <=? 0 then maxToolIterationsDefault
                          else cfg_MaxIterations cfg;
     cfg_ParallelTools := cfg_ParallelTools cfg;
     cfg_ToolTimeout := if cfg_ToolTimeout cfg <=? 0 then toolTimeoutDefault else cfg_ToolTimeout cfg;
     cfg_DryRun := cfg_DryRun cfg; cfg_Rehearsal := cfg_Rehearsal cfg;
     cfg_BeforeToolCall :=
       match cfg_BeforeToolCall cfg, en_aegis e with
       | Some f, _ => Some f | None, Some gw => Some (aegis_before gw) | None, None => None end;
     cfg_AfterToolCall :=
       match cfg_AfterToolCall cfg, en_aegis e with
       | Some f, _ => Some f | None, Some gw => Some (aegis_after gw) | None, None => None end;
     cfg_ShouldStop := cfg_ShouldStop cfg;
     cfg_SteeringChan := cfg_SteeringChan cfg; cfg_FollowUpChan := cfg_FollowUpChan cfg;
     cfg_TransformContext := cfg_TransformContext cfg |}.

(** ** One tool call *)

Definition availableToolNames (reg : ToolRegistry) : string :=
  str_join (concat (map (fun g => map td_Name (tg_Tools g)) (reg_List reg))) ", ".

Definition error_result (tc : ToolCall) (content : string) : ToolResult :=
  {| tr_CallID := tc_ID tc; tr_Content := content; tr_IsError := true; tr_Terminate := false;
     tr_ContentSource := "" |}.
Definition plain_result (tc : ToolCall) (content : string) : ToolResult :=
  {| tr_CallID := tc_ID tc; tr_Content := content; tr_IsError := false; tr_Terminate := false;
     tr_ContentSource := "" |}.

Definition with_destination (reg : ToolRegistry) (tc : ToolCall) : ToolCall :=
  if str_empty (tc_Destination tc) then
    {| tc_ID := tc_ID tc; tc_Name := tc_Name tc; tc_Arguments := tc_Arguments tc;
       tc_Destination := match reg_GetMeta reg (tc_Name tc) with
                         | Some m => str_or (tm_Destination m) "internal"
                         | None => "internal" end |}
  else tc.

Definition parse_args (tc : ToolCall) : result Args :=
  if str_empty (tc_Arguments tc) then Ok empty_args
  else if maxArguments <? str_len (tc_Arguments tc)
  then Err (ENew ("Error: arguments for " +:+ fmt_q (tc_Name tc) +:+ " exceed 1MB — rejecting"))
  else match json_Unmarshal (tc_Arguments tc) with
       | Ok (Some a) => Ok a
       | Ok None => Ok empty_args
       | Err e => Err (ENew ("Error: malformed JSON arguments for " +:+ fmt_q (tc_Name tc) +:+ ": "
                             +:+ error_Error e))
       end.

(** What the hook decided: [None] lets the call through. *)
Definition before_hook (cfg : EngineConfig) (tc : ToolCall) (args : Args) : M W (option string) :=
  match cfg_BeforeToolCall cfg with
  | None => ret None
  | Some f =>
      try! r := f tc args in
      match r with
      | Err e => ret (Some ("Error: pre-execution check failed: " +:+ error_Error e))
      | Ok (Some h) => ret (if hr_Block h then Some ("Error: " +:+ hr_Reason h) else None)
      | Ok None => ret None
      end
  end.

(** Execution: the result so far and the handler's error. *)
Definition run_handler (h : ToolHandler) (tc : ToolCall) (args : Args)
    : M W (ToolResult * option error) :=
  match h with
  | HandlerV2 f =>
      try! r := f args in
      ret (match r with
           | Err e => (plain_result tc "", Some e)
           | Ok None => (plain_result tc "", None)
           | Ok (Some v) => ({| tr_CallID := tc_ID tc; tr_Content := tr_Content v;
                                tr_IsError := tr_IsError v; tr_Terminate := tr_Terminate v;
                                tr_ContentSource := tr_ContentSource v |}, None)
           end)
  | HandlerV1 f =>
      try! r := f args in
      ret (match r with
           | Err e => (plain_result tc "", Some e)
           | Ok out => (plain_result tc out, None)
           end)
  end.

Definition with_source (reg : ToolRegistry) (tc : ToolCall) (r : ToolResult) : ToolResult :=
  {| tr_CallID := tr_CallID r; tr_Content := tr_Content r; tr_IsError := tr_IsError r;
     tr_Terminate := tr_Terminate r;
     tr_ContentSource := str_or (tr_ContentSource r)
       (match reg_GetMeta reg (tc_Name tc) with Some m => tm_ContentSource m | None => "" end) |}.

Definition after_hook (cfg : EngineConfig) (tc : ToolCall) (r : ToolResult) : M W ToolResult :=
  match cfg_AfterToolCall cfg with
  | None => ret r
  | Some f =>
      try! m := f tc r in
      ret (match m with
           | Ok (Some r') => {| tr_CallID := tr_CallID r'; tr_Content := tr_Content r';
                                tr_IsError := tr_IsError r'; tr_Terminate := tr_Terminate r;
                                tr_ContentSource := tr_ContentSource r' |}
           | _ => r
           end)
  end.

Definition executeSingleTool (e : EngineT) (cfg : EngineConfig) (tc0 : ToolCall) : M W ToolResult :=
  let reg := en_registry e in
  match reg_Get reg (tc_Name tc0) with
  | None => ret (error_result tc0 ("Error: unknown tool " +:+ fmt_q (tc_Name tc0) +:+ ". Available: "
                                   +:+ availableToolNames reg))
  | Some handler =>
      let tc := with_destination reg tc0 in
      match parse_args tc with
      | Err msg => ret (error_result tc (error_Error msg))
      | Ok args =>
          let! blocked := before_hook cfg tc args in
          match blocked with
          | Some why => ret (error_result tc why)
          | None =>
              if cfg_DryRun cfg then ret (plain_result tc ("[dry-run] " +:+ tc_Name tc +:+ " skipped"))
              else
                let! out := run_handler handler tc args in
                let r := with_source reg tc out.1 in
                match out.2 with
                | Some err => fun w =>
                    (w, Ok (with_content r
                       (if deadline_exceeded w
                        then "Error: tool " +:+ fmt_q (tc_Name tc) +:+ " timed out after " +:+
                             fmt_duration (cfg_ToolTimeout cfg)
                        else "Error: tool " +:+ fmt_q (tc_Name tc) +:+ " failed: " +:+ error_Error err)
                       true))
                | None => after_hook cfg tc r
                end
          end
      end
  end.

(** ** A batch *)

Definition is_sequential (reg : ToolRegistry) (tc : ToolCall) : bool :=
  match reg_GetMeta reg (tc_Name tc) with
  | Some m => String.eqb (tm_ExecMode m) ExecSequential | None => false end.

Fixpoint run_sequential (e : EngineT) (cfg : EngineConfig) (calls : list ToolCall)
    : M W (list ToolResult) :=
  match calls with
  | [] => ret []
  | tc :: rest =>
      let! r := executeSingleTool e cfg tc in
      if tr_Terminate r then ret [r]
      else let! rs := run_sequential e cfg rest in ret (r :: rs)
  end.

(** The goroutines of a parallel batch in the order [order]; goroutine [i] writes slot [i]. *)
Fixpoint run_parallel (e : EngineT) (cfg : EngineConfig) (calls : list ToolCall) (order : list nat)
    (results : list ToolResult) : M W (list ToolResult) :=
  match order with
  | [] => ret results
  | i :: rest =>
      match calls !! i with
      | None => run_parallel e cfg calls rest results
      | Some tc =>
          let! r := executeSingleTool e cfg tc in
          run_parallel e cfg calls rest (<[i := r]> results)
      end
  end.

Definition zero_result : ToolResult :=
  {| tr_CallID := ""; tr_Content := ""; tr_IsError := false; tr_Terminate := false; tr_ContentSource := "" |}.

(** [schedule n]: the order in which a parallel batch of [n] calls runs. *)
Variable schedule : nat -> list nat.

Definition all_terminate (rs : list ToolResult) : bool :=
  match rs with [] => false | _ => forallb tr_Terminate rs end.

Definition executeToolCalls (e : EngineT) (cfg : EngineConfig) (calls : list ToolCall)
    : M W (list ToolResult * bool) :=
  let forceSequential := existsb (is_sequential (en_registry e)) calls in
  let! results :=
    if cfg_ParallelTools cfg && negb forceSequential && (1 <? Z.of_nat (length calls))
    then run_parallel e cfg calls (schedule (length calls)) (repeat zero_result (length calls))
    else run_sequential e cfg calls in
  ret (results, all_terminate results).

(** ** The loop *)

Definition tool_message (r : ToolResult) : Message :=
  {| msg_Role := "tool"; msg_Content := tr_Content r; msg_Blocks := [];
     msg_ToolCallID := tr_CallID r; msg_IsError := tr_IsError r |}.
Definition truncated_message (tc : ToolCall) : Message :=
  {| msg_Role := "tool";
     msg_Content := "Error: response was truncated. Re-issue your tool call with shorter arguments.";
     msg_Blocks := []; msg_ToolCallID := tc_ID tc; msg_IsError := true |}.
Definition assistant_message (resp : CompletionResponse) : Message :=
  {| msg_Role := "assistant"; msg_Content := TextContent resp; msg_Blocks := resp_Blocks resp;
     msg_ToolCallID := ""; msg_IsError := false |}.

Definition buildTurnResult (e : EngineT) (turnNumber : Z) (resp : CompletionResponse)
    (results : list ToolResult) : TurnResult :=
  {| tn_SessionID := en_sessionID e; tn_TurnNumber := turnNumber; tn_Content := TextContent resp;
     tn_ToolCalls := map tr_CallID results; tn_ToolResults := results;
     tn_PromptTokens := resp_PromptTokens resp; tn_CompletionTokens := resp_CompletionTokens resp;
     tn_ThinkingTokens := resp_ThinkingTokens resp; tn_TTFT := resp_TTFT resp;
     tn_TotalDuration := resp_TotalLatency resp |}.

Definition zero_message : Message :=
  {| msg_Role := ""; msg_Content := ""; msg_Blocks := []; msg_ToolCallID := ""; msg_IsError := false |}.

(** [for steeringDrained < max { select { case msg := <-ch: ... default: goto done } }]:
    the accepted messages; [left] more are wanted. A message of another role is dropped
    and does not count. [None] only if [fuel] receives are not enough. *)
Fixpoint drain_steering (fuel left : nat) (ch : Channel) (w : W) : option (W * list Message) :=
  match left with
  | O => Some (w, [])
  | S l =>
      match fuel with
      | O => None
      | S f =>
          match ch_recv ch w with
          | (w1, None) => Some (w1, [])
          | (w1, Some m) =>
              if String.eqb (msg_Role m) "user"
              then match drain_steering f l ch w1 with
                   | Some (w2, acc) => Some (w2, m :: acc) | None => None end
              else drain_steering f left ch w1
          end
      end
  end.

(** The follow-up channel, looked at when no steering message was accepted. *)
Definition follow_up (cfg : EngineConfig) (w : W) : W * list Message :=
  match cfg_FollowUpChan cfg with
  | None => (w, [])
  | Some ch =>
      match ch_recv ch w with
      | (w1, Some m) => (w1, if String.eqb (msg_Role m) "user" then [m] else [])
      | (w1, None) => (w1, [])
      end
  end.

(** Both channels; [None]: the steering loop has not come to its end. *)
Definition drain_channels (drain_fuel : nat) (cfg : EngineConfig) (w : W)
    : option (W * list Message) :=
  match (match cfg_SteeringChan cfg with
         | None => Some (w, [])
         | Some ch => drain_steering drain_fuel maxSteeringDrain ch w
         end) with
  | None => None
  | Some (w1, []) => Some (follow_up cfg w1)
  | Some (w1, steering) => Some (w1, steering)
  end.

Definition run_hooks (e : EngineT) (msg : string) (turn : TurnResult) : M W unit :=
  match en_hooks e with None => ret tt | Some p => wrapM msg (RunAll p turn) end.

Inductive iteration_outcome :=
  | Next (system : string) (history : list Message)
  | Return (r : LoopResult)
  | Draining.

Definition transform (cfg : EngineConfig) (iterations : Z) (system : string) (history : list Message)
    : M W (string * list Message) :=
  match cfg_TransformContext cfg with
  | Some f =>
      if 1 <? iterations then
        try! r := f system history in
        ret (match r with
             | Ok (newSystem, newHistory) =>
                 if str_empty newSystem then (system, history) else (newSystem, newHistory)
             | Err _ => (system, history)
             end)
      else ret (system, history)
  | None => ret (system, history)
  end.

Definition loop_result (resp : CompletionResponse) (history : list Message) (iterations : Z)
    (terminated : bool) : LoopResult :=
  {| lr_FinalResponse := Some resp; lr_History := history; lr_Iterations := iterations;
     lr_Terminated := terminated |}.

(** The body of the [for], for the iteration numbered [iterations]. [Draining]: it is
    still in the steering loop after [drain_fuel] receives. *)
Definition iteration (drain_fuel : nat) (e : EngineT) (req : CompletionRequest) (cfg : EngineConfig) (iterations : Z)
    (system0 : string) (history0 : list Message) : M W iteration_outcome :=
  let! ctx := transform cfg iterations system0 history0 in
  let '(system, history) := ctx in
  let! resp := wrapM ("engine: iteration " +:+ fmt_d iterations)
    (en_client e {| cr_System := system; cr_Messages := history; cr_Tools := cr_Tools req;
                    cr_MaxTokens := cr_MaxTokens req; cr_Temperature := cr_Temperature req |}) in
  let history := history ++ [assistant_message resp] in
  let toolCalls := ToolCallBlocks resp in
  match toolCalls with
  | [] =>
      let! _ := run_hooks e "engine: critical hook error on final turn"
                  (buildTurnResult e iterations resp []) in
      ret (Return (loop_result resp history iterations false))
  | _ =>
      if String.eqb (resp_FinishReason resp) "length" then
        let history := history ++ map truncated_message toolCalls in
        if cfg_MaxIterations cfg <=? iterations
        then ret (Return (loop_result resp history iterations false))
        else ret (Next system history)
      else
        let! batch := executeToolCalls e cfg toolCalls in
        let '(results, terminated) := batch in
        let history := history ++ map tool_message results in
        let! _ := run_hooks e ("engine: critical hook error (iteration " +:+ fmt_d iterations +:+ ")")
                    (buildTurnResult e iterations resp results) in
        if (terminated : bool) then ret (Return (loop_result resp history iterations true))
        else
          fun w =>
            match drain_channels drain_fuel cfg w with
            | None => (w, Ok Draining)
            | Some (w, injected) =>
                let history := history ++ injected in
                let stop := match cfg_ShouldStop cfg with Some f => f resp results w | None => false end in
                if stop || (cfg_MaxIterations cfg <=? iterations)
                then (w, Ok (Return (loop_result resp history iterations false)))
                else (w, Ok (Next system history))
            end
  end.

(** The loop; [None] only if [fuel] iterations, or [drain_fuel] receives in one of
    them, are not enough. *)
Fixpoint loop (drain_fuel fuel : nat) (e : EngineT) (req : CompletionRequest) (cfg : EngineConfig)
    (iterations : Z) (system : string) (history : list Message) : W -> option (W * result LoopResult) :=
  match fuel with
  | O => fun _ => None
  | S f => fun w =>
      match iteration drain_fuel e req cfg (iterations + 1) system history w with
      | (w', Err err) => Some (w', Err err)
      | (w', Ok (Return r)) => Some (w', Ok r)
      | (w', Ok (Next system' history')) => loop drain_fuel f e req cfg (iterations + 1) system' history' w'
      | (_, Ok Draining) => None
      end
  end.

Definition RunLoop (drain_fuel : nat) (e : EngineT) (req : CompletionRequest) (cfg0 : EngineConfig)
    : W -> option (W * result LoopResult) :=
  if cfg_Rehearsal cfg0 then
    fun w => Some (w, Ok {| lr_FinalResponse := None; lr_History := []; lr_Iterations := 0;
                            lr_Terminated := false |})
  else
    let cfg := wire e cfg0 in
    loop drain_fuel (Z.to_nat (cfg_MaxIterations cfg)) e req cfg 0 (cr_System req) (cr_Messages req).

(** ** Properties *)

(** A tool call always yields a result. *)
Lemma before_hook_total cfg tc args w :
  exists w1 o, before_hook cfg tc args w = (w1, Ok o).
Proof.
  unfold before_hook, attempt, ret. destruct (cfg_BeforeToolCall cfg) as [f|]; [|eauto].
  destruct (f tc args w) as [w1 [[h|]|e]]; eauto.
Qed.

Lemma run_handler_total h tc args w :
  exists w1 r o, run_handler h tc args w = (w1, Ok (r, o)) /\ tr_CallID r = tc_ID tc /\
    (o <> None -> tr_Terminate r = false).
Proof.
  unfold run_handler, attempt, ret. destruct h as [f|f]; destruct (f args w) as [w1 [a|e]];
    try (destruct a as [v|]); do 3 eexists; (split; [reflexivity|]); by split.
Qed.

(** A hook that leaves the call ID of the results it rewrites alone. *)
Definition keeps_ids (cfg : EngineConfig) : Prop :=
  forall f, cfg_AfterToolCall cfg = Some f ->
  forall tc r w w' r', f tc r w = (w', Ok (Some r')) -> tr_CallID r' = tr_CallID r.

Lemma executeSingleTool_total e cfg tc w :
  exists w' r, executeSingleTool e cfg tc w = (w', Ok r) /\ (keeps_ids cfg -> tr_CallID r = tc_ID tc).
Proof.
  unfold executeSingleTool. destruct (reg_Get _ _) as [h|]; [|by do 2 eexists].
  assert (Hid : tc_ID (with_destination (en_registry e) tc) = tc_ID tc).
  { unfold with_destination. by destruct (str_empty _). }
  set (tc' := with_destination (en_registry e) tc) in *.
  destruct (parse_args tc') as [args|err]; [|do 2 eexists; split; [reflexivity|by intros _]].
  unfold bind at 1. destruct (before_hook_total cfg tc' args w) as (w1 & o & ->).
  destruct o as [why|]; [do 2 eexists; split; [reflexivity|by intros _]|].
  destruct (cfg_DryRun cfg); [do 2 eexists; split; [reflexivity|by intros _]|].
  unfold bind. destruct (run_handler_total h tc' args w1) as (w2 & r & o & -> & Hr & _). cbn [fst snd].
  destruct o as [err|]; [do 2 eexists; split; [reflexivity|intros _; cbn; congruence]|].
  unfold after_hook, attempt, ret. destruct (cfg_AfterToolCall cfg) as [f|] eqn:Ef;
    [|do 2 eexists; split; [reflexivity|intros _; cbn; congruence]].
  destruct (f tc' _ w2) as [w3 [[r'|]|err]] eqn:Er;
    do 2 eexists; (split; [reflexivity|]); intros Hk; cbn; [|congruence|congruence].
  rewrite (Hk f Ef _ _ _ _ _ Er). cbn. congruence.
Qed.

(** What a batch answers: one result per call, in the calls' order. *)
Definition answers (calls : list ToolCall) (rs : list ToolResult) : Prop :=
  Forall2 (fun tc r => tr_CallID r = tc_ID tc) calls rs.

Lemma run_sequential_prefix e cfg calls w :
  keeps_ids cfg -> exists w' rs k, run_sequential e cfg calls w = (w', Ok rs) /\
    answers (take k calls) rs /\ (k = 0%nat -> calls = []) /\
    (k = length calls \/ exists r, last rs = Some r /\ tr_Terminate r = true).
Proof.
  intros Hk. revert w. induction calls as [|tc calls IH]; intros w.
  - exists w, [], 0%nat. split; [done|]. split; [constructor|]. split; [done|by left].
  - cbn [run_sequential]. unfold bind at 1.
    destruct (executeSingleTool_total e cfg tc w) as (w1 & r & -> & Hr).
    destruct (tr_Terminate r) eqn:Et.
    + exists w1, [r], 1%nat. split; [done|]. split; [constructor; [auto|constructor]|].
      split; [done|]. right. by exists r.
    + unfold bind. destruct (IH w1) as (w2 & rs & k & -> & HF & _ & Hlast).
      exists w2, (r :: rs), (S k). split; [done|]. split; [constructor; [auto|done]|]. split; [done|].
      destruct Hlast as [->|(r' & Hl & Ht)]; [by left|]. right. exists r'. split; [|done].
      destruct rs; [done|exact Hl].
Qed.

Lemma run_parallel_slots e cfg calls order results w :
  keeps_ids cfg -> length results = length calls -> NoDup order ->
  exists w' rs, run_parallel e cfg calls order results w = (w', Ok rs) /\ length rs = length calls /\
    forall i tc, calls !! i = Some tc ->
      (i ∈ order -> exists r, rs !! i = Some r /\ tr_CallID r = tc_ID tc) /\
      (i ∉ order -> rs !! i = results !! i).
Proof.
  intros Hk. revert results w. induction order as [|j order IH]; intros results w Hlen Hnd.
  - exists w, results. split; [done|]. split; [done|]. intros i tc Hi. split; [set_solver|done].
  - apply NoDup_cons in Hnd as [Hj Hnd]. cbn [run_parallel]. destruct (calls !! j) as [tcj|] eqn:Ej.
    + unfold bind. destruct (executeSingleTool_total e cfg tcj w) as (w1 & r & -> & Hr).
      destruct (IH (<[j:=r]> results) w1) as (w2 & rs & -> & Hl & Hs);
        [by rewrite length_insert|done|].
      exists w2, rs. split; [done|]. split; [done|]. intros i tc Hi.
      destruct (Hs i tc Hi) as [Hin Hout]. destruct (decide (i = j)) as [->|Hne].
      * split; [|set_solver]. intros _. exists r. rewrite Hout by done.
        rewrite list_lookup_insert_eq; [|rewrite Hlen; by eapply lookup_lt_Some].
        split; [done|]. rewrite Ej in Hi. simplify_eq. auto.
      * split; [set_solver|]. intros Hni. rewrite Hout by set_solver.
        by rewrite list_lookup_insert_ne.
    + destruct (IH results w Hlen Hnd) as (w2 & rs & -> & Hl & Hs). exists w2, rs.
      split; [done|]. split; [done|]. intros i tc Hi. destruct (Hs i tc Hi) as [Hin Hout].
      assert (i <> j) by congruence. split; [set_solver|]. intros Hni. apply Hout. set_solver.
Qed.

Context (schedule_perm : forall n, schedule n ≡ₚ seq 0 n).

Lemma executeToolCalls_answers e cfg calls w :
  keeps_ids cfg -> exists w' rs k,
    executeToolCalls e cfg calls w = (w', Ok (rs, all_terminate rs)) /\
    answers (take k calls) rs /\ (k = 0%nat -> calls = []) /\
    (k = length calls \/
     (~ (cfg_ParallelTools cfg = true /\ existsb (is_sequential (en_registry e)) calls = false /\
         (1 < length calls)%nat) /\ exists r, last rs = Some r /\ tr_Terminate r = true)).
Proof.
  intros Hk. unfold executeToolCalls, bind.
  destruct (cfg_ParallelTools cfg && negb (existsb (is_sequential (en_registry e)) calls)
            && (1 <? Z.of_nat (length calls))) eqn:Ep.
  - destruct (run_parallel_slots e cfg calls (schedule (length calls)) (repeat zero_result (length calls)) w)
      as (w1 & rs & -> & Hl & Hs); [done|by rewrite repeat_length| |].
    { rewrite schedule_perm. apply NoDup_seq. }
    exists w1, rs, (length calls). split; [done|]. split; [|split; [apply length_zero_iff_nil|by left]].
    rewrite firstn_all. apply Forall2_same_length_lookup_2; [done|]. intros i tc r Hi Hr.
    destruct (Hs i tc Hi) as [Hin _]. destruct Hin as (r' & Hr' & Hid); [|congruence].
    rewrite schedule_perm. apply elem_of_seq. apply lookup_lt_Some in Hi. lia.
  - destruct (run_sequential_prefix e cfg calls w Hk) as (w1 & rs & k & -> & HF & Hk0 & Hlast).
    exists w1, rs, k. split; [done|]. split; [done|]. split; [done|].
    destruct Hlast as [->|Hlast]; [by left|right]. split; [|done].
    intros (H1 & H2 & H3). rewrite H1, H2 in Ep. simpl in Ep. lia.
Qed.

(** ** The loop *)

Local Notation from_user m := (msg_Role m = "user").

Lemma drain_steering_users fuel left ch w w' acc :
  drain_steering fuel left ch w = Some (w', acc) -> Forall (fun m => from_user m) acc.
Proof.
  revert left w acc. induction fuel as [|f IH]; intros [|l] w acc E; cbn [drain_steering] in E;
    [by simplify_eq|done|by simplify_eq|].
  destruct (ch_recv ch w) as [w1 [m|]]; [|by simplify_eq].
  destruct (String.eqb (msg_Role m) "user") eqn:Em; [|by eapply IH].
  destruct (drain_steering f l ch w1) as [[w2 acc']|] eqn:E1; simplify_eq.
  constructor; [by bools|by eapply IH].
Qed.

Lemma follow_up_users cfg w : Forall (fun m => from_user m) (follow_up cfg w).2.
Proof.
  unfold follow_up. destruct (cfg_FollowUpChan cfg) as [ch|]; [|constructor].
  destruct (ch_recv ch w) as [w1 [m|]]; [|constructor]. simpl.
  destruct (String.eqb (msg_Role m) "user") eqn:E; repeat constructor. by bools.
Qed.

Lemma drain_channels_users fuel cfg w w' l :
  drain_channels fuel cfg w = Some (w', l) -> Forall (fun m => from_user m) l.
Proof.
  unfold drain_channels. intros E.
  assert (Hf : forall w1, Some (follow_up cfg w1) = Some (w', l) -> Forall (fun m => from_user m) l).
  { intros w1 [= E1]. pose proof (follow_up_users cfg w1) as H. by rewrite E1 in H. }
  destruct (cfg_SteeringChan cfg) as [ch|]; [|by eapply Hf].
  destruct (drain_steering _ _ _ _) as [[w1 [|m acc]]|] eqn:Ed; [by eapply Hf| |done].
  injection E as <- <-. by eapply drain_steering_users.
Qed.

(** The ways an iteration ends without an error. *)
Lemma iteration_cases fuel e req cfg n sys0 h0 w w' out :
  keeps_ids cfg -> iteration fuel e req cfg n sys0 h0 w = (w', Ok out) -> out <> Draining ->
  exists sys h resp, (cfg_TransformContext cfg = None -> sys = sys0 /\ h = h0) /\
  ((ToolCallBlocks resp = [] /\
    out = Return (loop_result resp (h ++ [assistant_message resp]) n false)) \/
   (exists rs k tail, answers (take k (ToolCallBlocks resp)) rs /\ ToolCallBlocks resp <> [] /\ k <> 0%nat /\
      (k = length (ToolCallBlocks resp) \/
       ~ (cfg_ParallelTools cfg = true /\
          existsb (is_sequential (en_registry e)) (ToolCallBlocks resp) = false /\
          (1 < length (ToolCallBlocks resp))%nat)) /\
      Forall (fun m => msg_Role m = "user") tail /\
      let h' := (h ++ [assistant_message resp]) ++ map tool_message rs ++ tail in
      (exists b, out = Return (loop_result resp h' n b)) \/
      (out = Next sys h' /\ n < cfg_MaxIterations cfg)) \/
   (ToolCallBlocks resp <> [] /\
    let h' := (h ++ [assistant_message resp]) ++ map truncated_message (ToolCallBlocks resp) in
    (out = Return (loop_result resp h' n false) \/
     (out = Next sys h' /\ n < cfg_MaxIterations cfg)))).
Proof.
  intros Hk E Hend. unfold iteration in E.
  apply bind_Ok in E as (w1 & [sys h] & Et & E).
  apply bind_Ok in E as (w2 & resp & _ & E). exists sys, h, resp. split.
  { intros Hn. unfold transform in Et. rewrite Hn in Et. unfold ret in Et. by simplify_eq. }
  destruct (ToolCallBlocks resp) as [|c0 calls0] eqn:Ec.
  { left. split; [done|]. apply bind_Ok in E as (w3 & u & _ & E). unfold ret in E. by simplify_eq. }
  set (calls := c0 :: calls0) in *. right.
  destruct (String.eqb (resp_FinishReason resp) "length") eqn:Ef.
  { right. split; [done|]. cbv zeta. destruct (cfg_MaxIterations cfg <=? n) eqn:Em; unfold ret in E; simplify_eq;
      [by left|right]. split; [done|]. by bools. }
  left. apply bind_Ok in E as (w3 & [rs b] & Eb & E).
  destruct (executeToolCalls_answers e cfg calls w2 Hk) as (w4 & rs' & k & Eb' & Ha & Hk0 & Hlen).
  assert (Hkn : k <> 0%nat) by (intros H0; by specialize (Hk0 H0)).
  rewrite Eb' in Eb. injection Eb as <- <- <-.
  apply bind_Ok in E as (w5 & u & _ & E).
  destruct (all_terminate rs').
  { exists rs', k, []. split; [done|]. split; [done|]. split; [done|]. split; [destruct Hlen as [?|[? _]]; auto|].
    split; [constructor|]. left. exists true. unfold ret in E. rewrite app_nil_r. by simplify_eq. }
  destruct (drain_channels fuel cfg w5) as [[w6 inj]|] eqn:Ei; [|by simplify_eq].
  assert (Hinj : Forall (fun m => msg_Role m = "user") inj) by (by eapply drain_channels_users).
  exists rs', k, inj. split; [done|]. split; [done|]. split; [done|]. split; [destruct Hlen as [?|[? _]]; auto|].
  split; [done|]. cbv zeta in E |- *. rewrite <- !app_assoc in *.
  destruct (_ || _) eqn:Eo in E; simplify_eq; [left; by eexists|right].
  split; [done|]. apply orb_false_iff in Eo as [_ Eo]. by bools.
Qed.

Lemma iteration_numbers fuel e req cfg n sys h w w' out :
  iteration fuel e req cfg n sys h w = (w', Ok out) ->
  match out with
  | Return r => lr_Iterations r = n
  | Next _ _ => n < cfg_MaxIterations cfg
  | Draining => True
  end.
Proof.
  intros E. unfold iteration in E. apply bind_Ok in E as (w1 & [sys1 h1] & _ & E).
  apply bind_Ok in E as (w2 & resp & _ & E). destruct (ToolCallBlocks resp) as [|c calls].
  { apply bind_Ok in E as (w3 & u & _ & E). unfold ret in E. by simplify_eq. }
  destruct (String.eqb (resp_FinishReason resp) "length").
  { destruct (cfg_MaxIterations cfg <=? n) eqn:Em; unfold ret in E; simplify_eq; [done|by bools]. }
  apply bind_Ok in E as (w3 & [rs b] & _ & E). apply bind_Ok in E as (w4 & u & _ & E).
  destruct b; [unfold ret in E; by simplify_eq|].
  destruct (drain_channels fuel cfg w4) as [[w5 inj]|]; [|by simplify_eq].
  cbv zeta in E. destruct (_ || _) eqn:Eo in E; simplify_eq; [done|].
  apply orb_false_iff in Eo as [_ Eo]. by bools.
Qed.

(** ** Termination *)

Lemma drain_steering_mono f f' left ch w r :
  (f <= f')%nat -> drain_steering f left ch w = Some r -> drain_steering f' left ch w = Some r.
Proof.
  revert f' left w r. induction f as [|f IH]; intros f' [|l] w r Hle E.
  1,3: by destruct f'.
  - done.
  - destruct f' as [|f']; [lia|]. cbn [drain_steering] in E |- *.
    destruct (ch_recv ch w) as [w1 [m|]]; [|done].
    destruct (String.eqb (msg_Role m) "user"); [|apply IH; [lia|done]].
    destruct (drain_steering f l ch w1) as [[w2 acc]|] eqn:E1; [|done].
    by rewrite (IH f' l w1 (w2, acc) ltac:(lia) E1).
Qed.

(** A channel that comes to have nothing ready, or to have delivered [left] user
    messages, however the loop that reads it goes on. *)
Inductive drains (ch : Channel) : nat -> W -> Prop :=
  | drains_enough w : drains ch 0 w
  | drains_empty l w w1 : ch_recv ch w = (w1, None) -> drains ch (S l) w
  | drains_user l w w1 m :
      ch_recv ch w = (w1, Some m) -> from_user m -> drains ch l w1 -> drains ch (S l) w
  | drains_other l w w1 m :
      ch_recv ch w = (w1, Some m) -> ~ from_user m -> drains ch (S l) w1 -> drains ch (S l) w.

Lemma drains_iff ch left w :
  drains ch left w <-> exists f r, drain_steering f left ch w = Some r.
Proof.
  split.
  - induction 1 as [w|l w w1 E|l w w1 m E Hm _ (f & [w2 acc] & IH)|l w w1 m E Hm _ (f & r & IH)].
    + by exists 0%nat, (w, []).
    + exists 1%nat, (w1, []). cbn [drain_steering]. by rewrite E.
    + exists (S f), (w2, m :: acc). cbn [drain_steering]. by rewrite E, Hm, IH.
    + exists (S f), r. cbn [drain_steering]. rewrite E. by apply String.eqb_neq in Hm as ->.
  - intros (f & r & E). revert left w r E. induction f as [|f IH]; intros [|l] w r E; try constructor; [done|].
    cbn [drain_steering] in E. destruct (ch_recv ch w) as [w1 [m|]] eqn:Er; [|by econstructor].
    destruct (String.eqb (msg_Role m) "user") eqn:Em; bools; [|by eapply drains_other; eauto].
    destruct (drain_steering f l ch w1) as [r1|] eqn:E1; [|done]. eapply drains_user; eauto.
Qed.

Lemma drain_channels_mono f f' cfg w r :
  (f <= f')%nat -> drain_channels f cfg w = Some r -> drain_channels f' cfg w = Some r.
Proof.
  intros Hle. unfold drain_channels. destruct (cfg_SteeringChan cfg) as [ch|]; [|done].
  destruct (drain_steering f _ ch w) as [x|] eqn:E; [|done]. by rewrite (drain_steering_mono _ _ _ _ _ _ Hle E).
Qed.

(** What termination asks of the steering channel. *)
Definition steering_drains (cfg : EngineConfig) : Prop :=
  forall ch, cfg_SteeringChan cfg = Some ch -> forall w, drains ch maxSteeringDrain w.

Lemma drain_channels_ends cfg w :
  steering_drains cfg -> exists f r, drain_channels f cfg w = Some r.
Proof.
  intros Hs. unfold drain_channels. destruct (cfg_SteeringChan cfg) as [ch|] eqn:Ec.
  - destruct (proj1 (drains_iff _ _ _) (Hs ch Ec w)) as (f & [w1 [|m acc]] & E);
      exists f; rewrite E; eauto.
  - exists 0%nat. eauto.
Qed.

Ltac settled_at_once := exists 0%nat; do 2 eexists; split; [|by intros ? _]; discriminate.

(** An iteration that leaves the steering loop does so with any larger fuel. *)
Lemma iteration_settles e req cfg n sys h w :
  steering_drains cfg -> exists f w' r, r <> Ok Draining /\
    forall f', (f <= f')%nat -> iteration f' e req cfg n sys h w = (w', r).
Proof.
  intros Hs. unfold iteration, bind.
  destruct (transform _ _ _ _ w) as [w1 [[sys1 h1]|err]]; [|settled_at_once].
  destruct (wrapM _ _ w1) as [w2 [resp|err]]; [|settled_at_once].
  destruct (ToolCallBlocks resp) as [|c calls].
  { destruct (run_hooks e _ _ w2) as [w3 [u|err]]; settled_at_once. }
  destruct (String.eqb _ "length"); [cbv zeta; destruct (_ <=? n); settled_at_once|].
  destruct (executeToolCalls e cfg _ w2) as [w3 [[rs b]|err]]; [|settled_at_once].
  destruct (run_hooks e _ _ w3) as [w4 [u|err]]; [|settled_at_once].
  destruct b; [settled_at_once|].
  destruct (drain_channels_ends cfg w4 Hs) as (f & [w5 inj] & E). exists f. cbv zeta.
  destruct (match cfg_ShouldStop cfg with Some g => g resp rs w5 | None => false end
            || (cfg_MaxIterations cfg <=? n)) eqn:Eo; do 2 eexists;
    (split; [|intros f' Hle; by rewrite (drain_channels_mono f f' cfg w4 _ Hle E), Eo]); discriminate.
Qed.

Lemma loop_total fuel e req cfg n sys h w :
  steering_drains cfg -> cfg_MaxIterations cfg - n <= Z.of_nat fuel -> n < cfg_MaxIterations cfg ->
  exists k w' r, (forall k', (k <= k')%nat -> loop k' fuel e req cfg n sys h w = Some (w', r)) /\
    forall lr, r = Ok lr -> n < lr_Iterations lr <= cfg_MaxIterations cfg.
Proof.
  intros Hs. revert n sys h w. induction fuel as [|fuel IH]; intros n sys h w Hf Hn; [lia|]. cbn [loop].
  destruct (iteration_settles e req cfg (n + 1) sys h w Hs) as (f & w1 & r & Hend & Hit).
  pose proof (Hit f ltac:(lia)) as E. destruct r as [[s' h'|lr|]|err]; [| |done|].
  - apply iteration_numbers in E. destruct (IH (n + 1) s' h' w1) as (k & w2 & r & Hk & Hr); [lia|lia|].
    exists (f `max` k)%nat, w2, r. split; [|intros lr ->; specialize (Hr lr eq_refl); lia].
    intros k' Hle. rewrite Hit by lia. apply Hk. lia.
  - apply iteration_numbers in E. exists f. do 2 eexists. split.
    + intros k' Hle. by rewrite Hit.
    + intros lr' [= <-]. lia.
  - exists f. do 2 eexists. split; [intros k' Hle; by rewrite Hit|]. by intros ? [=].
Qed.

(** C15: The loop ends when its steering channel drains. Whatever the model, the tools,
    the hooks and the follow-up channel do, if reading the steering channel (when there
    is one) always comes to an empty channel or to the sixteenth user message, [RunLoop]
    returns after at most [MaxIterations] iterations (25 when it is not positive), and a
    successful run reports between one and that many: from some fuel of the drain on,
    the model is never out of fuel. [closed_steering_spins] shows that the condition is
    needed. *)
Theorem RunLoop_terminates e req cfg0 w :
  steering_drains cfg0 ->
  exists drain_fuel w' r,
    (forall k, (drain_fuel <= k)%nat -> RunLoop k e req cfg0 w = Some (w', r)) /\
    forall lr, r = Ok lr ->
      (cfg_Rehearsal cfg0 = true /\ lr_Iterations lr = 0 /\ w' = w) \/
      (cfg_Rehearsal cfg0 = false /\
       1 <= lr_Iterations lr <= (if cfg_MaxIterations cfg0 <=? 0 then 25 else cfg_MaxIterations cfg0)).
Proof.
  intros Hs. unfold RunLoop. destruct (cfg_Rehearsal cfg0).
  - exists 0%nat. do 2 eexists. split; [done|]. intros lr [= <-]. by left.
  - set (cfg := wire e cfg0).
    assert (Hm : cfg_MaxIterations cfg = if cfg_MaxIterations cfg0 <=? 0 then 25 else cfg_MaxIterations cfg0)
      by done.
    assert (Hpos : 0 < cfg_MaxIterations cfg) by (rewrite Hm; destruct (cfg_MaxIterations cfg0 <=? 0) eqn:E0; bools; lia).
    destruct (loop_total (Z.to_nat (cfg_MaxIterations cfg)) e req cfg 0 (cr_System req) (cr_Messages req) w)
      as (k & w' & r & Hk & Hr); [exact Hs|lia|done|].
    exists k, w', r. split; [exact Hk|]. intros lr Hlr. right. split; [done|]. rewrite <- Hm.
    specialize (Hr lr Hlr). lia.
Qed.

(** Without a steering channel the drain needs no fuel. *)
Lemma iteration_unsteered k k' e req cfg n sys h w :
  cfg_SteeringChan cfg = None ->
  iteration k e req cfg n sys h w = iteration k' e req cfg n sys h w.
Proof.
  intros Hc. unfold iteration, bind.
  destruct (transform _ _ _ _ w) as [w1 [[sys1 h1]|err]]; [|done].
  destruct (wrapM _ _ w1) as [w2 [resp|err]]; [|done].
  destruct (ToolCallBlocks resp) as [|c calls]; [done|]. destruct (String.eqb _ "length"); [done|].
  destruct (executeToolCalls e cfg _ w2) as [w3 [[rs b]|err]]; [|done].
  destruct (run_hooks e _ _ w3) as [w4 [u|err]]; [|done]. destruct b; [done|].
  unfold drain_channels. by rewrite Hc.
Qed.

Lemma loop_unsteered k k' fuel e req cfg n sys h w :
  cfg_SteeringChan cfg = None ->
  loop k fuel e req cfg n sys h w = loop k' fuel e req cfg n sys h w.
Proof.
  intros Hc. revert n sys h w. induction fuel as [|fuel IH]; intros n sys h w; [done|]. cbn [loop].
  rewrite (iteration_unsteered k k') by done.
  destruct (iteration _ _ _ _ _ _ _ w) as [w1 [[? ?|?|]|?]]; [apply IH|done..].
Qed.

Lemma RunLoop_unsteered k e req cfg0 w :
  cfg_SteeringChan cfg0 = None -> is_Some (RunLoop k e req cfg0 w).
Proof.
  intros Hc. unfold RunLoop. destruct (cfg_Rehearsal cfg0); [by eexists|].
  set (cfg := wire e cfg0).
  assert (Hpos : 0 < cfg_MaxIterations cfg)
    by (unfold cfg, wire; simpl; destruct (cfg_MaxIterations cfg0 <=? 0) eqn:E0; bools; [done|lia]).
  destruct (loop_total (Z.to_nat (cfg_MaxIterations cfg)) e req cfg 0 (cr_System req) (cr_Messages req) w)
    as (k' & w' & r & Hk & _); [intros ch Hch; unfold cfg, wire in Hch; simpl in Hch; congruence|lia|done|].
  rewrite (loop_unsteered k k') by done. rewrite Hk by done. by eexists.
Qed.

(** A closed channel is always ready, with the zero message. *)
Definition closed (ch : Channel) : Prop := forall w, ch_recv ch w = (w, Some zero_message).

Lemma closed_never_drains ch l w : closed ch -> ~ drains ch (S l) w.
Proof.
  intros Hc Hd. remember (S l) as n eqn:En. induction Hd as [|? ? ? E|? ? ? ? E Hm|? ? ? ? E _ _ IH].
  - done.
  - by rewrite Hc in E.
  - rewrite Hc in E. by injection E as <- <-.
  - rewrite Hc in E. injection E as <- <-. by apply IH.
Qed.

(** A steering channel that somebody closes is never left: the zero message has no role,
    is rejected without counting, and the next receive yields it again. After the first
    batch of tool calls that does not end the session [RunLoop] never returns. *)
Theorem closed_steering_spins fuel e req cfg0 ch w w1 w2 w3 resp rs :
  cfg_Rehearsal cfg0 = false -> cfg_SteeringChan cfg0 = Some ch -> closed ch ->
  en_client e {| cr_System := cr_System req; cr_Messages := cr_Messages req; cr_Tools := cr_Tools req;
                 cr_MaxTokens := cr_MaxTokens req; cr_Temperature := cr_Temperature req |} w = (w1, Ok resp) ->
  ToolCallBlocks resp <> [] -> resp_FinishReason resp <> "length" ->
  executeToolCalls e (wire e cfg0) (ToolCallBlocks resp) w1 = (w2, Ok (rs, false)) ->
  (forall msg turn, run_hooks e msg turn w2 = (w3, Ok tt)) ->
  RunLoop fuel e req cfg0 w = None.
Proof.
  intros Hr Hch Hcl Hc Hne Hfin Hex Hh. unfold RunLoop. rewrite Hr. cbv zeta.
  destruct (Z.to_nat (cfg_MaxIterations (wire e cfg0))) as [|n]; [done|]. cbn [loop].
  assert (Hd : drain_channels fuel (wire e cfg0) w3 = None).
  { unfold drain_channels. cbn [cfg_SteeringChan wire]. rewrite Hch.
    destruct (drain_steering fuel maxSteeringDrain ch w3) as [r|] eqn:E; [|done]. exfalso.
    eapply (closed_never_drains ch 15 w3 Hcl), drains_iff. eauto. }
  assert (Ht : transform (wire e cfg0) (0 + 1) (cr_System req) (cr_Messages req) w
               = (w, Ok (cr_System req, cr_Messages req))).
  { unfold transform. by destruct (cfg_TransformContext _). }
  unfold iteration, bind. rewrite Ht. unfold wrapM. rewrite Hc. cbn [wrap_err]. cbv beta iota zeta.
  destruct (ToolCallBlocks resp) as [|c calls]; [done|]. apply String.eqb_neq in Hfin as ->.
  by rewrite Hex, Hh, Hd.
Qed.

(** A history the provider's API accepts: after [base], every assistant message is
    followed by one tool message per call it made, in order, under the call's ID. *)
Inductive threaded (base : list Message) : list Message -> Prop :=
  | threaded_base : threaded base base
  | threaded_turn h resp replies :
      threaded base h ->
      Forall2 (fun tc m => msg_Role m = "tool" /\ msg_ToolCallID m = tc_ID tc)
        (ToolCallBlocks resp) replies ->
      threaded base ((h ++ [assistant_message resp]) ++ replies)
  | threaded_user h m : threaded base h -> msg_Role m = "user" -> threaded base (h ++ [m]).

Lemma threaded_users base h tail :
  threaded base h -> Forall (fun m => msg_Role m = "user") tail -> threaded base (h ++ tail).
Proof.
  intros Hh Ht. revert h Hh. induction Ht as [|m tail Hm Ht IH]; intros h Hh; [by rewrite app_nil_r|].
  replace (h ++ m :: tail) with ((h ++ [m]) ++ tail) by (by rewrite <- app_assoc).
  apply IH. by constructor.
Qed.

Definition parallel_batches (e : EngineT) (cfg : EngineConfig) : Prop :=
  cfg_ParallelTools cfg = true /\ forall tc, is_sequential (en_registry e) tc = false.

Lemma iteration_threaded base fuel e req cfg n sys h w w' out :
  keeps_ids cfg -> parallel_batches e cfg -> cfg_TransformContext cfg = None ->
  threaded base h -> iteration fuel e req cfg n sys h w = (w', Ok out) ->
  match out with
  | Return r => threaded base (lr_History r)
  | Next _ h' => threaded base h'
  | Draining => True
  end.
Proof.
  intros Hk [Hpar Hseq] Htr Hh E.
  destruct (match out with Draining => true | _ => false end) eqn:Hend; [by destruct out|].
  apply iteration_cases in E as (sys1 & h1 & resp & Hkeep & Hout); [|done|by intros ->].
  destruct (Hkeep Htr) as [-> ->]. destruct Hout as [(Hnil & ->)|[Hrun|Htrunc]].
  - cbn. replace (h ++ [assistant_message resp]) with ((h ++ [assistant_message resp]) ++ [])
      by (by rewrite app_nil_r). constructor; [done|]. rewrite Hnil. constructor.
  - destruct Hrun as (rs & k & tail & Ha & Hne & Hk0 & Hfull & Htail & Hout).
    assert (Hseqs : existsb (is_sequential (en_registry e)) (ToolCallBlocks resp) = false).
    { apply not_true_iff_false. rewrite existsb_exists. intros (x & _ & Hx). by rewrite Hseq in Hx. }
    assert (Hall : answers (ToolCallBlocks resp) rs).
    { destruct Hfull as [->|Hnot]; [by rewrite firstn_all in Ha|].
      destruct (ToolCallBlocks resp) as [|c [|c2 calls]]; [done| |].
      - by rewrite take_ge in Ha by (simpl; lia).
      - exfalso. apply Hnot. split; [done|]. split; [done|]. simpl. lia. }
    assert (Ht : threaded base ((h ++ [assistant_message resp]) ++ map tool_message rs ++ tail)).
    { rewrite app_assoc. apply threaded_users; [|done]. constructor; [done|].
      unfold answers in Hall. clear -Hall. induction Hall; constructor; auto. }
    destruct Hout as [[b ->]|[-> _]]; exact Ht.
  - destruct Htrunc as (_ & Hout). cbv zeta in Hout.
    assert (Ht : threaded base ((h ++ [assistant_message resp]) ++ map truncated_message (ToolCallBlocks resp))).
    { constructor; [done|]. clear. induction (ToolCallBlocks resp); constructor; auto. }
    destruct Hout as [->|[-> _]]; exact Ht.
Qed.

Lemma loop_threaded base k fuel e req cfg n sys h w w' lr :
  keeps_ids cfg -> parallel_batches e cfg -> cfg_TransformContext cfg = None ->
  threaded base h -> loop k fuel e req cfg n sys h w = Some (w', Ok lr) -> threaded base (lr_History lr).
Proof.
  intros Hk Hp Ht. revert n sys h w. induction fuel as [|fuel IH]; intros n sys h w Hh; cbn [loop]; [done|].
  destruct (iteration k e req cfg (n + 1) sys h w) as [w1 [[s' h'|r|]|err]] eqn:E; [| |done|done].
  - pose proof (iteration_threaded base _ _ _ _ _ _ _ _ _ _ Hk Hp Ht Hh E) as Hh'. by apply IH.
  - pose proof (iteration_threaded base _ _ _ _ _ _ _ _ _ _ Hk Hp Ht Hh E) as Hh'. by intros [= _ <-].
Qed.

Lemma aegis_after_keeps_ids gw tc r w w' r' :
  aegis_after gw tc r w = (w', Ok (Some r')) ->
  tr_CallID r' = tr_CallID r /\ tr_Terminate r' = tr_Terminate r.
Proof.
  unfold aegis_after, attempt, ret. destruct (gw_ReviewOutbound gw _ w) as [w1 [rep|e]]; [|done].
  destruct (or_Clean rep); [done|]. destruct (_ && _); by intros [= _ <-].
Qed.

(** C14: The history is always one a provider accepts. With parallel batches, no
    sequential tool registered, no compaction hook, and the gateway (or no hook) in the
    after-call slot, whatever the schedule of each batch, every assistant message in
    the history [RunLoop] returns is followed by exactly one tool message per call, in
    call order and under the call's ID: truncated responses, blocked and failing
    calls, steering and follow-up messages included. *)
Theorem RunLoop_threaded drain_fuel e req cfg0 w w' lr :
  cfg_Rehearsal cfg0 = false -> cfg_AfterToolCall cfg0 = None -> cfg_TransformContext cfg0 = None ->
  parallel_batches e cfg0 ->
  RunLoop drain_fuel e req cfg0 w = Some (w', Ok lr) -> threaded (cr_Messages req) (lr_History lr).
Proof.
  intros Hr Ha Ht Hp. unfold RunLoop. rewrite Hr. cbv zeta. intros E.
  eapply loop_threaded in E; [exact E| |exact Hp|exact Ht|constructor].
  intros f Hf tc r wa wb r' Hfr. unfold wire in Hf. simpl in Hf. rewrite Ha in Hf.
  destruct (en_aegis e) as [gw|]; [|done]. injection Hf as <-. by eapply aegis_after_keeps_ids in Hfr as [? _].
Qed.

(** C13: Blocked calls never run. With the gateway wired and no other pre-call hook,
    when the arguments of a known tool fail the inbound scan, or the scan itself
    fails, the call is answered with an error under its ID and the world is exactly as
    the scan left it: no handler, whatever it is, has been executed. *)
Theorem unscreened_call_never_executes e cfg0 gw tc handler args argsJSON w w1 r1 :
  en_aegis e = Some gw -> cfg_BeforeToolCall cfg0 = None ->
  reg_Get (en_registry e) (tc_Name tc) = Some handler ->
  parse_args (with_destination (en_registry e) tc) = Ok args ->
  json_Marshal args = Ok argsJSON ->
  gw_ProcessInbound gw argsJSON (tc_Name tc) "tool_args" w = (w1, r1) ->
  (forall ac, r1 = Ok ac -> aa_ScanPassed (ac_Annotation ac) = false) ->
  exists r, executeSingleTool e (wire e cfg0) tc w = (w1, Ok r) /\
    tr_IsError r = true /\ tr_CallID r = tc_ID tc /\ tr_Terminate r = false.
Proof.
  intros Hg Hb Hreg Hargs Hjson Hscan Hfail. unfold executeSingleTool. rewrite Hreg, Hargs.
  assert (Hid : tc_ID (with_destination (en_registry e) tc) = tc_ID tc /\
                tc_Name (with_destination (en_registry e) tc) = tc_Name tc).
  { unfold with_destination. by destruct (str_empty _). }
  destruct Hid as [Hid Hname]. unfold before_hook, wire. cbn [cfg_BeforeToolCall]. rewrite Hb, Hg.
  unfold bind, attempt, aegis_before. rewrite Hjson, Hname. unfold attempt, ret. rewrite Hscan.
  destruct r1 as [ac|err]; [rewrite (Hfail ac eq_refl)|];
    (eexists; split; [reflexivity|]); by split; [|split].
Qed.

(** Outbound review never blocks. With the shipped gateway, whose outbound report
    never sets a severity, the post-call review leaves the call ID, the error flag and
    the terminate flag of every result as they are, and keeps its content, at most
    behind an annotation: the external-and-critical block cannot fire. *)
Theorem outbound_review_annotates unicode_lower gw tc r w :
  (forall c w, gw_ReviewOutbound gw c w = (w, Ok (Aegis.ReviewOutbound unicode_lower c))) ->
  exists o, aegis_after gw tc r w = (w, Ok o) /\
    forall r', o = Some r' ->
      tr_CallID r' = tr_CallID r /\ tr_IsError r' = tr_IsError r /\ tr_Terminate r' = tr_Terminate r /\
      exists note, tr_Content r' = note +:+ tr_Content r.
Proof.
  intros Hgw. unfold aegis_after, attempt, ret. rewrite Hgw.
  destruct (or_Clean _); [by eexists|]. rewrite andb_false_r. eexists. split; [done|].
  intros r' [= <-]. cbn. do 3 (split; [done|]). eexists. by rewrite <- !str_app_assoc.
Qed.
End Engine.

(** ** Post-turn hooks *)

Section HookProperties.
Context {W : Type} (append : ExperientialLog -> M W unit).

(** The entries a turn must leave in T2. *)
Definition tool_entries (turn : TurnResult) (now : Z) (i : nat) (rs : list ToolResult)
    : list ExperientialLog :=
  concat (imap (fun j r =>
    if str_empty (tr_Content r) then []
    else [t2_entry (t2_id turn now ("tool" +:+ fmt_d (Z.of_nat (i + j)))) turn (tr_Content r)
            (str_or (tr_ContentSource r) ContentSourceToolResult)]) rs).
Definition t2_entries (turn : TurnResult) (now : Z) : list ExperientialLog :=
  (if str_empty (tn_Content turn) then []
   else [t2_entry (t2_id turn now "self") turn (tn_Content turn) ContentSourceSelf]) ++
  tool_entries turn now 0 (tn_ToolResults turn).

(** [es] were appended, in order, each successfully, taking [w] to [w']. *)
Inductive appended : list ExperientialLog -> W -> W -> Prop :=
  | appended_nil w : appended [] w w
  | appended_cons e es w w1 w2 :
      append e w = (w1, Ok tt) -> appended es w1 w2 -> appended (e :: es) w w2.

Lemma log_results_appended turn now i rs w w' u :
  log_results append turn now i rs w = (w', Ok u) -> appended (tool_entries turn now i rs) w w'.
Proof.
  revert i w. induction rs as [|r rs IH]; intros i w E; cbn [log_results] in E.
  { unfold ret in E. simplify_eq. constructor. }
  unfold tool_entries. rewrite imap_cons. cbn [concat].
  replace (i + 0)%nat with i by lia.
  assert (Hrest : forall w1, log_results append turn now (S i) rs w1 = (w', Ok u) ->
    appended (concat (imap ((fun j r => if str_empty (tr_Content r) then []
      else [t2_entry (t2_id turn now ("tool" +:+ fmt_d (Z.of_nat (i + j)))) turn (tr_Content r)
              (str_or (tr_ContentSource r) ContentSourceToolResult)]) ∘ S) rs)) w1 w').
  { intros w1 E1. apply IH in E1. unfold tool_entries in E1.
    erewrite imap_ext; [exact E1|]. intros j r' Hr. cbn. by replace (i + S j)%nat with (S i + j)%nat by lia. }
  destruct (str_empty (tr_Content r)); [by apply Hrest|].
  apply bind_Ok in E as (w1 & [] & Ea & E). cbn [app]. econstructor; [|by apply Hrest].
  unfold wrapM in Ea. destruct (append _ w) as [w2 [[]|e]]; by simplify_eq/=.
Qed.

(** Nothing the agent experienced is lost silently. If the post-turn pipeline,
    whose first hook is the critical T2 logger, reports success, then the turn's own
    text (when there is any) and every non-empty tool result have been appended to T2,
    in order, each exactly once, under the tool's declared content source or
    [tool-result]; if any append fails the pipeline fails, and with it the session. *)
Theorem turn_is_archived turn now rest w w' :
  RunAll (RegisterCritical (T2LoggerHook_Run append now) [] ++ rest) turn w = (w', Ok tt) ->
  exists w1, appended (t2_entries turn now) w w1 /\ RunAll rest turn w1 = (w', Ok tt).
Proof.
  unfold RegisterCritical. cbn [app RunAll he_run he_critical]. unfold attempt.
  destruct (T2LoggerHook_Run append now turn w) as [w1 [u|e]] eqn:E; [|done].
  intros Hrest. exists w1. split; [|done]. unfold T2LoggerHook_Run in E.
  apply bind_Ok in E as (w2 & [] & Es & E). apply log_results_appended in E. unfold t2_entries.
  destruct (str_empty (tn_Content turn)); [unfold ret in Es; by simplify_eq|].
  cbn [app]. econstructor; [|exact E].
  unfold wrapM in Es. destruct (append _ w) as [w3 [[]|e]]; by simplify_eq/=.
Qed.
End HookProperties.

(** ** Witnesses: a model that makes one call, then stops *)

Definition call_block (id name : string) : ContentBlock :=
  {| cb_Type := BlockToolCall; cb_Text := ""; cb_Thinking := "";
     cb_ToolCall := Some {| tc_ID := id; tc_Name := name; tc_Arguments := ""; tc_Destination := "" |};
     cb_FieldName := "" |}.
Definition text_block (s : string) : ContentBlock :=
  {| cb_Type := BlockText; cb_Text := s; cb_Thinking := ""; cb_ToolCall := None; cb_FieldName := "" |}.
Definition demo_response (blocks : list ContentBlock) (fin : string) : CompletionResponse :=
  {| resp_Blocks := blocks; resp_FinishReason := fin; resp_PromptTokens := 10; resp_CompletionTokens := 5;
     resp_ThinkingTokens := 0; resp_RawTokS := f_zero; resp_TTFT := 0; resp_TotalLatency := 0 |}.

(** The world counts completions and executions. *)
Definition counting_client (first : CompletionResponse) (req : CompletionRequest)
    : M (nat * nat) CompletionResponse :=
  fun w => ((S w.1, w.2), Ok (if (w.1 =? 0)%nat then first else demo_response [text_block "done"] "stop")).
Definition echo_tool : @ToolHandler (nat * nat) unit :=
  HandlerV1 (fun _ w => ((w.1, S w.2), Ok "out")).
Definition stop_tool : @ToolHandler (nat * nat) unit :=
  HandlerV2 (fun _ w => ((w.1, S w.2),
    Ok (Some {| tr_CallID := ""; tr_Content := "bye"; tr_IsError := false; tr_Terminate := true;
                tr_ContentSource := "" |}))).
Definition demo_meta (mode : string) : ToolMeta :=
  {| tm_ExecMode := mode; tm_Tier := 1; tm_Keywords := []; tm_ContentSource := "";
     tm_Destination := "internal" |}.
Definition demo_tools (stop_mode : string) : @ToolRegistry (nat * nat) unit :=
  {| reg_Get := fun n => if String.eqb n "echo" then Some echo_tool
                         else if String.eqb n "stop" then Some stop_tool else None;
     reg_GetMeta := fun n => if String.eqb n "stop" then Some (demo_meta stop_mode)
                             else Some (demo_meta ExecParallel);
     reg_List := [] |}.
Definition quiet_gateway (passed : bool) : @ContentGateway (nat * nat) :=
  {| gw_ProcessInbound := fun raw src cs w =>
       (w, Ok {| ac_Original := raw; ac_Normalized := raw;
                 ac_Annotation := {| aa_TrustScore := f_zero; aa_Source := src; aa_ContentSource := cs;
                                     aa_Flags := []; aa_Sanitized := false; aa_ScanPassed := passed;
                                     aa_AnnotatedAt := 0 |} |});
     gw_ReviewOutbound := fun c w => (w, Ok (Aegis.ReviewOutbound id c)) |}.
Definition demo_engine (first : CompletionResponse) (stop_mode : string) (passed : bool)
    : @EngineT (nat * nat) unit :=
  {| en_client := counting_client first; en_registry := demo_tools stop_mode; en_hooks := None;
     en_aegis := Some (quiet_gateway passed); en_sessionID := "s1" |}.
Definition steered_config (ch : option (@Channel (nat * nat))) : @EngineConfig (nat * nat) unit :=
  {| cfg_MaxIterations := 25; cfg_ParallelTools := true; cfg_ToolTimeout := 0; cfg_DryRun := false;
     cfg_Rehearsal := false; cfg_BeforeToolCall := None; cfg_AfterToolCall := None;
     cfg_ShouldStop := None; cfg_SteeringChan := ch; cfg_FollowUpChan := None;
     cfg_TransformContext := None |}.
Definition demo_config := steered_config None.
Definition demo_request : CompletionRequest :=
  {| cr_System := "sys"; cr_Messages := []; cr_Tools := []; cr_MaxTokens := 4096; cr_Temperature := None |}.
Local Notation demo_loop :=
  (RunLoop (fun _ => Ok None) (fun _ => Ok "{}") tt (fun _ => false) pretty (fun l => str_join l " ")
    (fun _ => "{}") (seq 0)).
Definition demo_run (first : CompletionResponse) (stop_mode : string) :=
  demo_loop 0%nat (demo_engine first stop_mode true) demo_request demo_config (0, 0)%nat.

Lemma RunLoop_threaded_witness :
  exists w lr, demo_run (demo_response [call_block "c1" "echo"; call_block "c2" "echo"] "tool_calls") ExecParallel
    = Some (w, Ok lr) /\ length (lr_History lr) = 4%nat /\ threaded [] (lr_History lr).
Proof.
  destruct (demo_run (demo_response [call_block "c1" "echo"; call_block "c2" "echo"] "tool_calls") ExecParallel)
    as [[w [lr|e]]|] eqn:E; [|vm_compute in E; discriminate E|vm_compute in E; discriminate E].
  exists w, lr. split; [reflexivity|]. split; [vm_compute in E; injection E as <- <-; reflexivity|].
  refine (RunLoop_threaded _ _ _ _ _ _ _ (seq 0) _ 0%nat _ demo_request demo_config _ w lr eq_refl eq_refl eq_refl _ E).
  - intros n. reflexivity.
  - split; [reflexivity|]. intros tc. unfold is_sequential. simpl. destruct (String.eqb _ "stop"); reflexivity.
Defined.

(** A steering channel in which every execution leaves a note from the user. *)
Definition user_note : Message :=
  {| msg_Role := "user"; msg_Content := "note"; msg_Blocks := []; msg_ToolCallID := "";
     msg_IsError := false |}.
Definition notes : @Channel (nat * nat) :=
  {| ch_recv := fun w => match w.2 with
                         | O => (w, None)
                         | S n => ((w.1, n), Some user_note)
                         end |}.
Lemma notes_drain l w : drains notes l w.
Proof.
  revert w. induction l as [|l IH]; intros [c n]; [constructor|].
  destruct n as [|n]; [eapply drains_empty|eapply drains_user]; [reflexivity|reflexivity|reflexivity|apply IH].
Qed.

Lemma RunLoop_terminates_witness :
  exists k w lr,
    demo_loop k (demo_engine (demo_response [call_block "c1" "echo"] "tool_calls") ExecParallel true)
      demo_request (steered_config (Some notes)) (0, 0)%nat = Some (w, Ok lr) /\
    1 <= lr_Iterations lr <= 25 /\ map msg_Role (lr_History lr) = ["assistant"; "tool"; "user"; "assistant"].
Proof.
  destruct (RunLoop_terminates (fun _ => Ok None) (fun _ => Ok "{}") tt (fun _ => false) pretty
    (fun l => str_join l " ") (fun _ => "{}") (seq 0)
    (demo_engine (demo_response [call_block "c1" "echo"] "tool_calls") ExecParallel true) demo_request
    (steered_config (Some notes)) (0, 0)%nat) as (k & w & r & Hk & Hr).
  { intros ch Hch w. injection Hch as <-. apply notes_drain. }
  pose proof (Hk (S (S k)) ltac:(lia)) as E. exists (S (S k)), w. destruct r as [lr|err].
  - exists lr. split; [exact E|]. split.
    + destruct (Hr lr eq_refl) as [[Hf _]|[_ Hb]]; [discriminate Hf|exact Hb].
    + vm_compute in E. injection E as _ <-. reflexivity.
  - vm_compute in E. discriminate E.
Defined.

(** The same run with the channel closed never comes back. *)
Definition shut : @Channel (nat * nat) := {| ch_recv := fun w => (w, Some zero_message) |}.
Example closed_steering_example k :
  demo_loop k (demo_engine (demo_response [call_block "c1" "echo"] "tool_calls") ExecParallel true)
    demo_request (steered_config (Some shut)) (0, 0)%nat = None.
Proof.
  eapply closed_steering_spins with (ch := shut);
    [reflexivity|reflexivity|intros w; reflexivity|reflexivity|discriminate|discriminate|
     vm_compute; reflexivity|intros; reflexivity].
Qed.

Lemma unscreened_call_never_executes_witness :
  exists r, executeSingleTool (fun _ => Ok None) tt (fun _ => false) pretty
      (demo_engine (demo_response [] "stop") ExecParallel false)
      (wire (fun _ => Ok "{}") (fun l => str_join l " ") (fun _ => "{}")
         (demo_engine (demo_response [] "stop") ExecParallel false) demo_config)
      {| tc_ID := "c1"; tc_Name := "echo"; tc_Arguments := ""; tc_Destination := "" |} (0, 0)%nat
    = ((0, 0)%nat, Ok r) /\ tr_IsError r = true.
Proof.
  edestruct (unscreened_call_never_executes (fun _ => Ok None) (fun _ => Ok "{}") tt (fun _ => false) pretty
    (fun l => str_join l " ") (fun _ => "{}") (demo_engine (demo_response [] "stop") ExecParallel false)
    demo_config (quiet_gateway false)
    {| tc_ID := "c1"; tc_Name := "echo"; tc_Arguments := ""; tc_Destination := "" |} echo_tool tt "{}"
    (0, 0)%nat) as (r & E & Herr & _); try reflexivity.
  - intros ac Hac. injection Hac as <-. reflexivity.
  - exists r. split; [exact E|exact Herr].
Defined.

Lemma outbound_review_annotates_witness :
  exists o, aegis_after (fun l => str_join l " ") (fun _ => "{}") (quiet_gateway true)
    {| tc_ID := "c1"; tc_Name := "post"; tc_Arguments := ""; tc_Destination := "external" |}
    {| tr_CallID := "c1"; tr_Content := "key sk-1234"; tr_IsError := false; tr_Terminate := false;
       tr_ContentSource := "" |} (0, 0)%nat = ((0, 0)%nat, Ok o) /\
    (forall r', o = Some r' -> tr_IsError r' = false).
Proof.
  edestruct (outbound_review_annotates (W := nat * nat) (fun l => str_join l " ") (fun _ => "{}") id
    (quiet_gateway true)
    {| tc_ID := "c1"; tc_Name := "post"; tc_Arguments := ""; tc_Destination := "external" |}
    {| tr_CallID := "c1"; tr_Content := "key sk-1234"; tr_IsError := false; tr_Terminate := false;
       tr_ContentSource := "" |} (0, 0)%nat) as (o & E & H); [reflexivity|].
  exists o. split; [exact E|]. intros r' Hr. destruct (H r' Hr) as (_ & He & _). exact He.
Defined.

Definition demo_turn : TurnResult :=
  {| tn_SessionID := "s1"; tn_TurnNumber := 1; tn_Content := "hi"; tn_ToolCalls := ["c1"];
     tn_ToolResults := [{| tr_CallID := "c1"; tr_Content := "page"; tr_IsError := false;
                           tr_Terminate := false; tr_ContentSource := "browser-content" |}];
     tn_PromptTokens := 1; tn_CompletionTokens := 1; tn_ThinkingTokens := 0; tn_TTFT := 0;
     tn_TotalDuration := 0 |}.
Definition recording (e : ExperientialLog) : M (list ExperientialLog) unit := fun w => (w ++ [e], Ok tt).

Lemma turn_is_archived_witness :
  exists w1, appended recording (t2_entries demo_turn 7) [] w1 /\ map el_ContentSource w1 = ["self"; "browser-content"].
Proof.
  edestruct (turn_is_archived recording demo_turn 7 [] []) as (w1 & Ha & Hr); [vm_compute; reflexivity|].
  exists w1. split; [exact Ha|]. injection Hr as Hr. rewrite Hr. vm_compute. reflexivity.
Defined.

(** A batch that is forced sequential stops at the first result that terminates, but the
    loop ends only when all collected results do: the remaining calls are then left
    without a reply in a history that goes to the model again. *)
Theorem sequential_terminate_leaves_calls_unanswered :
  exists lr, demo_run (demo_response [call_block "c1" "echo"; call_block "c2" "stop"; call_block "c3" "echo"]
                         "tool_calls") ExecSequential = Some ((2, 2)%nat, Ok lr) /\
    map msg_ToolCallID (lr_History lr) = [""; "c1"; "c2"; ""].
Proof. eexists. split; vm_compute; reflexivity. Qed.
