(* ===== verification/Identity.v ===== *)
(** * Identity documents, anchors and amendments

    [internal/identity] (documents.go, integrity.go, substrate.go) and the SQLite
    stores behind it ([internal/platform/identity.go]). Every known document on disk
    is hashed and compared with its stored anchor; [doc_status] is the specification
    of the verdict and [VerifyAnchors_exact] shows that the code reports it. The
    client is proved against the interface [IdentityAnchorStore] and its laws; the
    SQLite store is an instance. *)

From S2P Require Import Prelude Types Db Session.

(** ** Loading ([documents.go]) *)

Definition KnownDocs : list string := ["soul.md"; "rights.md"; "values.md"; "contract.md"].

Record DocMeta := {
  dm_FileName : string; dm_FilePath : string; dm_LastModified : Z; dm_SizeBytes : Z }.
Record IdentityDoc := { doc_Meta : DocMeta; doc_Content : string }.
Record IdentityDocs := { docs_Docs : gmap string IdentityDoc; docs_BaseDir : string }.

(** [os.Stat] of a path. *)
Inductive StatResult :=
  | StatNotExist
  | StatFailed (msg : string)
  | StatInfo (modTime size : Z).
Class FileStat := { os_Stat : string -> StatResult }.

(** The result of [loadSingle], by what [os.IsNotExist] says of its error. *)
Inductive Load :=
  | Loaded (d : IdentityDoc)
  | Missing
  | LoadError (e : error).

Section Documents.
Context `{Host} `{FileStat}.

Definition loadSingle (path name : string) : Load :=
  match os_Stat path with
  | StatNotExist => Missing
  | StatFailed msg => LoadError (ENew msg)
  | StatInfo modTime size =>
      match os_ReadFile path with
      | NotExist => Missing
      | Unreadable msg => LoadError (ENew msg)
      | Contents content =>
          Loaded {| doc_Meta := {| dm_FileName := name; dm_FilePath := path;
                                   dm_LastModified := modTime; dm_SizeBytes := size |};
                    doc_Content := content |}
      end
  end.

Fixpoint load_known (dir : string) (names : list string) (docs : gmap string IdentityDoc)
    : result (gmap string IdentityDoc) :=
  match names with
  | [] => Ok docs
  | name :: rest =>
      match loadSingle (filepath_Join dir name) name with
      | Missing => load_known dir rest docs
      | LoadError e => Err (EWrap ("identity: reading " +:+ name) e)
      | Loaded doc => load_known dir rest (<[name := doc]> docs)
      end
  end.

Definition LoadDocuments (dir : string) : result IdentityDocs :=
  let? docs := load_known dir KnownDocs ∅ in
  Ok {| docs_Docs := docs; docs_BaseDir := dir |}.

Definition Get (d : IdentityDocs) (name : string) : option IdentityDoc := docs_Docs d !! name.

(** ** Hashing ([integrity.go]) *)

Definition hashContent (content : string) : string := sha256_hex content.
Definition ComputeAnchors (docs : IdentityDocs) : gmap string string :=
  (fun doc => hashContent (doc_Content doc)) <$> docs_Docs docs.
End Documents.

(** ** The store interface ([pkg.IdentityAnchorStore]) *)

Class IdentityAnchorStore (W : Type) := {
  GetAnchor : string -> M W (string * string);
  UpsertAnchor : string -> string -> string -> M W unit;
  GetAmendmentByID : string -> M W (option AmendmentRecord);
  InsertAmendment : AmendmentRecord -> M W string;
  ListAmendments : string -> M W (list AmendmentRecord);
  ListAnchoredDocs : M W (list string) }.

(** The order in which Go ranges over a map: some enumeration of its entries. *)
Class MapRange := {
  map_range : gmap string string -> list (string * string);
  map_range_perm m : map_range m ≡ₚ map_to_list m }.

(** ** Verification ([integrity.go]) *)

Inductive AnchorStatus := AnchorMatch | AnchorAmendment | AnchorTampering | AnchorNew.
#[global] Instance AnchorStatus_eq_dec : EqDecision AnchorStatus.
Proof. solve_decision. Defined.

Record FileReport := {
  fr_DocName : string; fr_Status : AnchorStatus; fr_StoredHash : string;
  fr_CurrentHash : string; fr_AmendmentID : string }.
Record IntegrityReport := { ir_Files : list FileReport; ir_HasTampering : bool }.

Definition is_tampering (fr : FileReport) : bool :=
  bool_decide (fr_Status fr = AnchorTampering).
(** [report.Files = append(report.Files, fr)], with the flag set for tampering. *)
Definition add_file (rep : IntegrityReport) (fr : FileReport) : IntegrityReport :=
  {| ir_Files := ir_Files rep ++ [fr];
     ir_HasTampering := ir_HasTampering rep || is_tampering fr |}.

Section Verify.
Context {W : Type} `{IdentityAnchorStore W}.

Definition findAmendmentByNewHash (docName newHash : string) : M W (option AmendmentRecord) :=
  let! recs := ListAmendments docName in
  ret (List.find (fun r => String.eqb (am_NewHash r) newHash) recs).

Definition verify_file (docName currentHash : string) : M W FileReport :=
  let! stored := wrapM ("identity: getting anchor for " +:+ docName) (GetAnchor docName) in
  let '(storedHash, amendmentID) := stored in
  let report s a := {| fr_DocName := docName; fr_Status := s; fr_StoredHash := storedHash;
                       fr_CurrentHash := currentHash; fr_AmendmentID := a |} in
  if str_empty storedHash then ret (report AnchorNew "")
  else if String.eqb storedHash currentHash then ret (report AnchorMatch amendmentID)
  else
    let! amendRec := wrapM ("identity: looking up amendment for " +:+ docName)
                       (findAmendmentByNewHash docName currentHash) in
    match amendRec with
    | Some rec => ret (report AnchorAmendment (am_ID rec))
    | None => ret (report AnchorTampering "")
    end.

Fixpoint verify_loop (hashes : list (string * string)) (rep : IntegrityReport)
    : M W IntegrityReport :=
  match hashes with
  | [] => ret rep
  | (docName, currentHash) :: rest =>
      let! fr := verify_file docName currentHash in
      verify_loop rest (add_file rep fr)
  end.

Definition deleted_report (docName : string) : FileReport :=
  {| fr_DocName := docName; fr_Status := AnchorTampering; fr_StoredHash := "";
     fr_CurrentHash := ""; fr_AmendmentID := "" |}.

Definition check_deleted (currentHashes : gmap string string) (storedDocs : list string)
    (rep : IntegrityReport) : IntegrityReport :=
  fold_left (fun rep docName =>
    match currentHashes !! docName with
    | Some _ => rep
    | None => add_file rep (deleted_report docName)
    end) storedDocs rep.

Definition VerifyAnchors `{MapRange} (currentHashes : gmap string string)
    : M W IntegrityReport :=
  let! rep := verify_loop (map_range currentHashes)
                {| ir_Files := []; ir_HasTampering := false |} in
  let! storedDocs := wrapM "identity: listing anchored docs" ListAnchoredDocs in
  ret (check_deleted currentHashes storedDocs rep).

Fixpoint write_initial (files : list FileReport) : M W unit :=
  match files with
  | [] => ret tt
  | fr :: rest =>
      if bool_decide (fr_Status fr = AnchorNew) then
        let! _ := wrapM ("identity: writing initial anchor for " +:+ fr_DocName fr)
                    (UpsertAnchor (fr_DocName fr) (fr_CurrentHash fr) "") in
        write_initial rest
      else write_initial rest
  end.
Definition WriteInitialAnchors (report : IntegrityReport) : M W unit :=
  write_initial (ir_Files report).

Definition UpdateAnchorAfterAmendment (docName newHash amendmentID : string) : M W unit :=
  UpsertAnchor docName newHash amendmentID.
End Verify.

(** ** What a store promises, on its view *)

Class AnchorLaws (W : Type) `{IdentityAnchorStore W} := {
  anchored : W -> string -> option string;
  amended : W -> string -> string -> bool;
  GetAnchor_law d w w' r : GetAnchor d w = (w', r) ->
    anchored w' = anchored w /\ amended w' = amended w /\
    match r with Ok (h, _) => h = default "" (anchored w d) | Err _ => True end;
  ListAmendments_law d w w' r : ListAmendments d w = (w', r) ->
    anchored w' = anchored w /\ amended w' = amended w /\
    match r with
    | Ok l => forall h, amended w d h = existsb (fun x => String.eqb (am_NewHash x) h) l
    | Err _ => True
    end;
  ListAnchoredDocs_law w w' r : ListAnchoredDocs w = (w', r) ->
    anchored w' = anchored w /\ amended w' = amended w /\
    match r with Ok l => forall d, d ∈ l <-> is_Some (anchored w d) | Err _ => True end;
  UpsertAnchor_law d h a w w' r : UpsertAnchor d h a w = (w', r) ->
    amended w' = amended w /\
    (forall d', d' <> d -> anchored w' d' = anchored w d') /\
    match r with
    | Ok _ => anchored w' d = Some h
    | Err _ => anchored w' d = anchored w d
    end }.

(** The verdict on one document, as the schema's comment gives it. *)
Definition doc_status {W} `{AnchorLaws W} (w : W) (current : gmap string string) (d : string)
    : option AnchorStatus :=
  match current !! d, anchored w d with
  | None, None => None
  | None, Some _ => Some AnchorTampering
  | Some _, None => Some AnchorNew
  | Some h, Some s =>
      Some (if str_empty s then AnchorNew
            else if String.eqb s h then AnchorMatch
            else if amended w d h then AnchorAmendment else AnchorTampering)
  end.

Section Lemmas.
Context {W : Type} `{AnchorLaws W}.

Definition same_view (w w' : W) : Prop := anchored w' = anchored w /\ amended w' = amended w.

Lemma same_view_status w w' cur d : same_view w w' -> doc_status w' cur d = doc_status w cur d.
Proof. intros [E1 E2]. unfold doc_status. by rewrite E1, E2. Qed.

Lemma same_view_trans w w1 w2 : same_view w w1 -> same_view w1 w2 -> same_view w w2.
Proof. unfold same_view. intuition congruence. Qed.

Lemma verify_file_spec cur d h w w' r :
  cur !! d = Some h -> verify_file d h w = (w', r) ->
  same_view w w' /\
  match r with
  | Ok fr => fr_DocName fr = d /\ fr_CurrentHash fr = h /\
             doc_status w cur d = Some (fr_Status fr)
  | Err _ => True
  end.
Proof.
  intros Hd. unfold verify_file, bind, wrapM, doc_status. rewrite Hd.
  destruct (GetAnchor d w) as [w1 [[s a]|e]] eqn:EG; apply GetAnchor_law in EG as (E1 & E2 & Hs);
    simpl; [|by intros [= <- <-]].
  destruct (str_empty s) eqn:Es; [intros [= <- <-]; split; [done|]; simpl|].
  { split; [done|]. split; [done|]. destruct (anchored w d) as [s'|]; simpl in Hs; subst;
      [by rewrite Es|done]. }
  destruct (anchored w d) as [s'|]; simpl in Hs; subst; [|done]. rewrite Es.
  destruct (String.eqb s' h) eqn:Eh; [by intros [= <- <-]|].
  unfold findAmendmentByNewHash, bind.
  destruct (ListAmendments d w1) as [w2 [l|e]] eqn:EL;
    apply ListAmendments_law in EL as (E3 & E4 & Hl); simpl;
    (assert (Hv : same_view w w2) by (split; congruence)); [|by intros [= <- <-]].
  rewrite E2 in Hl. rewrite Hl.
  destruct (List.find _ l) as [rec|] eqn:Ef; intros [= <- <-]; (split; [done|]); simpl.
  - apply List.find_some in Ef. destruct (existsb _ l) eqn:Ex; [done|].
    rewrite <- not_true_iff_false, existsb_exists in Ex. exfalso. eauto.
  - destruct (existsb _ l) eqn:Ex; [|done]. apply existsb_exists in Ex as (x & Hx & Hxe).
    eapply List.find_none in Ef; [|exact Hx]. simpl in *. congruence.
Qed.

(** What a report says: one verdict per listed document. *)
Definition report_ok (w : W) (cur : gmap string string) (rep : IntegrityReport) : Prop :=
  (forall fr, fr ∈ ir_Files rep ->
     doc_status w cur (fr_DocName fr) = Some (fr_Status fr) /\
     (fr_Status fr = AnchorNew -> cur !! fr_DocName fr = Some (fr_CurrentHash fr))) /\
  (ir_HasTampering rep = true <-> exists fr, fr ∈ ir_Files rep /\ fr_Status fr = AnchorTampering).

Lemma report_ok_view w w' cur rep : same_view w w' -> report_ok w cur rep -> report_ok w' cur rep.
Proof.
  intros Hv [H1 H2]. split; [|done]. intros fr Hfr.
  rewrite (same_view_status w w') by done. by apply H1.
Qed.

Lemma report_ok_add w cur rep fr :
  report_ok w cur rep -> doc_status w cur (fr_DocName fr) = Some (fr_Status fr) ->
  (fr_Status fr = AnchorNew -> cur !! fr_DocName fr = Some (fr_CurrentHash fr)) ->
  report_ok w cur (add_file rep fr).
Proof.
  intros [H1 H2] Hs Hn. split; simpl.
  - intros fr' Hin. apply elem_of_app in Hin as [Hin|Hin]; [by apply H1|].
    by apply list_elem_of_singleton in Hin as ->.
  - rewrite orb_true_iff, H2. unfold is_tampering. rewrite bool_decide_eq_true. set_solver.
Qed.

Lemma verify_loop_spec cur hashes : forall rep w w' r,
  (forall d h, (d, h) ∈ hashes -> cur !! d = Some h) ->
  report_ok w cur rep -> verify_loop hashes rep w = (w', r) ->
  same_view w w' /\
  match r with
  | Ok rep' => report_ok w cur rep' /\ exists new, ir_Files rep' = ir_Files rep ++ new /\
               map fr_DocName new = map fst hashes
  | Err _ => True
  end.
Proof.
  induction hashes as [|[d h] hashes IH]; intros rep w w' r Hin Hrep.
  - intros [= <- <-]. split; [done|]. split; [done|]. exists []. by rewrite app_nil_r.
  - simpl. unfold bind. destruct (verify_file d h w) as [w1 [fr|e]] eqn:EV;
      eapply (verify_file_spec cur) in EV as [Hv Hfr]; try (apply Hin; left);
      [|by intros [= <- <-]].
    destruct Hfr as (Hd & Hh & Hst). intros Hr. apply IH in Hr as [Hv' Hr'].
    + split; [by eapply same_view_trans|]. destruct r as [rep'|]; [|done].
      destruct Hr' as [Hok (new & Hf & Hm)].
      split; [by eapply report_ok_view in Hok; [|split; symmetry; apply Hv]|].
      exists (fr :: new). split; [|simpl; by rewrite Hm, Hd].
      rewrite Hf. simpl. by rewrite <- app_assoc.
    + intros d' h' Hin'. apply Hin. by right.
    + eapply report_ok_view; [done|]. apply report_ok_add; [done| |]; rewrite Hd; [done|].
      intros _. rewrite Hh. apply Hin. left.
Qed.

Lemma check_deleted_spec w cur stored : forall rep,
  (forall d, d ∈ stored -> is_Some (anchored w d)) -> report_ok w cur rep ->
  report_ok w cur (check_deleted cur stored rep) /\
  (forall fr, fr ∈ ir_Files rep -> fr ∈ ir_Files (check_deleted cur stored rep)) /\
  (forall d, d ∈ stored -> cur !! d = None ->
     exists fr, fr ∈ ir_Files (check_deleted cur stored rep) /\ fr_DocName fr = d).
Proof.
  unfold check_deleted. induction stored as [|d stored IH]; intros rep Hst Hrep; simpl; [set_solver|].
  assert (Hst' : forall d', d' ∈ stored -> is_Some (anchored w d')) by (intros; apply Hst; by right).
  destruct (cur !! d) as [h|] eqn:Ed.
  - destruct (IH rep Hst' Hrep) as (I1 & I2 & I3). split; [done|]. split; [done|].
    intros d' Hd' Hn. apply elem_of_cons in Hd' as [->|Hd']; [congruence|auto].
  - destruct (IH (add_file rep (deleted_report d)) Hst') as (I1 & I2 & I3).
    { apply report_ok_add; [done| |done]. unfold doc_status. simpl. rewrite Ed.
      destruct (Hst d) as [s ->]; [left|done]. }
    split; [done|]. split; [intros fr Hfr; apply I2; simpl; set_solver|].
    intros d' Hd' Hn. apply elem_of_cons in Hd' as [->|Hd']; [|auto].
    exists (deleted_report d). split; [|done]. apply I2. simpl. set_solver.
Qed.

Context `{!MapRange}.

Lemma map_range_lookup cur d h : (d, h) ∈ map_range cur <-> cur !! d = Some h.
Proof. rewrite map_range_perm. apply elem_of_map_to_list. Qed.

(** The report is exactly the specification. *)
Lemma VerifyAnchors_spec cur w w' r :
  VerifyAnchors cur w = (w', r) ->
  same_view w w' /\
  match r with
  | Ok rep =>
      report_ok w cur rep /\
      forall d, is_Some (doc_status w cur d) ->
        exists fr, fr ∈ ir_Files rep /\ fr_DocName fr = d
  | Err _ => True
  end.
Proof.
  unfold VerifyAnchors, bind, wrapM.
  destruct (verify_loop _ _ w) as [w1 r1] eqn:EL.
  apply (verify_loop_spec cur) in EL as [Hv Hr1].
  2: { intros d h. apply map_range_lookup. }
  2: { split; simpl; [set_solver|split; [done|set_solver]]. }
  destruct r1 as [rep|e]; [|by intros [= <- <-]]. destruct Hr1 as [Hok (new & Hf & Hm)].
  destruct (ListAnchoredDocs w1) as [w2 [l|e]] eqn:EA;
    apply ListAnchoredDocs_law in EA as (E1 & E2 & Hl); simpl; intros [= <- <-];
    (split; [by eapply same_view_trans; [|split]|]); [|done].
  destruct Hv as [V1 V2]. rewrite V1 in Hl.
  destruct (check_deleted_spec w cur l rep) as (C1 & C2 & C3); [intros d; apply Hl|done|].
  split; [done|]. intros d Hd. destruct (cur !! d) as [h|] eqn:Ed.
  - assert (Hin : d ∈ map fst (map_range cur)).
    { apply elem_of_map. exists (d, h). split; [by apply map_range_lookup|done]. }
    rewrite <- Hm in Hin. apply elem_of_map in Hin as (fr & Hfr & <-).
    exists fr. split; [|done]. apply C2. rewrite Hf. simpl. set_solver.
  - apply C3; [|done]. apply Hl. unfold doc_status in Hd. rewrite Ed in Hd.
    destruct (anchored w d); [by eexists|by destruct Hd].
Qed.

Lemma write_initial_spec (cur : gmap string string) files : forall w w' r,
  (forall fr, fr ∈ files -> fr_Status fr = AnchorNew -> cur !! fr_DocName fr = Some (fr_CurrentHash fr)) ->
  write_initial files w = (w', r) ->
  amended w' = amended w /\
  (forall d, anchored w' d = anchored w d \/
     exists fr, fr ∈ files /\ fr_DocName fr = d /\ fr_Status fr = AnchorNew /\
                anchored w' d = Some (fr_CurrentHash fr)) /\
  (r = Ok tt -> forall fr, fr ∈ files -> fr_Status fr = AnchorNew ->
     anchored w' (fr_DocName fr) = Some (fr_CurrentHash fr)).
Proof.
  induction files as [|f files IH]; intros w w' r Hcur; simpl.
  - intros [= <- <-]. split; [done|]. split; [by left|set_solver].
  - assert (Hcur' : forall fr, fr ∈ files -> fr_Status fr = AnchorNew ->
              cur !! fr_DocName fr = Some (fr_CurrentHash fr)).
    { intros fr Hfr. apply Hcur. by right. }
    destruct (bool_decide_reflect (fr_Status f = AnchorNew)) as [Hn|Hn].
    2: { intros Hw. destruct (IH _ _ _ Hcur' Hw) as (I1 & I2 & I3). split; [done|]. split.
         - intros d. destruct (I2 d) as [|(fr & ? & ?)]; [by left|right; exists fr; set_solver].
         - intros -> fr Hfr. apply elem_of_cons in Hfr as [->|Hfr]; [done|auto]. }
    unfold bind, wrapM. destruct (UpsertAnchor _ _ _ w) as [w1 [[]|e]] eqn:EU;
      apply UpsertAnchor_law in EU as (E1 & E2 & E3); simpl.
    2: { intros [= <- <-]. split; [done|]. split; [|done]. intros d. left.
         destruct (decide (d = fr_DocName f)) as [->|]; auto. }
    intros Hw. destruct (IH _ _ _ Hcur' Hw) as (I1 & I2 & I3). split; [congruence|].
    assert (Hf : forall d, d = fr_DocName f ->
              anchored w' d = Some (fr_CurrentHash f)).
    { intros d ->. destruct (I2 (fr_DocName f)) as [->|(fr & Hfr & Hd & Hs & ->)]; [done|].
      pose proof (Hcur' fr Hfr Hs) as C1. pose proof (Hcur f (ltac:(left)) Hn) as C2.
      rewrite Hd in C1. congruence. }
    split.
    + intros d. destruct (decide (d = fr_DocName f)) as [->|Hd].
      * right. exists f. split; [left|]. split; [done|]. split; [done|]. by apply Hf.
      * destruct (I2 d) as [->|(fr & ? & ?)]; [left; by apply E2|right; exists fr; set_solver].
    + intros -> fr Hfr Hs. apply elem_of_cons in Hfr as [->|Hfr]; auto.
Qed.

(** C16: The integrity report is exact. It has one verdict for each document that is
    on disk or has an anchor: new when nothing is anchored, match when the hash is the
    anchored one, amendment when a record of an amendment to the current hash exists,
    and tampering otherwise, a deleted document included. The tampering flag is up
    exactly when some document is tampered with, and verifying changes no anchor. *)
Theorem VerifyAnchors_exact cur w w' rep :
  VerifyAnchors cur w = (w', Ok rep) ->
  (forall d s, (exists fr, fr ∈ ir_Files rep /\ fr_DocName fr = d /\ fr_Status fr = s) <->
     doc_status w cur d = Some s) /\
  (ir_HasTampering rep = true <-> exists d, doc_status w cur d = Some AnchorTampering) /\
  anchored w' = anchored w /\ amended w' = amended w.
Proof.
  intros E. apply VerifyAnchors_spec in E as [Hv ([R1 R2] & R3)].
  assert (Hiff : forall d s, (exists fr, fr ∈ ir_Files rep /\ fr_DocName fr = d /\ fr_Status fr = s)
            <-> doc_status w cur d = Some s).
  { intros d s. split.
    - intros (fr & Hfr & <- & <-). by apply R1.
    - intros Hs. destruct (R3 d) as (fr & Hfr & <-); [by rewrite Hs|].
      exists fr. split; [done|]. split; [done|]. apply R1 in Hfr as [Hfr _]. congruence. }
  split; [done|]. split; [|apply Hv]. rewrite R2. setoid_rewrite <- Hiff. naive_solver.
Qed.

(** The first anchor is binding. After the documents of a fresh identity have
    been verified and their initial anchors written, a document that was new then
    can only change through an amendment: under any later contents it is a match if
    its hash is the anchored one, an amendment if one to its hash is on record,
    and tampering if it differs or has been deleted. *)
Theorem initial_anchor_binds cur w w1 w2 rep d h later :
  VerifyAnchors cur w = (w1, Ok rep) -> WriteInitialAnchors rep w1 = (w2, Ok tt) ->
  doc_status w cur d = Some AnchorNew -> cur !! d = Some h -> h <> "" ->
  doc_status w2 later d =
    Some (match later !! d with
          | None => AnchorTampering
          | Some h' => if String.eqb h h' then AnchorMatch
                       else if amended w d h' then AnchorAmendment else AnchorTampering
          end).
Proof.
  intros EV EW Hs Hh Hne. apply VerifyAnchors_spec in EV as [[V1 V2] ([R1 R2] & R3)].
  apply (write_initial_spec cur) in EW as (W1 & W2 & W3); [|intros fr Hfr; by apply R1].
  destruct (R3 d) as (fr & Hfr & <-); [by rewrite Hs|]. destruct (R1 fr Hfr) as [Hst Hcur].
  assert (Hn : fr_Status fr = AnchorNew) by congruence.
  unfold doc_status. rewrite (W3 eq_refl fr Hfr Hn), W1, V2.
  specialize (Hcur Hn). assert (fr_CurrentHash fr = h) as -> by congruence.
  destruct (str_empty h) eqn:Ee; [by apply str_empty_true in Ee|].
  by destruct (later !! fr_DocName fr).
Qed.
End Lemmas.

(** ** The SQLite store ([internal/platform/identity.go]) *)
Module SQLiteStore.
Section Store.
Context `{Env}.

Definition GetAnchor (docName : string) : M World (string * string) :=
  wrapM ("platform: getting anchor for " +:+ fmt_q docName)
    (query (fun d _ =>
       Ok (match find_by ik_doc_name docName (db_anchors d) with
           | Some r => (ik_sha256_hash r, default "" (ik_amendment_id r))
           | None => ("", "")
           end))).

(** [REFERENCES identity_amendments(id)] *)
Definition amendment_exists (d : Database) (a : option string) : bool :=
  match a with Some i => existsb (fun r => String.eqb (am_ID r) i) (db_amendments d) | None => true end.

Definition UpsertAnchor (docName hash amendmentID : string) : M World unit :=
  let amendArg := if str_empty amendmentID then None else Some amendmentID in
  wrapM ("platform: upserting anchor for " +:+ fmt_q docName)
    (exec (fun d now =>
       let? _ := foreign_key (amendment_exists d amendArg) in
       let row := {| ik_doc_name := docName; ik_sha256_hash := hash;
                     ik_amendment_id := amendArg; ik_verified_at := now |} in
       let same r := String.eqb (ik_doc_name r) docName in
       Ok (set_identity (fun rows => if existsb same rows then updateb same (fun _ => row) rows
                                     else rows ++ [row]) id id d, tt))).

Definition GetAmendmentByID (i : string) : M World (option AmendmentRecord) :=
  let msg := "platform: getting amendment " +:+ fmt_q i in
  let! row := wrapM msg (query (fun d _ => Ok (find_by am_ID i (db_amendments d)))) in
  scan_time msg row.

Definition InsertAmendment (rec : AmendmentRecord) : M World string :=
  let! i := (if str_empty (am_ID rec) then newID else ret (am_ID rec)) in
  wrapM "platform: inserting amendment"
    (exec (fun d now =>
       let? rows := insert_pk am_ID
         {| am_ID := i; am_DocName := am_DocName rec; am_OldHash := am_OldHash rec;
            am_NewHash := am_NewHash rec; am_Reason := am_Reason rec;
            am_CoSigner := am_CoSigner rec; am_CreatedAt := now |} (db_amendments d) in
       Ok (set_identity id (fun _ => rows) id d, i))).

(** [ORDER BY created_at DESC] *)
Definition ListAmendments (docName : string) : M World (list AmendmentRecord) :=
  let! rows := wrapM ("platform: listing amendments for " +:+ fmt_q docName)
    (query (fun d _ =>
       Ok (order_by (fun r => - am_CreatedAt r)
             (whereb (fun r => String.eqb (am_DocName r) docName) (db_amendments d))))) in
  scan_times "platform: scanning amendment row" rows.

Definition ListAnchoredDocs : M World (list string) :=
  wrapM "platform: listing anchored docs" (query (fun d _ => Ok (map ik_doc_name (db_anchors d)))).

Definition substrate_exists (d : Database) (i : option string) : bool :=
  match i with Some i => existsb (fun r => String.eqb (sb_ID r) i) (db_substrates d) | None => true end.

(** A first entry has a NULL [previous_entry_id], which reads back as the empty string. *)
Definition InsertSubstrateTransition (entry : SubstrateTransition) : M World unit :=
  let prevID := if str_empty (sb_PreviousEntryID entry) then None
                else Some (sb_PreviousEntryID entry) in
  wrapM "platform: inserting substrate transition"
    (exec (fun d now =>
       let? _ := foreign_key (substrate_exists d prevID) in
       let? rows := insert_pk sb_ID
         {| sb_ID := sb_ID entry; sb_ModelName := sb_ModelName entry;
            sb_ModelVersion := sb_ModelVersion entry;
            sb_TransitionDate := sb_TransitionDate entry;
            sb_ContinuityLetterPath := sb_ContinuityLetterPath entry;
            sb_PreviousEntryID := sb_PreviousEntryID entry; sb_CreatedAt := now |}
         (db_substrates d) in
       Ok (set_identity id id (fun _ => rows) d, tt))).

Definition GetLatestSubstrate : M World (option SubstrateTransition) :=
  let msg := "platform: scanning substrate row" in
  let! row := wrapM msg (query (fun d _ => Ok (last_by sb_TransitionDate (db_substrates d)))) in
  scan_time msg row.

Definition ListSubstrateHistory : M World (list SubstrateTransition) :=
  let! rows := wrapM "platform: listing substrate history"
    (query (fun d _ => Ok (order_by sb_TransitionDate (db_substrates d)))) in
  scan_times "platform: scanning substrate row" rows.
End Store.
End SQLiteStore.

(** [RecordTransition] ([substrate.go]); [now] is [time.Now().UTC()]. *)
Definition RecordTransition `{Env} (now : Z) (entry : SubstrateTransition) : M World unit :=
  if str_empty (sb_ID entry)
  then fail (ENew "identity: SubstrateTransition.ID must be set by the caller")
  else if str_empty (sb_ModelName entry)
  then fail (ENew "identity: SubstrateTransition.ModelName is required")
  else
    SQLiteStore.InsertSubstrateTransition
      (if time_IsZero (sb_TransitionDate entry)
       then {| sb_ID := sb_ID entry; sb_ModelName := sb_ModelName entry;
               sb_ModelVersion := sb_ModelVersion entry; sb_TransitionDate := now;
               sb_ContinuityLetterPath := sb_ContinuityLetterPath entry;
               sb_PreviousEntryID := sb_PreviousEntryID entry; sb_CreatedAt := sb_CreatedAt entry |}
       else entry).

Section SQLiteLaws.
Context `{Env}.

#[global] Instance sqlite_anchor_store : IdentityAnchorStore World :=
  {| GetAnchor := SQLiteStore.GetAnchor; UpsertAnchor := SQLiteStore.UpsertAnchor;
     GetAmendmentByID := SQLiteStore.GetAmendmentByID;
     InsertAmendment := SQLiteStore.InsertAmendment;
     ListAmendments := SQLiteStore.ListAmendments;
     ListAnchoredDocs := SQLiteStore.ListAnchoredDocs |}.

Definition sql_anchored (w : World) (d : string) : option string :=
  ik_sha256_hash <$> find_by ik_doc_name d (db_anchors (w_db w)).
Definition sql_amended (w : World) (d h : string) : bool :=
  existsb (fun r => String.eqb (am_DocName r) d && String.eqb (am_NewHash r) h)
    (db_amendments (w_db w)).

Lemma wrap_query_frame {A} msg (f : Database -> Z -> result A) w w' r :
  wrapM msg (query f) w = (w', r) ->
  w_db w' = w_db w /\ match r with Ok a => f (w_db w) (w_clock w) = Ok a | Err _ => True end.
Proof.
  intros E. apply exec_wrap_cases in E as [_ E]. destruct r; [|done].
  destruct (f (w_db w) (w_clock w)); by simplify_eq/=.
Qed.

Lemma existsb_order_by {A} (key : A -> Z) p l : existsb p (order_by key l) = existsb p l.
Proof.
  apply eq_bool_prop_intro. rewrite !Is_true_true, !existsb_exists.
  setoid_rewrite <- list_elem_of_In. by setoid_rewrite (order_by_Permutation key l).
Qed.

Lemma existsb_whereb {A} (p q : A -> bool) l :
  existsb q (whereb p l) = existsb (fun x => p x && q x) l.
Proof. induction l as [|x l IH]; [done|]. simpl. destruct (p x); simpl; by rewrite IH. Qed.

Lemma find_by_is_Some {A} (key : A -> string) k rows :
  is_Some (find_by key k rows) <-> k ∈ map key rows.
Proof.
  rewrite elem_of_map. split.
  - intros [r Hr]. apply find_by_Some in Hr. eauto.
  - intros (r & Hr & <-). destruct (find_by key (key r) rows) eqn:E; [by eexists|].
    by eapply find_by_None in E.
Qed.

Lemma find_by_upsert (row : AnchorRow) rows d' :
  let same r := String.eqb (ik_doc_name r) (ik_doc_name row) in
  find_by ik_doc_name d' (if existsb same rows then updateb same (fun _ => row) rows else rows ++ [row])
  = if String.eqb (ik_doc_name row) d' then Some row else find_by ik_doc_name d' rows.
Proof.
  intros same. destruct (existsb same rows) eqn:Ex.
  - unfold find_by. unfold updateb.
    assert (Hn : forall r, same r = true -> ik_doc_name r = ik_doc_name row)
      by (intros r; apply String.eqb_eq).
    induction rows as [|x rows IH]; [done|]. simpl in *.
    destruct (same x) eqn:Es; simpl.
    + rewrite (Hn x Es). destruct (String.eqb (ik_doc_name row) d') eqn:Ed; [done|].
      clear Ex IH. induction rows as [|y rows IH]; [done|]. simpl.
      destruct (same y) eqn:Ey; simpl; [rewrite (Hn y Ey), Ed; done|].
      destruct (String.eqb (ik_doc_name y) d'); [done|exact IH].
    + rewrite IH by exact Ex. destruct (String.eqb (ik_doc_name x) d') eqn:Ed; [|done].
      destruct (String.eqb (ik_doc_name row) d') eqn:Er; [|done].
      apply String.eqb_eq in Ed, Er. subst same. simpl in Es.
      rewrite Ed, Er, String.eqb_refl in Es. done.
  - unfold find_by. rewrite find_snoc. destruct (List.find _ rows) as [r|] eqn:Ef; [|done].
    destruct (String.eqb (ik_doc_name row) d') eqn:Ed; [|done].
    apply List.find_some in Ef as [Hin Hr].
    exfalso. apply not_true_iff_false in Ex. apply Ex, existsb_exists. exists r.
    apply String.eqb_eq in Hr, Ed. split; [done|]. subst same. simpl.
    apply String.eqb_eq. congruence.
Qed.

#[global, program] Instance sqlite_anchor_laws : AnchorLaws World :=
  {| anchored := sql_anchored; amended := sql_amended |}.
Next Obligation.
  intros d w w' r E. apply wrap_query_frame in E as [Hd Hr].
  unfold sql_anchored, sql_amended. rewrite Hd. split; [done|]. split; [done|].
  destruct r as [[h a]|]; [|done]. destruct (find_by _ _ _); by simplify_eq/=.
Qed.
Next Obligation.
  intros d w w' r. change (@ListAmendments World _ d) with (SQLiteStore.ListAmendments d).
  unfold SQLiteStore.ListAmendments, bind.
  destruct (wrapM _ (query _) w) as [w1 [rows|e]] eqn:E; apply wrap_query_frame in E as [Hd Hr];
    unfold sql_anchored, sql_amended; [|by intros [= <- <-]; rewrite Hd].
  intros [-> Es]%scan_times_cases. rewrite Hd. split; [done|]. split; [done|].
  destruct r as [l|]; [subst l|done]. injection Hr as <-. intros h.
  by rewrite existsb_order_by, existsb_whereb.
Qed.
Next Obligation.
  intros w w' r E. apply wrap_query_frame in E as [Hd Hr].
  unfold sql_anchored, sql_amended. rewrite Hd. split; [done|]. split; [done|].
  destruct r as [l|]; [|done]. injection Hr as <-. intros d.
  rewrite <- find_by_is_Some, fmap_is_Some. done.
Qed.
Next Obligation.
  intros d h a w w' r E. apply exec_wrap_cases in E as [_ Hr].
  unfold sql_anchored, sql_amended. destruct r as [[]|]; [|by rewrite Hr].
  destruct (foreign_key _); [|done]. cbn [result_bind] in Hr. injection Hr as <-. simpl.
  set (row := {| ik_doc_name := d |}).
  split; [done|]. split.
  - intros d' Hd. rewrite (find_by_upsert row). simpl.
    destruct (String.eqb_spec d d'); [congruence|done].
  - rewrite (find_by_upsert row). simpl. by rewrite String.eqb_refl.
Qed.
(** Where time columns are TEXT, as the migrations of [cmd/migrate] declare them on
    SQLite, a changed document with any amendment on record cannot be verified: reading
    the amendments fails, and with them the verification, sanctioned or not. *)
Lemma amended_document_unverifiable msg doc h0 h r w :
  db_time_scan = Some msg -> sql_anchored w doc = Some h0 -> h0 <> "" -> h0 <> h ->
  r ∈ db_amendments (w_db w) -> am_DocName r = doc ->
  is_ok (verify_file doc h w).2 = false.
Proof.
  intros Ht Ha H0 Hh Hr Hd. unfold verify_file, bind.
  change (@GetAnchor World _ doc) with (SQLiteStore.GetAnchor doc). unfold SQLiteStore.GetAnchor.
  destruct (wrapM ("identity: getting anchor for " +:+ doc) _ w) as [w1 [[st am]|e]] eqn:E1; [|done].
  unfold wrapM at 1 in E1. destruct (wrapM _ (query _) w) as [w2 [x|e]] eqn:E2; [|done].
  apply wrap_query_frame in E2 as [D2 E2]. simpl in E1. injection E1 as -> ->.
  unfold sql_anchored in Ha. destruct (find_by ik_doc_name doc _) as [a|] eqn:Ef; [|done].
  simpl in Ha. injection Ha as Ha. injection E2 as E2 _. subst st. rewrite Ha.
  destruct (str_empty h0) eqn:E0; [by apply str_empty_true in E0|].
  destruct (String.eqb h0 h) eqn:Ee; [by apply String.eqb_eq in Ee|].
  unfold findAmendmentByNewHash, bind.
  change (@ListAmendments World _ doc) with (SQLiteStore.ListAmendments doc).
  unfold SQLiteStore.ListAmendments, bind. unfold wrapM at 1.
  destruct (wrapM _ (query _) w1) as [w3 [rows|e]] eqn:E3; [|done].
  apply wrap_query_frame in E3 as [_ E3]. injection E3 as <-. rewrite D2.
  unfold scan_times. rewrite Ht. destruct (order_by _ _) as [|y l] eqn:El; [|done].
  exfalso. assert (r ∈ order_by (fun r => - am_CreatedAt r)
    (whereb (fun r => String.eqb (am_DocName r) doc) (db_amendments (w_db w)))) as Hin.
  { rewrite order_by_Permutation, elem_of_whereb, Hd. by rewrite String.eqb_refl. }
  rewrite El in Hin. by apply elem_of_nil in Hin.
Qed.
End SQLiteLaws.

(** ** Witnesses *)

#[global, program] Instance demo_range : MapRange := {| map_range := map_to_list |}.
Next Obligation. done. Qed.

Definition demo_hashes : gmap string string := {["soul.md" := "h1"; "values.md" := "h2"]}.
Definition demo_verified := @VerifyAnchors World (@sqlite_anchor_store demo_env) _ demo_hashes demo_world.
Definition demo_report : IntegrityReport :=
  match demo_verified.2 with Ok r => r | Err _ => {| ir_Files := []; ir_HasTampering := true |} end.
Definition demo_anchored :=
  @WriteInitialAnchors World (@sqlite_anchor_store demo_env) demo_report demo_verified.1.

Lemma VerifyAnchors_exact_witness :
  ir_HasTampering demo_report = true <->
  exists d, @doc_status World _ (@sqlite_anchor_laws demo_env) demo_world demo_hashes d
            = Some AnchorTampering.
Proof.
  refine (proj1 (proj2 (@VerifyAnchors_exact World _ (@sqlite_anchor_laws demo_env) _ demo_hashes
    demo_world demo_verified.1 demo_report _))). vm_compute. reflexivity.
Defined.

Lemma initial_anchor_binds_witness :
  @doc_status World _ (@sqlite_anchor_laws demo_env) demo_anchored.1 ∅ "soul.md"
  = Some AnchorTampering.
Proof.
  refine (eq_trans (@initial_anchor_binds World _ (@sqlite_anchor_laws demo_env) _ demo_hashes
    demo_world demo_verified.1 demo_anchored.1 demo_report "soul.md" "h1" ∅ _ _ _ _ _) eq_refl);
    [vm_compute; reflexivity ..|discriminate].
Defined.
