(* ===== verification/Awareness.v ===== *)
(** * Orientation bridge and grounding ([internal/awareness])

    bridge.go: the second-person bridge an agent is given when it wakes, with its
    stochastic abstention; grounding.go: the environment block. The language model,
    the random source and the clock are effects on an abstract world. *)

From S2P Require Import Prelude Types.

(** What the packages read of the process: [time.Now], [math/rand/v2]'s [Float64],
    [crypto/rand] (8 bytes, [None] when the read fails; 16 bytes for an ID, whose
    failure panics), the time-zone database, and the Unicode part of [TrimSpace]. *)
Class Process (W : Type) := {
  time_Now : W -> W * Z;
  rand_Float64 : W -> W * float64;
  crypto_Read8 : W -> W * option (list Z);
  crypto_Read16 : W -> W * list Z;
  LoadLocation_ok : string -> bool;
  time_Format_in : string -> Z -> string;
  unicode_trim : string -> string }.

Definition draw {W A} (f : W -> W * A) : M W A := fun w => let '(w', a) := f w in (w', Ok a).

Section Awareness.
Context {W : Type} `{Process W}.

Definition TrimSpace (s : string) : string :=
  trim_space unicode_trim s.

(** ** Bridge ([bridge.go]) *)

Record BridgeConfig := { bc_AbstainRate : float64; bc_Model : string }.
Record BridgeResult := { br_Content : string; br_Abstained : bool }.

Definition thread_line (t : string) : string := "- " +:+ TrimSpace t +:+ newline.

Definition buildBridgePrompt (narrative : string) (activeThreads : list string) : string :=
  "You are writing a brief orientation bridge for an AI agent waking from sleep." +:+ newline +:+
  "Write in second person, present tense. Two to four sentences maximum." +:+ newline +:+
  "Ground her in where she left off — what she was doing, what she cares about," +:+ newline +:+
  "what is still in motion. Do not summarise everything; surface what matters most right now."
  +:+ newline +:+ newline +:+
  "RECENT NARRATIVE:" +:+ newline +:+ narrative +:+ newline +:+ newline +:+
  (match activeThreads with
   | [] => ""
   | _ => "ACTIVE THREADS:" +:+ newline +:+
          String.concat "" (map thread_line activeThreads) +:+ newline
   end) +:+
  "Write the orientation bridge now:".

Definition abstain_rate (cfg : BridgeConfig) : float64 :=
  if fleb (bc_AbstainRate cfg) f_zero then f_lit 20 100 else bc_AbstainRate cfg.

Definition SynthesizeBridge (narrative : string) (activeThreads : list string)
    (cfg : BridgeConfig) (llmFn : string -> M W string) : M W BridgeResult :=
  let! r := draw rand_Float64 in
  if fltb r (abstain_rate cfg) then ret {| br_Content := ""; br_Abstained := true |} else
  let! content := wrapM "bridge: LLM call failed"
                    (llmFn (buildBridgePrompt narrative activeThreads)) in
  ret {| br_Content := TrimSpace content; br_Abstained := false |}.

(** ** Grounding ([grounding.go]) *)

Record GroundingData := {
  gd_Time : Z; gd_Timezone : string; gd_Location : string; gd_Weather : string }.
Record GroundingConfig := {
  gc_Timezone : string; gc_Location : string; gc_WeatherAPIKey : string;
  gc_WeatherLocation : string }.

Definition Gather (cfg : GroundingConfig) : M W GroundingData :=
  let tz := str_or (gc_Timezone cfg) "UTC" in
  let tz := if LoadLocation_ok tz then tz else "UTC" in
  let! now := draw time_Now in
  ret {| gd_Time := now; gd_Timezone := tz; gd_Location := gc_Location cfg;
         gd_Weather := "not configured" |}.

Definition Format (g : GroundingData) : string :=
  "Time: " +:+ time_Format_in (gd_Timezone g) (gd_Time g) +:+
  newline +:+ "Timezone: " +:+ gd_Timezone g +:+
  newline +:+ "Location: " +:+ str_or (gd_Location g) "unknown" +:+
  newline +:+ "Weather: " +:+ gd_Weather g.
End Awareness.
