(* ===== verification/Support.v ===== *)
(** * Supporting parts: log levels, events, redaction, random IDs

    [platform/logging.go], [pkg/events.go], [pkg/register.go], [telemetry/events.go], the
    [emit] of [engine/engine.go], [RedactDSN] of [app/helpers.go], the four copies of the
    UUID generator and the table allowlist of [platform/db.go]. *)

From S2P Require Import Prelude Types Db Memory MemoryStore Awareness.

(** ** Log levels *)

Definition LevelDebug : Z := -4.
Definition LevelInfo : Z := 0.
Definition LevelWarn : Z := 4.
Definition LevelError : Z := 8.

Definition LogLevel (s : string) : Z :=
  if String.eqb s "debug" then LevelDebug
  else if one_of s ["warn"; "warning"] then LevelWarn
  else if String.eqb s "error" then LevelError
  else LevelInfo.

(** [NewLogger(level)]: the JSON handler on stdout drops the records below its level. *)
Record LogRecord := { rec_Level : Z; rec_Message : string }.
Record Logger := { lg_level : Z }.
Definition NewLogger (level : Z) : Logger := {| lg_level := level |}.
Definition Enabled (l : Logger) (r : LogRecord) : bool := lg_level l <=? rec_Level r.

(** Errors are written at every level a configuration can name, and a misspelt level
    never hides a warning. *)
Lemma errors_always_logged s msg : Enabled (NewLogger (LogLevel s)) {| rec_Level := LevelError; rec_Message := msg |} = true.
Proof. unfold Enabled, LogLevel. simpl. by repeat case_match. Qed.
Lemma unknown_level_is_info s : s ∉ ["debug"; "warn"; "warning"; "error"] -> LogLevel s = LevelInfo.
Proof.
  intros Hs. unfold LogLevel. destruct (String.eqb_spec s "debug") as [->|]; [set_solver|].
  destruct (one_of s _) eqn:E; [apply one_of_elem in E; set_solver|].
  destruct (String.eqb_spec s "error") as [->|]; [set_solver|done].
Qed.

(** ** Events *)

Inductive StreamEventType :=
  | EventTextStart | EventTextDelta | EventTextEnd | EventThinkStart | EventThinkDelta | EventThinkEnd
  | EventToolCallStart | EventToolCallDelta | EventToolCallEnd.
Record StreamEvent := {
  se_Type : StreamEventType; se_Text : string; se_ToolCall : option ToolCall; se_Index : Z }.

Definition engine_events : list string :=
  ["session_start"; "session_end"; "turn_start"; "llm_request"; "llm_response"; "tool_dispatch";
   "tool_result"; "hook_block"; "steering_injected"; "loop_terminated"].
Record EngineEvent {D : Type} := {
  ee_Type : string; ee_SessionID : string; ee_Timestamp : Z; ee_Data : D }.
Arguments EngineEvent : clear implicits.

(** [cfg.emit]: a nil sink costs nothing, not even a look at the clock. *)
Definition emit {W D} `{Process W} (EventSink : option (EngineEvent D -> W -> W))
    (eventType sessionID : string) (data : D) (w : W) : W :=
  match EventSink with
  | None => w
  | Some sink =>
      let '(w, now) := time_Now w in
      sink {| ee_Type := eventType; ee_SessionID := sessionID; ee_Timestamp := now; ee_Data := data |} w
  end.

(** Telemetry records; [DecayReport] is [memory]'s. *)
Record TurnEvent := {
  te_SessionID : string; te_TurnNumber : Z; te_PromptTokens : Z; te_CompletionTokens : Z;
  te_ThinkingTokens : Z; te_TTFT : Z; te_TotalDuration : Z; te_ToolCalls : list string; te_Model : string }.
Record EchoDiversityMetrics := {
  ed_TemporalSpreadDays : float64; ed_TopicDiversity : float64; ed_Count : Z }.

Record SessionEvent := {
  sv_SessionID : string; sv_TotalTurns : Z; sv_TotalPromptTokens : Z; sv_TotalCompletionTokens : Z;
  sv_TotalDuration : Z; sv_AverageTokPerSec : float64; sv_AverageTTFT : Z;
  sv_EchoDiversity : EchoDiversityMetrics; sv_ConvergenceRatio : float64;
  sv_ContradictionSurfaced : bool; sv_DecayReport : option DecayReport }.

(** Register observations; nothing computes them yet. *)
Record RegisterObservation := {
  ro_HedgingSignal : float64; ro_ExploratoryLanguage : float64; ro_AffectiveLanguageSignal : float64;
  ro_Provenance : string; ro_Method : string; ro_Version : string; ro_Confidence : float64 }.

(** ** Redaction *)

(** The loop that looks for the first [@]. *)
Fixpoint first_at (i : nat) (s : string) : option nat :=
  match s with
  | "" => None
  | String c rest => if String.eqb (String c "") "@" then Some i else first_at (S i) rest
  end.

Definition RedactDSN (dsn : string) : string :=
  if str_empty dsn then "[empty]"
  else if has_prefix dsn "postgres://" || has_prefix dsn "postgresql://" then
    let start := default 0%nat (first_at 0 dsn) in
    if (0 <? start)%nat then String.substring 0 11 dsn +:+ "***" +:+ str_drop start dsn else dsn
  else dsn.

(** No [@] in a text, wherever the count starts. *)
Lemma first_at_none s i j : first_at i s = None -> first_at j s = None.
Proof.
  revert i j. induction s as [|c s IH]; intros i j; [done|]. cbn [first_at].
  destruct (String.eqb _ _); [done|]. apply IH.
Qed.
Lemma first_at_app i s t : first_at 0 s = None -> first_at i (s +:+ "@" +:+ t) = Some (i + String.length s)%nat.
Proof.
  revert i. induction s as [|c s IH]; intros i Hn.
  - rewrite Nat.add_0_r. reflexivity.
  - rewrite str_app_cons. cbn [first_at String.length] in *.
    destruct (String.eqb _ _); [done|]. rewrite IH by (by eapply first_at_none). f_equal. lia.
Qed.

(** Credentials without an [@] are hidden: DSNs that differ in them are redacted alike,
    to the first eleven bytes of the scheme, asterisks and what follows the [@]. *)
Theorem RedactDSN_hides scheme user rest :
  scheme ∈ ["postgres://"; "postgresql://"] -> first_at 0 user = None ->
  RedactDSN (scheme +:+ user +:+ "@" +:+ rest) = String.substring 0 11 scheme +:+ "***@" +:+ rest.
Proof.
  intros Hs Hu. unfold RedactDSN.
  assert (Hp : forall t, str_empty (scheme +:+ t) = false /\
    (has_prefix (scheme +:+ t) "postgres://" || has_prefix (scheme +:+ t) "postgresql://") = true /\
    String.substring 0 11 (scheme +:+ t) = String.substring 0 11 scheme /\ first_at 0 scheme = None /\
    (0 < String.length scheme)%nat).
  { intros t. elem_cases Hs; split_and!; try reflexivity; try (simpl; lia); by destruct t. }
  destruct (Hp (user +:+ "@" +:+ rest)) as (-> & -> & -> & Hn & Hlen).
  assert (Hat : first_at 0 (scheme +:+ user +:+ "@" +:+ rest) = Some (String.length (scheme +:+ user))).
  { rewrite <- str_app_assoc. rewrite first_at_app; [done|].
    clear - Hn Hu. revert Hn. generalize 0%nat at 1 2. induction scheme as [|c s IH]; intros n Hn; [by eapply first_at_none|].
    rewrite str_app_cons. cbn [first_at] in *. destruct (String.eqb _ _); [done|]. by apply IH. }
  rewrite Hat. cbv zeta. unfold default, id.
  assert (Hpos : (0 <? String.length (scheme +:+ user))%nat = true) by (apply Nat.ltb_lt; rewrite length_str_app; lia).
  rewrite Hpos, <- (str_app_assoc scheme), str_drop_app. reflexivity.
Qed.

(** Three limits: the second scheme loses its slashes, a password with an [@] is shown
    from there on, and one given as a parameter is shown whole. *)
Example RedactDSN_limits :
  RedactDSN "postgresql://u:secret@h/db" = "postgresql:***@h/db" /\
  RedactDSN "postgres://u:se@cret@h/db" = "postgres://***@cret@h/db" /\
  RedactDSN "postgres://h/db?password=secret" = "postgres://h/db?password=secret".
Proof. split_and!; reflexivity. Qed.

(** ** Random IDs

    [newID] of [memory/ids.go], [newPlatformID], [newMetabolismID] and [newAssemblyID] are
    one generator: sixteen random bytes, or a panic in the name of the package. *)
Definition random_uuid (package : string) (rand_Read : result (list Z)) : string + string :=
  match rand_Read with
  | Err e => inl (package +:+ ": crypto/rand unavailable: " +:+ error_Error e)
  | Ok b => inr (format_uuid b)
  end.
Definition newPlatformID : result (list Z) -> string + string := random_uuid "platform".
Definition memory_newID : result (list Z) -> string + string := random_uuid "memory".
Definition newMetabolismID : result (list Z) -> string + string := random_uuid "metabolism".
Definition newAssemblyID (rand_Read : result (list Z)) : string + string :=
  match rand_Read with
  | Err e => inl ("assembly: crypto/rand failure generating manifest ID: " +:+ error_Error e)
  | Ok b => inr (format_uuid b)
  end.

Lemma versioned_byte (b : Z) : 0 <= b < 256 ->
  hex_digit (Z.lor (Z.land b 15) 64 / 16) = Ascii.ascii_of_nat 52.
Proof.
  intros Hb. assert (Hf : forallb (fun k => Ascii.eqb (hex_digit (Z.lor (Z.land (Z.of_nat k) 15) 64 / 16)) (Ascii.ascii_of_nat 52))
    (seq 0 256) = true) by (vm_compute; reflexivity).
  rewrite forallb_forall in Hf. specialize (Hf (Z.to_nat b)). rewrite Z2Nat.id in Hf by lia.
  apply Ascii.eqb_eq, Hf, in_seq. lia.
Qed.
Lemma variant_byte (b : Z) : 0 <= b < 256 ->
  hex_digit (Z.lor (Z.land b 63) 128 / 16) ∈ String.list_ascii_of_string "89ab".
Proof.
  intros Hb. assert (Hf : forallb (fun k => existsb (Ascii.eqb (hex_digit (Z.lor (Z.land (Z.of_nat k) 63) 128 / 16)))
    (String.list_ascii_of_string "89ab")) (seq 0 256) = true) by (vm_compute; reflexivity).
  rewrite forallb_forall in Hf. specialize (Hf (Z.to_nat b)). rewrite Z2Nat.id in Hf by lia.
  rewrite existsb_exists in Hf. destruct Hf as (c & Hc & E); [apply in_seq; lia|].
  apply Ascii.eqb_eq in E as ->. by apply list_elem_of_In.
Qed.

(** A generated ID is a version-4 UUID: 36 characters, dashes in their places, the
    version digit 4 and a variant digit of RFC 4122. *)
Theorem random_uuid_v4 package bs id :
  length bs = 16%nat -> Forall (fun b => 0 <= b < 256) bs -> random_uuid package (Ok bs) = inr id ->
  String.length id = 36%nat /\
  map (fun i => String.get i id) [8; 13; 18; 23]%nat = repeat (Some (Ascii.ascii_of_nat 45)) 4 /\
  String.get 14 id = Some (Ascii.ascii_of_nat 52) /\
  exists c, String.get 19 id = Some c /\ c ∈ String.list_ascii_of_string "89ab".
Proof.
  intros Hlen Hb. simpl. intros [= <-].
  do 16 (destruct bs as [|? bs]; [done|]). destruct bs; [|done].
  repeat (apply Forall_cons in Hb as [? Hb]).
  split; [reflexivity|]. split; [reflexivity|]. split; [exact (f_equal Some (versioned_byte z5 ltac:(assumption)))|].
  eexists. split; [reflexivity|]. by apply (variant_byte z7).
Qed.

(** ** The table allowlist *)

(** [validateTableName]: what may be concatenated into dynamic SQL. *)
Definition validateTableName (table : string) : result unit :=
  if one_of table validTierTables then Ok tt
  else Err (ENew ("platform: invalid table name " +:+ fmt_q table +:+ " — not in tier allowlist")).
Lemma validateTableName_exact table : validateTableName table = Ok tt <-> table ∈ validTierTables.
Proof. unfold validateTableName. rewrite <- one_of_elem. by destruct (one_of table _). Qed.
