(* ===== verification/Client.v ===== *)
(** * The LLM client ([internal/engine/client.go])

    [OpenAICompatClient]: the message array it sends, the SSE stream it reads back line
    by line, the assembly of content, thinking and tool calls from partial deltas, and
    the removal of thinking tags. The HTTP transport, [encoding/json] on a chunk and on
    the request, and the process's clock are parameters. *)

From S2P Require Import Prelude Types Db Awareness.

(** ** Thinking tags *)

(** The inner loop of [stripThinkingTokens] for one pair of tags: what is left of [s]
    and the thinking removed so far. The measure is the length of [s]. *)
Fixpoint strip_pair (fuel : nat) (open close s thinking : string) : string * string :=
  match fuel with
  | O => (s, thinking)
  | S fuel =>
      match str_index s open with
      | None => (s, thinking)
      | Some start =>
          let body := str_drop (start + String.length open) s in
          match str_index body close with
          | None => (s, thinking)
          | Some n =>
              strip_pair fuel open close
                (str_take start s +:+ str_drop (n + String.length close) body)
                (thinking +:+ str_take n body)
          end
      end
  end.
Definition strip_all (open close : string) (st : string * string) : string * string :=
  strip_pair (S (String.length st.1)) open close st.1 st.2.

Definition think_pairs : list (string * string) :=
  [("<think>", "</think>"); ("<thought>", "</thought>")].

(** ** The stream: [bufio.Scanner] on lines *)

Definition is_newline (c : Ascii.ascii) : bool := ascii_code c =? 10.

(** The pieces between newlines; the last one has no newline after it. *)
Fixpoint split_newlines (s : string) : list string :=
  match s with
  | "" => [""]
  | String c r =>
      if is_newline c then "" :: split_newlines r
      else match split_newlines r with l :: ls => String c l :: ls | [] => [] end
  end.

(** A trailing carriage return is dropped. *)
Fixpoint drop_cr (s : string) : string :=
  match s with
  | "" => ""
  | String c "" => if ascii_code c =? 13 then "" else s
  | String c r => String c (drop_cr r)
  end.

(** [scanner.Buffer(make([]byte, 0), 1024*1024)]. *)
Definition maxTokenSize : Z := 1048576.

(** The tokens a scanner delivers, each with whether the reader's end had been met, and
    whether it stopped at a line that does not fit the buffer. An empty last piece is
    no token. *)
Fixpoint scan_tokens (pieces : list string) : list (string * bool) * bool :=
  match pieces with
  | [] => ([], false)
  | l :: rest =>
      if maxTokenSize <=? str_len l then ([], true)
      else match rest with
           | [] => (if str_empty l then [] else [(drop_cr l, true)], false)
           | _ => let '(ts, long) := scan_tokens rest in ((drop_cr l, false) :: ts, long)
           end
  end.
Definition scan_body (body : string) : list (string * bool) * bool :=
  scan_tokens (split_newlines body).

(** ** Chunks *)

Record toolCallDelta := {
  tcd_Index : Z; tcd_ID : string; tcd_Name : string; tcd_Arguments : string }.
Record Delta := {
  de_Content : string; de_Reasoning : string; de_ReasoningContent : string;
  de_ToolCalls : list toolCallDelta }.
Record Choice := { ch_Delta : Delta; ch_FinishReason : option string }.
(** [sc_Usage]: prompt and completion tokens. *)
Record sseChunk := { sc_Choices : list Choice; sc_Usage : option (Z * Z) }.

(** The variables of [parseStream]; [ac_ttft = None] while nothing has arrived. *)
Record Accum := {
  ac_content : string; ac_thinking : string; ac_field : string;
  ac_calls : gmap Z ToolCall; ac_prompt : Z; ac_comp : Z; ac_ttft : option Z;
  ac_finish : string }.
Definition zero_accum : Accum :=
  {| ac_content := ""; ac_thinking := ""; ac_field := ""; ac_calls := ∅; ac_prompt := 0;
     ac_comp := 0; ac_ttft := None; ac_finish := "" |}.

Definition zero_call : ToolCall :=
  {| tc_ID := ""; tc_Name := ""; tc_Arguments := ""; tc_Destination := "" |}.

(** One partial tool call: the last non-empty ID and name count, arguments are appended. *)
Definition merge_call (acc : ToolCall) (d : toolCallDelta) : ToolCall :=
  {| tc_ID := str_or (tcd_ID d) (tc_ID acc); tc_Name := str_or (tcd_Name d) (tc_Name acc);
     tc_Arguments := tc_Arguments acc +:+ tcd_Arguments d; tc_Destination := tc_Destination acc |}.
Definition add_call (calls : gmap Z ToolCall) (d : toolCallDelta) : gmap Z ToolCall :=
  <[tcd_Index d := merge_call (default zero_call (calls !! tcd_Index d)) d]> calls.

Definition reasoning_of (d : Delta) : string := str_or (de_Reasoning d) (de_ReasoningContent d).
Definition reasoning_source (d : Delta) : string :=
  if str_empty (de_Reasoning d) then "reasoning_content" else "reasoning".
Definition arrives (d : Delta) : bool :=
  negb (str_empty (reasoning_of d)) || negb (str_empty (de_Content d)) ||
  match de_ToolCalls d with [] => false | _ => true end.

Definition use_usage (c : sseChunk) (a : Accum) : Accum :=
  match sc_Usage c with
  | None => a
  | Some (p, n) => {| ac_content := ac_content a; ac_thinking := ac_thinking a;
                      ac_field := ac_field a; ac_calls := ac_calls a; ac_prompt := p;
                      ac_comp := n; ac_ttft := ac_ttft a; ac_finish := ac_finish a |}
  end.
(** The delta of a choice; [ttft] is the time to the first arrival, this one included. *)
Definition use_choice (c : Choice) (ttft : option Z) (a : Accum) : Accum :=
  let d := ch_Delta c in
  let r := reasoning_of d in
  {| ac_content := ac_content a +:+ de_Content d; ac_thinking := ac_thinking a +:+ r;
     ac_field := if str_empty r then ac_field a else str_or (ac_field a) (reasoning_source d);
     ac_calls := fold_left add_call (de_ToolCalls d) (ac_calls a);
     ac_prompt := ac_prompt a; ac_comp := ac_comp a; ac_ttft := ttft;
     ac_finish := str_or (default "" (ch_FinishReason c)) (ac_finish a) |}.

Section Client.
Context {W : Type} `{Process W}.
(** [json.Unmarshal] of a payload into an [sseChunk]; [None] is an error. *)
Variable json_chunk : string -> option sseChunk.

Definition stripThinkingTokens (s : string) : string * string :=
  let '(s, thinking) :=
    fold_left (fun st '(open, close) => strip_all open close st) think_pairs (s, "") in
  (TrimSpace s, TrimSpace thinking).

Definition time_Since (start : Z) : M W Z :=
  let! now := draw time_Now in ret (time_Sub now start).

Definition use_chunk (start : Z) (c : sseChunk) (a : Accum) : M W Accum :=
  let a := use_usage c a in
  match sc_Choices c with
  | [] => ret a
  | ch :: _ =>
      match ac_ttft a, arrives (ch_Delta ch) with
      | None, true => let! t := time_Since start in ret (use_choice ch (Some t) a)
      | ttft, _ => ret (use_choice ch ttft a)
      end
  end.

(** The payload of a data line. *)
Definition data_prefix : string := "data: ".
Definition payload (line : string) : option string :=
  if has_prefix line data_prefix then Some (str_drop (String.length data_prefix) line) else None.

(** The scan loop: the accumulator, and whether the loop left at [[DONE]] before the
    reader's end was met. *)
Fixpoint parse_lines (start : Z) (tokens : list (string * bool)) (a : Accum)
    : M W (Accum * bool) :=
  match tokens with
  | [] => ret (a, false)
  | (line, at_end) :: rest =>
      match payload line with
      | None => parse_lines start rest a
      | Some p =>
          if String.eqb p "[DONE]" then ret (a, negb at_end)
          else match json_chunk p with
               | None => parse_lines start rest a
               | Some c => let! a := use_chunk start c a in parse_lines start rest a
               end
      end
  end.

Definition call_indices (calls : gmap Z ToolCall) : list Z := order_by id (map fst (map_to_list calls)).

Definition text_block (text : string) : ContentBlock :=
  {| cb_Type := BlockText; cb_Text := text; cb_Thinking := ""; cb_ToolCall := None; cb_FieldName := "" |}.
Definition thinking_block (thinking field : string) : ContentBlock :=
  {| cb_Type := BlockThinking; cb_Text := ""; cb_Thinking := thinking; cb_ToolCall := None;
     cb_FieldName := field |}.
Definition call_block (c : ToolCall) : ContentBlock :=
  {| cb_Type := BlockToolCall; cb_Text := ""; cb_Thinking := ""; cb_ToolCall := Some c;
     cb_FieldName := "" |}.

(** Native thinking has priority; only without it are tags stripped from the content. *)
Definition split_thinking (thinkingMode : bool) (a : Accum) : string * string * string :=
  if str_empty (ac_thinking a) && thinkingMode then
    let '(cleaned, stripped) := stripThinkingTokens (ac_content a) in
    if str_empty stripped then (ac_content a, ac_thinking a, ac_field a)
    else (cleaned, stripped, "")
  else (ac_content a, ac_thinking a, ac_field a).

Definition build_blocks (thinkingMode : bool) (a : Accum) : list ContentBlock :=
  let '(content, thinking, field) := split_thinking thinkingMode a in
  (if str_empty thinking then [] else [thinking_block (TrimSpace thinking) field]) ++
  (if str_empty (TrimSpace content) then [] else [text_block (TrimSpace content)]) ++
  map (fun i => call_block (default zero_call (ac_calls a !! i))) (call_indices (ac_calls a)).

Definition build_response (thinkingMode : bool) (a : Accum) (total : Z) : CompletionResponse :=
  let '(_, thinking, _) := split_thinking thinkingMode a in
  {| resp_Blocks := build_blocks thinkingMode a; resp_FinishReason := ac_finish a;
     resp_PromptTokens := ac_prompt a; resp_CompletionTokens := ac_comp a;
     resp_ThinkingTokens := str_len (TrimSpace thinking) / 4;
     resp_RawTokS := if fgtb (duration_Seconds total) f_zero && (0 <? ac_comp a)
                     then fdiv (f_of_Z (ac_comp a)) (duration_Seconds total) else f_zero;
     resp_TTFT := default 0 (ac_ttft a); resp_TotalLatency := total |}.

Definition ErrTooLong : error := ENew "bufio.Scanner: token too long".

(** [read_err]: what the body's reader returns after its bytes, [None] for EOF, on a
    read that delivers no bytes. *)
Definition parseStream (thinkingMode : bool) (body : string) (read_err : option error) (start : Z)
    : M W CompletionResponse :=
  let '(tokens, too_long) := scan_body body in
  let! r := parse_lines start tokens zero_accum in
  let '(a, left_early) := r in
  match (if left_early then None else if too_long then Some ErrTooLong else read_err) with
  | Some e => fail (EWrap "reading SSE stream" e)
  | None => let! total := time_Since start in ret (build_response thinkingMode a total)
  end.

(** ** The request *)

Record ClientConfig := {
  cl_endpoint : string; cl_apiKey : string; cl_model : string;
  cl_systemMsgFirstOnly : bool; cl_thinkingMode : bool }.

Fixpoint trim_slashes (s : string) : string :=
  match s with
  | "" => ""
  | String c r => let t := trim_slashes r in
                  if str_empty t && (ascii_code c =? 47) then "" else String c t
  end.

Definition NewOpenAICompatClient (cfg : ClientConfig) : ClientConfig :=
  {| cl_endpoint := trim_slashes (cl_endpoint cfg); cl_apiKey := cl_apiKey cfg;
     cl_model := cl_model cfg; cl_systemMsgFirstOnly := cl_systemMsgFirstOnly cfg;
     cl_thinkingMode := cl_thinkingMode cfg |}.

(** A message as sent: its role and content, and nothing else of it. *)
Definition sent_message (m : Message) : string * string := (msg_Role m, msg_Content m).

Definition buildMessages (c : ClientConfig) (req : CompletionRequest) : list (string * string) :=
  if str_empty (cr_System req) then map sent_message (cr_Messages req)
  else if cl_systemMsgFirstOnly c
  then ("system", cr_System req) ::
       map sent_message (List.filter (fun m => negb (String.eqb (msg_Role m) "system"))
                           (cr_Messages req))
  else ("system", cr_System req) :: map sent_message (cr_Messages req).

(** The body of the request; [None] is a key left out. *)
Record ChatBody := {
  cb_model : string; cb_messages : list (string * string); cb_max_tokens : option Z;
  cb_temperature : option float64; cb_enable_thinking : bool; cb_tools : list ToolDef }.
Definition chat_body (c : ClientConfig) (req : CompletionRequest) : ChatBody :=
  {| cb_model := cl_model c; cb_messages := buildMessages c req;
     cb_max_tokens := if 0 <? cr_MaxTokens req then Some (cr_MaxTokens req) else None;
     cb_temperature := cr_Temperature req; cb_enable_thinking := cl_thinkingMode c;
     cb_tools := cr_Tools req |}.

Record HttpRequest := { hq_url : string; hq_headers : list (string * string); hq_body : string }.
Record HttpResponse := { hp_status : Z; hp_body : string; hp_read_err : option error }.

Definition headers (c : ClientConfig) : list (string * string) :=
  ("Content-Type", "application/json") ::
  (if str_empty (cl_apiKey c) then [] else [("Authorization", "Bearer " +:+ cl_apiKey c)]).

(** [json.Marshal], the errors of [http.NewRequestWithContext], and the transport. *)
Variable json_body : ChatBody -> result string.
Variable check_url : string -> option error.
Variable http_Do : HttpRequest -> M W HttpResponse.

Definition Complete (c : ClientConfig) (req : CompletionRequest) : M W CompletionResponse :=
  match wrap_err "marshalling request" (json_body (chat_body c req)) with
  | Err e => fail e
  | Ok body =>
      let url := cl_endpoint c +:+ "/chat/completions" in
      match check_url url with
      | Some e => fail (EWrap "creating HTTP request" e)
      | None =>
          let! start := draw time_Now in
          let! resp := wrapM "executing HTTP request"
                         (http_Do {| hq_url := url; hq_headers := headers c; hq_body := body |}) in
          if hp_status resp =? 200
          then parseStream (cl_thinkingMode c) (hp_body resp) (hp_read_err resp) start
          else fail (ENew ("LLM endpoint returned " +:+ fmt_d (hp_status resp) +:+ ": " +:+
                           str_take 4096 (hp_body resp)))
      end
  end.

(** ** Facts about strings *)

Definition str_cat (l : list string) : string := foldr String.append "" l.
Lemma str_cat_app l1 l2 : str_cat (l1 ++ l2) = str_cat l1 +:+ str_cat l2.
Proof using Type.
  induction l1 as [|s l1 IH]; [done|]. simpl. by rewrite IH, str_app_assoc.
Qed.
(** The last non-empty string of a list. *)
Fixpoint last_nonempty (l : list string) : string :=
  match l with [] => "" | s :: r => str_or (last_nonempty r) s end.
Lemma str_or_assoc a b c : str_or (str_or a b) c = str_or a (str_or b c).
Proof using Type. unfold str_or. destruct (str_empty a) eqn:E; [done|]. by rewrite E. Qed.
Lemma str_or_empty_r a : str_or a "" = a.
Proof using Type. unfold str_or. destruct (str_empty a) eqn:E; [|done]. by apply str_empty_true in E. Qed.
Lemma last_nonempty_app l1 l2 : last_nonempty (l1 ++ l2) = str_or (last_nonempty l2) (last_nonempty l1).
Proof using Type.
  induction l1 as [|s l1 IH]; simpl; [by rewrite str_or_empty_r|]. by rewrite IH, str_or_assoc.
Qed.

(** ** What a stream says, as a whole *)

Fixpoint delivered (tokens : list (string * bool)) : list sseChunk :=
  match tokens with
  | [] => []
  | (line, _) :: rest =>
      match payload line with
      | None => delivered rest
      | Some p => if String.eqb p "[DONE]" then []
                  else match json_chunk p with None => delivered rest | Some c => c :: delivered rest end
      end
  end.
(** [[DONE]] arrived before the reader's end was met. *)
Fixpoint done_early (tokens : list (string * bool)) : bool :=
  match tokens with
  | [] => false
  | (line, at_end) :: rest =>
      if bool_decide (payload line = Some "[DONE]") then negb at_end else done_early rest
  end.

Definition deltas (cs : list sseChunk) : list Delta :=
  flat_map (fun c => match sc_Choices c with [] => [] | ch :: _ => [ch_Delta ch] end) cs.
Definition finishes (cs : list sseChunk) : list string :=
  flat_map (fun c => match sc_Choices c with [] => [] | ch :: _ => [default "" (ch_FinishReason ch)] end) cs.
Definition usages (cs : list sseChunk) : list (Z * Z) :=
  flat_map (fun c => match sc_Usage c with None => [] | Some u => [u] end) cs.
Definition call_deltas (cs : list sseChunk) : list toolCallDelta := flat_map de_ToolCalls (deltas cs).
Definition content_of (cs : list sseChunk) : string := str_cat (map de_Content (deltas cs)).
Definition thinking_of (cs : list sseChunk) : string := str_cat (map reasoning_of (deltas cs)).
(** The field of the first delta that carries reasoning. *)
Fixpoint field_of (ds : list Delta) : string :=
  match ds with
  | [] => ""
  | d :: r => if str_empty (reasoning_of d) then field_of r else reasoning_source d
  end.

(** Call [i]: its last non-empty ID and name and all its argument pieces in order. *)
Definition call_of (cs : list sseChunk) (i : Z) : option ToolCall :=
  let mine := whereb (fun d => tcd_Index d =? i) (call_deltas cs) in
  match mine with
  | [] => None
  | _ => Some {| tc_ID := last_nonempty (map tcd_ID mine); tc_Name := last_nonempty (map tcd_Name mine);
                 tc_Arguments := str_cat (map tcd_Arguments mine); tc_Destination := "" |}
  end.

(** What chunks [cs] add to an accumulator. *)
Record extends (a : Accum) (cs : list sseChunk) (a' : Accum) : Prop := {
  ex_content : ac_content a' = ac_content a +:+ content_of cs;
  ex_thinking : ac_thinking a' = ac_thinking a +:+ thinking_of cs;
  ex_field : ac_field a' = str_or (ac_field a) (field_of (deltas cs));
  ex_calls : ac_calls a' = fold_left add_call (call_deltas cs) (ac_calls a);
  ex_finish : ac_finish a' = str_or (last_nonempty (finishes cs)) (ac_finish a);
  ex_usage : (ac_prompt a', ac_comp a') = List.last (usages cs) (ac_prompt a, ac_comp a) }.

Lemma field_of_app d1 d2 : field_of (d1 ++ d2) = str_or (field_of d1) (field_of d2).
Proof using Type.
  induction d1 as [|d d1 IH]; [done|]. simpl. destruct (str_empty (reasoning_of d)); [done|].
  unfold reasoning_source. by destruct (str_empty (de_Reasoning d)).
Qed.
Lemma last_app_default {A} (l1 l2 : list A) d : List.last (l1 ++ l2) d = List.last l2 (List.last l1 d).
Proof using Type.
  destruct l2 as [|x l2] using rev_ind; [by rewrite app_nil_r|].
  by rewrite app_assoc, !List.last_last.
Qed.

Lemma extends_nil a : extends a [] a.
Proof using Type. split; simpl; rewrite ?str_app_nil_r, ?str_or_empty_r; done. Qed.

Lemma extends_trans a cs1 b cs2 c : extends a cs1 b -> extends b cs2 c -> extends a (cs1 ++ cs2) c.
Proof using Type.
  intros [A1 A2 A3 A4 A5 A6] [B1 B2 B3 B4 B5 B6].
  assert (Hd : deltas (cs1 ++ cs2) = deltas cs1 ++ deltas cs2) by apply flat_map_app.
  split; unfold content_of, thinking_of, call_deltas, finishes, usages in *; rewrite ?Hd.
  - by rewrite B1, A1, map_app, str_cat_app, str_app_assoc.
  - by rewrite B2, A2, map_app, str_cat_app, str_app_assoc.
  - by rewrite B3, A3, field_of_app, str_or_assoc.
  - by rewrite B4, A4, flat_map_app, fold_left_app.
  - by rewrite B5, A5, flat_map_app, last_nonempty_app, str_or_assoc.
  - by rewrite B6, A6, flat_map_app, last_app_default.
Qed.

Lemma use_usage_extends c a : sc_Choices c = [] -> extends a [c] (use_usage c a).
Proof using Type.
  intros Hc. unfold use_usage. destruct c as [ch us]. simpl in *. subst ch.
  destruct us as [[p n]|]; split; simpl; rewrite ?str_app_nil_r, ?str_or_empty_r; done.
Qed.

Lemma use_choice_extends c ch rest t a :
  sc_Choices c = ch :: rest -> extends a [c] (use_choice ch t (use_usage c a)).
Proof using Type.
  intros Hc. unfold use_usage. destruct c as [chs us]. simpl in *. subst chs.
  destruct us as [[p n]|]; split; unfold content_of, thinking_of, call_deltas; simpl;
    rewrite ?str_app_nil_r, ?app_nil_r; try done;
    destruct (str_empty (reasoning_of (ch_Delta ch))) eqn:E; by rewrite ?str_or_empty_r.
Qed.

Lemma use_chunk_spec start c a w : exists w' a', use_chunk start c a w = (w', Ok a') /\ extends a [c] a'.
Proof using Type.
  unfold use_chunk. destruct (sc_Choices c) as [|ch rest] eqn:Ec.
  - exists w, (use_usage c a). split; [done|]. by apply use_usage_extends.
  - pose proof (fun t => use_choice_extends c ch rest t a Ec) as He.
    destruct (ac_ttft (use_usage c a)) as [t|]; [by eexists _, _|].
    destruct (arrives (ch_Delta ch)); [|by eexists _, _].
    unfold time_Since, draw, bind, ret. destruct (time_Now w) as [w1 now]. by eexists _, _.
Qed.

Lemma parse_lines_spec start tokens : forall a w, exists w' a',
  parse_lines start tokens a w = (w', Ok (a', done_early tokens)) /\ extends a (delivered tokens) a'.
Proof using Type.
  induction tokens as [|[line at_end] rest IH]; intros a w; simpl.
  - exists w, a. split; [done|apply extends_nil].
  - destruct (payload line) as [p|] eqn:Ep; [|rewrite bool_decide_eq_false_2 by done; apply IH].
    destruct (String.eqb_spec p "[DONE]") as [->|Hp].
    + rewrite bool_decide_eq_true_2 by done. exists w, a. split; [done|apply extends_nil].
    + rewrite bool_decide_eq_false_2 by congruence.
      destruct (json_chunk p) as [c|]; [|apply IH].
      destruct (use_chunk_spec start c a w) as (w1 & a1 & E1 & H1). unfold bind. rewrite E1.
      destruct (IH a1 w1) as (w2 & a2 & E2 & H2). exists w2, a2. split; [exact E2|].
      exact (extends_trans _ [c] _ _ _ H1 H2).
Qed.

(** *** Tool calls, index by index *)

Lemma merge_calls_fold mine : forall acc,
  fold_left merge_call mine acc =
  {| tc_ID := str_or (last_nonempty (map tcd_ID mine)) (tc_ID acc);
     tc_Name := str_or (last_nonempty (map tcd_Name mine)) (tc_Name acc);
     tc_Arguments := tc_Arguments acc +:+ str_cat (map tcd_Arguments mine);
     tc_Destination := tc_Destination acc |}.
Proof using Type.
  induction mine as [|d mine IH]; intros acc; simpl.
  - rewrite str_app_nil_r. by destruct acc.
  - rewrite IH. simpl. by rewrite <- !str_or_assoc, str_app_assoc.
Qed.

Lemma add_calls_lookup ds i : forall m,
  fold_left add_call ds m !! i =
  match whereb (fun d => tcd_Index d =? i) ds with
  | [] => m !! i
  | mine => Some (fold_left merge_call mine (default zero_call (m !! i)))
  end.
Proof using Type.
  induction ds as [|d ds IH]; intros m; [done|]. simpl. rewrite IH. unfold add_call.
  destruct (Z.eqb_spec (tcd_Index d) i) as [->|Hi].
  - rewrite lookup_insert_eq. by destruct (whereb _ ds).
  - by rewrite lookup_insert_ne.
Qed.

Lemma calls_lookup cs i : fold_left add_call (call_deltas cs) ∅ !! i = call_of cs i.
Proof using Type.
  rewrite add_calls_lookup. unfold call_of. rewrite lookup_empty.
  destruct (whereb _ (call_deltas cs)) as [|d mine] eqn:E; [done|]. rewrite <- E.
  f_equal. rewrite merge_calls_fold. simpl. by rewrite !str_or_empty_r.
Qed.

Lemma call_of_Some cs i : is_Some (call_of cs i) <-> i ∈ map tcd_Index (call_deltas cs).
Proof using Type.
  unfold call_of. rewrite elem_of_map. split.
  - destruct (whereb _ _) as [|d mine] eqn:E; [by intros [? [=]]|]. intros _.
    assert (Hd : d ∈ whereb (fun d => tcd_Index d =? i) (call_deltas cs)) by (rewrite E; left).
    apply elem_of_whereb in Hd as [Hd Hi]. bools. eauto.
  - intros (d & Hd & <-). destruct (whereb _ _) eqn:E; [|eauto].
    assert (Hin : d ∈ whereb (fun d' => tcd_Index d' =? tcd_Index d) (call_deltas cs))
      by (apply elem_of_whereb; split; [done|by apply Z.eqb_eq]).
    rewrite E in Hin. by apply elem_of_nil in Hin.
Qed.

(** The indices that occur, ascending. *)
Definition indices_of (cs : list sseChunk) : list Z :=
  order_by id (nodup Z.eq_dec (map tcd_Index (call_deltas cs))).

#[local] Instance key_le_id_antisymm : AntiSymm (=) (key_le (@id Z)).
Proof using Type. intros x y. unfold key_le, id. lia. Qed.
Lemma order_by_id_unique l1 l2 : l1 ≡ₚ l2 -> order_by id l1 = order_by id l2.
Proof using Type.
  intros Hp. apply (StronglySorted_unique (key_le id)); unfold order_by.
  - apply StronglySorted_merge_sort; apply _.
  - apply StronglySorted_merge_sort; apply _.
  - by rewrite !merge_sort_Permutation.
Qed.

Lemma call_indices_of cs calls :
  (forall i, calls !! i = call_of cs i) -> call_indices calls = indices_of cs.
Proof using Type.
  intros Hc. apply order_by_id_unique, NoDup_Permutation.
  - apply NoDup_fst_map_to_list.
  - apply NoDup_ListNoDup, NoDup_nodup.
  - intros i. rewrite list_elem_of_In, (list_elem_of_In (nodup _ _)), nodup_In, <- !list_elem_of_In.
    rewrite <- call_of_Some, <- Hc. rewrite elem_of_map. split.
    + intros ([k c] & Hin & <-). apply elem_of_map_to_list in Hin. simpl. eauto.
    + intros [c Hi]. exists (i, c). split; [by apply elem_of_map_to_list|done].
Qed.

(** The blocks of the chunks, said at once: thinking, text, and the calls by index. *)
Definition reference_blocks (thinkingMode : bool) (cs : list sseChunk) : list ContentBlock :=
  let '(content, thinking, field) :=
    if str_empty (thinking_of cs) && thinkingMode && negb (str_empty (stripThinkingTokens (content_of cs)).2)
    then (stripThinkingTokens (content_of cs), "")
    else (content_of cs, thinking_of cs, field_of (deltas cs)) in
  (if str_empty thinking then [] else [thinking_block (TrimSpace thinking) field]) ++
  (if str_empty (TrimSpace content) then [] else [text_block (TrimSpace content)]) ++
  omap (fun i => call_block <$> call_of cs i) (indices_of cs).

Lemma build_blocks_reference thinkingMode cs a :
  extends zero_accum cs a -> build_blocks thinkingMode a = reference_blocks thinkingMode cs.
Proof using Type.
  intros [E1 E2 E3 E4 _ _]. simpl in *.
  assert (Hc : forall i, ac_calls a !! i = call_of cs i) by (intros i; rewrite E4; apply calls_lookup).
  unfold build_blocks, reference_blocks, split_thinking. rewrite E1, E2, E3.
  change (str_or "" (field_of (deltas cs))) with (field_of (deltas cs)).
  change ("" +:+ content_of cs) with (content_of cs).
  change ("" +:+ thinking_of cs) with (thinking_of cs).
  rewrite (call_indices_of cs _ Hc).
  assert (Hcalls : map (fun i => call_block (default zero_call (ac_calls a !! i))) (indices_of cs)
                   = omap (fun i => call_block <$> call_of cs i) (indices_of cs)).
  { assert (Hall : forall i, i ∈ indices_of cs -> is_Some (call_of cs i)).
    { intros i Hi. unfold indices_of in Hi. rewrite order_by_Permutation in Hi.
      apply list_elem_of_In, nodup_In, list_elem_of_In in Hi. by apply call_of_Some. }
    induction (indices_of cs) as [|i l IH]; [done|]. simpl.
    destruct (Hall i ltac:(left)) as [c Hi]. rewrite Hc, Hi. simpl. f_equal.
    apply IH. intros j Hj. apply Hall. by right. }
  rewrite Hcalls.
  destruct (str_empty (thinking_of cs)), thinkingMode; simpl; try done.
  destruct (stripThinkingTokens (content_of cs)) as [cl st]; simpl. by destruct (str_empty st).
Qed.

(** C31: [parseStream] fails exactly when the stream ends in a read error or a line that
    does not fit, before any [[DONE]]; otherwise its response is the one the delivered
    chunks say as a whole: all content and reasoning concatenated, one call per index in
    index order with its last ID and name and all argument pieces in order, the last
    finish reason and the last usage, however the deltas were cut. *)
Theorem parseStream_assembles thinkingMode body read_err start w :
  let tokens := (scan_body body).1 in
  let cs := delivered tokens in
  exists w' r, parseStream thinkingMode body read_err start w = (w', r) /\
  match r with
  | Err e => done_early tokens = false /\
      (if (scan_body body).2 then e = EWrap "reading SSE stream" ErrTooLong
       else exists e0, read_err = Some e0 /\ e = EWrap "reading SSE stream" e0)
  | Ok resp =>
      (done_early tokens = true \/ ((scan_body body).2 = false /\ read_err = None)) /\
      resp_Blocks resp = reference_blocks thinkingMode cs /\
      resp_FinishReason resp = last_nonempty (finishes cs) /\
      (resp_PromptTokens resp, resp_CompletionTokens resp) = List.last (usages cs) (0, 0)
  end.
Proof.
  cbv zeta. unfold parseStream. destruct (scan_body body) as [tokens too_long]. simpl.
  destruct (parse_lines_spec start tokens zero_accum w) as (w1 & a & E & Hx).
  unfold bind at 1. rewrite E. cbv beta iota.
  assert (Hok : forall w2, exists w' r,
    (let! total := time_Since start in ret (build_response thinkingMode a total)) w2 = (w', Ok r) /\
    resp_Blocks r = reference_blocks thinkingMode (delivered tokens) /\
    resp_FinishReason r = last_nonempty (finishes (delivered tokens)) /\
    (resp_PromptTokens r, resp_CompletionTokens r) = List.last (usages (delivered tokens)) (0, 0)).
  { intros w2. unfold time_Since, draw, bind, ret. destruct (time_Now w2) as [w3 now].
    exists w3, (build_response thinkingMode a (time_Sub now start)). split; [done|].
    unfold build_response. destruct (split_thinking thinkingMode a) as [[? ?] ?]. simpl.
    split; [by apply build_blocks_reference|]. destruct Hx as [_ _ _ _ E5 E6]. simpl in *.
    split; [by rewrite E5, str_or_empty_r|exact E6]. }
  destruct (Hok w1) as (w' & r & E1 & Hr).
  destruct (done_early tokens) eqn:Ed; [by exists w', (Ok r); eauto|].
  destruct too_long; [by eexists _, (Err _)|].
  destruct read_err as [e|]; [by eexists _, (Err _); eauto|]. exists w', (Ok r). eauto.
Qed.

(** ** Thinking tags *)

(** The byte a tag begins with. *)
Definition lt : Ascii.ascii := Ascii.ascii_of_nat 60.
(** [s] holds no byte [c]. *)
Fixpoint free_of (c : Ascii.ascii) (s : string) : bool :=
  match s with "" => true | String d r => negb (Ascii.eqb d c) && free_of c r end.

Lemma free_of_app c a b : free_of c (a +:+ b) = free_of c a && free_of c b.
Proof using Type.
  induction a as [|d a IH]; [done|]. rewrite str_app_cons. simpl. by rewrite IH, andb_assoc.
Qed.
Lemma prefix_head_ne c p d s : d <> c -> String.prefix (String c p) (String d s) = false.
Proof using Type. intros Hd. simpl. by destruct (Ascii.ascii_dec c d) as [->|]. Qed.

(** A pattern that begins with [c] is not found before the first [c]. *)
Lemma str_index_free c p s : free_of c s = true -> str_index s (String c p) = None.
Proof using Type.
  induction s as [|d s IH]; [done|]. cbn [free_of]. intros [Hd%negb_true_iff%Ascii.eqb_neq Hs]%andb_true_iff.
  rewrite str_index_unfold, prefix_head_ne, IH by done. done.
Qed.
Lemma str_index_after c p a b :
  free_of c a = true -> str_index (a +:+ (String c p +:+ b)) (String c p) = Some (String.length a).
Proof using Type.
  induction a as [|d a IH].
  - intros _. rewrite str_app_nil_l, str_index_unfold, prefix_app. done.
  - cbn [free_of]. intros [Hd%negb_true_iff%Ascii.eqb_neq Hs]%andb_true_iff.
    rewrite str_app_cons, str_index_unfold, prefix_head_ne, IH by done. done.
Qed.

(** Text with thoughts between tags: each segment is a text and the thought after it. *)
Definition tagged (open close : string) (segs : list (string * string)) (tail : string) : string :=
  str_cat (map (fun '(text, thought) => text +:+ (open +:+ (thought +:+ close))) segs) +:+ tail.

(** One pass of the loop, at a text without the tags' first byte. *)
Lemma strip_pair_step fuel c o k text thought rest th :
  free_of c text = true -> free_of c thought = true ->
  strip_pair (S fuel) (String c o) (String c k)
    (text +:+ (String c o +:+ (thought +:+ (String c k +:+ rest)))) th =
  strip_pair fuel (String c o) (String c k) (text +:+ rest) (th +:+ thought).
Proof using Type.
  intros Ht Hk. cbn [strip_pair]. rewrite str_index_after by done.
  assert (Hd : forall a b d : string, str_drop (String.length a + String.length b) (a +:+ (b +:+ d)) = d).
  { intros a b d. rewrite <- length_str_app, <- str_app_assoc. apply str_drop_app. }
  rewrite Hd, str_index_after by done. rewrite Hd. by rewrite !str_take_app.
Qed.

Lemma strip_pair_tagged c o k segs : forall fuel pre tail th,
  (length segs < fuel)%nat -> free_of c pre = true -> free_of c tail = true ->
  Forall (fun '(text, thought) => free_of c text && free_of c thought = true) segs ->
  strip_pair fuel (String c o) (String c k) (pre +:+ tagged (String c o) (String c k) segs tail) th =
  (pre +:+ (str_cat (map fst segs) +:+ tail), th +:+ str_cat (map snd segs)).
Proof using Type.
  induction segs as [|[text thought] segs IH]; intros fuel pre tail th Hf Hp Ht Hs.
  - destruct fuel as [|fuel]; [simpl in Hf; lia|].
    cbn [strip_pair]. unfold tagged. cbn [map str_cat foldr]. rewrite !str_app_nil_l.
    rewrite str_index_free by (by rewrite free_of_app, Hp). by rewrite str_app_nil_r.
  - destruct fuel as [|fuel]; [simpl in Hf; lia|]. apply Forall_cons in Hs as [Hh Hs]. bools.
    assert (E : pre +:+ tagged (String c o) (String c k) ((text, thought) :: segs) tail =
                (pre +:+ text) +:+ (String c o +:+ (thought +:+ (String c k +:+ tagged (String c o) (String c k) segs tail)))).
    { unfold tagged, str_cat. cbn [map foldr]. by rewrite !str_app_assoc. }
    rewrite E, strip_pair_step; [|by rewrite free_of_app, Hp|done].
    rewrite IH; [|simpl in Hf; lia|by rewrite free_of_app, Hp|done|done].
    unfold str_cat. cbn [map foldr fst snd]. by rewrite !str_app_assoc.
Qed.

Lemma tagged_length open close segs tail :
  (0 < String.length open)%nat -> (length segs <= String.length (tagged open close segs tail))%nat.
Proof using Type.
  intros Ho. unfold tagged. rewrite length_str_app. enough (length segs <= String.length
    (str_cat (map (fun '(text, thought) => text +:+ (open +:+ (thought +:+ close))) segs)))%nat by lia.
  induction segs as [|[text thought] segs IH]; [done|].
  unfold str_cat in *. cbn [map foldr length]. rewrite !length_str_app. lia.
Qed.

(** The loop leaves no complete pair: its fuel is enough for every string. *)
Lemma strip_pair_complete open close : (0 < String.length open)%nat -> forall fuel s th,
  (String.length s < fuel)%nat ->
  let s' := (strip_pair fuel open close s th).1 in
  match str_index s' open with
  | None => True
  | Some i => str_index (str_drop (i + String.length open) s') close = None
  end.
Proof using Type.
  intros Ho. induction fuel as [|fuel IH]; intros s th Hf; [lia|]. cbn [strip_pair].
  destruct (str_index s open) as [i|] eqn:Ei; [|cbn [fst]; by rewrite Ei].
  destruct (str_index (str_drop (i + String.length open) s) close) as [n|] eqn:En;
    [|cbn [fst]; by rewrite Ei, En].
  apply IH. destruct (str_index_Some _ _ _ Ei) as (a & b & -> & <-).
  assert (Eb : str_drop (String.length a + String.length open) (a +:+ (open +:+ b)) = b).
  { rewrite <- length_str_app, <- str_app_assoc. apply str_drop_app. }
  rewrite Eb in *. destruct (str_index_Some _ _ _ En) as (a' & b' & -> & <-).
  rewrite str_take_app, <- length_str_app, <- str_app_assoc, str_drop_app.
  rewrite !length_str_app in Hf. rewrite length_str_app. lia.
Qed.

(** [stripThinkingTokens] separates text and thoughts that [<think>] tags interleave
    any number of times: the texts in order are the content, the thoughts in order the
    thinking trace, both trimmed. *)
Theorem stripThinkingTokens_segments segs tail :
  free_of lt tail = true ->
  Forall (fun '(text, thought) => free_of lt text && free_of lt thought = true) segs ->
  stripThinkingTokens (tagged "<think>" "</think>" segs tail) =
  (TrimSpace (str_cat (map fst segs) +:+ tail), TrimSpace (str_cat (map snd segs))).
Proof.
  intros Ht Hs. unfold stripThinkingTokens, think_pairs. cbn [fold_left].
  unfold strip_all at 2. cbn [fst snd].
  pose proof (strip_pair_tagged lt "think>" "/think>" segs
    (S (String.length (tagged "<think>" "</think>" segs tail))) "" tail "") as E.
  change (String lt "think>") with "<think>" in E. change (String lt "/think>") with "</think>" in E.
  rewrite !str_app_nil_l in E. rewrite E; [|..|done]; [|pose proof (tagged_length "<think>" "</think>" segs tail ltac:(simpl; lia)); lia|done|done].
  assert (Hfree : free_of lt (str_cat (map fst segs) +:+ tail) = true).
  { rewrite free_of_app, Ht, andb_true_r. clear -Hs. induction Hs as [|[t k] segs Hh _ IH]; [done|].
    unfold str_cat. cbn [map foldr fst]. bools. rewrite free_of_app. by apply andb_true_intro. }
  unfold strip_all. cbn [fst snd strip_pair].
  change "<thought>" with (String lt "thought>"). by rewrite str_index_free.
Qed.

(** A request's messages are sent as role and content alone: two histories that differ
    only in blocks, call IDs or error flags are sent alike. *)
Lemma buildMessages_role_and_content c req req' :
  cr_System req = cr_System req' ->
  map sent_message (cr_Messages req) = map sent_message (cr_Messages req') ->
  buildMessages c req = buildMessages c req'.
Proof using Type.
  intros Hs Hm. unfold buildMessages. rewrite <- Hs, Hm. destruct (str_empty _); [done|].
  destruct (cl_systemMsgFirstOnly c); [|done]. f_equal.
  revert Hm. generalize (cr_Messages req'). induction (cr_Messages req) as [|m l IH]; intros [|m' l'] Hm;
    [done..|]. simpl in Hm. injection Hm as Hr Hc Hl. cbn [List.filter]. rewrite Hr.
  destruct (negb _); [|by apply IH]. cbn [map]. f_equal; [|by apply IH]. unfold sent_message. by rewrite Hr, Hc.
Qed.
End Client.

(** ** Concrete streams *)

(** A process whose clock advances one millisecond a reading. *)
#[local] Instance clock_process : Process Z :=
  {| time_Now := fun w => (w + 1000000, w); rand_Float64 := fun w => (w, f_zero);
     crypto_Read8 := fun w => (w, None); crypto_Read16 := fun w => (w, []);
     LoadLocation_ok := fun _ => true; time_Format_in := fun _ _ => ""; unicode_trim := id |}.

Definition demo_delta (content reasoning : string) (calls : list toolCallDelta) : Delta :=
  {| de_Content := content; de_Reasoning := ""; de_ReasoningContent := reasoning; de_ToolCalls := calls |}.
Definition demo_chunk (d : Delta) (finish : option string) : sseChunk :=
  {| sc_Choices := [{| ch_Delta := d; ch_FinishReason := finish |}]; sc_Usage := None |}.
Definition demo_tcd (i : Z) (id name args : string) : toolCallDelta :=
  {| tcd_Index := i; tcd_ID := id; tcd_Name := name; tcd_Arguments := args |}.

(** A parser of one-letter payloads, standing for the JSON one. *)
Definition demo_json (p : string) : option sseChunk :=
  if String.eqb p "r" then Some (demo_chunk (demo_delta "" "hm" []) None)
  else if String.eqb p "a" then Some (demo_chunk (demo_delta "Hel" "" [demo_tcd 1 "c1" "write" "{"]) None)
  else if String.eqb p "b" then Some (demo_chunk (demo_delta "lo" "" [demo_tcd 0 "c0" "read" "{}"; demo_tcd 1 "" "" "}"]) None)
  else if String.eqb p "u" then Some {| sc_Choices := []; sc_Usage := Some (7, 3) |}
  else if String.eqb p "f" then Some (demo_chunk (demo_delta "" "" []) (Some "tool_calls"))
  else None.
Definition demo_body (payloads : list string) : string :=
  str_cat (map (fun p => "data: " +:+ p +:+ newline +:+ newline) payloads).

(** Two calls whose pieces interleave, a malformed payload and a line after [[DONE]]. *)
Example parseStream_demo :
  match (parseStream demo_json true (demo_body ["r"; "a"; "broken"; "b"; "f"; "u"; "[DONE]"; "a"]) None 0 5).2 with
  | Ok r => resp_Blocks r =
      [thinking_block "hm" "reasoning_content"; text_block "Hello";
       call_block {| tc_ID := "c0"; tc_Name := "read"; tc_Arguments := "{}"; tc_Destination := "" |};
       call_block {| tc_ID := "c1"; tc_Name := "write"; tc_Arguments := "{}"; tc_Destination := "" |}] /\
      resp_FinishReason r = "tool_calls" /\ resp_CompletionTokens r = 3
  | Err _ => False
  end.
Proof. vm_compute. repeat split. Qed.

(** A connection that drops in the middle is an error, even after content. *)
Example parseStream_dropped :
  (parseStream demo_json true (demo_body ["a"]) (Some (ENew "unexpected EOF")) 0 5).2
  = Err (EWrap "reading SSE stream" (ENew "unexpected EOF")).
Proof. vm_compute. reflexivity. Qed.

(** A stream that ends without [[DONE]] is complete: the sentinel is not required. *)
Example parseStream_no_sentinel :
  match (parseStream demo_json true (demo_body ["a"]) None 0 5).2 with
  | Ok r => resp_FinishReason r = "" | Err _ => False end.
Proof. vm_compute. reflexivity. Qed.

(** Removing a [<thought>] block can put a [<think>] block together that stays in the
    content: the tags are removed pair after pair, each in one pass over the string. *)
Lemma stripThinkingTokens_reassembles :
  stripThinkingTokens (W := Z) "<thi<thought>x</thought>nk>secret</think>" = ("<think>secret</think>", "x").
Proof. vm_compute. reflexivity. Qed.

Lemma stripThinkingTokens_segments_witness :
  stripThinkingTokens (W := Z) (tagged "<think>" "</think>" [("a", "why"); (" b", " so")] " c")
  = (TrimSpace "a b c", TrimSpace "why so").
Proof.
  apply (stripThinkingTokens_segments [("a", "why"); (" b", " so")] " c"); [reflexivity|].
  repeat constructor.
Defined.
