(* ===== verification/Assembly.v ===== *)
(** * Context assembly ([internal/assembly])

    The phases that build an agent's system prompt run in priority order under a
    character budget; a phase is skipped for lack of budget or for a non-fatal error,
    with a recorded reason, and a fatal error aborts the session. Files: budget.go,
    phase.go, assembler.go, phase_identity.go, phase_continuity.go,
    phase_worldmodel.go, phase_echoes.go, phase_incoming.go, phase_grounding.go, and
    the configuration [internal/app/session_runner.go] assembles with. *)

From S2P Require Import Prelude Types Memory Db LifecycleStore Session Identity Awareness.

(** ** Budget tracking ([budget.go]) *)

Inductive BudgetLevel := BudgetOK | BudgetSoft | BudgetHard.
#[global] Instance BudgetLevel_eq_dec : EqDecision BudgetLevel.
Proof. solve_decision. Defined.

Record TokenBudget := {
  tb_total : Z; tb_softPct : float64; tb_hardPct : float64; tb_used : Z; tb_hardFloor : Z }.

Definition NewTokenBudget (total hardFloor : Z) : TokenBudget :=
  {| tb_total := total; tb_softPct := f_lit 80 100; tb_hardPct := f_lit 95 100;
     tb_used := 0; tb_hardFloor := hardFloor |}.

Definition Remaining (b : TokenBudget) : Z :=
  let r := wrap64 (tb_total b - tb_used b) in if r <? 0 then 0 else r.

Definition level (b : TokenBudget) : BudgetLevel :=
  if tb_total b =? 0 then BudgetOK else
  let frac := fdiv (f_of_Z (tb_used b)) (f_of_Z (tb_total b)) in
  let remaining := wrap64 (tb_total b - tb_used b) in
  if fgeb frac (tb_hardPct b) || (remaining <=? tb_hardFloor b) then BudgetHard
  else if fgeb frac (tb_softPct b) then BudgetSoft else BudgetOK.

Definition Add (prompt completion : Z) (b : TokenBudget) : TokenBudget * BudgetLevel :=
  let b' := {| tb_total := tb_total b; tb_softPct := tb_softPct b; tb_hardPct := tb_hardPct b;
               tb_used := wrap64 (tb_used b + wrap64 (prompt + completion));
               tb_hardFloor := tb_hardFloor b |} in
  (b', level b').

(** ** Depth manifest *)

Record DepthManifest := {
  dm_NarrativeTotal : Z; dm_NarrativeLoaded : Z; dm_ReflectionTotal : Z;
  dm_ReflectionLoaded : Z; dm_EntityTotal : Z; dm_EntityLoaded : Z; dm_ProfileTotal : Z;
  dm_ProfileLoaded : Z; dm_UnreadMessages : Z; dm_AccessHints : list string }.
Definition zero_manifest : DepthManifest :=
  {| dm_NarrativeTotal := 0; dm_NarrativeLoaded := 0; dm_ReflectionTotal := 0;
     dm_ReflectionLoaded := 0; dm_EntityTotal := 0; dm_EntityLoaded := 0; dm_ProfileTotal := 0;
     dm_ProfileLoaded := 0; dm_UnreadMessages := 0; dm_AccessHints := [] |}.

(** The fields a phase updates: totals are set, loaded counts grow, hints are appended. *)
Definition note_narratives (total loaded : Z) (m : DepthManifest) : DepthManifest :=
  {| dm_NarrativeTotal := total; dm_NarrativeLoaded := dm_NarrativeLoaded m + loaded;
     dm_ReflectionTotal := dm_ReflectionTotal m; dm_ReflectionLoaded := dm_ReflectionLoaded m;
     dm_EntityTotal := dm_EntityTotal m; dm_EntityLoaded := dm_EntityLoaded m;
     dm_ProfileTotal := dm_ProfileTotal m; dm_ProfileLoaded := dm_ProfileLoaded m;
     dm_UnreadMessages := dm_UnreadMessages m; dm_AccessHints := dm_AccessHints m |}.
Definition note_reflections (n : Z) (m : DepthManifest) : DepthManifest :=
  {| dm_NarrativeTotal := dm_NarrativeTotal m; dm_NarrativeLoaded := dm_NarrativeLoaded m;
     dm_ReflectionTotal := n; dm_ReflectionLoaded := dm_ReflectionLoaded m + n;
     dm_EntityTotal := dm_EntityTotal m; dm_EntityLoaded := dm_EntityLoaded m;
     dm_ProfileTotal := dm_ProfileTotal m; dm_ProfileLoaded := dm_ProfileLoaded m;
     dm_UnreadMessages := dm_UnreadMessages m; dm_AccessHints := dm_AccessHints m |}.
Definition note_entities (n : Z) (m : DepthManifest) : DepthManifest :=
  {| dm_NarrativeTotal := dm_NarrativeTotal m; dm_NarrativeLoaded := dm_NarrativeLoaded m;
     dm_ReflectionTotal := dm_ReflectionTotal m; dm_ReflectionLoaded := dm_ReflectionLoaded m;
     dm_EntityTotal := n; dm_EntityLoaded := dm_EntityLoaded m + n;
     dm_ProfileTotal := dm_ProfileTotal m; dm_ProfileLoaded := dm_ProfileLoaded m;
     dm_UnreadMessages := dm_UnreadMessages m; dm_AccessHints := dm_AccessHints m |}.
Definition note_profiles (n : Z) (m : DepthManifest) : DepthManifest :=
  {| dm_NarrativeTotal := dm_NarrativeTotal m; dm_NarrativeLoaded := dm_NarrativeLoaded m;
     dm_ReflectionTotal := dm_ReflectionTotal m; dm_ReflectionLoaded := dm_ReflectionLoaded m;
     dm_EntityTotal := dm_EntityTotal m; dm_EntityLoaded := dm_EntityLoaded m;
     dm_ProfileTotal := n; dm_ProfileLoaded := dm_ProfileLoaded m + n;
     dm_UnreadMessages := dm_UnreadMessages m; dm_AccessHints := dm_AccessHints m |}.
Definition add_hint (h : string) (m : DepthManifest) : DepthManifest :=
  {| dm_NarrativeTotal := dm_NarrativeTotal m; dm_NarrativeLoaded := dm_NarrativeLoaded m;
     dm_ReflectionTotal := dm_ReflectionTotal m; dm_ReflectionLoaded := dm_ReflectionLoaded m;
     dm_EntityTotal := dm_EntityTotal m; dm_EntityLoaded := dm_EntityLoaded m;
     dm_ProfileTotal := dm_ProfileTotal m; dm_ProfileLoaded := dm_ProfileLoaded m;
     dm_UnreadMessages := dm_UnreadMessages m; dm_AccessHints := dm_AccessHints m ++ [h] |}.

Definition buildManifestBlock (m : DepthManifest) : string :=
  let line name l t := name +:+ ": " +:+ fmt_d l +:+ "/" +:+ fmt_d t +:+ " loaded" +:+ newline in
  "=== DEPTH MANIFEST ===" +:+ newline +:+
  line "narrative" (dm_NarrativeLoaded m) (dm_NarrativeTotal m) +:+
  line "reflections" (dm_ReflectionLoaded m) (dm_ReflectionTotal m) +:+
  line "entities" (dm_EntityLoaded m) (dm_EntityTotal m) +:+
  line "profiles" (dm_ProfileLoaded m) (dm_ProfileTotal m) +:+
  "unread_messages: " +:+ fmt_d (dm_UnreadMessages m) +:+ newline +:+
  match dm_AccessHints m with
  | [] => ""
  | hints => "access_hints:" +:+ newline +:+
             String.concat "" (map (fun h => "  - " +:+ h +:+ newline) hints)
  end.

(** [summarize]: cuts bytes, not characters. *)
Definition summarize (content : string) (maxChars : nat) : string :=
  if (String.length content <=? maxChars)%nat then content
  else str_take maxChars content +:+ "…".

(** ** The stores and services assembly reads *)

Class MemoryStore (W : Type) := {
  SearchNarrative : list float64 -> Z -> M W (list NarrativeSummary);
  SearchReflections : list float64 -> Z -> M W (list Reflection);
  GetReflectionByID : string -> M W (option Reflection);
  SearchEntities : string -> Z -> M W (list Entity);
  ListProfiles : M W (list RelationalProfile) }.
Class EmbeddingProvider (W : Type) := { Embed : string -> M W (list float64) }.
Class AssemblyStore (W : Type) := {
  as_HasWitnessLetter : M W bool;
  as_LogOperatorAction : string -> string -> M W unit }.

(** [AssembleConfig]: an absent dependency is a nil interface. The deprecated [DB]
    field is read by no phase. *)
Record AssembleConfig (W : Type) := {
  cfg_store : option (MemoryStore W); cfg_edges : option (EdgeStore W);
  cfg_anchors : option (IdentityAnchorStore W); cfg_provider : option (EmbeddingProvider W);
  cfg_grounding : GroundingConfig; cfg_bridge : BridgeConfig;
  cfg_llmFn : option (string -> M W string);
  cfg_contradictionProbability : float64; cfg_InbandNotes : list string;
  cfg_AssemblyStore : option (AssemblyStore W); cfg_SkipWitnessCheck : bool;
  cfg_Plan : option LifecyclePlan; cfg_SessionID : string }.
Arguments cfg_store {W} _. Arguments cfg_edges {W} _. Arguments cfg_anchors {W} _.
Arguments cfg_provider {W} _. Arguments cfg_grounding {W} _. Arguments cfg_bridge {W} _.
Arguments cfg_llmFn {W} _. Arguments cfg_contradictionProbability {W} _.
Arguments cfg_InbandNotes {W} _. Arguments cfg_AssemblyStore {W} _.
Arguments cfg_SkipWitnessCheck {W} _. Arguments cfg_Plan {W} _. Arguments cfg_SessionID {W} _.

Definition MinimalAssembleConfig {W} : AssembleConfig W :=
  {| cfg_store := None; cfg_edges := None; cfg_anchors := None; cfg_provider := None;
     cfg_grounding := {| gc_Timezone := ""; gc_Location := ""; gc_WeatherAPIKey := "";
                         gc_WeatherLocation := "" |};
     cfg_bridge := {| bc_AbstainRate := f_zero; bc_Model := "" |};
     cfg_llmFn := None; cfg_contradictionProbability := f_zero; cfg_InbandNotes := [];
     cfg_AssemblyStore := None; cfg_SkipWitnessCheck := false; cfg_Plan := None;
     cfg_SessionID := "" |}.
Definition DefaultBridgeConfig : BridgeConfig := {| bc_AbstainRate := f_lit 20 100; bc_Model := "" |}.

(** ** Phases ([phase.go])

    A phase acts on the world and on the shared depth manifest, which keeps what the
    phase wrote even when it fails. [None] as the value of a phase is a panic (a nil
    interface is called), which no caller recovers. *)

Record PhaseResult := {
  res_Content : string; res_CharsUsed : Z; res_TokenEstimate : Z;
  res_IdentityDocs : option IdentityDocs; res_IntegrityReport : option IntegrityReport;
  res_BridgeAbstained : bool }.
Definition empty_result : PhaseResult :=
  {| res_Content := ""; res_CharsUsed := 0; res_TokenEstimate := 0; res_IdentityDocs := None;
     res_IntegrityReport := None; res_BridgeAbstained := false |}.
(** [PhaseResult{Content: content, CharsUsed: len(content)}] *)
Definition charged (content : string) : PhaseResult :=
  {| res_Content := content; res_CharsUsed := str_len content; res_TokenEstimate := 0;
     res_IdentityDocs := None; res_IntegrityReport := None; res_BridgeAbstained := false |}.

Definition AM (W A : Type) : Type := M (W * DepthManifest) A.
Definition liftW {W A} (m : M W A) : AM W A :=
  fun '(w, dm) => let '(w', r) := m w in ((w', dm), r).
Definition note {W} (f : DepthManifest -> DepthManifest) : AM W unit :=
  fun '(w, dm) => ((w, f dm), Ok tt).

Record Phase (W : Type) := {
  ph_Name : string; ph_Priority : Z; ph_MinBudget : Z; ph_IsFatal : bool;
  ph_Assemble : AssembleConfig W -> Z -> AM W (option PhaseResult) }.
Arguments ph_Name {W} _. Arguments ph_Priority {W} _. Arguments ph_MinBudget {W} _.
Arguments ph_IsFatal {W} _. Arguments ph_Assemble {W} _ _ _.

Section Phases.
Context {W : Type} `{Process W} `{Host} `{FileStat} `{MapRange}.

(** *** Identity ([phase_identity.go]) *)

Definition identity_section (docs : IdentityDocs) (name : string) : string :=
  match Get docs name with
  | None => ""
  | Some doc => "--- " +:+ name +:+ " ---" +:+ newline +:+ doc_Content doc +:+ newline
  end.
Definition buildIdentityBlock (docs : IdentityDocs) : string :=
  "=== IDENTITY ===" +:+ newline +:+ String.concat "" (map (identity_section docs) KnownDocs).

Definition witness_no_store : error :=
  ENew "WitnessRequired: no AssemblyStore available to verify witness letter. Set SKIP_WITNESS_CHECK=true to bypass (development only).".
Definition witness_absent : error :=
  ENew "WitnessRequired: no witness letter found in founding_records. Set SKIP_WITNESS_CHECK=true to bypass (logged to operator_actions).".

Definition enforceWitnessCheck (cfg : AssembleConfig W) : M W unit :=
  match cfg_AssemblyStore cfg with
  | None => if cfg_SkipWitnessCheck cfg then ret tt else fail witness_no_store
  | Some store =>
      try! r := as_HasWitnessLetter in
      let hasLetter := match r with Ok b => b | Err _ => false end in
      if hasLetter then ret tt
      else if cfg_SkipWitnessCheck cfg then
        try! _ := as_LogOperatorAction "witness_check_bypassed"
                    "First boot proceeded without a witness letter — SKIP_WITNESS_CHECK was set." in
        ret tt
      else fail witness_absent
  end.

Definition tampering_error : error :=
  ENew "context: identity tampering detected — session aborted pending investigation".

Definition all_new (report : IntegrityReport) : bool :=
  forallb (fun fr => bool_decide (fr_Status fr = AnchorNew)) (ir_Files report).

Definition verify_identity (cfg : AssembleConfig W) (docs : IdentityDocs)
    : M W (option IntegrityReport) :=
  match cfg_anchors cfg with
  | None => ret None
  | Some store =>
      let! report := wrapM "context: phase 1 integrity check" (VerifyAnchors (ComputeAnchors docs)) in
      if ir_HasTampering report then fail tampering_error else
      let! _ := wrapM "context: phase 1 anchor init" (WriteInitialAnchors report) in
      let! _ := (if all_new report then enforceWitnessCheck cfg else ret tt) in
      ret (Some report)
  end.

Definition identity_Assemble (identityDir : string) (cfg : AssembleConfig W) (remaining : Z)
    : AM W (option PhaseResult) :=
  match wrap_err "context: phase 1 identity load" (LoadDocuments identityDir) with
  | Err e => fail e
  | Ok docs =>
      let! report := liftW (verify_identity cfg docs) in
      ret (Some {| res_Content := buildIdentityBlock docs; res_CharsUsed := 0;
                   res_TokenEstimate := 0; res_IdentityDocs := Some docs;
                   res_IntegrityReport := report; res_BridgeAbstained := false |})
  end.

(** *** Continuity ([phase_continuity.go]) *)

Definition metabolism_incomplete (ms : string) : bool :=
  one_of ms [MetabolismQueued; MetabolismRunning] ||
  one_of ms [MetabolismFailedRetry; MetabolismFailedTerminal; MetabolismPartial].

Definition metabolism_note (ms : string) (no_narratives : bool) : string :=
  "[Metabolism Note] Prior session metabolism is " +:+ ms +:+
  ". Experience from the last session may not be fully integrated into memory." +:+
  (if no_narratives
   then " No T3 narrative summaries are available; use memory search for targeted recall of recent experience."
   else "").
Definition metabolism_hint (ms : string) : string :=
  "prior metabolism " +:+ ms +:+ " — T3 may not cover the most recent session; memory search is the fallback".

Definition provenance_note (a : AegisAnnotation) : string :=
  "[Content-Provenance: this summary includes external input from " +:+ aa_Source a +:+
  " (trust=" +:+ fmt_2f (aa_TrustScore a) +:+ ", scan_passed=" +:+
  fmt_bool (aa_ScanPassed a) +:+ ")]".
Definition narrative_part (n : NarrativeSummary) : string :=
  match ns_ExternalAnnotation n with
  | None => ns_Content n
  | Some a => provenance_note a +:+ newline +:+ ns_Content n
  end.

Definition plan_notes (cfg : AssembleConfig W) (narratives : list NarrativeSummary)
    : AM W (list string) :=
  match cfg_Plan cfg with
  | None => ret []
  | Some plan =>
      let ms := plan_PriorMetabolismStatus plan in
      if metabolism_incomplete ms then
        let! _ := note (add_hint (metabolism_hint ms)) in
        ret [metabolism_note ms (match narratives with [] => true | _ => false end)]
      else ret []
  end.

Definition bridge_allowed (cfg : AssembleConfig W) (recentNarrative : string) : bool :=
  match cfg_llmFn cfg with None => false | Some _ => negb (str_empty recentNarrative) end &&
  match cfg_Plan cfg with
  | None => false
  | Some plan => String.eqb (plan_BridgePolicy plan) BridgeAutoWithAbstention
  end.

(** The bridge, put before the other parts: (parts, abstained). *)
Definition add_bridge (cfg : AssembleConfig W) (recentNarrative : string)
    (activeThreads parts : list string) : AM W (list string * bool) :=
  match bridge_allowed cfg recentNarrative, cfg_llmFn cfg with
  | true, Some llmFn =>
      try! r := liftW (SynthesizeBridge recentNarrative activeThreads (cfg_bridge cfg) llmFn) in
      match r with
      | Err _ => ret (parts, false)
      | Ok br =>
          ret (if negb (br_Abstained br) && negb (str_empty (br_Content br))
               then ("=== ORIENTATION BRIDGE ===" +:+ newline +:+ br_Content br) :: parts
               else parts, br_Abstained br)
      end
  | _, _ => ret (parts, false)
  end.

Definition render_continuity (parts : list string) : string :=
  match parts with
  | [] => ""
  | _ => "=== CONTINUITY ===" +:+ newline +:+
         str_join parts (newline +:+ "---" +:+ newline) +:+ newline
  end.

Definition search_hint : string :=
  "similarity search unavailable — retrieval is recency-only; use memory search for targeted lookups".
Definition reflection_hint : string :=
  "reflection search unavailable — use memory search for targeted reflection lookups".

Definition assembleContinuity (cfg : AssembleConfig W) (store : MemoryStore W)
    : AM W (string * bool) :=
  let! narratives := liftW (wrapM "phase 2: T3 search" (SearchNarrative [] 3)) in
  let loaded := take 2 narratives in
  let! _ := note (note_narratives (Z.of_nat (length narratives)) 0) in
  let! _ := (match narratives with [] => note (add_hint search_hint) | _ => ret tt end) in
  let! notes := plan_notes cfg narratives in
  let! _ := note (note_narratives (Z.of_nat (length narratives)) (Z.of_nat (length loaded))) in
  let recentNarrative := match narratives with n :: _ => ns_Content n | [] => "" end in
  let parts := notes ++ map narrative_part loaded in
  try! r := liftW (SearchReflections [] 5) in
  match r with
  | Err _ => ret (render_continuity parts, false)
  | Ok reflections =>
      let! _ := note (note_reflections (Z.of_nat (length reflections))) in
      let! _ := (match reflections with [] => note (add_hint reflection_hint) | _ => ret tt end) in
      let! bridged := add_bridge cfg recentNarrative (map rf_Content reflections) parts in
      let '(parts', abstained) := bridged in
      ret (render_continuity parts', abstained)
  end.

Definition continuity_Assemble (cfg : AssembleConfig W) (remaining : Z)
    : AM W (option PhaseResult) :=
  match cfg_store cfg with
  | None => ret (Some empty_result)
  | Some store =>
      let! out := assembleContinuity cfg store in
      let '(result, abstained) := out in
      ret (Some {| res_Content := result; res_CharsUsed := str_len result;
                   res_TokenEstimate := 0; res_IdentityDocs := None;
                   res_IntegrityReport := None; res_BridgeAbstained := abstained |})
  end.

(** *** World model ([phase_worldmodel.go]) *)

Definition entity_line (e : Entity) : string :=
  "[" +:+ en_Type e +:+ "] " +:+ en_Name e +:+ ": " +:+ summarize (en_Content e) 200.
Definition profile_line (p : RelationalProfile) : string :=
  "[person] " +:+ rp_Name p +:+ ": " +:+ summarize (rp_Content p) 150.

Definition worldmodel_Assemble (cfg : AssembleConfig W) (remaining : Z)
    : AM W (option PhaseResult) :=
  match cfg_store cfg with
  | None => ret (Some empty_result)
  | Some store =>
      try! re := liftW (SearchEntities "" 10) in
      let! ents := (match re with
                    | Err _ => ret []
                    | Ok entities =>
                        let! _ := note (note_entities (Z.of_nat (length entities))) in
                        ret (map entity_line entities)
                    end) in
      try! rp := liftW ListProfiles in
      let! pros := (match rp with
                    | Err _ => ret []
                    | Ok profiles =>
                        let! _ := note (note_profiles (Z.of_nat (length profiles))) in
                        ret (map profile_line profiles)
                    end) in
      match ents ++ pros with
      | [] => ret (Some empty_result)
      | parts => ret (Some (charged ("=== WORLD MODEL ===" +:+ newline +:+
                                     str_join parts newline +:+ newline)))
      end
  end.

(** *** Echo pool ([phase_echoes.go]) *)

(** 53 random bits over 2^53, or 1.0 when the source fails. *)
Definition le_u64 (bs : list Z) : Z :=
  fold_right (fun b acc => b + 256 * acc) 0 bs.
Definition cryptoRandFloat : M W float64 :=
  let! buf := draw crypto_Read8 in
  ret (match buf with
       | None => f_of_Z 1
       | Some bs => fdiv (f_of_Z (Z.shiftr (le_u64 bs) 11)) (f_of_Z (2 ^ 53))
       end).

(** The first contradicting reflection that resolves, over edges then over echoes. *)
Fixpoint first_contradiction (store : MemoryStore W) (edges : list MemoryEdge)
    : M W (option (string * string)) :=
  match edges with
  | [] => ret None
  | e :: rest =>
      if String.eqb (me_EdgeType e) "contradicts" then
        try! r := GetReflectionByID (me_ToID e) in
        match r with
        | Ok (Some x) => ret (Some (rf_ID x, rf_Content x))
        | _ => first_contradiction store rest
        end
      else first_contradiction store rest
  end.
Fixpoint findContradiction (store : MemoryStore W) (edges : EdgeStore W) (echoIDs : list string)
    : M W (option (string * string)) :=
  match echoIDs with
  | [] => ret None
  | i :: rest =>
      try! r := store_GetEdges i "from" in
      match r with
      | Err _ => findContradiction store edges rest
      | Ok es =>
          let! found := first_contradiction store es in
          match found with
          | Some f => ret (Some f)
          | None => findContradiction store edges rest
          end
      end
  end.

Definition contradiction_part (cfg : AssembleConfig W) (store : MemoryStore W)
    (echoIDs : list string) : M W (list string) :=
  match cfg_edges cfg with
  | None => ret []
  | Some edges =>
      if negb (fgtb (cfg_contradictionProbability cfg) f_zero) then ret [] else
      let! r := cryptoRandFloat in
      if negb (fltb r (cfg_contradictionProbability cfg)) then ret [] else
      let! found := findContradiction store edges echoIDs in
      ret (match found with
           | Some (_, content) => ["[contradiction] " +:+ summarize content 300]
           | None => []
           end)
  end.

Definition echo_hint : string :=
  "echo pool requires embedding provider — use memory search for serendipitous retrieval".

Definition echoes_Assemble (cfg : AssembleConfig W) (remaining : Z)
    : AM W (option PhaseResult) :=
  match cfg_provider cfg with
  | None => let! _ := note (add_hint echo_hint) in ret (Some empty_result)
  | Some provider =>
      let! vec := liftW (wrapM "phase 4: seed embedding"
                           (Embed "past experience insight reflection memory")) in
      match cfg_store cfg with
      | None => ret None   (* a nil store is called *)
      | Some store =>
          let! echoes := liftW (wrapM "phase 4: reflection echo search" (SearchReflections vec 2)) in
          match echoes with
          | [] => ret (Some empty_result)
          | _ =>
              let! extra := liftW (contradiction_part cfg store (map rf_ID echoes)) in
              let parts := map (fun e => summarize (rf_Content e) 300) echoes ++ extra in
              ret (Some (charged ("=== ECHO POOL ===" +:+ newline +:+
                                  str_join parts (newline +:+ "---" +:+ newline) +:+ newline)))
          end
      end
  end.

(** *** Incoming and grounding ([phase_incoming.go], [phase_grounding.go]) *)

Definition incoming_Assemble (cfg : AssembleConfig W) (remaining : Z)
    : AM W (option PhaseResult) :=
  fun '(w, dm) =>
    ((w, dm), Ok (Some (charged
       ("=== INCOMING ===" +:+ newline +:+ "Unread messages: " +:+ fmt_d (dm_UnreadMessages dm) +:+
        newline +:+ String.concat "" (map (fun n => n +:+ newline) (cfg_InbandNotes cfg)))))).

Definition grounding_Assemble (cfg : AssembleConfig W) (remaining : Z)
    : AM W (option PhaseResult) :=
  let! gd := liftW (Gather (cfg_grounding cfg)) in
  ret (Some (charged ("=== GROUNDING ===" +:+ newline +:+ Format gd +:+ newline))).

(** *** The registry *)

Definition IdentityPhase (identityDir : string) : Phase W :=
  {| ph_Name := "identity"; ph_Priority := 100; ph_MinBudget := 0; ph_IsFatal := true;
     ph_Assemble := identity_Assemble identityDir |}.
Definition ContinuityPhase : Phase W :=
  {| ph_Name := "continuity"; ph_Priority := 200; ph_MinBudget := 0; ph_IsFatal := false;
     ph_Assemble := continuity_Assemble |}.
Definition WorldModelPhase : Phase W :=
  {| ph_Name := "world-model"; ph_Priority := 300; ph_MinBudget := 1; ph_IsFatal := false;
     ph_Assemble := worldmodel_Assemble |}.
Definition EchoPoolPhase : Phase W :=
  {| ph_Name := "echo-pool"; ph_Priority := 400; ph_MinBudget := 8000; ph_IsFatal := false;
     ph_Assemble := echoes_Assemble |}.
Definition IncomingPhase : Phase W :=
  {| ph_Name := "incoming"; ph_Priority := 500; ph_MinBudget := 0; ph_IsFatal := false;
     ph_Assemble := incoming_Assemble |}.
Definition GroundingPhase : Phase W :=
  {| ph_Name := "grounding"; ph_Priority := 600; ph_MinBudget := 1; ph_IsFatal := false;
     ph_Assemble := grounding_Assemble |}.

Definition DefaultPhases (identityDir : string) : list (Phase W) :=
  [IdentityPhase identityDir; ContinuityPhase; WorldModelPhase; EchoPoolPhase;
   IncomingPhase; GroundingPhase].
End Phases.

(** ** The assembler ([assembler.go]) *)

Record ContextAssembler (W : Type) := {
  ca_identityDir : string; ca_budget : Z; ca_phases : list (Phase W) }.
Arguments ca_identityDir {W} _. Arguments ca_budget {W} _. Arguments ca_phases {W} _.

Record AssembledContext := {
  ctx_SystemPrompt : string; ctx_IdentityDocs : option IdentityDocs;
  ctx_IntegrityReport : option IntegrityReport; ctx_BridgeAbstained : bool;
  ctx_DepthManifest : DepthManifest; ctx_Manifest : AssemblyManifest }.

(** The local variables of the phase loop. *)
Record Progress := {
  pg_sections : list string; pg_remaining : Z; pg_run : list string; pg_skipped : list string;
  pg_reasons : gmap string string; pg_costs : gmap string Z;
  pg_docs : option IdentityDocs; pg_report : option IntegrityReport; pg_abstained : bool }.
Definition start_progress (budgetChars : Z) : Progress :=
  {| pg_sections := []; pg_remaining := budgetChars; pg_run := []; pg_skipped := [];
     pg_reasons := ∅; pg_costs := ∅; pg_docs := None; pg_report := None; pg_abstained := false |}.

Definition budget_reason (remaining required : Z) : string :=
  "budget pressure (" +:+ fmt_d remaining +:+ " chars remaining, " +:+ fmt_d required +:+ " required)".

Definition skip (name reason : string) (pg : Progress) : Progress :=
  {| pg_sections := pg_sections pg; pg_remaining := pg_remaining pg; pg_run := pg_run pg;
     pg_skipped := pg_skipped pg ++ [name]; pg_reasons := <[name := reason]> (pg_reasons pg);
     pg_costs := pg_costs pg; pg_docs := pg_docs pg; pg_report := pg_report pg;
     pg_abstained := pg_abstained pg |}.

Definition token_estimate (r : PhaseResult) : Z :=
  if (res_TokenEstimate r =? 0) && (0 <? res_CharsUsed r)
  then Z.quot (wrap64 (res_CharsUsed r + 3)) 4 else res_TokenEstimate r.

Definition or_keep {A} (new old : option A) : option A :=
  match new with Some x => Some x | None => old end.

Definition charge (name : string) (r : PhaseResult) (pg : Progress) : Progress :=
  {| pg_sections := if str_empty (res_Content r) then pg_sections pg
                    else pg_sections pg ++ [res_Content r];
     pg_remaining := if 0 <? res_CharsUsed r then wrap64 (pg_remaining pg - res_CharsUsed r)
                     else pg_remaining pg;
     pg_run := pg_run pg ++ [name]; pg_skipped := pg_skipped pg; pg_reasons := pg_reasons pg;
     pg_costs := <[name := token_estimate r]> (pg_costs pg);
     pg_docs := or_keep (res_IdentityDocs r) (pg_docs pg);
     pg_report := or_keep (res_IntegrityReport r) (pg_report pg);
     pg_abstained := res_BridgeAbstained r || pg_abstained pg |}.

Definition over_budget {W} (p : Phase W) (pg : Progress) : bool :=
  (0 <? ph_MinBudget p) && (pg_remaining pg <? ph_MinBudget p).

Section Assembler.
Context {W : Type} `{Process W} `{Host} `{FileStat} `{MapRange}.

Fixpoint phase_loop (cfg : AssembleConfig W) (phases : list (Phase W)) (pg : Progress)
    : AM W (option Progress) :=
  match phases with
  | [] => ret (Some pg)
  | p :: rest =>
      if over_budget p pg then
        let! _ := note (add_hint (ph_Name p +:+ " omitted — budget pressure")) in
        phase_loop cfg rest
          (skip (ph_Name p) (budget_reason (pg_remaining pg) (ph_MinBudget p)) pg)
      else
        try! r := ph_Assemble p cfg (pg_remaining pg) in
        match r with
        | Ok (Some result) => phase_loop cfg rest (charge (ph_Name p) result pg)
        | Ok None => ret None
        | Err e =>
            if ph_IsFatal p then fail e
            else phase_loop cfg rest (skip (ph_Name p) ("error: " +:+ error_Error e) pg)
        end
  end.

(** [sort.Slice] by priority. It is stable here: below twelve elements it is an
    insertion sort, and the standard priorities are distinct. *)
Definition sorted_phases (a : ContextAssembler W) : list (Phase W) :=
  order_by ph_Priority (ca_phases a).

Definition NewContextAssembler (identityDir : string) (budget : Z) : ContextAssembler W :=
  {| ca_identityDir := identityDir; ca_budget := if budget <=? 0 then 160000 else budget;
     ca_phases := DefaultPhases identityDir |}.

Definition finish (cfg : AssembleConfig W) (budgetChars : Z) (pg : Progress)
    : AM W AssembledContext :=
  let! bs := liftW (draw crypto_Read16) in
  let! now := liftW (draw time_Now) in
  fun '(w, dm) =>
    ((w, dm), Ok
      {| ctx_SystemPrompt := str_join (pg_sections pg ++ [buildManifestBlock dm]) newline;
         ctx_IdentityDocs := pg_docs pg; ctx_IntegrityReport := pg_report pg;
         ctx_BridgeAbstained := pg_abstained pg; ctx_DepthManifest := dm;
         ctx_Manifest :=
           {| mf_ID := format_uuid bs;
              mf_PlanID := match cfg_Plan cfg with Some p => plan_ID p | None => "" end;
              mf_SessionID := cfg_SessionID cfg; mf_PhasesRun := pg_run pg;
              mf_PhasesSkipped := pg_skipped pg; mf_SkipReasons := pg_reasons pg;
              mf_BudgetTotal := budgetChars;
              mf_BudgetUsed := wrap64 (budgetChars - pg_remaining pg);
              mf_PhaseCosts := pg_costs pg; mf_CreatedAt := now |} |}).

Definition Assemble (a : ContextAssembler W) (cfg : AssembleConfig W)
    : M W (option AssembledContext) :=
  let budgetChars := wrap64 (ca_budget a * 4) in
  fun w =>
    match (try! r := phase_loop cfg (sorted_phases a) (start_progress budgetChars) in
           match r with
           | Err e => fail e
           | Ok None => ret None
           | Ok (Some pg) => let! c := finish cfg budgetChars pg in ret (Some c)
           end) (w, zero_manifest) with
    | ((w', _), r) => (w', r)
    end.
End Assembler.

(** ** The configuration a session assembles with ([session_runner.go])

    [RunSession] starts from [MinimalAssembleConfig]; it has no way to set the
    unexported [anchors], [edges], [grounding] and [contradictionProbability]. *)
Record RunnerDeps (W : Type) := {
  dep_MemoryStore : option (MemoryStore W); dep_LLM : option (string -> M W string);
  dep_EmbeddingProvider : option (EmbeddingProvider W);
  dep_AssemblyStore : option (AssemblyStore W); dep_SkipWitnessCheck : bool }.
Arguments dep_MemoryStore {W} _. Arguments dep_LLM {W} _. Arguments dep_EmbeddingProvider {W} _.
Arguments dep_AssemblyStore {W} _. Arguments dep_SkipWitnessCheck {W} _.

Definition session_assemble_config {W} (deps : RunnerDeps W) (plan : LifecyclePlan)
    (sessionID : string) (inbandNotes : list string) (disclosureNote : string)
    : AssembleConfig W :=
  let m := @MinimalAssembleConfig W in
  {| cfg_store := dep_MemoryStore deps; cfg_edges := cfg_edges m; cfg_anchors := cfg_anchors m;
     cfg_provider := dep_EmbeddingProvider deps; cfg_grounding := cfg_grounding m;
     cfg_bridge := match dep_MemoryStore deps with
                   | Some _ => DefaultBridgeConfig | None => cfg_bridge m end;
     cfg_llmFn := dep_LLM deps;
     cfg_contradictionProbability := cfg_contradictionProbability m;
     cfg_InbandNotes := inbandNotes ++ (if str_empty disclosureNote then [] else [disclosureNote]);
     cfg_AssemblyStore := dep_AssemblyStore deps;
     cfg_SkipWitnessCheck := dep_SkipWitnessCheck deps; cfg_Plan := Some plan;
     cfg_SessionID := sessionID |}.

(** ** Lemmas of the phase loop *)
Section Loop.
Context {W : Type} `{Process W} `{Host} `{FileStat} `{MapRange}.
Implicit Types (p : Phase W) (pg : Progress) (cfg : AssembleConfig W).

(** What one step of the loop does, by cases. *)
Inductive phase_step cfg p pg : W * DepthManifest -> W * DepthManifest -> Progress -> Prop :=
  | step_over s s' : over_budget p pg = true ->
      note (add_hint (ph_Name p +:+ " omitted — budget pressure")) s = (s', Ok tt) ->
      phase_step cfg p pg s s'
        (skip (ph_Name p) (budget_reason (pg_remaining pg) (ph_MinBudget p)) pg)
  | step_run s s' result : over_budget p pg = false ->
      ph_Assemble p cfg (pg_remaining pg) s = (s', Ok (Some result)) ->
      phase_step cfg p pg s s' (charge (ph_Name p) result pg)
  | step_error s s' e : over_budget p pg = false -> ph_IsFatal p = false ->
      ph_Assemble p cfg (pg_remaining pg) s = (s', Err e) ->
      phase_step cfg p pg s s' (skip (ph_Name p) ("error: " +:+ error_Error e) pg).

Lemma phase_loop_step cfg p rest pg s s' pg' :
  phase_loop cfg (p :: rest) pg s = (s', Ok (Some pg')) ->
  exists s1 pg1, phase_step cfg p pg s s1 pg1 /\
    phase_loop cfg rest pg1 s1 = (s', Ok (Some pg')).
Proof using Type.
  simpl. destruct (over_budget p pg) eqn:Eo.
  - unfold bind. destruct s as [w dm]. simpl. intros E. do 2 eexists. split; [by eapply step_over|done].
  - unfold attempt. destruct (ph_Assemble p cfg _ s) as [s1 [[result|]|e]] eqn:Ea.
    + intros E. do 2 eexists. split; [by eapply step_run|done].
    + done.
    + destruct (ph_IsFatal p) eqn:Ef; [done|]. intros E. do 2 eexists.
      split; [by eapply step_error|done].
Qed.

(** Rule induction over a completed loop. *)
Lemma phase_loop_ind (P : list (Phase W) -> Progress -> W * DepthManifest -> Progress -> Prop) cfg :
  (forall pg s, P [] pg s pg) ->
  (forall p rest pg s s1 pg1 pg', phase_step cfg p pg s s1 pg1 -> P rest pg1 s1 pg' ->
     P (p :: rest) pg s pg') ->
  forall phases pg s s' pg', phase_loop cfg phases pg s = (s', Ok (Some pg')) ->
    P phases pg s pg'.
Proof using Type.
  intros Hnil Hcons. induction phases as [|p rest IH]; intros pg s s' pg' E.
  - injection E as <- <-. apply Hnil.
  - apply phase_loop_step in E as (s1 & pg1 & Hs & E). eauto.
Qed.

Lemma Assemble_Ok a cfg w w' c :
  Assemble a cfg w = (w', Ok (Some c)) ->
  exists s pg, phase_loop cfg (sorted_phases a) (start_progress (wrap64 (ca_budget a * 4)))
                 (w, zero_manifest) = (s, Ok (Some pg)) /\
    mf_PhasesRun (ctx_Manifest c) = pg_run pg /\ mf_PhasesSkipped (ctx_Manifest c) = pg_skipped pg /\
    mf_SkipReasons (ctx_Manifest c) = pg_reasons pg /\ mf_PhaseCosts (ctx_Manifest c) = pg_costs pg /\
    mf_BudgetTotal (ctx_Manifest c) = wrap64 (ca_budget a * 4) /\
    mf_BudgetUsed (ctx_Manifest c) = wrap64 (wrap64 (ca_budget a * 4) - pg_remaining pg) /\
    ctx_IdentityDocs c = pg_docs pg /\ ctx_IntegrityReport c = pg_report pg /\
    exists dm, ctx_DepthManifest c = dm /\
      ctx_SystemPrompt c = str_join (pg_sections pg ++ [buildManifestBlock dm]) newline.
Proof using Type.
  unfold Assemble, attempt.
  destruct (phase_loop cfg _ _ _) as [[w1 dm1] [[pg|]|e]] eqn:E; [|done|done].
  unfold finish, bind, liftW, draw. destruct (crypto_Read16 w1) as [w2 bs].
  destruct (time_Now w2) as [w3 now]. intros [= <- <-]. eexists _, pg. split; [done|]. simpl.
  repeat (split; [done|]). by eexists.
Qed.
End Loop.

Section Accounting.
Context {W : Type} `{Process W} `{Host} `{FileStat} `{MapRange}.
Implicit Types (p : Phase W) (pg : Progress) (cfg : AssembleConfig W).

(** The loop from [pg] to [pg'] ran [R] and skipped [S] of [phases]. *)
Record accounted (phases : list (Phase W)) (pg pg' : Progress) (R S : list string) : Prop := {
  acc_run : pg_run pg' = pg_run pg ++ R;
  acc_skipped : pg_skipped pg' = pg_skipped pg ++ S;
  acc_perm : R ++ S ≡ₚ map ph_Name phases;
  acc_run_sub : R `sublist_of` map ph_Name phases;
  acc_skipped_sub : S `sublist_of` map ph_Name phases;
  acc_reasons n : is_Some (pg_reasons pg' !! n) <-> is_Some (pg_reasons pg !! n) \/ n ∈ S;
  acc_costs n : is_Some (pg_costs pg' !! n) <-> is_Some (pg_costs pg !! n) \/ n ∈ R;
  acc_fatal p : p ∈ phases -> ph_IsFatal p = true -> ph_MinBudget p <= 0 -> ph_Name p ∈ R }.

Lemma insert_is_Some {A} (m : gmap string A) k v n (Q : Prop) :
  (is_Some (<[k := v]> m !! n) \/ Q) <-> (is_Some (m !! n) \/ n = k \/ Q).
Proof using Type.
  destruct (decide (n = k)) as [->|Hne].
  - rewrite lookup_insert_eq. split; [tauto|]. intros _. left. by eexists.
  - rewrite lookup_insert_ne by done. tauto.
Qed.

Lemma accounted_skip p rest name reason pg pg' R S :
  name = ph_Name p -> (ph_IsFatal p = true -> 0 < ph_MinBudget p) ->
  accounted rest (skip name reason pg) pg' R S ->
  accounted (p :: rest) pg pg' R (name :: S).
Proof using Type.
  intros -> Hf [E1 E2 E3 E4 E5 E6 E7 E8]. simpl in *. split; simpl; try done.
  - rewrite E2. by rewrite <- app_assoc.
  - rewrite <- E3. by rewrite Permutation_middle.
  - by apply sublist_cons.
  - by apply sublist_skip.
  - intros n. rewrite E6, insert_is_Some, elem_of_cons. tauto.
  - intros q Hq Hqf Hm. apply elem_of_cons in Hq as [->|Hq]; [|auto]. specialize (Hf Hqf). lia.
Qed.

Lemma accounted_charge p rest name result pg pg' R S :
  name = ph_Name p ->
  accounted rest (charge name result pg) pg' R S ->
  accounted (p :: rest) pg pg' (name :: R) S.
Proof using Type.
  intros -> [E1 E2 E3 E4 E5 E6 E7 E8]. simpl in *. split; simpl; try done.
  - rewrite E1. by rewrite <- app_assoc.
  - by rewrite <- E3.
  - by apply sublist_skip.
  - by apply sublist_cons.
  - intros n. rewrite E7, insert_is_Some, elem_of_cons. tauto.
  - intros q Hq Hqf Hm. apply elem_of_cons. apply elem_of_cons in Hq as [->|Hq]; [by left|auto].
Qed.

Lemma phase_loop_accounted cfg phases pg s s' pg' :
  phase_loop cfg phases pg s = (s', Ok (Some pg')) ->
  exists R S, accounted phases pg pg' R S.
Proof using Type.
  apply (phase_loop_ind (fun phases pg _ pg' => exists R S, accounted phases pg pg' R S)).
  - intros pg0 _. exists [], []. split; simpl; rewrite ?app_nil_r; try done; set_solver.
  - intros p rest pg0 s0 s1 pg1 pg2 Hstep (R & S & Hacc).
    destruct Hstep as [s0 s1 Ho _|s0 s1 result _ _|s0 s1 e _ Hf _].
    + exists R, (ph_Name p :: S). eapply accounted_skip; [done| |done].
      intros _. unfold over_budget in Ho. bools. lia.
    + exists (ph_Name p :: R), S. by eapply accounted_charge.
    + exists R, (ph_Name p :: S). eapply accounted_skip; [done|congruence|done].
Qed.

(** C28: The assembly manifest accounts for every phase. When a context is assembled,
    each registered phase was either run or skipped, exactly once and in priority
    order; the phases with a skip reason are exactly the skipped ones and the phases
    with a cost exactly those run; and a fatal phase that has no minimum budget has
    run. *)
Theorem Assemble_accounts_for_every_phase a cfg w w' c :
  Assemble a cfg w = (w', Ok (Some c)) ->
  let m := ctx_Manifest c in
  let names := map ph_Name (sorted_phases a) in
  mf_PhasesRun m ++ mf_PhasesSkipped m ≡ₚ map ph_Name (ca_phases a) /\
  mf_PhasesRun m `sublist_of` names /\ mf_PhasesSkipped m `sublist_of` names /\
  (forall n, is_Some (mf_SkipReasons m !! n) <-> n ∈ mf_PhasesSkipped m) /\
  (forall n, is_Some (mf_PhaseCosts m !! n) <-> n ∈ mf_PhasesRun m) /\
  (forall p, p ∈ ca_phases a -> ph_IsFatal p = true -> ph_MinBudget p <= 0 ->
     ph_Name p ∈ mf_PhasesRun m).
Proof using Type.
  intros E m names. subst m. apply Assemble_Ok in E as (s & pg & El & -> & -> & -> & -> & _). subst names.
  apply phase_loop_accounted in El as (R & S & [-> -> E3 E4 E5 E6 E7 E8]). simpl in *.
  assert (Hn : forall A n, is_Some ((∅ : gmap string A) !! n) <-> False).
  { intros A n. rewrite lookup_empty. split; [by intros [? ?]|done]. }
  split; [rewrite E3; apply Permutation_map, order_by_Permutation|].
  split; [done|]. split; [done|].
  split; [intros n; rewrite E6, Hn; tauto|]. split; [intros n; rewrite E7, Hn; tauto|].
  intros p Hp. apply E8. unfold sorted_phases. by rewrite order_by_Permutation.
Qed.
End Accounting.

(** ** The standard phases *)
Section Standard.
Context {W : Type} `{Process W} `{Host} `{FileStat} `{MapRange}.
Implicit Types (cfg : AssembleConfig W).

Lemma sorted_default dir budget :
  sorted_phases (NewContextAssembler (W := W) dir budget) = DefaultPhases dir.
Proof using Type. reflexivity. Qed.

Lemma verify_identity_spec (st : IdentityAnchorStore W) (laws : @AnchorLaws W st) cfg docs w w' r :
  cfg_anchors cfg = Some st -> verify_identity cfg docs w = (w', Ok r) ->
  exists rep w1 w2, r = Some rep /\ ir_HasTampering rep = false /\
    VerifyAnchors (ComputeAnchors docs) w = (w1, Ok rep) /\
    WriteInitialAnchors rep w1 = (w2, Ok tt) /\
    (all_new rep = true -> enforceWitnessCheck cfg w2 = (w', Ok tt)).
Proof using Type.
  intros Hc. unfold verify_identity. rewrite Hc. unfold bind, wrapM.
  destruct (VerifyAnchors _ w) as [w1 [rep|e]] eqn:EV; simpl; [|done].
  destruct (ir_HasTampering rep) eqn:Et; [done|].
  destruct (WriteInitialAnchors rep w1) as [w2 [[]|e]] eqn:EW; simpl; [|done].
  intros E. exists rep, w1, w2.
  destruct (all_new rep).
  - destruct (enforceWitnessCheck cfg w2) as [w3 [[]|e]]; [|done].
    injection E as <- <-. repeat (split; [done|]). done.
  - injection E as <- <-. repeat (split; [done|]). done.
Qed.

(** A phase that returns no identity outputs. *)
Definition silent (p : Phase W) : Prop :=
  forall cfg rem s s' r, ph_Assemble p cfg rem s = (s', Ok (Some r)) ->
    res_IdentityDocs r = None /\ res_IntegrityReport r = None.

(** Every value [m] returns satisfies [Q]. *)
Definition yields {S A} (Q : A -> Prop) (m : M S A) : Prop :=
  forall s s' a, m s = (s', Ok a) -> Q a.
Lemma yields_ret {S A} (Q : A -> Prop) a : Q a -> yields Q (ret (S := S) a).
Proof using Type. intros Ha s s' a' [= _ <-]. done. Qed.
Lemma yields_bind {S A B} (Q : B -> Prop) (m : M S A) (k : A -> M S B) :
  (forall a, yields Q (k a)) -> yields Q (bind m k).
Proof using Type.
  intros Hk s s' b. unfold bind. destruct (m s) as [s1 [a|e]]; [apply Hk|done].
Qed.
Lemma yields_attempt {S A B} (Q : B -> Prop) (m : M S A) (k : result A -> M S B) :
  (forall r, yields Q (k r)) -> yields Q (attempt m k).
Proof using Type. intros Hk s s' b. unfold attempt. destruct (m s) as [s1 r]. apply Hk. Qed.
Definition no_docs (r : option PhaseResult) : Prop :=
  match r with
  | Some r => res_IdentityDocs r = None /\ res_IntegrityReport r = None
  | None => True
  end.

Ltac yields :=
  repeat first
    [ apply yields_ret; done
    | apply yields_bind; intros ?
    | apply yields_attempt; intros ?
    | match goal with |- yields _ (match ?x with _ => _ end) => destruct x end ].

Lemma silent_intro p :
  (forall cfg rem, yields no_docs (ph_Assemble p cfg rem)) -> silent p.
Proof using Type. intros Hp cfg rem s s' r E. exact (Hp cfg rem s s' (Some r) E). Qed.

Lemma continuity_silent : silent ContinuityPhase.
Proof using Type.
  apply silent_intro. intros cfg rem. simpl. unfold continuity_Assemble. yields.
Qed.

Lemma worldmodel_silent : silent WorldModelPhase.
Proof using Type.
  apply silent_intro. intros cfg rem. simpl. unfold worldmodel_Assemble. yields.
Qed.

Lemma echoes_silent : silent EchoPoolPhase.
Proof using Type.
  apply silent_intro. intros cfg rem. simpl. unfold echoes_Assemble. yields.
Qed.

Lemma incoming_silent : silent IncomingPhase.
Proof using Type. intros cfg rem [w dm] s' r E. by injection E as _ <-. Qed.

Lemma grounding_silent : silent GroundingPhase.
Proof using Type.
  apply silent_intro. intros cfg rem. simpl. unfold grounding_Assemble. yields.
Qed.

Lemma phase_loop_silent cfg phases pg s s' pg' :
  Forall silent phases -> phase_loop cfg phases pg s = (s', Ok (Some pg')) ->
  pg_docs pg' = pg_docs pg /\ pg_report pg' = pg_report pg.
Proof using Type.
  intros Hall E. revert E Hall.
  apply (phase_loop_ind (fun phases pg _ pg' => Forall silent phases ->
           pg_docs pg' = pg_docs pg /\ pg_report pg' = pg_report pg) cfg); [done|].
  intros p rest pg0 s0 s1 pg1 pg2 Hstep IH Hall. apply Forall_cons in Hall as [Hp Hall].
  destruct (IH Hall) as [-> ->]. destruct Hstep as [s0 s1 _ _|s0 s1 result _ Er|s0 s1 e _ _ _];
    [done| |done].
  apply Hp in Er as [Ed Er]. simpl. by rewrite Ed, Er.
Qed.

(** What a context of the standard phases knows of the identity: the first phase. *)
Lemma default_identity dir budget cfg w w' c :
  Assemble (NewContextAssembler dir budget) cfg w = (w', Ok (Some c)) ->
  exists docs rep w1, LoadDocuments dir = Ok docs /\
    verify_identity cfg docs w = (w1, Ok rep) /\
    ctx_IdentityDocs c = Some docs /\ ctx_IntegrityReport c = rep.
Proof using Type.
  intros E. apply Assemble_Ok in E as (s & pg & El & _ & _ & _ & _ & _ & _ & -> & -> & _).
  rewrite sorted_default in El. apply phase_loop_step in El as (s1 & pg1 & Hstep & El).
  apply phase_loop_silent in El as [-> ->].
  2: { rewrite !Forall_cons. split; [apply continuity_silent|]. split; [apply worldmodel_silent|].
       split; [apply echoes_silent|]. split; [apply incoming_silent|].
       split; [apply grounding_silent|constructor]. }
  inversion Hstep as [? ? Ho|? ? result _ Er|? ? e _ Hf]; subst; [done| |done].
  simpl in Er. unfold identity_Assemble in Er.
  destruct (LoadDocuments dir) as [docs|e]; simpl in Er; [|done].
  unfold bind, liftW in Er. destruct (verify_identity cfg docs w) as [w1 [rep|e]] eqn:EV; [|done].
  injection Er as _ <-. exists docs, rep, w1. simpl. repeat (split; [done|]). by destruct rep.
Qed.

(** C12: No context is assembled under a tampered identity. With an anchor store, if
    the standard phases deliver a context then the documents it was built from were
    verified against the anchors, none of them was tampered with or deleted, and the
    report that says so comes with the context. *)
Theorem Assemble_never_under_tampering (st : IdentityAnchorStore W) (laws : @AnchorLaws W st)
    dir budget cfg w w' c :
  cfg_anchors cfg = Some st ->
  Assemble (NewContextAssembler dir budget) cfg w = (w', Ok (Some c)) ->
  exists docs rep, LoadDocuments dir = Ok docs /\ ctx_IdentityDocs c = Some docs /\
    ctx_IntegrityReport c = Some rep /\ ir_HasTampering rep = false /\
    forall d, doc_status w (ComputeAnchors docs) d <> Some AnchorTampering.
Proof using Type.
  intros Hc E. apply default_identity in E as (docs & rep & w1 & Hl & EV & -> & ->).
  eapply verify_identity_spec in EV as (rep' & w2 & w3 & -> & Ht & EV & _); [|done|done].
  exists docs, rep'. repeat (split; [done|]). intros d Hd.
  apply VerifyAnchors_spec in EV as [_ ([R1 R2] & R3)].
  destruct (R3 d) as (fr & Hfr & <-); [by rewrite Hd|].
  destruct (R1 fr Hfr) as [Hs _]. rewrite Hd in Hs. injection Hs as Hs.
  assert (ir_HasTampering rep' = true) by (apply R2; eauto). congruence.
Qed.

(** A first boot needs its witness. When every document is new, the standard
    phases deliver a context only if a founding record holds a witness letter, or
    the operator has set the bypass. *)
Theorem first_boot_needs_witness (st : IdentityAnchorStore W) (laws : @AnchorLaws W st)
    dir budget cfg w w' c docs :
  cfg_anchors cfg = Some st -> LoadDocuments dir = Ok docs ->
  (forall d s, doc_status w (ComputeAnchors docs) d = Some s -> s = AnchorNew) ->
  Assemble (NewContextAssembler dir budget) cfg w = (w', Ok (Some c)) ->
  cfg_SkipWitnessCheck cfg = true \/
  exists store w1 w2, cfg_AssemblyStore cfg = Some store /\
    @as_HasWitnessLetter W store w1 = (w2, Ok true).
Proof using Type.
  intros Hc Hl Hnew E. apply default_identity in E as (docs' & rep & w1 & Hl' & EV & _).
  assert (docs' = docs) as -> by congruence.
  eapply verify_identity_spec in EV as (rep' & w2 & w3 & -> & _ & EV & _ & Hw); [|done|done].
  apply VerifyAnchors_spec in EV as [_ ([R1 _] & _)].
  assert (Ha : all_new rep' = true).
  { apply forallb_forall. intros fr Hfr. apply bool_decide_eq_true.
    apply list_elem_of_In, R1 in Hfr as [Hs _]. by apply Hnew in Hs. }
  specialize (Hw Ha). unfold enforceWitnessCheck, attempt in Hw.
  destruct (cfg_SkipWitnessCheck cfg); [by left|right].
  destruct (cfg_AssemblyStore cfg) as [store|]; [|done].
  destruct (as_HasWitnessLetter w3) as [w4 [[|]|e]] eqn:EH; simpl in Hw; try done.
  by exists store, w3, w4.
Qed.
End Standard.

(** ** Continuity *)
Section Continuity.
Context {W : Type} `{Process W} `{Host} `{FileStat} `{MapRange}.
Implicit Types (cfg : AssembleConfig W).

Lemma str_join_contains x l sep : x ∈ l -> str_contains (str_join l sep) x = true.
Proof using Type.
  intros Hx. apply str_contains_iff. unfold str_join.
  induction l as [|y l IH]; [by apply elem_of_nil in Hx|].
  destruct l as [|z l].
  - apply list_elem_of_singleton in Hx as ->. exists "", "". simpl. by rewrite str_app_nil_r.
  - change (String.concat sep (y :: z :: l)) with (y +:+ (sep +:+ String.concat sep (z :: l))).
    apply elem_of_cons in Hx as [->|Hx].
    + by exists "", (sep +:+ String.concat sep (z :: l)).
    + destruct (IH Hx) as (a & b & ->). exists (y +:+ (sep +:+ a)), b.
      by rewrite !str_app_assoc.
Qed.

Lemma str_contains_embed a s b x :
  str_contains s x = true -> str_contains (a +:+ (s +:+ b)) x = true.
Proof using Type.
  rewrite !str_contains_iff. intros (u & v & ->). exists (a +:+ u), (v +:+ b).
  by rewrite !str_app_assoc.
Qed.

Lemma render_contains x parts : x ∈ parts -> str_contains (render_continuity parts) x = true.
Proof using Type.
  intros Hx. unfold render_continuity. destruct parts as [|p ps]; [by apply elem_of_nil in Hx|].
  rewrite <- str_app_assoc. apply str_contains_embed. by apply str_join_contains.
Qed.

Lemma add_bridge_spec cfg rn threads parts w dm :
  exists w' pre ab, add_bridge cfg rn threads parts (w, dm) = ((w', dm), Ok (pre ++ parts, ab)).
Proof using Type.
  unfold add_bridge. destruct (bridge_allowed cfg rn); [|by exists w, [], false].
  destruct (cfg_llmFn cfg) as [llm|]; [|by exists w, [], false].
  unfold attempt, liftW. destruct (SynthesizeBridge _ _ _ _ w) as [w1 [br|e]];
    [|by exists w1, [], false].
  destruct (negb _ && negb _); [|by exists w1, [], (br_Abstained br)].
  by exists w1, ["=== ORIENTATION BRIDGE ===" +:+ newline +:+ br_Content br], (br_Abstained br).
Qed.

(** The hints and the loaded count the phase starts from are kept and grown. *)
Lemma plan_notes_spec cfg ns w dm :
  exists notes hints, plan_notes cfg ns (w, dm) = ((w, fold_left (fun m h => add_hint h m) hints dm), Ok notes) /\
    forall plan, cfg_Plan cfg = Some plan ->
      metabolism_incomplete (plan_PriorMetabolismStatus plan) = true ->
      notes = [metabolism_note (plan_PriorMetabolismStatus plan)
                 (match ns with [] => true | _ => false end)] /\
      hints = [metabolism_hint (plan_PriorMetabolismStatus plan)].
Proof using Type.
  unfold plan_notes. destruct (cfg_Plan cfg) as [plan|]; [|by exists [], []].
  destruct (metabolism_incomplete _) eqn:E.
  - eexists _, [_]. split; [reflexivity|]. by intros ? [= <-].
  - exists [], []. split; [done|]. intros ? [= <-]. congruence.
Qed.

Lemma bind_note {A} f (k : unit -> AM W A) w dm : bind (note f) k (w, dm) = k tt (w, f dm).
Proof using Type. reflexivity. Qed.
Lemma bind_at {S A B} (m : M S A) (k : A -> M S B) s s1 a :
  m s = (s1, Ok a) -> bind m k s = k a s1.
Proof using Type. intros E. unfold bind. by rewrite E. Qed.
Lemma bind_lift {A B} (m : M W A) (k : A -> AM W B) w w1 dm a :
  m w = (w1, Ok a) -> bind (liftW m) k (w, dm) = k a (w1, dm).
Proof using Type. intros E. apply bind_at. unfold liftW. by rewrite E. Qed.
Lemma attempt_lift {A B} (m : M W A) (k : result A -> AM W B) w w1 dm r :
  m w = (w1, r) -> attempt (liftW m) k (w, dm) = k r (w1, dm).
Proof using Type. intros E. unfold attempt, liftW. by rewrite E. Qed.

(** What [assembleContinuity] returns, in terms of the search results. *)
Lemma assembleContinuity_spec cfg st ns w w1 dm w' dm' out :
  @SearchNarrative W st [] 3 w = (w1, Ok ns) ->
  assembleContinuity cfg st (w, dm) = ((w', dm'), Ok out) ->
  exists notes pre, out.1 = render_continuity (pre ++ notes ++ map narrative_part (take 2 ns)) /\
    (forall plan, cfg_Plan cfg = Some plan ->
       metabolism_incomplete (plan_PriorMetabolismStatus plan) = true ->
       notes = [metabolism_note (plan_PriorMetabolismStatus plan)
                  (match ns with [] => true | _ => false end)] /\
       metabolism_hint (plan_PriorMetabolismStatus plan) ∈ dm_AccessHints dm').
Proof using Type.
  intros Hs. unfold assembleContinuity.
  erewrite bind_lift by (unfold wrapM; by rewrite Hs). cbv beta zeta. rewrite bind_note.
  set (dm1 := note_narratives _ _ dm).
  assert (Hh : exists dm2, (match ns with [] => note (add_hint search_hint) | _ => ret tt end) (w1, dm1)
              = ((w1, dm2), Ok tt)) by (destruct ns; by eexists).
  destruct Hh as [dm2 Hh]. erewrite bind_at by exact Hh.
  destruct (plan_notes_spec cfg ns w1 dm2) as (notes & hints & Hpn & Hn).
  erewrite bind_at by exact Hpn. rewrite bind_note. set (dm3 := note_narratives _ _ _).
  assert (Hhint : forall h, h ∈ hints -> h ∈ dm_AccessHints dm3).
  { intros h Hin. subst dm3. simpl. clear -Hin. revert dm2. induction hints as [|x l IH];
      intros dm2; [by apply elem_of_nil in Hin|]. simpl.
    apply elem_of_cons in Hin as [->|Hin]; [|auto].
    assert (Hx : x ∈ dm_AccessHints (add_hint x dm2)) by (simpl; set_solver).
    revert Hx. generalize (add_hint x dm2) as d. clear IH. induction l as [|y l IH];
      intros d Hd; simpl; [done|]. apply IH. simpl. set_solver. }
  destruct (@SearchReflections W st [] 5 w1) as [w2 [refl|e]] eqn:ER;
    erewrite attempt_lift by exact ER; cbv beta iota.
  - rewrite bind_note. set (dm4 := note_reflections _ dm3).
    assert (Hr : exists dm5, (match refl with [] => note (add_hint reflection_hint) | _ => ret tt end)
              (w2, dm4) = ((w2, dm5), Ok tt) /\ (forall h, h ∈ dm_AccessHints dm3 -> h ∈ dm_AccessHints dm5)).
    { destruct refl; eexists; (split; [reflexivity|]); simpl; set_solver. }
    destruct Hr as (dm5 & Hr & Hd5). erewrite bind_at by exact Hr.
    match goal with |- context [add_bridge cfg ?rn ?t ?p] =>
      destruct (add_bridge_spec cfg rn t p w2 dm5) as (w3 & pre & ab & Hab) end.
    erewrite bind_at by exact Hab. cbv beta iota.
    intros [= <- <- <-]. exists notes, pre. split; [done|]. intros plan Hp Hi.
    destruct (Hn plan Hp Hi) as [-> ->]. split; [done|]. apply Hd5, Hhint. by left.
  - intros [= <- <- <-]. exists notes, []. split; [done|]. intros plan Hp Hi.
    destruct (Hn plan Hp Hi) as [-> ->]. split; [done|]. apply Hhint. by left.
Qed.

(** The continuity block never passes off what it knows to be partial. Each of
    the (at most two) narratives it loads appears in the block, and one compressed
    from external input appears behind the note naming its source, trust and scan
    result; when the plan says the prior session's metabolism is queued, running,
    failed or partial, the block carries the metabolism note and the manifest the
    matching access hint. *)
Theorem continuity_discloses cfg st ns rem w w1 dm w' dm' r :
  cfg_store cfg = Some st -> @SearchNarrative W st [] 3 w = (w1, Ok ns) ->
  continuity_Assemble cfg rem (w, dm) = ((w', dm'), Ok (Some r)) ->
  (forall n, n ∈ take 2 ns -> str_contains (res_Content r) (narrative_part n) = true) /\
  (forall plan, cfg_Plan cfg = Some plan ->
     metabolism_incomplete (plan_PriorMetabolismStatus plan) = true ->
     str_contains (res_Content r)
       (metabolism_note (plan_PriorMetabolismStatus plan)
          (match ns with [] => true | _ => false end)) = true /\
     metabolism_hint (plan_PriorMetabolismStatus plan) ∈ dm_AccessHints dm').
Proof using Type.
  intros Hc Hs. unfold continuity_Assemble. rewrite Hc. unfold bind.
  destruct (assembleContinuity cfg st (w, dm)) as [[w2 dm2] [[content ab]|e]] eqn:E; [|done].
  eapply assembleContinuity_spec in E as (notes & pre & Hout & Hn); [|done].
  simpl in Hout. intros [= <- <- <-]. simpl. rewrite Hout. split.
  - intros n Hin. apply render_contains. rewrite !elem_of_app. right. right.
    apply elem_of_map. eauto.
  - intros plan Hp Hi. destruct (Hn plan Hp Hi) as [-> Hh]. split; [|done].
    apply render_contains. set_solver.
Qed.

Definition with_llm (f : option (string -> M W string)) (cfg : AssembleConfig W) : AssembleConfig W :=
  {| cfg_store := cfg_store cfg; cfg_edges := cfg_edges cfg; cfg_anchors := cfg_anchors cfg;
     cfg_provider := cfg_provider cfg; cfg_grounding := cfg_grounding cfg;
     cfg_bridge := cfg_bridge cfg; cfg_llmFn := f;
     cfg_contradictionProbability := cfg_contradictionProbability cfg;
     cfg_InbandNotes := cfg_InbandNotes cfg; cfg_AssemblyStore := cfg_AssemblyStore cfg;
     cfg_SkipWitnessCheck := cfg_SkipWitnessCheck cfg; cfg_Plan := cfg_Plan cfg;
     cfg_SessionID := cfg_SessionID cfg |}.

(** The bridge obeys the lifecycle policy. Unless the plan's bridge policy is
    automatic-with-abstention, the language model is never called and nothing is
    abstained from: the phase behaves the same whatever model is configured, none
    included. *)
Theorem bridge_only_by_policy cfg f rem s :
  (forall plan, cfg_Plan cfg = Some plan ->
     plan_BridgePolicy plan <> BridgeAutoWithAbstention) ->
  continuity_Assemble cfg rem s = continuity_Assemble (with_llm f cfg) rem s.
Proof using Type.
  intros Hp.
  assert (Hb : forall g rn threads parts, add_bridge (with_llm g cfg) rn threads parts = ret (parts, false)).
  { intros g rn threads parts. unfold add_bridge, bridge_allowed. simpl.
    destruct (cfg_Plan cfg) as [plan|]; [|by rewrite andb_false_r].
    destruct (String.eqb_spec (plan_BridgePolicy plan) BridgeAutoWithAbstention) as [E|_];
      [by apply Hp in E|]. by rewrite andb_false_r. }
  assert (Ha : forall st g s, assembleContinuity (with_llm g cfg) st s =
                 assembleContinuity (with_llm None cfg) st s).
  { intros st g [w dm]. unfold assembleContinuity, bind at 1. symmetry. unfold bind at 1.
    destruct (liftW _ (w, dm)) as [[w1 dm1] [ns|e]]; [|done].
    unfold bind, note, attempt, ret. destruct ns; simpl;
      (destruct (plan_notes (with_llm None cfg) _ _) as [[w2 dm2] [notes|e]] eqn:En;
       change (plan_notes (with_llm g cfg)) with (plan_notes (with_llm None cfg));
       rewrite En; [|done]); simpl; destruct (SearchReflections _ _ w2) as [w3 [refl|e]]; try done;
      destruct refl; by rewrite !Hb. }
  assert (Hall : forall g, continuity_Assemble (with_llm g cfg) rem s =
                   continuity_Assemble (with_llm None cfg) rem s).
  { intros g. unfold continuity_Assemble. simpl. destruct (cfg_store cfg) as [st|]; [|done].
    unfold bind. by rewrite Ha. }
  assert (Hcfg : with_llm (cfg_llmFn cfg) cfg = cfg) by by destruct cfg.
  rewrite <- Hcfg at 1. by rewrite (Hall (cfg_llmFn cfg)), (Hall f).
Qed.
End Continuity.

(** ** What can stop a session from getting its context *)
Section Abort.
Context {W : Type} `{Process W} `{Host} `{FileStat} `{MapRange}.
Implicit Types (cfg : AssembleConfig W).

Definition panic_free cfg (p : Phase W) : Prop :=
  forall rem, yields is_Some (ph_Assemble p cfg rem).

Ltac is_some :=
  repeat first
    [ apply yields_ret; by eexists
    | apply yields_bind; intros ?
    | apply yields_attempt; intros ?
    | match goal with |- yields _ (match ?x with _ => _ end) => destruct x eqn:? end ].

Lemma default_panic_free cfg dir p :
  is_Some (cfg_store cfg) \/ cfg_provider cfg = None -> p ∈ DefaultPhases dir -> panic_free cfg p.
Proof using Type.
  intros Hc Hp rem. unfold DefaultPhases in Hp. elem_cases Hp; simpl.
  - unfold identity_Assemble. is_some. by intros s s' a [= _ <-].
  - unfold continuity_Assemble. is_some.
  - unfold worldmodel_Assemble. is_some.
  - unfold echoes_Assemble. is_some. destruct Hc as [[st Hc]|Hc]; congruence.
  - intros [w dm] s' a [= _ <-]. by eexists.
  - unfold grounding_Assemble. is_some.
Qed.

Lemma phase_loop_total cfg phases : forall pg s,
  Forall (fun p => panic_free cfg p /\ ph_IsFatal p = false) phases ->
  exists s' pg', phase_loop cfg phases pg s = (s', Ok (Some pg')).
Proof using Type.
  induction phases as [|p rest IH]; intros pg s Hall; [by do 2 eexists|].
  apply Forall_cons in Hall as [[Hp Hf] Hall]. simpl. destruct (over_budget p pg).
  - destruct s as [w dm]. rewrite bind_note. by apply IH.
  - unfold attempt. destruct (ph_Assemble p cfg _ s) as [s1 [r|e]] eqn:E.
    + apply Hp in E as [x ->]. by apply IH.
    + rewrite Hf. by apply IH.
Qed.

Lemma identity_first dir cfg rest pg s :
  phase_loop cfg (IdentityPhase dir :: rest) pg s =
  attempt (identity_Assemble dir cfg (pg_remaining pg))
    (fun r => match r with
              | Ok (Some result) => phase_loop cfg rest (charge "identity" result pg)
              | Ok None => ret None
              | Err e => fail e
              end) s.
Proof using Type. reflexivity. Qed.

(** C33: Only the identity can abort a session. With a memory store configured (or no
    embedding provider), assembling the standard phases never panics, and it returns
    an error exactly when loading or verifying the identity does: memory, bridge,
    echo, incoming and grounding failures cost a section, never the session. *)
Theorem only_identity_aborts dir budget cfg w :
  is_Some (cfg_store cfg) \/ cfg_provider cfg = None ->
  match LoadDocuments dir with
  | Err _ => exists e, (Assemble (NewContextAssembler dir budget) cfg w).2 = Err e
  | Ok docs =>
      match (verify_identity cfg docs w).2 with
      | Err e => (Assemble (NewContextAssembler dir budget) cfg w).2 = Err e
      | Ok _ => exists c, (Assemble (NewContextAssembler dir budget) cfg w).2 = Ok (Some c)
      end
  end.
Proof using Type.
  intros Hc. unfold Assemble, attempt. rewrite sorted_default.
  unfold DefaultPhases. rewrite identity_first. unfold attempt, identity_Assemble.
  destruct (LoadDocuments dir) as [docs|e]; unfold wrap_err; cbv beta iota; [|eexists; reflexivity].
  destruct (verify_identity cfg docs w) as [w1 [rep|e]] eqn:EV.
  2: { unfold bind, liftW. cbv beta iota. rewrite ?EV. reflexivity. }
  erewrite bind_lift by exact EV. unfold ret at 1. cbv beta iota.
  match goal with |- context [phase_loop cfg ?ps ?pg ?s] =>
    destruct (phase_loop_total cfg ps pg s) as ([w2 dm2] & pg' & E) end.
  { apply Forall_forall. intros p Hp. split.
    - apply (default_panic_free cfg dir); [done|]. by apply elem_of_cons; right.
    - elem_cases Hp; reflexivity. }
  rewrite E. unfold finish, bind, liftW, draw.
  destruct (crypto_Read16 w2) as [w3 bs]. destruct (time_Now w3) as [w4 now]. by eexists.
Qed.

(** A session's own configuration has no anchor store, so the identity phase neither
    verifies the documents nor asks for a witness letter. *)
Theorem session_never_verifies_identity (deps : RunnerDeps W) plan sid notes disc docs (w : W) :
  verify_identity (session_assemble_config deps plan sid notes disc) docs w = (w, Ok None).
Proof using Type. reflexivity. Qed.

(** With an embedding provider and no memory store, the echo-pool phase calls a nil store. *)
Theorem echoes_panic_without_store cfg st vec rem w w1 dm :
  cfg_provider cfg = Some st -> cfg_store cfg = None ->
  @Embed W st "past experience insight reflection memory" w = (w1, Ok vec) ->
  echoes_Assemble cfg rem (w, dm) = ((w1, dm), Ok None).
Proof using Type.
  intros Hp Hs He. unfold echoes_Assemble. rewrite Hp, Hs.
  erewrite bind_lift by (unfold wrapM; by rewrite He). done.
Qed.
End Abort.

(** ** A concrete process, and the witnesses *)

Definition demo_process : Process World :=
  {| time_Now := fun w => (w, w_clock w * second); rand_Float64 := fun w => (w, f_lit 1 2);
     crypto_Read8 := fun w => (w, Some (repeat 7 8)); crypto_Read16 := fun w => (w, repeat 9 16);
     LoadLocation_ok := fun tz => String.eqb tz "UTC";
     time_Format_in := fun _ t => fmt_RFC3339 t; unicode_trim := fun s => s |}.
Definition demo_host : Host :=
  {| os_ReadFile := fun p => if String.eqb p "id/soul.md" then Contents "I am." else NotExist;
     filepath_Join := fun a b => a +:+ "/" +:+ b;
     json_policy := fun _ => Err (ENew "EOF"); sha256_hex := fun s => "sha:" +:+ s |}.
Definition demo_stat : FileStat :=
  {| os_Stat := fun p => if String.eqb p "id/soul.md" then StatInfo 0 5 else StatNotExist |}.
Definition demo_assembly_store : AssemblyStore World :=
  {| as_HasWitnessLetter := @HasWitnessLetter demo_env;
     as_LogOperatorAction := @LogOperatorAction demo_env |}.
Definition demo_narrative : NarrativeSummary :=
  {| ns_ID := "n1"; ns_SessionID := "s0"; ns_Content := "We spoke of rivers."; ns_Belief := None;
     ns_Embedding := []; ns_ContentSources := ["discord"];
     ns_ExternalAnnotation :=
       Some {| aa_TrustScore := f_lit 40 100; aa_Source := "discord"; aa_ContentSource := "discord";
               aa_Flags := []; aa_Sanitized := false; aa_ScanPassed := true; aa_AnnotatedAt := 0 |} |}.
Definition demo_memory : MemoryStore World :=
  {| SearchNarrative := fun _ _ => ret [demo_narrative]; SearchReflections := fun _ _ => ret [];
     GetReflectionByID := fun _ => ret None; SearchEntities := fun _ _ => ret [];
     ListProfiles := ret [] |}.
Definition demo_plan (bridge metabolism : string) : LifecyclePlan :=
  {| plan_ID := "p1"; plan_SessionID := "s1"; plan_TemporalMode := "episodic";
     plan_WakeCause := "manual"; plan_WakeCauseSecondary := None; plan_ActivityProfile := "normal";
     plan_AssemblyProfile := "full"; plan_BridgePolicy := bridge; plan_MetabolismPolicy := "standard";
     plan_PriorMetabolismStatus := metabolism; plan_SeamKind := "none"; plan_ResolverVersion := "1";
     plan_PolicyHash := ""; plan_GapFacts := None; plan_TransitionContexts := [];
     plan_Disclosures := []; plan_Reasons := ∅; plan_CreatedAt := 0 |}.
Definition demo_cfg (bridge : string) (skip_witness : bool) : AssembleConfig World :=
  {| cfg_store := Some demo_memory; cfg_edges := None;
     cfg_anchors := Some (@sqlite_anchor_store demo_env); cfg_provider := None;
     cfg_grounding := cfg_grounding (@MinimalAssembleConfig World);
     cfg_bridge := DefaultBridgeConfig; cfg_llmFn := Some (fun _ => ret "You were by the river.");
     cfg_contradictionProbability := f_zero; cfg_InbandNotes := ["note"];
     cfg_AssemblyStore := Some demo_assembly_store; cfg_SkipWitnessCheck := skip_witness;
     cfg_Plan := Some (demo_plan bridge MetabolismQueued); cfg_SessionID := "s1" |}.
Definition demo_assembler : ContextAssembler World :=
  @NewContextAssembler World demo_process demo_host demo_stat demo_range "id" 0.
Definition demo_assemble (cfg : AssembleConfig World) : M World (option AssembledContext) :=
  @Assemble World demo_process demo_assembler cfg.

(** A first boot without a witness letter aborts, but only after the anchors have been
    written: the next boot finds every document anchored, does not ask for the letter,
    and delivers a context, though no founding record exists and no bypass was set. *)
Theorem failed_first_boot_disarms_witness_check :
  let first := demo_assemble (demo_cfg BridgeDisabled false) demo_world in
  let second := demo_assemble (demo_cfg BridgeDisabled false) first.1 in
  first.2 = Err witness_absent /\
  (exists c, second.2 = Ok (Some c)) /\
  db_founding (w_db second.1) = [] /\ db_actions (w_db second.1) = [].
Proof.
  vm_compute. split; [reflexivity|]. split; [by eexists|]. by split.
Qed.

Definition demo_context : World * result (option AssembledContext) :=
  demo_assemble (demo_cfg BridgeAutoWithAbstention true) demo_world.
Definition demo_ctx : AssembledContext :=
  match demo_context.2 with
  | Ok (Some c) => c
  | _ => {| ctx_SystemPrompt := ""; ctx_IdentityDocs := None; ctx_IntegrityReport := None;
            ctx_BridgeAbstained := false; ctx_DepthManifest := zero_manifest;
            ctx_Manifest := {| mf_ID := ""; mf_PlanID := ""; mf_SessionID := ""; mf_PhasesRun := [];
                               mf_PhasesSkipped := []; mf_SkipReasons := ∅; mf_BudgetTotal := 0;
                               mf_BudgetUsed := 0; mf_PhaseCosts := ∅; mf_CreatedAt := 0 |} |}
  end.

Lemma Assemble_accounts_for_every_phase_witness :
  (forall n, is_Some (mf_PhaseCosts (ctx_Manifest demo_ctx) !! n) <->
             n ∈ mf_PhasesRun (ctx_Manifest demo_ctx)) /\
  mf_PhasesRun (ctx_Manifest demo_ctx) <> [].
Proof.
  split; [|vm_compute; discriminate].
  refine (proj1 (proj2 (proj2 (proj2 (proj2
    (@Assemble_accounts_for_every_phase World demo_process demo_assembler
      (demo_cfg BridgeAutoWithAbstention true) demo_world demo_context.1 demo_ctx _)))))).
  vm_compute. reflexivity.
Defined.

Lemma Assemble_never_under_tampering_witness :
  exists docs rep, @LoadDocuments demo_host demo_stat "id" = Ok docs /\
    ctx_IdentityDocs demo_ctx = Some docs /\
    ctx_IntegrityReport demo_ctx = Some rep /\ ir_HasTampering rep = false /\
    forall d, @doc_status World _ (@sqlite_anchor_laws demo_env) demo_world
                (@ComputeAnchors demo_host docs) d <> Some AnchorTampering.
Proof.
  apply (@Assemble_never_under_tampering World demo_process demo_host demo_stat demo_range
    (@sqlite_anchor_store demo_env) (@sqlite_anchor_laws demo_env) "id" 0
    (demo_cfg BridgeAutoWithAbstention true) demo_world demo_context.1 demo_ctx);
    [reflexivity|vm_compute; reflexivity].
Defined.

Definition demo_docs : IdentityDocs :=
  match @LoadDocuments demo_host demo_stat "id" with
  | Ok d => d | Err _ => {| docs_Docs := ∅; docs_BaseDir := "" |} end.

Lemma first_boot_needs_witness_witness :
  cfg_SkipWitnessCheck (demo_cfg BridgeAutoWithAbstention true) = true \/
  exists store w1 w2, cfg_AssemblyStore (demo_cfg BridgeAutoWithAbstention true) = Some store /\
    @as_HasWitnessLetter World store w1 = (w2, Ok true).
Proof.
  apply (@first_boot_needs_witness World demo_process demo_host demo_stat demo_range
    (@sqlite_anchor_store demo_env) (@sqlite_anchor_laws demo_env) "id" 0
    (demo_cfg BridgeAutoWithAbstention true) demo_world demo_context.1 demo_ctx demo_docs);
    [reflexivity|vm_compute; reflexivity| |vm_compute; reflexivity].
  intros d s. unfold doc_status. replace (anchored demo_world d) with (@None string) by reflexivity.
  destruct (_ !! d); congruence.
Defined.

Lemma continuity_discloses_witness :
  let out := @continuity_Assemble World demo_process (demo_cfg BridgeDisabled false) 0
               (demo_world, zero_manifest) in
  match out.2 with
  | Ok (Some r) => str_contains (res_Content r) (narrative_part demo_narrative) = true
  | _ => False
  end.
Proof.
  refine (proj1 (@continuity_discloses World demo_process (demo_cfg BridgeDisabled false) demo_memory
    [demo_narrative] 0 demo_world demo_world zero_manifest _ _ _ eq_refl eq_refl eq_refl)
    demo_narrative _). left.
Defined.

Lemma bridge_only_by_policy_witness :
  @continuity_Assemble World demo_process (demo_cfg BridgeDisabled false) 0 (demo_world, zero_manifest)
  = @continuity_Assemble World demo_process (with_llm None (demo_cfg BridgeDisabled false)) 0
      (demo_world, zero_manifest).
Proof.
  apply (@bridge_only_by_policy World demo_process). intros plan [= <-]. discriminate.
Defined.

Lemma only_identity_aborts_witness :
  exists c, (demo_assemble (demo_cfg BridgeDisabled true) demo_world).2 = Ok (Some c).
Proof.
  refine (@only_identity_aborts World demo_process demo_host demo_stat demo_range "id" 0
    (demo_cfg BridgeDisabled true) demo_world _). left. eexists. reflexivity.
Defined.
