(* ===== verification/ToolHandlers.v ===== *)
(** * The built-in tools ([internal/tools]: memory_cmds.go, reflect_cmds.go, people_cmds.go,
    discover_handler.go, register.go)

    The handlers the agent's model calls, over the interfaces of the stores, and their
    registration. A handler's arguments are a decoded JSON object; its result is the text
    the model reads. *)

From S2P Require Import Prelude Types Db Consolidation Memory MemoryStore Metabolism MemoryTiers.
From S2P Require Import Settings Aegis Registry Awareness Assembly.

(** ** Arguments ([map[string]any] of a decoded JSON object; integers from other callers) *)

Inductive Any :=
  | AString (s : string) | AFloat (x : float64) | ABool (b : bool)
  | AInt (z : Z) | AInt64 (z : Z) | AOther.
Definition ToolArgs : Type := gmap string Any.

(** [None] for the pair with a false [ok]. *)
Definition stringArg (args : ToolArgs) (key : string) : option string :=
  match args !! key with Some (AString s) => Some s | _ => None end.
Definition intArg (args : ToolArgs) (key : string) (def : Z) : Z :=
  match args !! key with
  | Some (AInt n) | Some (AInt64 n) => n
  | Some (AFloat x) => f_to_int x
  | _ => def
  end.
(** [v, ok := stringArg(...); if !ok || v == ""] *)
Definition required (args : ToolArgs) (key : string) : option string :=
  match stringArg args key with Some s => if str_empty s then None else Some s | None => None end.
Definition optional (args : ToolArgs) (key : string) : string := default "" (stringArg args key).

Definition blank_line : string := newline +:+ newline.
Definition bullet : string := "• ".

Section Handlers.
Context {W : Type} `{!Process W}.

(** ** Memory *)

Definition narrative_entry (i : nat) (n : NarrativeSummary) : string :=
  "[" +:+ fmt_d (Z.of_nat i + 1) +:+ "] id=" +:+ ns_ID n +:+ newline +:+ ns_Content n +:+ blank_line.
Definition reflection_entry (i : nat) (r : Reflection) : string :=
  "[" +:+ fmt_d (Z.of_nat i + 1) +:+ "] id=" +:+ rf_ID r +:+ " type=" +:+ rf_Type r +:+
  " visibility=" +:+ rf_Visibility r +:+ newline +:+ rf_Content r +:+ blank_line.
Definition titled {A} (title : string) (entry : nat -> A -> string) (l : list A) : string :=
  match l with [] => "" | _ => title +:+ newline +:+ String.concat "" (imap entry l) end.

Definition memory_search (store : MemoryStore W) (provider : EmbeddingProvider W) (args : ToolArgs)
    : M W string :=
  match required args "query" with
  | None => fail (ENew "memory_search: missing required arg 'query'")
  | Some q =>
      let limit := intArg args "limit" 5 in
      let! vec := wrapM "memory_search: embed query" (Embed q) in
      let! narratives := wrapM "memory_search: search narrative" (SearchNarrative vec limit) in
      let! reflections := wrapM "memory_search: search reflections" (SearchReflections vec limit) in
      ret (match narratives, reflections with
           | [], [] => "no memory results found"
           | _, _ => TrimSpace (titled "=== Narrative Summaries (T3) ===" narrative_entry narratives +:+
                                titled "=== Reflections (T4) ===" reflection_entry reflections)
           end)
  end.

Definition log_line (e : ExperientialLog) : string :=
  "[" +:+ el_ID e +:+ "] source=" +:+ el_ContentSource e +:+ newline +:+ el_Content e +:+ blank_line.

(** [QueryLogs] is the [pkg.T2QueryStore]. *)
Definition memory_recall (QueryLogs : string -> Z -> M W (list ExperientialLog))
    (CurrentSessionID : string) (args : ToolArgs) : M W string :=
  let sessionID := str_or (optional args "session_id") CurrentSessionID in
  let crossSession := match args !! "cross_session" with Some (ABool b) => b | _ => false end in
  if negb (String.eqb sessionID CurrentSessionID) && negb crossSession
  then fail (ENew ("memory_recall: reading session " +:+ fmt_q sessionID +:+
                   " requires cross_session=true (current session is " +:+ fmt_q CurrentSessionID +:+ ")"))
  else
    let! logs := wrapM "memory_recall: query logs" (QueryLogs sessionID (intArg args "limit" 50)) in
    ret (match logs with
         | [] => "no logs found for session " +:+ sessionID
         | _ => TrimSpace ("=== Session " +:+ sessionID +:+ " — " +:+ fmt_d (Z.of_nat (length logs)) +:+
                           " entries ===" +:+ blank_line +:+ String.concat "" (map log_line logs))
         end).

Definition focus_entry (focus reason : string) : SettingsEntry :=
  {| se_Name := "agent_focus"; se_Value := fmt_q focus; se_DefaultValue := ""; se_BoundsMin := "";
     se_BoundsMax := ""; se_Owner := "agent"; se_ConsentRequired := false;
     se_Description := "Agent's stated focus for the next session"; se_LastChanged := time_zero;
     se_ChangedBy := "agent"; se_Reason := reason |}.
Definition focus_set (store : SettingsStore W) (args : ToolArgs) : M W string :=
  match required args "focus" with
  | None => fail (ENew "focus_set: missing required arg 'focus'")
  | Some focus =>
      let! _ := wrapM "focus_set: upsert setting"
                  (ss_UpsertSetting (focus_entry focus (optional args "reason"))) in
      ret ("agent_focus set: " +:+ focus)
  end.
Definition focus_get (store : SettingsStore W) (_ : ToolArgs) : M W string :=
  let! entry := wrapM "focus_get" (ss_GetSetting "agent_focus") in
  ret (match entry with
       | None => "no agent_focus set"
       | Some e => "agent_focus: " +:+ se_Value e
       end).

(** ** Reflection *)

Definition self_examine (llmFn : option (string -> M W string)) (args : ToolArgs) : M W string :=
  match required args "prompt" with
  | None => fail (ENew "self_examine: missing required arg 'prompt'")
  | Some prompt =>
      match llmFn with
      | None => fail (ENew "self_examine: llmFn not configured")
      | Some f =>
          let! content := wrapM "self_examine: LLM call" (f prompt) in
          ret ("Advisor examination (not stored — use write_reflection to preserve insights):" +:+
               blank_line +:+ content)
      end
  end.

(** [newToolID]: a failure of [crypto/rand] panics. *)
Definition newToolID : M W string := let! bs := draw crypto_Read16 in ret (format_uuid bs).

(** The belief the tool attaches: anchored now, without a confidence. *)
Definition tool_belief (now : Z) (emotionalRegister : string) : BeliefMeta :=
  {| bm_BaseConfidence := f_zero; bm_AnchorAt := now; bm_InferenceDistance := 0;
     bm_VerificationState := ""; bm_Source := "self"; bm_EmotionalRegister := emotionalRegister |}.

(** [valid]: the valid types in the order Go visits them. *)
Definition write_reflection (valid : list string) (store : MemoryWriter W)
    (provider : EmbeddingProvider W) (args : ToolArgs) : M W string :=
  match required args "content" with
  | None => fail (ENew "write_reflection: missing required arg 'content'")
  | Some content =>
      let reflType := str_or (optional args "type") "note" in
      let visibility := str_or (optional args "visibility") VisibilityPrivate in
      if negb (one_of reflType validReflectionTypes)
      then fail (ENew ("write_reflection: invalid type " +:+ fmt_q reflType +:+ "; valid: " +:+
                       str_join valid ", "))
      else
        let! vec := wrapM "write_reflection: embed content" (Embed content) in
        let! now := draw time_Now in
        let! i := newToolID in
        let! _ := wrapM "write_reflection: store"
          (mw_InsertReflection
             {| rf_ID := i; rf_Type := reflType; rf_Content := content; rf_Visibility := visibility;
                rf_Belief := Some (tool_belief now (optional args "emotional_register"));
                rf_Embedding := vec |}) in
        ret ("reflection stored (id=" +:+ i +:+ " type=" +:+ reflType +:+ " visibility=" +:+
             visibility +:+ ")")
  end.

(** ** People *)

Definition aliases_text (prefix suffix : string) (p : RelationalProfile) : string :=
  match rp_Aliases p with [] => "" | l => prefix +:+ str_join l ", " +:+ suffix end.
Definition profile_line (p : RelationalProfile) : string :=
  bullet +:+ rp_Name p +:+ " (id=" +:+ rp_ID p +:+ ")" +:+ aliases_text ", aliases: " "" p +:+ newline.

Definition people_list (ListProfiles : M W (list RelationalProfile)) (_ : ToolArgs) : M W string :=
  let! profiles := wrapM "people_list" ListProfiles in
  ret (match profiles with
       | [] => "no relational profiles found"
       | _ => TrimSpace ("=== Relational Profiles (" +:+ fmt_d (Z.of_nat (length profiles)) +:+ ") ===" +:+
                         blank_line +:+ String.concat "" (map profile_line profiles))
       end).
Definition people_show (GetProfile : string -> M W (option RelationalProfile)) (args : ToolArgs)
    : M W string :=
  match required args "name" with
  | None => fail (ENew "people_show: missing required arg 'name'")
  | Some name =>
      let! profile := wrapM "people_show" (GetProfile name) in
      ret (match profile with
           | None => "no profile found for " +:+ fmt_q name
           | Some p =>
               TrimSpace ("=== Profile: " +:+ rp_Name p +:+ " ===" +:+ newline +:+
                          "ID: " +:+ rp_ID p +:+ newline +:+ aliases_text "Aliases: " newline p +:+
                          newline +:+ rp_Content p)
           end)
  end.

(** ** Discovery of tier-3 tools *)

Section Discover.
Variable unicode_lower : string -> string.

Definition category_line (g : ToolGroup) : string :=
  bullet +:+ tg_Name g +:+ " (" +:+ fmt_d (Z.of_nat (length (tg_Tools g))) +:+ " tools)" +:+
  (match tg_Keywords g with [] => "" | l => " — keywords: " +:+ str_join l ", " end) +:+ newline.
Definition listCategories (groups : list ToolGroup) : string :=
  match groups with
  | [] => "no Tier 3 tool categories registered"
  | _ => "=== Available Tier 3 Tool Categories ===" +:+ blank_line +:+
         String.concat "" (map category_line groups) +:+
         newline +:+ "Use discover_tools category=<name> to see tool details."
  end.
Definition tool_lines (t : ToolDef) : string :=
  bullet +:+ td_Name t +:+ newline +:+
  (if str_empty (td_Description t) then "" else "  " +:+ td_Description t +:+ newline).
Definition describeCategory (groups : list ToolGroup) (category : string) : result string :=
  match List.find (fun g => String.eqb (to_lower unicode_lower (tg_Name g))
                                       (to_lower unicode_lower category)) groups with
  | Some g => Ok (TrimSpace ("=== Tier 3: " +:+ tg_Name g +:+ " ===" +:+ blank_line +:+
                             String.concat "" (map tool_lines (tg_Tools g))))
  | None =>
      match groups with
      | [] => Err (ENew ("discover_tools: category " +:+ fmt_q category +:+
                         " not found (no Tier 3 groups registered)"))
      | _ => Err (ENew ("discover_tools: category " +:+ fmt_q category +:+ " not found; available: " +:+
                        str_join (map tg_Name groups) ", "))
      end
  end.
(** [groups]: what the registry lists. *)
Definition discover_tools (groups : list ToolGroup) (args : ToolArgs) : M W string :=
  let tier3 := whereb (fun g => tg_Tier g =? 3) groups in
  match required args "category" with
  | None => ret (listCategories tier3)
  | Some category => match describeCategory tier3 category with Ok s => ret s | Err e => fail e end
  end.
End Discover.

(** ** Registration ([register.go]) *)

(** A built-in handler: its name, and what its [Execute] does; none has a definition. *)
Inductive Builtin :=
  | DiscoverTools | MemorySearch (store : MemoryStore W) (provider : EmbeddingProvider W)
  | MemoryRecall (QueryLogs : string -> Z -> M W (list ExperientialLog)) (CurrentSessionID : string)
  | FocusSet (store : SettingsStore W) | FocusGet (store : SettingsStore W)
  | PeopleList (ListProfiles : M W (list RelationalProfile))
  | PeopleShow (GetProfile : string -> M W (option RelationalProfile))
  | SelfExamine (llmFn : option (string -> M W string))
  | WriteReflectionTool (store : MemoryWriter W) (provider : EmbeddingProvider W).

Definition builtin_Name (b : Builtin) : string :=
  match b with
  | DiscoverTools => "discover_tools" | MemorySearch _ _ => "memory_search"
  | MemoryRecall _ _ => "memory_recall" | FocusSet _ => "focus_set" | FocusGet _ => "focus_get"
  | PeopleList _ => "people_list" | PeopleShow _ => "people_show"
  | SelfExamine _ => "self_examine" | WriteReflectionTool _ _ => "write_reflection"
  end.
Definition builtin_Define (_ : Builtin) : option ToolDef := None.
Definition builtin_Execute (unicode_lower : string -> string) (valid : list string)
    (groups : list ToolGroup) (b : Builtin) : ToolArgs -> M W string :=
  match b with
  | DiscoverTools => discover_tools unicode_lower groups
  | MemorySearch s p => memory_search s p
  | MemoryRecall q sid => memory_recall q sid
  | FocusSet s => focus_set s | FocusGet s => focus_get s
  | PeopleList l => people_list l | PeopleShow g => people_show g
  | SelfExamine f => self_examine f
  | WriteReflectionTool s p => write_reflection valid s p
  end.

(** [Stores] and [Providers]; the memory store is one object with all its operations. *)
Record MemoryOps := {
  mo_reader : MemoryStore W; mo_writer : MemoryWriter W;
  mo_GetProfile : string -> M W (option RelationalProfile) }.
Record Stores := {
  sto_Memory : option MemoryOps;
  sto_T2Query : option (string -> Z -> M W (list ExperientialLog));
  sto_Settings : option (SettingsStore W) }.
Record Providers := {
  prv_Embedding : option (EmbeddingProvider W); prv_LLMFn : option (string -> M W string) }.

Definition memoryKeywords : list string := ["memory"; "recall"; "search"; "remember"; "focus"].
Definition peopleKeywords : list string := ["people"; "person"; "profile"; "relational"; "contact"].
Definition reflectKeywords : list string :=
  ["reflect"; "reflection"; "examine"; "self"; "essay"; "dream"].

(** The calls of [RegisterAll], in order: handler, tier, keywords. The session ID of the
    recall handler is left empty. *)
Definition registrations (stores : Stores) (providers : Providers)
    : list (Builtin * Z * list string) :=
  [(DiscoverTools, 1, [])] ++
  (match sto_Memory stores, prv_Embedding providers with
   | Some m, Some p => [(MemorySearch (mo_reader m) p, 2, memoryKeywords)] | _, _ => [] end) ++
  (match sto_T2Query stores with
   | Some q => [(MemoryRecall q "", 2, memoryKeywords)] | None => [] end) ++
  (match sto_Settings stores with
   | Some s => [(FocusSet s, 2, memoryKeywords); (FocusGet s, 2, memoryKeywords)] | None => [] end) ++
  (match sto_Memory stores with
   | Some m => [(PeopleList (@ListProfiles W (mo_reader m)), 2, peopleKeywords);
                (PeopleShow (mo_GetProfile m), 2, peopleKeywords)] | None => [] end) ++
  (match prv_LLMFn providers with
   | Some f => [(SelfExamine (Some f), 2, reflectKeywords)] | None => [] end) ++
  (match sto_Memory stores, prv_Embedding providers with
   | Some m, Some p => [(WriteReflectionTool (mo_writer m) p, 2, reflectKeywords)] | _, _ => [] end).

Fixpoint register_each (calls : list (Builtin * Z * list string)) (r : DefaultRegistry)
    : option (DefaultRegistry (H := Builtin)) :=
  match calls with
  | [] => Some r
  | (b, tier, kws) :: rest =>
      r' ← RegisterWithMeta builtin_Name b tier kws r; register_each rest r'
  end.
Definition RegisterAll (r : DefaultRegistry) (stores : Stores) (providers : Providers)
    : option (DefaultRegistry (H := Builtin)) :=
  register_each (registrations stores providers) r.
End Handlers.

(** ** Properties *)

Section Properties.
Context {W : Type} `{!Process W}.

(** Recall stays within its session: whatever the arguments, what it returns is what
    the store has for the current session, unless the call says [cross_session] in so
    many words. *)
Theorem memory_recall_scope (QueryLogs : string -> Z -> M W (list ExperientialLog)) cur args w w' text :
  memory_recall QueryLogs cur args w = (w', Ok text) ->
  exists sid limit logs, QueryLogs sid limit w = (w', Ok logs) /\
    (sid = cur \/ args !! "cross_session" = Some (ABool true)) /\
    (logs = [] -> text = "no logs found for session " +:+ sid).
Proof.
  unfold memory_recall, bind. cbv zeta.
  set (sid := str_or (optional args "session_id") cur).
  destruct (negb (String.eqb sid cur) && _) eqn:Ec; [done|].
  unfold wrapM. destruct (QueryLogs sid (intArg args "limit" 50) w) as [w1 [logs|e]] eqn:E; [|done].
  simpl. unfold ret. intros [= <- <-]. exists sid, (intArg args "limit" 50), logs.
  split; [done|]. split; [|by intros ->].
  destruct (String.eqb_spec sid cur) as [|Hn]; [by left|right].
  destruct (args !! "cross_session") as [[]|]; try discriminate Ec. by destruct b.
Qed.

(** As registered, recall has no session of its own: naming any session, the current one
    included, is refused without [cross_session]. *)
Lemma registered_recall_refuses (QueryLogs : string -> Z -> M W (list ExperientialLog)) args sid w :
  stringArg args "session_id" = Some sid -> sid <> "" -> args !! "cross_session" = None ->
  is_ok (memory_recall QueryLogs "" args w).2 = false.
Proof using Type.
  intros Hs Hn Hc. unfold memory_recall, optional. rewrite Hs, Hc. cbv zeta. simpl.
  unfold str_or. destruct (str_empty sid) eqn:Ee; [by apply str_empty_true in Ee|].
  destruct (String.eqb_spec sid "") as [|_]; done.
Qed.

Definition call_name (c : Builtin (W := W) * Z * list string) : string := builtin_Name c.1.1.

Lemma register_each_spec calls : forall (r : DefaultRegistry (H := Builtin (W := W))),
  NoDup (map call_name calls) -> (forall c, c ∈ calls -> rg_handlers r !! call_name c = None) ->
  exists r', register_each calls r = Some r' /\
    (forall b tier kws, (b, tier, kws) ∈ calls ->
       Get r' (builtin_Name b) = Some b /\ rg_tiers r' !! builtin_Name b = Some tier /\
       rg_keywords r' !! builtin_Name b = Some kws) /\
    (forall n, n ∉ map call_name calls -> Get r' n = Get r n /\
       rg_tiers r' !! n = rg_tiers r !! n /\ rg_keywords r' !! n = rg_keywords r !! n).
Proof using Type.
  induction calls as [|[[b tier] kws] calls IH]; intros r Hnd Hfresh.
  { exists r. split; [done|]. split; [|done]. intros b tier kws Hin. by apply elem_of_nil in Hin. }
  simpl in Hnd. apply NoDup_cons in Hnd as [Hnew Hnd]. simpl.
  unfold RegisterWithMeta, RegisterFull, registerFull.
  pose proof (Hfresh (b, tier, kws) ltac:(by left)) as Hb. unfold call_name in Hb. simpl in Hb.
  rewrite Hb. cbn [mbind option_bind]. set (r1 := {| rg_handlers := _ |}).
  assert (Hf1 : forall c, c ∈ calls -> rg_handlers r1 !! call_name c = None).
  { intros c Hc. unfold r1. simpl. rewrite lookup_insert_ne; [apply Hfresh; by right|].
    intros E. apply Hnew. apply elem_of_map. exists c. split; [done|]. by rewrite <- E. }
  destruct (IH r1 Hnd Hf1) as (r' & E & Hin & Hout). exists r'. split; [done|]. split.
  - intros b' tier' kws' [[= -> -> ->]|Hc]%elem_of_cons; [|by apply Hin].
    destruct (Hout (builtin_Name b)) as (-> & -> & ->); [done|]. unfold Get, r1. simpl.
    by rewrite !lookup_insert_eq.
  - intros n [Hn1 Hn2]%not_elem_of_cons. destruct (Hout n Hn2) as (-> & -> & ->).
    unfold Get, r1. simpl. unfold call_name in Hn1. simpl in Hn1.
    by rewrite !lookup_insert_ne by done.
Qed.

Lemma registrations_NoDup (stores : Stores (W := W)) providers :
  NoDup (map call_name (registrations stores providers)).
Proof using Type.
  destruct stores as [[?|] [?|] [?|]], providers as [[?|] [?|]]; vm_compute;
    repeat (apply NoDup_cons; split; [set_solver|]); by apply NoDup_nil.
Qed.

Lemma is_Some_Some_iff {A} (x : A) : is_Some (Some x) <-> true = true.
Proof using Type. split; [done|by eexists]. Qed.
Lemma is_Some_None_iff {A} : is_Some (@None A) <-> false = true.
Proof using Type. by split; [intros [x ?]|]. Qed.

(** Registration on a new registry never panics, whatever is wired, and registers
    exactly the handlers whose dependencies are there: discovery always, at tier 1, the
    others at tier 2 with their group's keywords. *)
Theorem RegisterAll_complete (stores : Stores (W := W)) providers :
  exists r, RegisterAll NewDefaultRegistry stores providers = Some r /\
    (forall b tier kws, (b, tier, kws) ∈ registrations stores providers ->
       Get r (builtin_Name b) = Some b /\ rg_tiers r !! builtin_Name b = Some tier /\
       rg_keywords r !! builtin_Name b = Some kws) /\
    (forall n, n ∉ map call_name (registrations stores providers) -> Get r n = None) /\
    Get r "discover_tools" = Some DiscoverTools /\
    (is_Some (Get r "memory_search") <-> is_Some (sto_Memory stores) /\ is_Some (prv_Embedding providers)) /\
    (is_Some (Get r "write_reflection") <-> is_Some (sto_Memory stores) /\ is_Some (prv_Embedding providers)) /\
    (is_Some (Get r "memory_recall") <-> is_Some (sto_T2Query stores)) /\
    (is_Some (Get r "focus_set") <-> is_Some (sto_Settings stores)) /\
    (is_Some (Get r "people_show") <-> is_Some (sto_Memory stores)) /\
    (is_Some (Get r "self_examine") <-> is_Some (prv_LLMFn providers)).
Proof using Type.
  destruct (register_each_spec (registrations stores providers) NewDefaultRegistry
    (registrations_NoDup stores providers)) as (r & E & Hin & Hout); [done|].
  exists r. split; [exact E|]. split; [exact Hin|].
  assert (Habs : forall n, n ∉ map call_name (registrations stores providers) -> Get r n = None).
  { intros n Hn. by destruct (Hout n Hn) as (-> & _). }
  split; [exact Habs|].
  assert (Hsome : forall n, is_Some (Get r n) <-> n ∈ map call_name (registrations stores providers)).
  { intros n. split.
    - intros [b Hb]. destruct (decide (n ∈ map call_name (registrations stores providers))); [done|].
      by rewrite Habs in Hb.
    - intros ([[b tier] kws] & Hc & <-)%elem_of_map. unfold call_name. simpl.
      destruct (Hin _ _ _ Hc) as (-> & _). by eexists. }
  split. { by apply (Hin DiscoverTools 1 []); left. }
  rewrite !Hsome, <- !one_of_elem.
  destruct stores as [[?|] [?|] [?|]], providers as [[?|] [?|]];
    repeat match goal with |- context [one_of ?x ?y] =>
      let v := eval vm_compute in (one_of x y) in change (one_of x y) with v end;
    cbn [sto_Memory sto_T2Query sto_Settings prv_Embedding prv_LLMFn];
    rewrite ?is_Some_Some_iff, ?is_Some_None_iff; tauto.
Qed.
End Properties.

Section SQLite.
Context `{Env} `{!Process World}.

(** The process's draws and the provider leave the database alone; the clock is set. *)
Record outside_database (provider : EmbeddingProvider World) : Prop := {
  od_now : forall w, w_db (time_Now w).1 = w_db w;
  od_read : forall w, w_db (crypto_Read16 w).1 = w_db w;
  od_embed : forall text, keeps_db (@Embed World provider text);
  od_clock : forall w, (time_Now w).2 <> time_zero }.

Lemma zero_confidence_is_stale math_Exp math_Pow now r b :
  rec_Belief r = Some b -> bm_BaseConfidence b = f_zero -> bm_VerificationState b <> "stale" ->
  (forall x, exists s m e, math_Exp x = S754_finite s m e) ->
  goes_stale math_Exp math_Pow now DefaultDecayConfig r = true.
Proof using Type.
  intros Hb H0 Hs Hexp. unfold goes_stale, Confidence. rewrite Hb, H0. cbv zeta.
  match goal with |- context [math_Exp ?x] => destruct (Hexp x) as (s & m & e & ->) end.
  apply String.eqb_neq in Hs as ->. by destruct s.
Qed.

(** What the [write_reflection] tool stores: one reflection with the agent's words,
    an allowed type and visibility, and nothing else changes; an error changes nothing.
    Its base confidence is not absent but zero, although nobody set one: the tool anchors
    the belief, which the store takes for the agent's own rating. The next decay pass
    therefore finds it rated, and flags it as stale whatever its age. *)
Theorem tool_reflection_is_rated_zero valid provider args w w' r :
  outside_database provider ->
  write_reflection valid SQLiteMemoryWriter provider args w = (w', r) ->
  match r with
  | Err _ => w_db w' = w_db w
  | Ok _ => exists row, w_db w' = set_memory id (fun l => l ++ [row]) id (w_db w) /\
      Some (re_content row) = stringArg args "content" /\ re_content row <> "" /\
      re_type row ∈ validReflectionTypes /\
      (re_visibility row = VisibilityPrivate \/ re_visibility row = VisibilityShared) /\
      re_base_confidence row = Some f_zero /\ agent_rated row = true /\
      forall math_Exp math_Pow now, (forall x, exists s m e, math_Exp x = S754_finite s m e) ->
        goes_stale math_Exp math_Pow now DefaultDecayConfig (reflection_belief row) = true
  end.
Proof.
  intros [Hnow Hread Hembed Hclock]. unfold write_reflection, required.
  destruct (stringArg args "content") as [content|] eqn:Ea; [|by intros [= <- <-]].
  destruct (str_empty content) eqn:Ec; [by intros [= <- <-]|]. cbv zeta.
  set (ty := str_or (optional args "type") "note").
  destruct (one_of ty validReflectionTypes) eqn:Et; cbn [negb]; [|by intros [= <- <-]].
  apply one_of_elem in Et. unfold bind at 1. unfold wrapM at 1.
  pose proof (Hembed content w) as He. destruct (Embed content w) as [w1 [vec|e]]; simpl in He |- *;
    [|intros [= <- <-]; exact He].
  unfold bind at 1, draw at 1. pose proof (Hnow w1) as Hn. pose proof (Hclock w1) as Hz.
  destruct (time_Now w1) as [w2 now]. simpl in Hn, Hz.
  unfold newToolID, bind, draw, ret. pose proof (Hread w2) as Hr.
  destruct (crypto_Read16 w2) as [w3 bs]. simpl in Hr.
  set (ref := {| rf_ID := _ |}).
  change (@mw_InsertReflection World SQLiteMemoryWriter) with InsertReflection. unfold wrapM.
  destruct (InsertReflection ref w3) as [w4 r4] eqn:E4. apply InsertReflection_cases in E4.
  assert (D : w_db w3 = w_db w) by congruence. rewrite D in E4.
  destruct r4 as [u|e]; intros [= <- <-]; [|exact E4].
  destruct E4 as (row & D4 & _ & _ & Hty & Hco & Hbc & Hbm & _ & _ & Hv).
  unfold ref in *; simpl in Hty, Hco, Hbc, Hbm.
  assert (Hzero : time_IsZero now = false) by (unfold time_IsZero; lia). rewrite Hzero in Hbc.
  assert (Hne : str_empty ty = false).
  { destruct (str_empty ty) eqn:E; [|done]. apply str_empty_true in E. rewrite E in Et.
    vm_compute in Et. set_solver. }
  exists row. split; [done|]. rewrite Hco. split; [done|].
  split. { intros E. by rewrite E in Ec. }
  split. { rewrite Hty. unfold str_or. by rewrite Hne. }
  split. { elem_cases Hv; [by left|by right]. }
  split; [done|]. split. { unfold agent_rated. by rewrite Hbc, Hbm. }
  intros math_Exp math_Pow t Hexp.
  apply (zero_confidence_is_stale _ _ _ _ (with_base (default f_zero (re_base_confidence row))
    (decodeBeliefMeta (re_belief_meta row)))); [done|by rewrite Hbc|by rewrite Hbm|done].
Qed.

(** The stores of the running program. *)
Definition SQLiteMemoryStore : MemoryStore World :=
  {| Assembly.SearchNarrative := MemoryTiers.SearchNarrative;
     Assembly.SearchReflections := MemoryTiers.SearchReflections;
     Assembly.GetReflectionByID := MemoryTiers.GetReflectionByID;
     Assembly.SearchEntities := MemoryTiers.SearchEntities;
     Assembly.ListProfiles := MemoryTiers.ListProfiles |}.
Definition SQLiteStores : Stores :=
  {| sto_Memory := Some {| mo_reader := SQLiteMemoryStore; mo_writer := SQLiteMemoryWriter;
                           mo_GetProfile := MemoryTiers.GetProfile |};
     sto_T2Query := Some Consolidation.QueryLogs; sto_Settings := Some SQLiteSettings |}.

(** On the migrated schema the people tools always fail. *)
Lemma people_tools_fail args w :
  db_profiles (w_db w) = None ->
  is_ok (people_list MemoryTiers.ListProfiles args w).2 = false /\
  is_ok (people_show MemoryTiers.GetProfile args w).2 = false.
Proof.
  intros H0. destruct (profiles_unreadable w H0) as [Hg Hl]. split.
  - unfold people_list, bind, wrapM. destruct (MemoryTiers.ListProfiles w) as [w1 [l|e]]; done.
  - unfold people_show. destruct (required args "name") as [name|]; [|done].
    specialize (Hg name). unfold bind, wrapM. by destruct (MemoryTiers.GetProfile name w) as [w1 [p|e]].
Qed.
End SQLite.

(** ** Witnesses *)

Section Witnesses.
#[local] Existing Instance demo_env.
(** A process whose clock is set. *)
#[local] Instance clocked_process : Process World :=
  {| time_Now := fun w => (w, 1700000000 * second); rand_Float64 := rand_Float64 (Process := demo_process);
     crypto_Read8 := crypto_Read8 (Process := demo_process);
     crypto_Read16 := crypto_Read16 (Process := demo_process);
     LoadLocation_ok := LoadLocation_ok (Process := demo_process);
     time_Format_in := time_Format_in (Process := demo_process);
     unicode_trim := unicode_trim (Process := demo_process) |}.

Definition demo_provider : EmbeddingProvider World := {| Embed := fun _ => ret [f_of_Z 1] |}.
Definition demo_args (l : list (string * Any)) : ToolArgs := list_to_map l.
Definition recall_args : ToolArgs := demo_args [("session_id", AString "s2"); ("cross_session", ABool true)].

Lemma memory_recall_scope_witness :
  exists sid limit logs, Consolidation.QueryLogs sid limit demo_world =
      ((memory_recall Consolidation.QueryLogs "s1" recall_args demo_world).1, Ok logs) /\
    (sid = "s1" \/ recall_args !! "cross_session" = Some (ABool true)).
Proof.
  destruct (memory_recall Consolidation.QueryLogs "s1" recall_args demo_world) as [w' r] eqn:E.
  assert (Hr : r = Ok "no logs found for session s2") by (vm_compute in E; congruence). subst r.
  destruct (memory_recall_scope _ _ _ _ _ _ E) as (sid & limit & logs & Eq & Hs & _).
  exists sid, limit, logs. split; [exact Eq|exact Hs].
Defined.

Lemma tool_reflection_is_rated_zero_witness :
  exists w' text row,
    write_reflection [] SQLiteMemoryWriter demo_provider
      (demo_args [("content", AString "a thought")]) demo_world = (w', Ok text) /\
    db_reflections (w_db w') = [row] /\ re_base_confidence row = Some f_zero /\ agent_rated row = true.
Proof.
  destruct (write_reflection [] SQLiteMemoryWriter demo_provider
    (demo_args [("content", AString "a thought")]) demo_world) as [w' [text|e]] eqn:E;
    [|vm_compute in E; discriminate E].
  assert (Hod : outside_database demo_provider)
    by (split; [done|done|by intros text' w|intros w; by vm_compute]).
  destruct (tool_reflection_is_rated_zero _ _ _ _ _ _ Hod E) as (row & D & _ & _ & _ & _ & Hb & Hr & _).
  exists w', text, row. split; [done|]. rewrite D. by split_and!.
Defined.
End Witnesses.
