(* ===== verification/Sandbox.v ===== *)
(** * The command sandbox: [internal/tools/sandbox.go]

    [Execute] checks the blocklist, and in permissive mode the paths named by the command,
    before it hands the command to a shell. Processes, the user database and the working
    directory are parameters; [filepath.Clean], [filepath.Abs], [strings.Fields] and
    [strconv.Atoi] are written out. *)

From S2P Require Import Prelude Aegis.
Import Utf8.

(** ** Text *)

(** [unicode.IsSpace] *)
Definition unicode_IsSpace (r : Z) : bool :=
  existsb (Z.eqb r) [0x09; 0x0A; 0x0B; 0x0C; 0x0D; 0x20; 0x85; 0xA0; 0x1680; 0x2028; 0x2029;
                     0x202F; 0x205F; 0x3000] || between 0x2000 r 0x200A.

(** [strings.Fields]: the maximal runs of non-space runes; every step takes at least one byte. *)
Definition flush (cur : string) : list string := if str_empty cur then [] else [cur].
Fixpoint fields_fuel (fuel : nat) (cur s : string) : list string :=
  match fuel, s with
  | S f, String _ _ =>
      let '(r, n) := DecodeRune s in
      if unicode_IsSpace r then flush cur ++ fields_fuel f "" (str_drop n s)
      else fields_fuel f (cur +:+ str_take n s) (str_drop n s)
  | _, _ => flush cur
  end.
Definition Fields (s : string) : list string := fields_fuel (String.length s) "" s.

(** [strings.TrimRight] with a cutset of ASCII characters. *)
Fixpoint TrimRight (cutset s : string) : string :=
  match s with
  | "" => ""
  | String c s' =>
      let t := TrimRight cutset s' in
      if str_empty t && existsb (Ascii.eqb c) (String.list_ascii_of_string cutset) then "" else String c t
  end.

(** [strconv.Atoi] on a 64-bit machine. *)
Definition digit_of (c : Ascii.ascii) : option Z :=
  if between 48 (ascii_code c) 57 then Some (ascii_code c - 48) else None.
Fixpoint digits (acc : Z) (s : string) : option Z :=
  match s with
  | "" => Some acc
  | String c s' => match digit_of c with Some d => digits (acc * 10 + d) s' | None => None end
  end.
Definition Atoi (s : string) : result Z :=
  let number (sign : Z) (t : string) :=
    match (if str_empty t then None else digits 0 t) with
    | None => Err (ENew ("strconv.Atoi: parsing " +:+ fmt_q s +:+ ": invalid syntax"))
    | Some n => if (int64_min <=? sign * n) && (sign * n <=? int64_max) then Ok (sign * n)
                else Err (ENew ("strconv.Atoi: parsing " +:+ fmt_q s +:+ ": value out of range"))
    end in
  if has_prefix s "-" then number (-1) (str_drop 1 s)
  else if has_prefix s "+" then number 1 (str_drop 1 s) else number 1 s.

(** ** Paths *)

Definition slash : Ascii.ascii := Ascii.ascii_of_nat 47.

Fixpoint split_slash (s : string) : list string :=
  match s with
  | "" => [""]
  | String c s' =>
      if Ascii.eqb c slash then "" :: split_slash s'
      else match split_slash s' with x :: l => String c x :: l | [] => [String c ""] end
  end.

(** The part after the last slash. *)
Definition base_name (s : string) : string := default "" (last (split_slash s)).

(** [filepath.Clean] keeps a stack of components, innermost first. *)
Definition clean_step (rooted : bool) (stack : list string) (c : string) : list string :=
  if str_empty c || String.eqb c "." then stack
  else if String.eqb c ".." then
    match stack with
    | [] => if rooted then [] else [".."]
    | top :: rest => if String.eqb top ".." then ".." :: stack else rest
    end
  else c :: stack.
Definition IsAbs (p : string) : bool := has_prefix p "/".
Definition clean_components (p : string) : list string :=
  rev (fold_left (clean_step (IsAbs p)) (split_slash p) []).
Definition Clean (p : string) : string :=
  let body := str_join (clean_components p) "/" in
  if IsAbs p then "/" +:+ body else if str_empty body then "." else body.

(** [filepath.Join] of two elements, [filepath.Abs]. *)
Definition Join2 (a b : string) : string :=
  if str_empty a then (if str_empty b then "" else Clean b) else Clean (a +:+ "/" +:+ b).
Definition Abs (Getwd : result string) (p : string) : result string :=
  if IsAbs p then Ok (Clean p) else let? wd := Getwd in Ok (Join2 wd p).

(** ** The sandbox *)

Definition SandboxModeContainer : string := "container".
Definition SandboxModeUser : string := "user".
Definition SandboxModePermissive : string := "permissive".
Definition DefaultMaxOutputBytes : Z := 2 ^ 20.

Record SandboxConfig := {
  sb_Mode : string; sb_AllowedPaths : list string; sb_BlockedCmds : list string;
  sb_User : string; sb_ContainerName : string; sb_MaxOutputBytes : Z }.

(** The first blocked command the token names. *)
Definition blocked_by (cfg : SandboxConfig) (token : string) : option string :=
  List.find (String.eqb (base_name token)) (sb_BlockedCmds cfg).
Fixpoint blocklist_loop (cfg : SandboxConfig) (tokens : list string) : result unit :=
  match tokens with
  | [] => Ok tt
  | token :: rest =>
      match blocked_by cfg token with
      | Some blocked =>
          Err (ENew ("sandbox: " +:+ fmt_q token +:+ " matches blocked command " +:+ fmt_q blocked +:+
                     " — rejected (advisory blocklist; real boundary is sandbox mode " +:+
                     fmt_q (sb_Mode cfg) +:+ ")"))
      | None => blocklist_loop cfg rest
      end
  end.
Definition checkBlocklist (cfg : SandboxConfig) (command : string) : result unit :=
  match sb_BlockedCmds cfg with [] => Ok tt | _ => blocklist_loop cfg (Fields command) end.

Definition capOutput (cfg : SandboxConfig) (out : string) : string :=
  let limit := if sb_MaxOutputBytes cfg <=? 0 then DefaultMaxOutputBytes else sb_MaxOutputBytes cfg in
  if str_len out <=? limit then out
  else str_take (Z.to_nat limit) out +:+ newline +:+ "[output truncated at " +:+ fmt_d limit +:+ " bytes]".

Fixpoint resolve_allowed (Getwd : result string) (i : nat) (l : list string) : result (list string) :=
  match l with
  | [] => Ok []
  | p :: rest =>
      let? abs := wrap_err ("sandbox: cannot resolve AllowedPaths[" +:+ fmt_d (Z.of_nat i) +:+ "] " +:+ fmt_q p)
                    (Abs Getwd p) in
      let? more := resolve_allowed Getwd (S i) rest in
      Ok (Clean abs :: more)
  end.

Definition isUnderAllowed (path : string) (allowed : list string) : bool :=
  existsb (fun a => String.eqb path a || has_prefix path (a +:+ "/")) allowed.

Definition path_like (token : string) : bool :=
  has_prefix token "/" || has_prefix token "./" || has_prefix token "../".
Definition shell_suffix : string := ";|&><!)".

Fixpoint paths_loop (Getwd : result string) (allowed tokens : list string) : result unit :=
  match tokens with
  | [] => Ok tt
  | token :: rest =>
      if negb (path_like token) then paths_loop Getwd allowed rest
      else
        let token := TrimRight shell_suffix token in
        let? abs := wrap_err ("sandbox: cannot resolve path " +:+ fmt_q token) (Abs Getwd token) in
        let cleaned := Clean abs in
        if isUnderAllowed cleaned allowed then paths_loop Getwd allowed rest
        else Err (ENew ("sandbox: path " +:+ fmt_q cleaned +:+ " is not under any AllowedPaths [" +:+
                        str_join allowed " " +:+ "] — refusing to execute (fail closed)"))
  end.
Definition checkAllowedPaths (Getwd : result string) (cfg : SandboxConfig) (command : string) : result unit :=
  match sb_AllowedPaths cfg with
  | [] => Ok tt
  | paths => let? allowed := resolve_allowed Getwd 0 paths in
             paths_loop Getwd allowed (Fields command)
  end.

Section Execute.
Context {W : Type}.
(** A process runs an argument vector, under credentials when given, and yields its
    combined output and its error; the user database maps a name to uid and gid. *)
Variable CombinedOutput : list string -> option (Z * Z) -> W -> W * (string * option error).
Variable LookupUser : string -> result (string * string).
Variable Getwd : W -> result string.

Definition capped (cfg : SandboxConfig) (msg : string) (o : string * option error) : string * option error :=
  (capOutput cfg o.1, option_map (EWrap msg) o.2).
Definition run_sh (cfg : SandboxConfig) (msg : string) (argv : list string) (cred : option (Z * Z))
    (w : W) : W * (string * option error) :=
  let '(w', o) := CombinedOutput argv cred w in (w', capped cfg msg o).
Definition refuse (e : error) (w : W) : W * (string * option error) := (w, ("", Some e)).

Definition execPermissive (cfg : SandboxConfig) (command : string) (w : W) :=
  match checkAllowedPaths (Getwd w) cfg command with
  | Err e => refuse e w
  | Ok _ => run_sh cfg "exec" ["sh"; "-c"; command] None w
  end.

Definition uint32 (z : Z) : Z := z mod 2 ^ 32.
Definition credentials (cfg : SandboxConfig) : result (Z * Z) :=
  let? u := wrap_err ("sandbox: lookup user " +:+ fmt_q (sb_User cfg)) (LookupUser (sb_User cfg)) in
  let? uid := wrap_err ("sandbox: parse uid " +:+ fmt_q u.1) (Atoi u.1) in
  let? gid := wrap_err ("sandbox: parse gid " +:+ fmt_q u.2) (Atoi u.2) in
  Ok (uint32 uid, uint32 gid).
Definition execAsUser (cfg : SandboxConfig) (command : string) (w : W) :=
  match credentials cfg with
  | Err e => refuse e w
  | Ok cred => run_sh cfg ("exec as user " +:+ sb_User cfg) ["sh"; "-c"; command] (Some cred) w
  end.

Definition execInContainer (cfg : SandboxConfig) (command : string) (w : W) :=
  if str_empty (sb_ContainerName cfg)
  then refuse (ENew "sandbox: container mode requires ContainerName in config") w
  else run_sh cfg "docker exec" ["docker"; "exec"; sb_ContainerName cfg; "sh"; "-c"; command] None w.

Definition Execute (cfg : SandboxConfig) (command : string) (w : W) : W * (string * option error) :=
  match checkBlocklist cfg command with
  | Err e => refuse e w
  | Ok _ =>
      if String.eqb (sb_Mode cfg) SandboxModePermissive then execPermissive cfg command w
      else if String.eqb (sb_Mode cfg) SandboxModeUser then execAsUser cfg command w
      else if String.eqb (sb_Mode cfg) SandboxModeContainer then execInContainer cfg command w
      else if String.eqb (sb_Mode cfg) "none" then
        refuse (ENew ("sandbox: mode " +:+ fmt_q (sb_Mode cfg) +:+
                      " is not allowed — use 'permissive' with AllowedPaths")) w
      else refuse (ENew ("sandbox: unrecognized mode " +:+ fmt_q (sb_Mode cfg) +:+ " — refusing to execute")) w
  end.
End Execute.

Example Fields_ex : Fields "  cat  /etc/passwd; ls " = ["cat"; "/etc/passwd;"; "ls"].
Proof. reflexivity. Qed.
Example Clean_ex : map Clean ["/a/./b//../c/"; ""; "a/../.."; "/../x"; "./"] = ["/a/c"; "."; ".."; "/x"; "."].
Proof. reflexivity. Qed.

(** ** Components *)

Definition no_slash (s : string) : bool := str_forall (fun c => negb (Ascii.eqb c slash)) s.
(** A component [Clean] keeps as it is. *)
Definition plain (c : string) : Prop := c <> "" /\ c <> "." /\ c <> ".." /\ no_slash c = true.
(** The absolute path with these components. *)
Definition abs_path (cs : list string) : string := "/" +:+ str_join cs "/".

Lemma split_slash_nonnil s : split_slash s <> [].
Proof. destruct s as [|c s]; [done|]. cbn. destruct (Ascii.eqb c slash); [done|]. by destruct (split_slash s). Qed.

Lemma split_slash_cons_no c s : Ascii.eqb c slash = false ->
  exists x l, split_slash s = x :: l /\ split_slash (String c s) = String c x :: l.
Proof.
  intros Hc. cbn. rewrite Hc. pose proof (split_slash_nonnil s).
  destruct (split_slash s) as [|x l]; [done|]. by exists x, l.
Qed.

Lemma split_slash_no_slash s : Forall (fun c => no_slash c = true) (split_slash s).
Proof.
  induction s as [|c s IH]; [by constructor|]. destruct (Ascii.eqb c slash) eqn:E.
  - cbn. rewrite E. by constructor.
  - destruct (split_slash_cons_no c s E) as (x & l & E1 & E2). rewrite E2. rewrite E1 in IH.
    inversion IH as [|? ? Hx Hl]; subst. constructor; [|done]. unfold no_slash in *. cbn. by rewrite E, Hx.
Qed.

Lemma split_slash_app a s : no_slash a = true -> split_slash (a +:+ "/" +:+ s) = a :: split_slash s.
Proof.
  induction a as [|c a IH]; intros Ha; [done|]. unfold no_slash in Ha. cbn in Ha.
  apply andb_true_iff in Ha as [Hc Ha]. apply negb_true_iff in Hc.
  rewrite str_app_cons. cbn [split_slash]. rewrite Hc. by rewrite (IH Ha).
Qed.

Lemma split_slash_one a : no_slash a = true -> split_slash a = [a].
Proof.
  induction a as [|c a IH]; intros Ha; [done|]. unfold no_slash in Ha. cbn in Ha.
  apply andb_true_iff in Ha as [Hc Ha]. apply negb_true_iff in Hc.
  cbn [split_slash]. by rewrite Hc, (IH Ha).
Qed.

Lemma join_cons x y l : str_join (x :: y :: l) "/" = x +:+ "/" +:+ str_join (y :: l) "/".
Proof. done. Qed.

Lemma split_join_app ds t : ds <> [] -> Forall (fun c => no_slash c = true) ds ->
  split_slash (str_join ds "/" +:+ "/" +:+ t) = ds ++ split_slash t.
Proof.
  intros Hn H. induction H as [|x l Hx Hl IH]; [done|]. destruct l as [|y l].
  - by apply split_slash_app.
  - rewrite join_cons, !str_app_assoc, split_slash_app by done. by rewrite IH.
Qed.

Lemma split_join ds : ds <> [] -> Forall (fun c => no_slash c = true) ds ->
  split_slash (str_join ds "/") = ds.
Proof.
  intros Hn H. induction H as [|x l Hx Hl IH]; [done|]. destruct l as [|y l].
  - by apply split_slash_one.
  - rewrite join_cons, split_slash_app by done. by rewrite IH.
Qed.

Lemma join_app ds es : ds <> [] -> es <> [] ->
  str_join (ds ++ es) "/" = str_join ds "/" +:+ "/" +:+ str_join es "/".
Proof.
  intros Hn He. induction ds as [|x l IH]; [done|]. destruct l as [|y l].
  - destruct es; [done|]. apply join_cons.
  - change ((x :: y :: l) ++ es) with (x :: (y :: l) ++ es).
    change (str_join (x :: (y :: l) ++ es) "/") with (x +:+ "/" +:+ str_join ((y :: l) ++ es) "/").
    rewrite IH, join_cons, !str_app_assoc by done. done.
Qed.

Lemma plain_no_slash l : Forall plain l -> Forall (fun c => no_slash c = true) l.
Proof. intros H. induction H as [|c l (_ & _ & _ & ?) ? ?]; by constructor. Qed.

(** The stack of [Clean]: plain components over the [..] that lead out of a relative path. *)
Definition stack_ok (rooted : bool) (stack : list string) : Prop :=
  exists gs n, stack = gs ++ replicate n ".." /\ Forall plain gs /\ (rooted = true -> n = 0%nat).

Lemma clean_step_ok rooted stack c :
  no_slash c = true -> stack_ok rooted stack -> stack_ok rooted (clean_step rooted stack c).
Proof.
  intros Hc (gs & n & -> & Hg & Hn). unfold clean_step.
  destruct (str_empty c) eqn:Ee; [by exists gs, n|].
  destruct (String.eqb_spec c ".") as [|Hd]; [by exists gs, n|]. cbn [orb].
  destruct (String.eqb_spec c "..") as [->|Hdd].
  - destruct Hg as [|g gs Hg Hgs]; cbn [app].
    + destruct n as [|n]; [|exists [], (S (S n)); split; [done|split; [done|]]; intros H; by apply Hn in H].
      cbn. destruct rooted; [by exists [], 0%nat|exists [], 1%nat]. split; [done|split; [done|done]].
    + destruct Hg as (_ & _ & Hg & _). apply String.eqb_neq in Hg as ->. by exists gs, n.
  - exists (c :: gs), n. split; [done|split; [|done]]. constructor; [|done].
    split; [intros E; by rewrite E in Ee|]. by repeat (split; [done|]).
Qed.

Lemma clean_fold_ok rooted cs : forall stack,
  Forall (fun c => no_slash c = true) cs -> stack_ok rooted stack ->
  stack_ok rooted (fold_left (clean_step rooted) cs stack).
Proof.
  induction cs as [|c cs IH]; intros stack H Hs; [done|]. inversion H as [|? ? Hc Hcs]; subst.
  apply IH; [done|]. by apply clean_step_ok.
Qed.

Lemma clean_stack_ok p : stack_ok (IsAbs p) (rev (clean_components p)).
Proof.
  unfold clean_components. rewrite rev_involutive. apply clean_fold_ok; [apply split_slash_no_slash|].
  by exists [], 0%nat.
Qed.

Lemma clean_step_plain rooted stack c : plain c -> clean_step rooted stack c = c :: stack.
Proof.
  intros (He & Hd & Hdd & _). unfold clean_step, str_empty.
  apply String.eqb_neq in He as ->. apply String.eqb_neq in Hd as ->. by apply String.eqb_neq in Hdd as ->.
Qed.

(** A stack [Clean] builds is rebuilt from its own components. *)
Lemma clean_fold_again rooted stack :
  stack_ok rooted stack -> fold_left (clean_step rooted) (rev stack) [] = stack.
Proof.
  intros (gs & n & -> & Hg & Hn). rewrite rev_app_distr, fold_left_app.
  assert (Hdots : fold_left (clean_step rooted) (rev (replicate n "..")) [] = replicate n "..").
  { replace (rev (replicate n "..")) with (replicate n "..") by (rewrite rev_alt; symmetry; apply reverse_replicate).
    destruct rooted; [by rewrite Hn|]. clear.
    assert (H : forall m, fold_left (clean_step false) (replicate n "..") (replicate m "..") = replicate (n + m) "..").
    { induction n as [|n IH]; intros m; [done|]. cbn [replicate fold_left].
      replace (clean_step false (replicate m "..") "..") with (replicate (S m) "..") by (by destruct m).
      rewrite IH. f_equal. lia. }
    specialize (H 0%nat). cbn [replicate] in H. rewrite H. f_equal. lia. }
  rewrite Hdots. clear Hdots Hn. induction Hg as [|g gs Hg Hgs IH]; [done|].
  cbn [rev]. rewrite fold_left_app, IH. cbn [fold_left app]. by apply clean_step_plain.
Qed.

Lemma IsAbs_cons p : IsAbs p = true <-> exists q, p = "/" +:+ q.
Proof.
  unfold IsAbs, has_prefix. split; [apply prefix_split|]. intros [q ->]. apply prefix_app.
Qed.

Lemma split_abs_path cs : Forall plain cs ->
  split_slash (abs_path cs) = "" :: (match cs with [] => [""] | _ => cs end).
Proof.
  intros H. unfold abs_path. destruct cs as [|c cs]; [done|].
  change ("/" +:+ str_join (c :: cs) "/") with ("" +:+ "/" +:+ str_join (c :: cs) "/").
  rewrite split_slash_app by done. f_equal. apply split_join; [done|by apply plain_no_slash].
Qed.

(** An absolute path is cleaned into its plain components. *)
Lemma Clean_absolute p : IsAbs p = true -> exists cs, Clean p = abs_path cs /\ Forall plain cs.
Proof.
  intros H. pose proof (clean_stack_ok p) as (gs & n & E & Hg & Hn). specialize (Hn H). subst n.
  cbn [replicate] in E. rewrite app_nil_r in E. exists (clean_components p). unfold Clean. rewrite H.
  split; [done|]. rewrite <- (rev_involutive (clean_components p)), E. by apply Forall_rev.
Qed.

Lemma IsAbs_abs_path cs : IsAbs (abs_path cs) = true.
Proof. apply IsAbs_cons. by eexists. Qed.

Lemma Clean_abs_path cs : Forall plain cs -> Clean (abs_path cs) = abs_path cs.
Proof.
  intros H. unfold Clean, clean_components. rewrite IsAbs_abs_path, split_abs_path by done.
  unfold abs_path. do 2 f_equal.
  assert (Hs : stack_ok true (rev cs)) by (exists (rev cs), 0%nat; split; [cbn; by rewrite app_nil_r|split; [by apply Forall_rev|done]]).
  pose proof (clean_fold_again true (rev cs) Hs) as E. rewrite rev_involutive in E.
  destruct cs as [|c cs]; [done|]. change (clean_step true [] "") with (@nil string).
  cbn [fold_left]. change (clean_step true [] "") with (@nil string). cbn [fold_left] in E. rewrite E.
  apply rev_involutive.
Qed.

(** [Clean] is idempotent. *)
Theorem Clean_idempotent p : Clean (Clean p) = Clean p.
Proof.
  destruct (IsAbs p) eqn:Ha.
  - destruct (Clean_absolute p Ha) as (cs & -> & H). by apply Clean_abs_path.
  - pose proof (clean_stack_ok p) as Hs. rewrite Ha in Hs. pose proof (clean_fold_again _ _ Hs) as E.
    rewrite rev_involutive in E. unfold Clean at 2 3. rewrite Ha.
    destruct (str_empty (str_join (clean_components p) "/")) eqn:Ee; [done|].
    destruct Hs as (gs & n & Es & Hg & _).
    assert (Hno : Forall (fun c => no_slash c = true /\ c <> "") (clean_components p)).
    { rewrite <- (rev_involutive (clean_components p)), Es. apply Forall_rev, Forall_app. split.
      - clear -Hg. induction Hg as [|c l (? & _ & _ & ?) ? ?]; by constructor.
      - apply Forall_replicate. done. }
    destruct (clean_components p) as [|c cs] eqn:Ec; [done|].
    assert (Hno' : Forall (fun c => no_slash c = true) (c :: cs))
      by (clear -Hno; induction Hno as [|? ? [? ?] ? ?]; by constructor).
    assert (Hr : IsAbs (str_join (c :: cs) "/") = false).
    { apply Forall_inv in Hno as [Hc Hn]. destruct c as [|a c]; [done|].
      unfold no_slash in Hc. cbn in Hc. apply andb_true_iff in Hc as [Hc _]. apply negb_true_iff in Hc.
      assert (Hx : exists t, str_join (String a c :: cs) "/" = String a t) by (destruct cs; by eexists).
      destruct Hx as [t ->]. apply not_true_is_false. intros Hs. apply IsAbs_cons in Hs as [q [= -> _]].
      by vm_compute in Hc. }
    unfold Clean, clean_components. rewrite Hr, split_join, E, rev_involutive by done. by rewrite Ee.
Qed.

(** ** Confinement *)

(** What [isUnderAllowed] admits below an allowed path: itself, and what lies below it;
    below the root, only the root. *)
Definition admits (ds cs : list string) : Prop := cs = ds \/ (ds <> [] /\ ds `prefix_of` cs).

Lemma abs_path_inj cs ds : Forall plain cs -> Forall plain ds -> abs_path cs = abs_path ds -> cs = ds.
Proof.
  intros Hc Hd E. apply (f_equal split_slash) in E. rewrite !split_abs_path in E by done.
  injection E as E. destruct cs as [|c cs], ds as [|d ds]; try done.
  - inversion Hd as [|? ? (? & _)]; subst. injection E as <- <-. done.
  - inversion Hc as [|? ? (? & _)]; subst. injection E as -> ->. done.
Qed.

Lemma under_spec ds cs : Forall plain ds -> Forall plain cs ->
  String.eqb (abs_path cs) (abs_path ds) || has_prefix (abs_path cs) (abs_path ds +:+ "/") = true <->
  admits ds cs.
Proof.
  intros Hd Hc. rewrite orb_true_iff, String.eqb_eq. unfold admits. split.
  - intros [E|E]; [left; by apply abs_path_inj|]. apply prefix_split in E as [t E].
    destruct ds as [|d ds].
    { exfalso. apply (f_equal split_slash) in E. rewrite split_abs_path in E by done.
      rewrite str_app_assoc in E. change (abs_path [] +:+ "/" +:+ t) with ("" +:+ "/" +:+ ("" +:+ "/" +:+ t)) in E.
      rewrite !split_slash_app in E by done. injection E as E. pose proof (split_slash_nonnil t) as Hnt.
      destruct cs as [|c cs]; [injection E as E; by rewrite <- E in Hnt|].
      inversion Hc as [|? ? (Hne & _)]; subst. by injection E. }
    right. split; [done|]. exists (split_slash t).
    apply (f_equal split_slash) in E. rewrite split_abs_path in E by done.
    unfold abs_path in E. rewrite !str_app_assoc in E.
    change ("/" +:+ str_join (d :: ds) "/" +:+ "/" +:+ t)
      with ("" +:+ "/" +:+ (str_join (d :: ds) "/" +:+ "/" +:+ t)) in E.
    rewrite split_slash_app, split_join_app in E; [|done|by apply plain_no_slash|done].
    injection E as E. destruct cs; [|done].
    exfalso. inversion Hd as [|? ? (? & _)]; subst. by injection E as <-.
  - intros [->|[Hn [more ->]]]; [by left|]. destruct more as [|m more]; [left; by rewrite app_nil_r|].
    right. unfold abs_path. rewrite join_app by done. unfold has_prefix.
    rewrite <- !str_app_assoc. apply (prefix_app (("/" +:+ str_join ds "/") +:+ "/")).
Qed.

Lemma Forall2_related_r {A B} (R : A -> B -> Prop) l r y :
  Forall2 R l r -> y ∈ r -> exists x, x ∈ l /\ R x y.
Proof.
  intros H. induction H as [|a b l r Hab H IH]; [by intros ?%not_elem_of_nil|].
  intros [->|Hy]%elem_of_cons; [exists a; split; [by apply elem_of_cons; left|done]|].
  destruct (IH Hy) as (x & Hx & Hr). exists x. split; [by apply elem_of_cons; right|done].
Qed.
Lemma Forall2_related_l {A B} (R : A -> B -> Prop) l r x :
  Forall2 R l r -> x ∈ l -> exists y, y ∈ r /\ R x y.
Proof. intros H. apply Forall2_flip in H. by apply (Forall2_related_r (flip R)). Qed.

Section Confinement.
Variable Getwd : result string.
(** [os.Getwd] returns an absolute path. *)
Hypothesis Getwd_abs : forall wd, Getwd = Ok wd -> IsAbs wd = true.

Lemma Abs_absolute p q : Abs Getwd p = Ok q -> exists cs, q = abs_path cs /\ Forall plain cs.
Proof.
  unfold Abs. destruct (IsAbs p) eqn:Ep; [intros [= <-]; by apply Clean_absolute|].
  destruct Getwd as [wd|e] eqn:Eg; [|done]. intros [= <-]. specialize (Getwd_abs _ eq_refl).
  apply IsAbs_cons in Getwd_abs as [t ->]. unfold Join2.
  change (str_empty ("/" +:+ t)) with false. apply Clean_absolute. apply IsAbs_cons.
  exists (t +:+ "/" +:+ p). by rewrite !str_app_assoc.
Qed.

(** Where a path-like token of a command leads. *)
Definition leads_to (token : string) (cs : list string) : Prop :=
  Abs Getwd (TrimRight shell_suffix token) = Ok (abs_path cs) /\ Forall plain cs.

Lemma resolve_allowed_spec l : forall i r, resolve_allowed Getwd i l = Ok r ->
  Forall2 (fun p a => exists ds, Abs Getwd p = Ok a /\ a = abs_path ds /\ Forall plain ds) l r.
Proof.
  induction l as [|p l IH]; intros i r E; [injection E as <-; constructor|]. cbn in E.
  destruct (Abs Getwd p) as [a|e] eqn:Ea; [|done]. cbn in E.
  destruct (resolve_allowed Getwd (S i) l) as [more|e] eqn:Em; [|done]. injection E as <-.
  destruct (Abs_absolute _ _ Ea) as (ds & -> & Hd). rewrite Clean_abs_path by done.
  constructor; [by exists ds|by eapply IH].
Qed.

(** The path check, token by token: it passes exactly when every path-like token leads
    to a place some allowed path admits. *)
Lemma paths_loop_spec paths allowed tokens :
  resolve_allowed Getwd 0 paths = Ok allowed ->
  paths_loop Getwd allowed tokens = Ok tt <->
  forall token, token ∈ tokens -> path_like token = true ->
    exists cs p ds, leads_to token cs /\ p ∈ paths /\ Abs Getwd p = Ok (abs_path ds) /\
                    Forall plain ds /\ admits ds cs.
Proof.
  intros Hr. apply resolve_allowed_spec in Hr. induction tokens as [|t ts IH].
  { split; [|done]. intros _ token H. by apply not_elem_of_nil in H. }
  cbn. destruct (path_like t) eqn:Ep; cbn [negb].
  - assert (Hu : forall q, Abs Getwd (TrimRight shell_suffix t) = Ok q ->
       isUnderAllowed (Clean q) allowed = true <->
       exists cs p ds, leads_to t cs /\ p ∈ paths /\ Abs Getwd p = Ok (abs_path ds) /\
                       Forall plain ds /\ admits ds cs).
    { intros q Hq. destruct (Abs_absolute _ _ Hq) as (cs & -> & Hc). rewrite Clean_abs_path by done.
      unfold isUnderAllowed. rewrite existsb_exists. split.
      - intros (a & Ha & Hb). apply list_elem_of_In in Ha.
        destruct (Forall2_related_r _ _ _ _ Hr Ha) as (p & Hp & ds & Hpa & -> & Hd).
        apply under_spec in Hb; [|done|done]. by exists cs, p, ds.
      - intros (cs' & p & ds & [Hq' Hc'] & Hp & Hpa & Hd & Hb). rewrite Hq in Hq'.
        assert (cs = cs') as <- by (apply abs_path_inj; [done|done|congruence]).
        destruct (Forall2_related_l _ _ _ _ Hr Hp) as (a & Ha & ds' & Hpa' & -> & Hd').
        rewrite Hpa in Hpa'.
        assert (ds = ds') as <- by (apply abs_path_inj; [done|done|congruence]).
        exists (abs_path ds). split; [by apply list_elem_of_In|by apply under_spec]. }
    destruct (Abs Getwd (TrimRight shell_suffix t)) as [q|e] eqn:Eq; cbn.
    + specialize (Hu q eq_refl). destruct (isUnderAllowed (Clean q) allowed) eqn:Eu.
      * rewrite IH. split.
        -- intros H token Ht Hp. apply elem_of_cons in Ht as [->|Ht]; [by apply Hu|by apply H].
        -- intros H token Ht. apply H. by apply elem_of_cons; right.
      * split; [done|]. intros H. specialize (H t ltac:(by apply elem_of_cons; left) Ep).
        by apply Hu in H.
    + split; [done|]. intros H. destruct (H t ltac:(by apply elem_of_cons; left) Ep)
        as (cs & _ & _ & [Hq _] & _). by rewrite Eq in Hq.
  - rewrite IH. split.
    + intros H token Ht Hp. apply elem_of_cons in Ht as [->|Ht]; [by rewrite Ep in Hp|by apply H].
    + intros H token Ht. apply H. by apply elem_of_cons; right.
Qed.
End Confinement.

Lemma blocklist_spec cfg command : checkBlocklist cfg command = Ok tt ->
  forall token, token ∈ Fields command -> base_name token ∉ sb_BlockedCmds cfg.
Proof.
  unfold checkBlocklist. destruct (sb_BlockedCmds cfg) as [|b bs] eqn:Eb;
    [intros _ token _ H; by apply not_elem_of_nil in H|].
  rewrite <- Eb. clear Eb b bs. induction (Fields command) as [|t ts IH]; [by intros _ ? ?%not_elem_of_nil|].
  cbn. destruct (blocked_by cfg t) as [b|] eqn:E; [done|]. intros H token [->|Ht]%elem_of_cons; [|by apply IH].
  intros Hb. unfold blocked_by in E. eapply find_none in E; [|by apply list_elem_of_In].
  by rewrite String.eqb_refl in E.
Qed.

(** At most the limit and the notice are returned, and the output is cut, not altered. *)
Lemma capOutput_cut cfg out :
  capOutput cfg out = out \/
  exists limit rest, 0 < limit < str_len out /\ capOutput cfg out =
    str_take (Z.to_nat limit) out +:+ newline +:+ "[output truncated at " +:+ rest.
Proof.
  unfold capOutput. set (limit := if _ <=? 0 then _ else _).
  destruct (Z.leb_spec (str_len out) limit); [by left|right]. exists limit, (fmt_d limit +:+ " bytes]").
  split; [|done]. split; [|done]. unfold limit, DefaultMaxOutputBytes.
  destruct (Z.leb_spec (sb_MaxOutputBytes cfg) 0); lia.
Qed.

Section Policy.
Context {W : Type} (CombinedOutput : list string -> option (Z * Z) -> W -> W * (string * option error)).
Context (LookupUser : string -> result (string * string)) (Getwd : W -> result string).
Hypothesis Getwd_abs : forall w wd, Getwd w = Ok wd -> IsAbs wd = true.

(** The process a mode may start for a command. *)
Inductive allowed_run (cfg : SandboxConfig) (command : string) (w : W) : list string -> option (Z * Z) -> Prop :=
  | run_permissive :
      sb_Mode cfg = SandboxModePermissive ->
      (sb_AllowedPaths cfg <> [] ->
       forall token, token ∈ Fields command -> path_like token = true ->
         exists cs p ds, leads_to (Getwd w) token cs /\ p ∈ sb_AllowedPaths cfg /\
           Abs (Getwd w) p = Ok (abs_path ds) /\ Forall plain ds /\ admits ds cs) ->
      allowed_run cfg command w ["sh"; "-c"; command] None
  | run_user uid gid n m :
      sb_Mode cfg = SandboxModeUser -> LookupUser (sb_User cfg) = Ok (uid, gid) ->
      Atoi uid = Ok n -> Atoi gid = Ok m ->
      allowed_run cfg command w ["sh"; "-c"; command] (Some (uint32 n, uint32 m))
  | run_container :
      sb_Mode cfg = SandboxModeContainer -> sb_ContainerName cfg <> "" ->
      allowed_run cfg command w ["docker"; "exec"; sb_ContainerName cfg; "sh"; "-c"; command] None.

Lemma credentials_Ok cfg cred : credentials LookupUser cfg = Ok cred ->
  exists uid gid n m, LookupUser (sb_User cfg) = Ok (uid, gid) /\ Atoi uid = Ok n /\ Atoi gid = Ok m /\
                      cred = (uint32 n, uint32 m).
Proof.
  unfold credentials. destruct (LookupUser (sb_User cfg)) as [[uid gid]|]; [|done]. cbn [wrap_err result_bind fst snd].
  destruct (Atoi uid) as [n|] eqn:E1; [|done]. cbn [wrap_err result_bind].
  destruct (Atoi gid) as [m|] eqn:E2; [|done]. cbn [wrap_err result_bind].
  intros [= <-]. by exists uid, gid, n, m.
Qed.

(** C34: The sandbox runs nothing but what its mode allows. Either it refuses, with an
    error, no output and nothing run; or it runs exactly one process, no field of whose
    command names a blocked command, with the shell arguments, credentials or container
    of the configured mode, and returns its output up to the cap and its error. In
    permissive mode with allowed paths, every field of the command that begins like a
    path leads, once cleaned, to an allowed path or below one. Any other mode refuses. *)
Theorem Execute_confined cfg command w w' out :
  Execute CombinedOutput LookupUser Getwd cfg command w = (w', out) ->
  (w' = w /\ exists e, out = ("", Some e)) \/
  (exists argv cred o, CombinedOutput argv cred w = (w', o) /\
     allowed_run cfg command w argv cred /\
     (forall token, token ∈ Fields command -> base_name token ∉ sb_BlockedCmds cfg) /\
     out.1 = capOutput cfg o.1 /\ (out.2 = None <-> o.2 = None)).
Proof using Getwd_abs.
  assert (Hrefuse : forall e, refuse e w = (w', out) -> w' = w /\ exists e, out = ("", Some e))
    by (intros e [= <- <-]; split; [done|by exists e]).
  assert (Hrun : forall msg argv cred, allowed_run cfg command w argv cred ->
    (forall token, token ∈ Fields command -> base_name token ∉ sb_BlockedCmds cfg) ->
    run_sh CombinedOutput cfg msg argv cred w = (w', out) ->
    exists argv cred o, CombinedOutput argv cred w = (w', o) /\ allowed_run cfg command w argv cred /\
      (forall token, token ∈ Fields command -> base_name token ∉ sb_BlockedCmds cfg) /\
      out.1 = capOutput cfg o.1 /\ (out.2 = None <-> o.2 = None)).
  { intros msg argv cred Ha Hb. unfold run_sh. destruct (CombinedOutput argv cred w) as [w1 o] eqn:E.
    intros [= <- <-]. exists argv, cred, o. do 4 (split; [done|]). cbn. by destruct o.2. }
  unfold Execute. destruct (checkBlocklist cfg command) as [[]|e] eqn:Eb; [|intros E; left; by eapply Hrefuse].
  pose proof (blocklist_spec _ _ Eb) as Hb.
  destruct (String.eqb_spec (sb_Mode cfg) SandboxModePermissive) as [Em|_].
  { unfold execPermissive. destruct (checkAllowedPaths (Getwd w) cfg command) as [[]|e] eqn:Ec;
      [|intros E; left; by eapply Hrefuse].
    intros E. right. eapply Hrun; [|exact Hb|exact E]. apply run_permissive; [done|].
    intros Hne. unfold checkAllowedPaths in Ec. destruct (sb_AllowedPaths cfg) as [|p ps]; [done|].
    destruct (resolve_allowed (Getwd w) 0 (p :: ps)) as [allowed|e] eqn:Er; [|done].
    eapply (paths_loop_spec (Getwd w) (Getwd_abs w)); [exact Er|exact Ec]. }
  destruct (String.eqb_spec (sb_Mode cfg) SandboxModeUser) as [Em|_].
  { unfold execAsUser. destruct (credentials LookupUser cfg) as [cred|e] eqn:Ec; [|intros E; left; by eapply Hrefuse].
    apply credentials_Ok in Ec as (uid & gid & n & m & Hu & Hn & Hm & ->).
    intros E. right. eapply Hrun; [by eapply run_user|exact Hb|exact E]. }
  destruct (String.eqb_spec (sb_Mode cfg) SandboxModeContainer) as [Em|_].
  { unfold execInContainer. destruct (str_empty (sb_ContainerName cfg)) eqn:Ec; [intros E; left; by eapply Hrefuse|].
    intros E. right. eapply Hrun; [|exact Hb|exact E]. apply run_container; [done|].
    intros H. by rewrite H in Ec. }
  destruct (String.eqb (sb_Mode cfg) "none"); intros E; left; by eapply Hrefuse.
Qed.
End Policy.

(** ** What the path check does not see, and witnesses *)

Section Witnesses.
(** A shell that records what it runs. *)
Definition log_run (argv : list string) (cred : option (Z * Z)) (w : list (list string)) :=
  (w ++ [argv], ("ok", @None error)).
Definition no_user (_ : string) : result (string * string) := Err (ENew "user: unknown user").
Definition demo_cwd (_ : list (list string)) : result string := Ok "/srv/agent".
Definition demo_sandbox : SandboxConfig :=
  {| sb_Mode := "permissive"; sb_AllowedPaths := ["."; "/tmp"]; sb_BlockedCmds := ["rm"];
     sb_User := ""; sb_ContainerName := ""; sb_MaxOutputBytes := 0 |}.
#[local] Notation run cmd := (Execute log_run no_user demo_cwd demo_sandbox cmd []).

Lemma Execute_confined_witness :
  exists w' out, run "cat ./notes/../a.txt /tmp" = (w', out) /\ out.1 = "ok" /\
    w' = [["sh"; "-c"; "cat ./notes/../a.txt /tmp"]] /\
    Forall (fun token => base_name token ∉ ["rm"]) (Fields "cat ./notes/../a.txt /tmp").
Proof.
  destruct (run "cat ./notes/../a.txt /tmp") as [w' out] eqn:E.
  assert (Hw : w' = [["sh"; "-c"; "cat ./notes/../a.txt /tmp"]] /\ out.1 = "ok")
    by (vm_compute in E; injection E as <- <-; done).
  destruct Hw as [Hw Ho]. exists w', out. do 3 (split; [done|]).
  destruct (Execute_confined log_run no_user demo_cwd ltac:(by intros w wd [= <-]) _ _ _ _ _ E)
    as [[H _]|(argv & cred & o & _ & _ & Hb & _)]; [by rewrite Hw in H|].
  apply Forall_forall. exact Hb.
Defined.

(** Paths behind a redirection or inside a relative name are not checked. *)
Example redirection_escapes :
  (run "cat</etc/passwd").1 = [["sh"; "-c"; "cat</etc/passwd"]] /\
  (run "cat a/../../../etc/passwd").1 = [["sh"; "-c"; "cat a/../../../etc/passwd"]] /\
  (run "cat /etc/passwd").1 = [].
Proof. by vm_compute. Qed.
(** Allowing the root admits the root alone. *)
Example root_admits_only_root :
  isUnderAllowed "/etc" ["/"] = false /\ isUnderAllowed "/" ["/"] = true.
Proof. by vm_compute. Qed.
End Witnesses.
