(* ===== verification/Socket.v ===== *)
(** * The tool socket: [internal/tools/uds.go], [uds_peercred_linux.go] and its client
    [cmd/cli/main.go]

    Length-prefixed frames over a Unix socket, one request and one response per
    connection. The connection's bytes, the peer's credentials and the JSON of the two
    messages are parameters. *)

From S2P Require Import Prelude Frames Aegis Client ToolHandlers.
Import Utf8.

Definition maxFrameSize : Z := 4 * 1024 * 1024.

(** [Args] is [None] when the map is nil. *)
Record SocketRequest := { sq_Method : string; sq_Args : option ToolArgs }.
Record SocketResponse := { sp_Result : string; sp_Error : string }.
Definition result_response (r : string) : SocketResponse := {| sp_Result := r; sp_Error := "" |}.
Definition error_response (e : string) : SocketResponse := {| sp_Result := ""; sp_Error := e |}.

(** ** Frames *)

(** [binary.BigEndian] on 32 bits. *)
Definition be32 (z : Z) : string :=
  String (byte_of (z / 2 ^ 24 mod 256)) (String (byte_of (z / 2 ^ 16 mod 256))
    (String (byte_of (z / 2 ^ 8 mod 256)) (String (byte_of (z mod 256)) ""))).
Definition Uint32 (s : string) : Z :=
  match s with
  | String a (String b (String c (String d _))) =>
      ascii_code a * 2 ^ 24 + ascii_code b * 2 ^ 16 + ascii_code c * 2 ^ 8 + ascii_code d
  | _ => 0
  end.

(** What a connection will deliver: bytes, then an error ([None]: end of file). *)
Record Input := { in_bytes : string; in_error : option error }.

(** [io.ReadFull] *)
Definition ReadFull (n : nat) : M Input string := fun s =>
  if (n <=? String.length (in_bytes s))%nat
  then ({| in_bytes := str_drop n (in_bytes s); in_error := in_error s |}, Ok (str_take n (in_bytes s)))
  else ({| in_bytes := ""; in_error := in_error s |},
        Err (match in_error s with
             | Some e => e
             | None => ENew (if str_empty (in_bytes s) then "EOF" else "unexpected EOF")
             end)).

Definition ReadFrame : M Input string :=
  let! lenBuf := wrapM "read length prefix" (ReadFull 4) in
  let size := Uint32 lenBuf in
  if maxFrameSize <? size
  then fail (ENew ("frame too large: " +:+ fmt_d size +:+ " bytes (max " +:+ fmt_d maxFrameSize +:+ ")"))
  else wrapM "read payload" (ReadFull (Z.to_nat size)).

Section Serve.
Context {W : Type}.
Variable conn_Write : string -> M W unit.

(** [uint32(len(payload))] wraps. *)
Definition WriteFrame (payload : string) : M W unit :=
  let! _ := wrapM "write length prefix" (conn_Write (be32 (str_len payload mod 2 ^ 32))) in
  wrapM "write payload" (conn_Write payload).

(** ** The server's side of a connection *)

Variable unmarshal_request : string -> result SocketRequest.
Variable marshal_response : SocketResponse -> result string.
Variable handler : SocketRequest -> W -> W * SocketResponse.

Definition writeResponse (resp : SocketResponse) (w : W) : W :=
  match marshal_response resp with
  | Err _ => w
  | Ok data => (WriteFrame data w).1
  end.

Definition fmt_uids (l : list Z) : string := "[" +:+ str_join (map fmt_d l) " " +:+ "]".
(** [cred]: the peer's uid and pid as [SO_PEERCRED] gives them. *)
Definition checkPeerCred (cred : result (Z * Z)) (allowedUIDs : list Z) : result unit :=
  match allowedUIDs with
  | [] => Ok tt
  | _ =>
      let? c := cred in
      if existsb (Z.eqb c.1) allowedUIDs then Ok tt
      else Err (ENew ("peercred: connection from uid " +:+ fmt_d c.1 +:+ " (pid " +:+ fmt_d c.2 +:+
                      ") not in allowed UIDs " +:+ fmt_uids allowedUIDs +:+ " — rejected"))
  end.

Definition serveConn (cred : result (Z * Z)) (allowedUIDs : list Z) (input : Input) (w : W) : W :=
  match checkPeerCred cred allowedUIDs with
  | Err e => writeResponse (error_response (error_Error e)) w
  | Ok _ =>
      match (ReadFrame input).2 with
      | Err _ => w
      | Ok payload =>
          match unmarshal_request payload with
          | Err e => writeResponse (error_response ("unmarshal request: " +:+ error_Error e)) w
          | Ok req => let '(w', resp) := handler req w in writeResponse resp w'
          end
      end
  end.
End Serve.

(** ** The client *)

(** What the program prints and the code it exits with. *)
Inductive Outcome := Printed (text : string) | Failed (text : string).

(** The first [=] splits an argument, unless it comes first. *)
Definition key_value (arg : string) : option (string * string) :=
  match str_index arg "=" with
  | Some (S n) => Some (str_take (S n) arg, str_drop (S (S n)) arg)
  | _ => None
  end.
Fixpoint parse_args_loop (argv : list string) (positional : nat) (acc : ToolArgs) : ToolArgs :=
  match argv with
  | [] => acc
  | arg :: rest =>
      match key_value arg with
      | Some (key, val) => parse_args_loop rest positional (<[key := AString val]> acc)
      | None =>
          parse_args_loop rest (S positional)
            (match positional with
             | O => <["query" := AString arg]> acc
             | S O => <["target" := AString arg]> acc
             | _ => acc
             end)
      end
  end.
Definition parseArgs (argv : list string) : ToolArgs := parse_args_loop argv 0 ∅.
Definition client_request (method : string) (argv : list string) : SocketRequest :=
  {| sq_Method := method; sq_Args := Some (parseArgs argv) |}.

(** From the response on: [response] is what comes back on the connection. *)
Definition client_finish (unmarshal_response : string -> result SocketResponse) (response : Input) : Outcome :=
  match (ReadFrame response).2 with
  | Err e => Failed ("athena: read response: " +:+ error_Error e)
  | Ok payload =>
      match unmarshal_response payload with
      | Err e => Failed ("athena: parse response: " +:+ error_Error e)
      | Ok resp => if str_empty (sp_Error resp) then Printed (sp_Result resp +:+ newline)
                   else Failed ("athena: " +:+ sp_Error resp)
      end
  end.

(** *** The command *)

Definition quoted (s : string) : string := dquote +:+ s +:+ dquote.
Definition helpText : string :=
"athena — Athena-class agent CLI

Usage:
  athena <command> [args]

Commands:
  memory    search, recall, link memory entries
  people    manage relational profiles
  channel   list, read, reply across channels
  reflect   author and retrieve reflections
  knowledge query and update the world model
  settings  view and adjust agent settings
  advisor   request a second opinion from an external model
  discover  discover available tool groups

Arguments may be positional (first positional → " +:+ quoted "query" +:+ ", second → " +:+ quoted "target" +:+ ")
or key=value pairs (e.g. query=hello target=world).

Run 'athena <command> --help' for command-specific help.

Environment:
  RUNTIME_DIR   directory containing harness.sock (default: ./run)
".

Section Main.
Context {W : Type}.
Variable Getenv : string -> string.
Variable marshal_request : SocketRequest -> result string.
Variable unmarshal_response : string -> result SocketResponse.
Variable Dial : string -> M W unit.
Variable conn_Write : string -> M W unit.
(** What the connection delivers after what was written. *)
Variable conn_Input : W -> Input.

Definition socketPath : string := trim_slashes (str_or (Getenv "RUNTIME_DIR") "./run") +:+ "/harness.sock".

(** [argv]: [os.Args] after the program's name. *)
Definition main (argv : list string) (w : W) : W * Outcome :=
  match argv with
  | [] => (w, Printed helpText)
  | method :: args =>
      if one_of method ["--help"; "-h"; "help"] then (w, Printed helpText)
      else
        match marshal_request (client_request method args) with
        | Err e => (w, Failed ("athena: marshal request: " +:+ error_Error e))
        | Ok payload =>
            match Dial socketPath w with
            | (w, Err e) => (w, Failed ("athena: connect to " +:+ socketPath +:+ ": " +:+ error_Error e))
            | (w, Ok _) =>
                match WriteFrame conn_Write payload w with
                | (w, Err e) => (w, Failed ("athena: send request: " +:+ error_Error e))
                | (w, Ok _) => (w, client_finish unmarshal_response (conn_Input w))
                end
            end
        end
  end.
End Main.

(** ** Frames, exactly *)

Lemma ascii_code_bound c : 0 <= ascii_code c < 256.
Proof. unfold ascii_code. pose proof (Ascii.nat_ascii_bounded c). lia. Qed.
Lemma byte_of_code c : byte_of (ascii_code c) = c.
Proof. unfold byte_of, ascii_code. rewrite Nat2Z.id. apply Ascii.ascii_nat_embedding. Qed.

Lemma Uint32_be32 z t : 0 <= z < 2 ^ 32 -> Uint32 (be32 z +:+ t) = z.
Proof.
  intros Hz. unfold be32. rewrite !str_app_cons. cbn [Uint32].
  rewrite !ascii_code_byte by (apply Z.mod_pos_bound; lia).
  change (2 ^ 24) with 16777216. change (2 ^ 16) with 65536. change (2 ^ 8) with 256.
  change (2 ^ 32) with 4294967296 in Hz. Z.to_euclidean_division_equations. lia.
Qed.

Lemma be32_Uint32 s : String.length s = 4%nat -> be32 (Uint32 s) = s /\ 0 <= Uint32 s < 2 ^ 32.
Proof.
  destruct s as [|a [|b [|c [|d [|x s]]]]]; try done. intros _. cbn [Uint32].
  pose proof (ascii_code_bound a). pose proof (ascii_code_bound b).
  pose proof (ascii_code_bound c). pose proof (ascii_code_bound d). unfold be32.
  change (2 ^ 24) with 16777216. change (2 ^ 16) with 65536. change (2 ^ 8) with 256.
  change (2 ^ 32) with 4294967296. split; [|lia].
  rewrite <- (byte_of_code a) at 5. rewrite <- (byte_of_code b) at 5.
  rewrite <- (byte_of_code c) at 5. rewrite <- (byte_of_code d) at 5.
  repeat f_equal; Z.to_euclidean_division_equations; lia.
Qed.

Lemma ReadFull_exact n s s' t :
  ReadFull n s = (s', Ok t) <->
  String.length t = n /\ in_bytes s = t +:+ in_bytes s' /\ in_error s' = in_error s.
Proof.
  unfold ReadFull. destruct s as [b e], s' as [b' e']. cbn [in_bytes in_error].
  destruct (Nat.leb_spec n (String.length b)) as [Hn|Hn].
  - split.
    + intros [= <- <- <-]. split; [by apply length_str_take|]. split; [by rewrite str_take_drop|done].
    + intros (<- & -> & ->). by rewrite str_take_app, str_drop_app.
  - split; [done|]. intros (<- & -> & _). rewrite length_str_app in Hn. lia.
Qed.

(** C39: [ReadFrame] accepts exactly the frames [WriteFrame] writes for payloads of at
    most 4 MB: it returns a payload and leaves a rest precisely when the input is the
    payload's length in four big-endian bytes, the payload, and that rest. *)
Theorem ReadFrame_exact s s' p :
  ReadFrame s = (s', Ok p) <->
  str_len p <= maxFrameSize /\ in_error s' = in_error s /\
  in_bytes s = be32 (str_len p) +:+ p +:+ in_bytes s'.
Proof.
  unfold ReadFrame, bind, wrapM. split.
  - destruct (ReadFull 4 s) as [s1 [t|e]] eqn:E1; [|done]. cbn [wrap_err].
    apply ReadFull_exact in E1 as (Ht & Hb & He). destruct (be32_Uint32 t Ht) as [Hbe Hr].
    destruct (Z.ltb_spec maxFrameSize (Uint32 t)) as [|Hmax]; [done|].
    destruct (ReadFull _ s1) as [s2 [q|e]] eqn:E2; [|done]. cbn [wrap_err]. intros [= <- <-].
    apply ReadFull_exact in E2 as (Hq & Hb2 & He2).
    assert (Hlen : str_len q = Uint32 t) by (unfold str_len; lia).
    split; [lia|]. split; [congruence|]. by rewrite Hlen, Hbe, Hb, Hb2.
  - intros (Hmax & He & Hb).
    assert (Hz : 0 <= str_len p < 2 ^ 32) by (unfold maxFrameSize, str_len in *; lia).
    assert (E1 : ReadFull 4 s = ({| in_bytes := p +:+ in_bytes s'; in_error := in_error s |},
                                 Ok (be32 (str_len p)))) by (by apply ReadFull_exact).
    rewrite E1. cbn [wrap_err].
    assert (Hu : Uint32 (be32 (str_len p)) = str_len p)
      by (rewrite <- (str_app_nil_r (be32 (str_len p))); by apply Uint32_be32).
    rewrite Hu. destruct (Z.ltb_spec maxFrameSize (str_len p)); [lia|].
    assert (E2 : ReadFull (Z.to_nat (str_len p)) {| in_bytes := p +:+ in_bytes s'; in_error := in_error s |}
                 = (s', Ok p)).
    { apply ReadFull_exact. split; [unfold str_len; lia|by split]. }
    by rewrite E2.
Qed.

(** A longer frame is refused for its length, before anything of it is read. *)
Lemma ReadFrame_too_large s p :
  maxFrameSize < str_len p < 2 ^ 32 -> in_bytes s = be32 (str_len p) +:+ p ->
  (ReadFrame s).2 = Err (ENew ("frame too large: " +:+ fmt_d (str_len p) +:+ " bytes (max " +:+
                               fmt_d maxFrameSize +:+ ")")).
Proof.
  intros Hl Hb. unfold ReadFrame, bind, wrapM.
  assert (E1 : ReadFull 4 s = ({| in_bytes := p; in_error := in_error s |}, Ok (be32 (str_len p))))
    by (by apply ReadFull_exact).
  rewrite E1. cbn [wrap_err].
  assert (Hu : Uint32 (be32 (str_len p)) = str_len p)
    by (rewrite <- (str_app_nil_r (be32 (str_len p))); apply Uint32_be32; unfold maxFrameSize in Hl; lia).
  rewrite Hu. destruct (Z.ltb_spec maxFrameSize (str_len p)); [done|lia].
Qed.

(** ** A connection *)

Section Exchange.
Context {W : Type} (conn_Write : string -> M W unit).
Context (unmarshal_request : string -> result SocketRequest).
Context (marshal_response : SocketResponse -> result string).
Context (unmarshal_response : string -> result SocketResponse).
Context (handler : SocketRequest -> W -> W * SocketResponse).
#[local] Notation serve := (serveConn conn_Write unmarshal_request marshal_response handler).
#[local] Notation reply := (writeResponse conn_Write marshal_response).

(** The peer may be served. *)
Definition authorised (cred : result (Z * Z)) (allowedUIDs : list Z) : Prop :=
  allowedUIDs = [] \/ exists uid pid, cred = Ok (uid, pid) /\ uid ∈ allowedUIDs.

Lemma checkPeerCred_spec cred allowedUIDs :
  checkPeerCred cred allowedUIDs = Ok tt <-> authorised cred allowedUIDs.
Proof using Type.
  unfold checkPeerCred, authorised. destruct allowedUIDs as [|u us]; [split; [by left|done]|].
  destruct cred as [[uid pid]|e]; cbn [result_bind fst].
  - destruct (existsb (Z.eqb uid) (u :: us)) eqn:E.
    + split; [|done]. intros _. right. exists uid, pid. split; [done|].
      apply existsb_exists in E as (x & Hx & ->%Z.eqb_eq). by apply list_elem_of_In.
    + split; [done|]. intros [|(uid' & pid' & [= <- <-] & Hu)]; [done|].
      assert (Ht : existsb (Z.eqb uid) (u :: us) = true)
        by (apply existsb_exists; exists uid; split; [by apply list_elem_of_In|by apply Z.eqb_eq]).
      by rewrite Ht in E.
  - split; [done|]. by intros [|(? & ? & ? & _)].
Qed.

(** A connection runs the handler at most once, on the request its one frame holds,
    and only for a peer whose uid is allowed (any peer, when no uid is listed); it
    answers with what the handler returned. Otherwise it answers with an error or hangs
    up, and the handler has not run. *)
Theorem serveConn_authorised cred allowedUIDs input w :
  (exists s payload req, authorised cred allowedUIDs /\ ReadFrame input = (s, Ok payload) /\
     unmarshal_request payload = Ok req /\
     serve cred allowedUIDs input w = reply (handler req w).2 (handler req w).1) \/
  (exists e, serve cred allowedUIDs input w = reply (error_response e) w) \/
  (authorised cred allowedUIDs /\ is_ok (ReadFrame input).2 = false /\ serve cred allowedUIDs input w = w).
Proof using Type.
  unfold serveConn. destruct (checkPeerCred cred allowedUIDs) as [[]|e] eqn:Ec; [|right; left; by eexists].
  apply checkPeerCred_spec in Ec.
  destruct (ReadFrame input) as [s [payload|e]] eqn:Er; cbn [snd]; [|by right; right].
  destruct (unmarshal_request payload) as [req|e] eqn:Eu; [|right; left; by eexists].
  left. exists s, payload, req. do 3 (split; [done|]). by destruct (handler req w).
Qed.

(** The bytes sent so far, on a connection that takes what is written. *)
Variable sent : W -> string.
Hypothesis Write_ok : forall s w, exists w', conn_Write s w = (w', Ok tt) /\ sent w' = sent w +:+ s.

Lemma reply_sent resp data w :
  marshal_response resp = Ok data -> str_len data < 2 ^ 32 ->
  sent (reply resp w) = sent w +:+ be32 (str_len data) +:+ data.
Proof using Write_ok.
  intros Hm Hl. unfold writeResponse. rewrite Hm. unfold WriteFrame, bind, wrapM.
  rewrite Z.mod_small by (unfold str_len in *; lia).
  destruct (Write_ok (be32 (str_len data)) w) as (w1 & E1 & S1). rewrite E1. cbn [wrap_err].
  destruct (Write_ok data w1) as (w2 & E2 & S2). rewrite E2. cbn [fst]. rewrite S2, S1.
  by rewrite str_app_assoc.
Qed.

(** What the client makes of a served request. *)
Definition client_outcome (data : string) (resp : SocketResponse) : Outcome :=
  if maxFrameSize <? str_len data
  then Failed ("athena: read response: frame too large: " +:+ fmt_d (str_len data) +:+
               " bytes (max " +:+ fmt_d maxFrameSize +:+ ")")
  else if str_empty (sp_Error resp) then Printed (sp_Result resp +:+ newline)
  else Failed ("athena: " +:+ sp_Error resp).

Lemma served_request cred allowedUIDs payload rest e req w data :
  authorised cred allowedUIDs -> str_len payload <= maxFrameSize ->
  unmarshal_request payload = Ok req ->
  let '(w1, resp) := handler req w in
  sent w1 = "" -> marshal_response resp = Ok data -> str_len data < 2 ^ 32 ->
  unmarshal_response data = Ok resp ->
  client_finish unmarshal_response
    {| in_bytes := sent (serve cred allowedUIDs
         {| in_bytes := be32 (str_len payload) +:+ payload +:+ rest; in_error := e |} w);
       in_error := None |}
  = client_outcome data resp.
Proof using Write_ok.
  intros Ha Hp Hu. destruct (handler req w) as [w1 resp] eqn:Eh. intros Hs Hm Hl Hr.
  assert (Hin : ReadFrame {| in_bytes := be32 (str_len payload) +:+ payload +:+ rest; in_error := e |}
                = ({| in_bytes := rest; in_error := e |}, Ok payload)) by (by apply ReadFrame_exact).
  unfold serveConn. apply checkPeerCred_spec in Ha as ->. rewrite Hin. cbn [snd]. rewrite Hu, Eh.
  rewrite (reply_sent _ _ _ Hm Hl), Hs, str_app_nil_l. unfold client_finish, client_outcome.
  destruct (Z.ltb_spec maxFrameSize (str_len data)) as [Hbig|Hfit].
  - by rewrite (ReadFrame_too_large {| in_bytes := be32 (str_len data) +:+ data; in_error := None |} data) by done.
  - assert (Hout : ReadFrame {| in_bytes := be32 (str_len data) +:+ data; in_error := None |}
                   = ({| in_bytes := ""; in_error := None |}, Ok data)).
    { apply ReadFrame_exact. do 2 (split; [done|]). cbn [in_bytes]. by rewrite str_app_nil_r. }
    rewrite Hout. cbn [snd]. by rewrite Hr.
Qed.

(** C40: the command and an authorised server, end to end: an invocation that is not a request
    for help prints the handler's result or fails with the handler's error, whatever bytes
    follow the request on the wire; unless the encoded response is longer than a frame may
    be, in which case the client refuses it although the server sent it. *)
Theorem exchange_exact Getenv marshal_request cred allowedUIDs method args payload rest e req w data :
  one_of method ["--help"; "-h"; "help"] = false ->
  marshal_request (client_request method args) = Ok payload ->
  authorised cred allowedUIDs -> str_len payload <= maxFrameSize ->
  unmarshal_request payload = Ok req ->
  let '(w1, resp) := handler req w in
  sent w1 = "" -> marshal_response resp = Ok data -> str_len data < 2 ^ 32 ->
  unmarshal_response data = Ok resp ->
  let server written := {| in_bytes := sent (serve cred allowedUIDs
                             {| in_bytes := written +:+ rest; in_error := e |} w); in_error := None |} in
  (main Getenv marshal_request unmarshal_response (fun _ => ret tt)
        (fun s written => (written +:+ s, Ok tt)) server (method :: args) "").2
  = client_outcome data resp.
Proof using Write_ok.
  intros Hh Hm Ha Hp Hu. pose proof (served_request cred allowedUIDs payload rest e req w data Ha Hp Hu) as H.
  destruct (handler req w) as [w1 resp]. intros Hs Hr Hl Hx. specialize (H Hs Hr Hl Hx).
  cbv zeta. unfold main. rewrite Hh, Hm. unfold WriteFrame, bind, wrapM, ret. cbn [wrap_err snd].
  rewrite str_app_nil_l, str_app_assoc, Z.mod_small; [exact H|].
  unfold str_len, maxFrameSize in *. lia.
Qed.
End Exchange.

Section Witnesses.
Definition demo_write (s : string) : M string unit := fun w => (w +:+ s, Ok tt).
Definition demo_unmarshal_request (s : string) : result SocketRequest :=
  Ok {| sq_Method := s; sq_Args := None |}.
Definition demo_marshal (r : SocketResponse) : result string := Ok (sp_Result r).
Definition demo_unmarshal (s : string) : result SocketResponse := Ok (result_response s).
Definition demo_handler (req : SocketRequest) (w : string) := (w, result_response ("did " +:+ sq_Method req)).

Lemma exchange_exact_witness :
  (main (fun _ => "") (fun r => Ok (sq_Method r)) demo_unmarshal (fun _ => ret tt)
     (fun s written => (written +:+ s, Ok tt))
     (fun written => {| in_bytes := serveConn demo_write demo_unmarshal_request demo_marshal demo_handler
                          (Ok (1000, 7)) [1000] {| in_bytes := written +:+ ""; in_error := None |} "";
                        in_error := None |}) ["discover"; "x"] "").2 = Printed ("did discover" +:+ newline).
Proof.
  refine (exchange_exact demo_write demo_unmarshal_request demo_marshal demo_unmarshal demo_handler id
    ltac:(intros s w; by exists (w +:+ s)) (fun _ => "") (fun r => Ok (sq_Method r)) (Ok (1000, 7)) [1000]
    "discover" ["x"] "discover" "" None _ "" "did discover"
    eq_refl eq_refl _ _ eq_refl eq_refl eq_refl _ eq_refl); [|by vm_compute|by vm_compute].
  right. exists 1000, 7. split; [done|]. by apply elem_of_cons; left.
Defined.
End Witnesses.
