(* ===== verification/Server.v ===== *)
(** * The tool socket's accept loop ([StartSocketServer] of [tools/uds.go])

    The server removes a stale socket, listens, restricts the file to its owner and then
    accepts connections until its context is cancelled, serving each in a goroutine of
    its own ([Socket.serveConn]). What the operating system answers is a parameter; the
    loop is followed for a number of [Accept] calls. *)

From S2P Require Import Prelude.

Section Server.
Context {W Conn : Type}.
Variable os_Remove : string -> M W unit.
Variable IsNotExist : error -> bool.
Variable net_Listen : string -> M W unit.
Variable os_Chmod : string -> Z -> M W unit.
Variable ln_Close : W -> W.
Variable ln_Accept : M W Conn.
Variable ctx_Err : W -> bool.                 (** the context is cancelled *)

(** Where the loop is after some calls: still accepting, or returned. *)
Inductive Serving :=
  | Accepting (served : list Conn)
  | Returned (served : list Conn) (r : result unit).

(** [for { conn, err := ln.Accept(); ... }]; [calls]: how many to follow. *)
Fixpoint accept_loop (calls : nat) (served : list Conn) (w : W) : W * Serving :=
  match calls with
  | O => (w, Accepting served)
  | S calls =>
      match ln_Accept w with
      | (w1, Ok conn) => accept_loop calls (served ++ [conn]) w1
      | (w1, Err _) => if ctx_Err w1 then (w1, Returned served (Ok tt)) else accept_loop calls served w1
      end
  end.

Definition start_listening (calls : nat) (socketPath : string) (w : W) : W * Serving :=
  match net_Listen socketPath w with
  | (w1, Err e) => (w1, Returned [] (Err (EWrap ("listen unix " +:+ socketPath) e)))
  | (w1, Ok _) =>
      match os_Chmod socketPath 384 w1 with      (* 0600 *)
      | (w2, Err e) => (ln_Close w2, Returned [] (Err (EWrap ("chmod socket " +:+ socketPath) e)))
      | (w2, Ok _) => accept_loop calls [] w2
      end
  end.

Definition StartSocketServer (calls : nat) (socketPath : string) (w : W) : W * Serving :=
  match os_Remove socketPath w with
  | (w1, Err e) =>
      if IsNotExist e then start_listening calls socketPath w1
      else (w1, Returned [] (Err (EWrap "remove stale socket" e)))
  | (w1, Ok _) => start_listening calls socketPath w1
  end.

(** ** What the loop does *)

(** The first [n] calls of [Accept], the loop aside: the states they leave and the
    connections they give. *)
Fixpoint accepts (n : nat) (w : W) : W * list (result Conn) :=
  match n with
  | O => (w, [])
  | S n => let '(w1, r) := ln_Accept w in let '(w2, l) := accepts n w1 in (w2, r :: l)
  end.
Definition connections (l : list (result Conn)) : list Conn :=
  flat_map (fun r => match r with Ok c => [c] | Err _ => [] end) l.

Definition served_of (s : Serving) : list Conn :=
  match s with Accepting l => l | Returned l _ => l end.

(** The loop serves exactly the connections it is given, in order, each once. It returns
    only after a failed [Accept] under a cancelled context, and then without an error;
    until it does, it has made every call it could. *)
Theorem accept_loop_exact calls served w w' s : accept_loop calls served w = (w', s) ->
  exists n, (n <= calls)%nat /\ (accepts n w).1 = w' /\
    served_of s = served ++ connections (accepts n w).2 /\
    match s with
    | Accepting _ => n = calls
    | Returned _ r => r = Ok tt /\ ctx_Err w' = true /\
        exists e, last (accepts n w).2 = Some (Err e)
    end.
Proof.
  revert served w. induction calls as [|calls IH]; intros served w; cbn [accept_loop].
  { intros [= <- <-]. exists 0%nat. simpl. by rewrite app_nil_r. }
  destruct (ln_Accept w) as [w1 [c|e]] eqn:Ea.
  - intros E. apply IH in E as (n & Hn & Hw & Hs & Hd). exists (S n). split; [lia|].
    cbn [accepts]. rewrite Ea. destruct (accepts n w1) as [w2 l] eqn:El. cbn [fst snd] in *.
    split; [done|]. split; [by rewrite Hs, <- app_assoc|]. destruct s as [|ss r]; [by subst|].
    destruct Hd as (? & ? & e & He). split_and!; [done|done|]. exists e. by destruct l.
  - destruct (ctx_Err w1) eqn:Ec.
    + intros [= <- <-]. exists 1%nat. split; [lia|]. cbn [accepts]. rewrite Ea. simpl.
      rewrite app_nil_r. eauto 8.
    + intros E. apply IH in E as (n & Hn & Hw & Hs & Hd). exists (S n). split; [lia|].
      cbn [accepts]. rewrite Ea. destruct (accepts n w1) as [w2 l] eqn:El. cbn [fst snd] in *.
      split; [done|]. split; [done|]. destruct s as [|ss r]; [by subst|].
      destruct Hd as (? & ? & e' & He). split_and!; [done|done|]. exists e'. by destruct l.
Qed.

(** A server that returns an error was never serving: the error is of the set-up. *)
Lemma StartSocketServer_errors calls path w w' served e :
  StartSocketServer calls path w = (w', Returned served (Err e)) -> served = [].
Proof.
  assert (Hs : forall w, start_listening calls path w = (w', Returned served (Err e)) -> served = []).
  { intros v. unfold start_listening. destruct (net_Listen path v) as [w1 [u|x]]; [|by intros [= _ <- _]].
    destruct (os_Chmod path 384 w1) as [w2 [u'|x]]; [|by intros [= _ <- _]].
    intros E. by apply accept_loop_exact in E as (n & _ & _ & _ & [? _]). }
  unfold StartSocketServer. destruct (os_Remove path w) as [w1 [u|x]]; [apply Hs|].
  destruct (IsNotExist x); [apply Hs|by intros [= _ <- _]].
Qed.

(** A listener that fails for good, under a context nobody cancels, is asked again for
    ever and at once: there is no pause and no bound. *)
Lemma broken_listener_spins calls served w :
  (forall v, exists v' e, ln_Accept v = (v', Err e) /\ ctx_Err v' = false) ->
  exists w', accept_loop calls served w = (w', Accepting served).
Proof.
  intros Hb. revert w. induction calls as [|calls IH]; intros w; cbn [accept_loop]; [eauto|].
  destruct (Hb w) as (w1 & e & -> & ->). apply IH.
Qed.
End Server.

(** Two clients, a hiccup of the listener, then the shutdown. *)
Example accept_loop_run :
  let script (w : nat) : nat * result string :=
    (S w, match w with 0 => Ok "a" | 1 => Err (ENew "too many open files") | 2 => Ok "b"
               | _ => Err (ENew "use of closed network connection") end)%nat in
  accept_loop script (fun w => (4 <=? w)%nat) 10 [] 0%nat = (4%nat, Returned ["a"; "b"] (Ok tt)).
Proof. reflexivity. Qed.
