(* ===== verification/Advisor.v ===== *)
(** * External advisors: [internal/tools/advisor.go]

    [Advisor.Ask] checks the session's budget, sends the question to the named provider
    in its own format, screens the answer, and counts the call. JSON, the environment
    and the HTTP transport are parameters; responses are the part of them the code reads. *)

From S2P Require Import Prelude Types Engine Client.

Record AdvisorProvider := {
  av_Name : string; av_Type : string; av_Endpoint : string; av_APIKeyEnv : string;
  av_Model : string; av_MaxTokens : Z; av_CostNote : string }.
Record AdvisorConfig := { ac_Providers : list AdvisorProvider; ac_BudgetPerSession : Z }.

(** Reading the configuration file. *)
Inductive ConfigFile := FileMissing | FileError (e : error) | FileData (data : string).
Definition LoadAdvisorConfig (unmarshal : string -> result AdvisorConfig) (read : string -> ConfigFile)
    (path : string) : result AdvisorConfig :=
  let none := {| ac_Providers := []; ac_BudgetPerSession := 0 |} in
  if str_empty path then Ok none
  else match read path with
       | FileMissing => Ok none
       | FileError e => Err (EWrap ("read advisor config " +:+ path) e)
       | FileData data => wrap_err "parse advisor config" (unmarshal data)
       end.

(** The request bodies. *)
Inductive AdvisorBody :=
  | BodyOpenAI (model question : string) (max_tokens : Z)
  | BodyAnthropic (model question : string) (max_tokens : Z)
  | BodyGemini (question : string) (maxOutputTokens : Z).

Section Advisor.
Context {W : Type}.
Variable json_body : AdvisorBody -> string.
Variable check_url : string -> option error.
Variable http_Do : HttpRequest -> M W HttpResponse.
Variable Getenv : string -> string.
(** [json.Unmarshal] into the three response structs: the contents of [choices]; the
    type and text of each [content] block; the texts of each candidate's parts. *)
Variable parse_openai : string -> result (list string).
Variable parse_anthropic : string -> result (list (string * string)).
Variable parse_gemini : string -> result (list (list string)).

(** The request, its transport error and its status. *)
Definition post (who url : string) (headers : list (string * string)) (body : AdvisorBody) : M W string :=
  match check_url url with
  | Some e => fail e
  | None =>
      let! resp := wrapM (who +:+ " request")
        (http_Do {| hq_url := url; hq_headers := ("Content-Type", "application/json") :: headers;
                    hq_body := json_body body |}) in
      if 400 <=? hp_status resp
      then fail (ENew (who +:+ " " +:+ fmt_d (hp_status resp) +:+ ": " +:+ hp_body resp))
      else ret (hp_body resp)
  end.
Definition endpoint_url (p : AdvisorProvider) (dflt path : string) : string :=
  trim_slashes (str_or (av_Endpoint p) dflt) +:+ path.
Definition key_header (name prefix apiKey : string) : list (string * string) :=
  if str_empty apiKey then [] else [(name, prefix +:+ apiKey)].
(** [json.Unmarshal], then the first answer. *)
Definition pick {A} (parse_msg none_msg : string) (parsed : result A) (first : A -> option string)
    : M W string :=
  match parsed with
  | Err e => fail (EWrap parse_msg e)
  | Ok a => match first a with Some t => ret t | None => fail (ENew none_msg) end
  end.

Definition askOpenAI (p : AdvisorProvider) (apiKey question : string) : M W string :=
  let! raw := post "openai" (endpoint_url p "https://api.openai.com/v1" "/chat/completions")
                (key_header "Authorization" "Bearer " apiKey)
                (BodyOpenAI (av_Model p) question (av_MaxTokens p)) in
  pick "parse openai response" "openai returned no choices" (parse_openai raw) head.

Definition askAnthropic (p : AdvisorProvider) (apiKey question : string) : M W string :=
  let! raw := post "anthropic" (endpoint_url p "https://api.anthropic.com/v1" "/messages")
                (("anthropic-version", "2023-06-01") :: key_header "x-api-key" "" apiKey)
                (BodyAnthropic (av_Model p) question (av_MaxTokens p)) in
  pick "parse anthropic response" "anthropic returned no text content" (parse_anthropic raw)
    (fun blocks => snd <$> List.find (fun b => String.eqb b.1 "text") blocks).

Definition askGemini (p : AdvisorProvider) (apiKey question : string) : M W string :=
  let! raw := post "gemini"
                (endpoint_url p "https://generativelanguage.googleapis.com/v1beta"
                   ("/models/" +:+ av_Model p +:+ ":generateContent"))
                (key_header "X-Goog-Api-Key" "" apiKey)
                (BodyGemini question (av_MaxTokens p)) in
  pick "parse gemini response" "gemini returned no content" (parse_gemini raw)
    (fun candidates => parts ← head candidates; head parts).

(** [a.used] is an [atomic.Int32]. *)
Definition wrap32 (z : Z) : Z := (z + 2 ^ 31) mod 2 ^ 32 - 2 ^ 31.
Definition admit_ask (cfg : AdvisorConfig) (used : Z) : result unit :=
  if (0 <? ac_BudgetPerSession cfg) && (ac_BudgetPerSession cfg <=? used)
  then Err (ENew ("advisor budget exhausted (" +:+ fmt_d used +:+ "/" +:+
                  fmt_d (ac_BudgetPerSession cfg) +:+ " calls used this session)"))
  else Ok tt.

Definition find_provider (cfg : AdvisorConfig) (name : string) : result AdvisorProvider :=
  match List.find (fun p => String.eqb (av_Name p) name) (ac_Providers cfg) with
  | Some p => Ok p
  | None => Err (ENew ("advisor " +:+ fmt_q name +:+ " not found; available: " +:+
                       str_join (map av_Name (ac_Providers cfg)) ", "))
  end.

(** The provider's answer. *)
Definition consult (p : AdvisorProvider) (question : string) : M W string :=
  let apiKey := if str_empty (av_APIKeyEnv p) then "" else Getenv (av_APIKeyEnv p) in
  if one_of (av_Type p) ["local"; "openai"] then askOpenAI p apiKey question
  else if String.eqb (av_Type p) "anthropic" then askAnthropic p apiKey question
  else if String.eqb (av_Type p) "gemini" then askGemini p apiKey question
  else fail (ENew ("unknown advisor type " +:+ fmt_q (av_Type p))).

(** Through Aegis, when there is a gateway; a failing scan lets the raw answer through. *)
Definition screen (gateway : option (@ContentGateway W)) (p : AdvisorProvider) (content : string)
    : M W string :=
  match gateway with
  | None => ret content
  | Some gw =>
      try! r := gw_ProcessInbound gw content ("advisor:" +:+ av_Name p) ContentSourceToolResult in
      match r with
      | Ok annotated => ret (ac_Normalized annotated)
      | Err _ => ret content
      end
  end.

(** What follows the budget check, up to the counter. *)
Definition answer (cfg : AdvisorConfig) (gateway : option (@ContentGateway W))
    (question providerName : string) : M W string :=
  match find_provider cfg providerName with
  | Err e => fail e
  | Ok p =>
      let! content := consult p question in
      let! content := screen gateway p content in
      ret ("[advisor: " +:+ av_Name p +:+ "/" +:+ av_Model p +:+ "]" +:+ newline +:+ content)
  end.

(** [Ask], run by one caller: the state carries the counter. *)
Definition Ask (cfg : AdvisorConfig) (gateway : option (@ContentGateway W))
    (question providerName : string) : M (W * Z) string := fun '(w, used) =>
  match admit_ask cfg used with
  | Err e => ((w, used), Err e)
  | Ok _ =>
      match answer cfg gateway question providerName w with
      | (w', Ok text) => ((w', wrap32 (used + 1)), Ok text)
      | (w', Err e) => ((w', used), Err e)
      end
  end.

(** Asking again and again. *)
Fixpoint ask_all (cfg : AdvisorConfig) (gateway : option (@ContentGateway W))
    (qs : list (string * string)) (s : W * Z) : (W * Z) * list (result string) :=
  match qs with
  | [] => (s, [])
  | (q, p) :: rest =>
      let '(s1, r) := Ask cfg gateway q p s in
      let '(s2, rs) := ask_all cfg gateway rest s1 in
      (s2, r :: rs)
  end.

Definition answered (rs : list (result string)) : Z := Z.of_nat (countb is_ok rs).
End Advisor.

(** ** Concurrent callers

    Every connection asks in its own goroutine: the budget is read at the start of a
    call and the counter moves at its end. *)
Record Budget := { bu_used : Z; bu_inflight : nat }.
Inductive budget_step (cfg : AdvisorConfig) (callers : nat) : Budget -> Budget -> Prop :=
  | step_start s :
      (bu_inflight s < callers)%nat -> admit_ask cfg (bu_used s) = Ok tt ->
      budget_step cfg callers s {| bu_used := bu_used s; bu_inflight := S (bu_inflight s) |}
  | step_answered used n :
      budget_step cfg callers {| bu_used := used; bu_inflight := S n |}
                              {| bu_used := wrap32 (used + 1); bu_inflight := n |}
  | step_failed used n :
      budget_step cfg callers {| bu_used := used; bu_inflight := S n |} {| bu_used := used; bu_inflight := n |}.
Definition no_calls : Budget := {| bu_used := 0; bu_inflight := 0 |}.

(** ** Properties *)

Lemma admit_ask_spec cfg used : 0 < ac_BudgetPerSession cfg ->
  admit_ask cfg used = Ok tt <-> used < ac_BudgetPerSession cfg.
Proof.
  intros H. unfold admit_ask. destruct (Z.ltb_spec 0 (ac_BudgetPerSession cfg)); [|lia].
  destruct (Z.leb_spec (ac_BudgetPerSession cfg) used); cbn [andb]; split; intros; (done || lia).
Qed.
Lemma wrap32_id z : - 2 ^ 31 <= z < 2 ^ 31 -> wrap32 z = z.
Proof. intros H. unfold wrap32. rewrite Z.mod_small; lia. Qed.

Section Budget.
Context {W : Type} (json_body : AdvisorBody -> string) (check_url : string -> option error).
Context (http_Do : HttpRequest -> M W HttpResponse) (Getenv : string -> string).
Context (parse_openai : string -> result (list string)).
Context (parse_anthropic : string -> result (list (string * string))).
Context (parse_gemini : string -> result (list (list string))).
Context (cfg : AdvisorConfig) (gateway : option (@ContentGateway W)).
#[local] Notation ask := (Ask json_body check_url http_Do Getenv parse_openai parse_anthropic parse_gemini).
#[local] Notation answer_ := (answer json_body check_url http_Do Getenv parse_openai parse_anthropic parse_gemini).
#[local] Notation asks :=
  (ask_all json_body check_url http_Do Getenv parse_openai parse_anthropic parse_gemini).

Lemma Ask_cases q p w used s' r :
  ask cfg gateway q p (w, used) = (s', r) ->
  (s' = (w, used) /\ admit_ask cfg used <> Ok tt /\ is_ok r = false) \/
  (admit_ask cfg used = Ok tt /\ exists w', answer_ cfg gateway q p w = (w', r) /\
     s' = (w', if is_ok r then wrap32 (used + 1) else used)).
Proof using Type.
  unfold Ask. destruct (admit_ask cfg used) as [[]|e] eqn:E; [|intros [= <- <-]; by left].
  right. split; [done|]. destruct (answer_ cfg gateway q p w) as [w' [t|e]]; injection H as <- <-; by exists w'.
Qed.

(** One caller after another: of any sequence of questions at most the budget is
    answered, the counter says how many were, and once it is spent every further
    question is refused before anything is sent. *)
Theorem budget_respected qs w s rs :
  0 < ac_BudgetPerSession cfg < 2 ^ 31 ->
  asks cfg gateway qs (w, 0) = (s, rs) ->
  s.2 = answered rs /\ answered rs <= ac_BudgetPerSession cfg /\ length rs = length qs /\
  (answered rs = ac_BudgetPerSession cfg ->
   forall q p, exists e, ask cfg gateway q p s = (s, Err e)).
Proof using Type.
  intros HB E.
  assert (H : forall qs u w s rs, 0 <= u <= ac_BudgetPerSession cfg -> asks cfg gateway qs (w, u) = (s, rs) ->
    s.2 = u + answered rs /\ u + answered rs <= ac_BudgetPerSession cfg /\ length rs = length qs).
  { clear -HB. intros qs. induction qs as [|[q p] qs IH]; intros u w s rs Hu E.
    { injection E as <- <-. unfold answered, countb. cbn. lia. }
    cbn [ask_all] in E. destruct (ask cfg gateway q p (w, u)) as [[w1 u1] r] eqn:E1.
    destruct (asks cfg gateway qs (w1, u1)) as [s2 rs2] eqn:E2. injection E as <- <-.
    assert (Ha : answered (r :: rs2) = (if is_ok r then 1 else 0) + answered rs2)
      by (unfold answered, countb, whereb; cbn; destruct (is_ok r); cbn [length]; lia).
    rewrite Ha. cbn [length]. apply Ask_cases in E1 as [(E1 & _ & Hr)|(Hadm & w' & _ & E1)].
    - injection E1 as -> ->. rewrite Hr. destruct (IH _ _ _ _ Hu E2) as (? & ? & ?). lia.
    - apply admit_ask_spec in Hadm; [|lia]. injection E1 as -> ->.
      destruct (is_ok r); [rewrite wrap32_id in E2 by lia|];
        apply IH in E2 as (? & ? & ?); lia. }
  destruct (H qs 0 w s rs ltac:(lia) E) as (H1 & H2 & H3). rewrite Z.add_0_l in H1, H2.
  do 3 (split; [done|]). intros Hfull q p. destruct s as [w' u]. simpl in H1. subst u.
  unfold Ask. destruct (admit_ask cfg (answered rs)) as [[]|e] eqn:Ea; [|by exists e].
  apply admit_ask_spec in Ea; lia.
Qed.

(** A call of [Ask] is a start and an end of the concurrent relation. *)
Lemma Ask_steps callers n q p w used w' used' r :
  (n < callers)%nat -> ask cfg gateway q p (w, used) = ((w', used'), r) ->
  rtc (budget_step cfg callers) {| bu_used := used; bu_inflight := n |} {| bu_used := used'; bu_inflight := n |}.
Proof using Type.
  intros Hn E. apply Ask_cases in E as [([= -> ->] & _)|(Hadm & w1 & _ & [= -> ->])]; [done|].
  eapply rtc_l; [by apply step_start|]. cbn [bu_used bu_inflight].
  apply rtc_once. destruct (is_ok r); [apply step_answered|apply step_failed].
Qed.

(** What [Ask] answers with a gateway whose scan fails is the provider's raw text. *)
Lemma Ask_fails_open gw q p w w1 w2 used provider content e :
  gateway = Some gw -> admit_ask cfg used = Ok tt -> find_provider cfg p = Ok provider ->
  consult json_body check_url http_Do Getenv parse_openai parse_anthropic parse_gemini provider q w = (w1, Ok content) ->
  gw_ProcessInbound gw content ("advisor:" +:+ av_Name provider) ContentSourceToolResult w1 = (w2, Err e) ->
  ask cfg gateway q p (w, used) =
    ((w2, wrap32 (used + 1)),
     Ok ("[advisor: " +:+ av_Name provider +:+ "/" +:+ av_Model provider +:+ "]" +:+ newline +:+ content)).
Proof using Type.
  intros -> Ha Hp Hc Hg. unfold Ask, answer. rewrite Ha, Hp. unfold bind. rewrite Hc.
  unfold screen, attempt. by rewrite Hg.
Qed.
End Budget.

Section Concurrent.
Context (cfg : AdvisorConfig) (callers : nat).
Hypothesis Hbudget : 0 < ac_BudgetPerSession cfg.
Hypothesis Hcallers : (0 < callers)%nat.
Hypothesis Hsmall : ac_BudgetPerSession cfg + Z.of_nat callers <= 2 ^ 31.
#[local] Notation B := (ac_BudgetPerSession cfg).
#[local] Notation steps := (rtc (budget_step cfg callers)).

Lemma budget_invariant s : steps no_calls s ->
  0 <= bu_used s /\ bu_used s + Z.of_nat (bu_inflight s) <= B - 1 + Z.of_nat callers.
Proof using Hbudget Hcallers Hsmall.
  intros H. remember no_calls as s0 eqn:E0.
  assert (Hinv : 0 <= bu_used s0 /\ bu_used s0 + Z.of_nat (bu_inflight s0) <= B - 1 + Z.of_nat callers)
    by (subst s0; cbn; lia).
  clear E0. induction H as [|a b c Hab H IH]; [done|]. apply IH. clear IH H.
  inversion Hab as [x Hn Hadm|u n|u n]; subst; cbn [bu_used bu_inflight] in *; [|rewrite wrap32_id by lia; lia|lia].
  apply admit_ask_spec in Hadm; lia.
Qed.

Lemma answered_steps k : forall u, 0 <= u -> u + Z.of_nat k <= B ->
  steps {| bu_used := u; bu_inflight := 0 |} {| bu_used := u + Z.of_nat k; bu_inflight := 0 |}.
Proof using Hbudget Hcallers Hsmall.
  induction k as [|k IH]; intros u Hu Hk; [by rewrite Z.add_0_r|].
  eapply rtc_l; [apply step_start; [done|apply admit_ask_spec; cbn; lia]|]. cbn [bu_used bu_inflight].
  eapply rtc_l; [apply step_answered|]. rewrite wrap32_id by lia.
  replace (u + Z.of_nat (S k)) with (u + 1 + Z.of_nat k) by lia. apply IH; lia.
Qed.

Lemma start_steps k : forall n u, u < B -> (n + k <= callers)%nat ->
  steps {| bu_used := u; bu_inflight := n |} {| bu_used := u; bu_inflight := n + k |}.
Proof using Hbudget Hcallers.
  induction k as [|k IH]; intros n u Hu Hk; [by rewrite Nat.add_0_r|].
  eapply rtc_l; [apply step_start; [cbn; lia|apply admit_ask_spec; cbn; lia]|]. cbn [bu_used bu_inflight].
  replace (n + S k)%nat with (S n + k)%nat by lia. apply IH; lia.
Qed.

Lemma finish_steps k : forall u, 0 <= u -> u + Z.of_nat k < 2 ^ 31 ->
  steps {| bu_used := u; bu_inflight := k |} {| bu_used := u + Z.of_nat k; bu_inflight := 0 |}.
Proof using Hcallers.
  induction k as [|k IH]; intros u Hu Hk; [by rewrite Z.add_0_r|].
  eapply rtc_l; [apply step_answered|]. rewrite wrap32_id by lia.
  replace (u + Z.of_nat (S k)) with (u + 1 + Z.of_nat k) by lia. apply IH; lia.
Qed.

(** With several callers at a time the budget is not a bound: the check and the count
    of a call are apart. The number of answered questions stays below the budget plus the
    number of callers, and that is exactly how far it can go. *)
Theorem budget_overrun :
  (forall s, steps no_calls s -> bu_used s <= B - 1 + Z.of_nat callers) /\
  (exists s, steps no_calls s /\ bu_used s = B - 1 + Z.of_nat callers).
Proof using Hbudget Hcallers Hsmall.
  split; [intros s H; apply budget_invariant in H; lia|].
  exists {| bu_used := B - 1 + Z.of_nat callers; bu_inflight := 0 |}. split; [|done].
  etransitivity.
  { pose proof (answered_steps (Z.to_nat (B - 1)) 0 ltac:(lia) ltac:(lia)) as H.
    rewrite Z2Nat.id, Z.add_0_l in H by lia. exact H. }
  etransitivity; [apply (start_steps callers 0); lia|]. apply finish_steps; lia.
Qed.
End Concurrent.

Section Witnesses.
Definition demo_advisor : AdvisorProvider :=
  {| av_Name := "oracle"; av_Type := "local"; av_Endpoint := "http://x/"; av_APIKeyEnv := "";
     av_Model := "m"; av_MaxTokens := 10; av_CostNote := "" |}.
Definition demo_advisors : AdvisorConfig := {| ac_Providers := [demo_advisor]; ac_BudgetPerSession := 1 |}.
Definition demo_Do (_ : HttpRequest) : M nat HttpResponse :=
  fun n => (S n, Ok {| hp_status := 200; hp_body := "42"; hp_read_err := None |}).

Lemma budget_respected_witness :
  let '(s, rs) := ask_all (fun _ => "") (fun _ => None) demo_Do (fun _ => "") (fun s => Ok [s])
                    (fun _ => Ok []) (fun _ => Ok []) demo_advisors None
                    [("a", "oracle"); ("b", "oracle")] (0%nat, 0) in
  s = (1%nat, 1) /\ answered rs = 1 /\ answered rs <= 1.
Proof.
  destruct (ask_all _ _ _ _ _ _ _ _ _ _ _) as [s rs] eqn:E.
  destruct (budget_respected _ _ _ _ _ _ _ demo_advisors _ _ _ _ _ ltac:(by vm_compute) E) as (_ & H & _).
  assert (Es : s = (1%nat, 1) /\ answered rs = 1) by (vm_compute in E; injection E as <- <-; done).
  destruct Es as [-> Hr]. split; [done|]. by split.
Defined.

Lemma budget_overrun_witness :
  exists s, rtc (budget_step demo_advisors 3) no_calls s /\ bu_used s = 3.
Proof. exact (proj2 (budget_overrun demo_advisors 3 ltac:(by vm_compute) ltac:(lia) ltac:(by vm_compute))). Defined.
End Witnesses.
