(* ===== verification/Dispatcher.v ===== *)
(** * The request dispatcher: [internal/tools/cli.go]

    [CLIDispatcher.Handle] routes a request of the tool socket to the sandbox, the
    advisor, the tool listing or a registered tool. The three are given as what the
    dispatcher calls of them; [None] is an unconfigured one. *)

From S2P Require Import Prelude Types Aegis Registry ToolHandlers Sandbox Socket.

Section Dispatcher.
Context {W : Type}.
Variable unicode_lower : string -> string.

Record CLIDispatcher := {
  cd_registry_Get : string -> option (ToolArgs -> M W string);
  cd_registry_List : list ToolGroup;
  cd_sandbox : option (string -> W -> W * (string * option error));
  cd_advisor : option (string -> string -> M W string);
  cd_activeTiers : option (gset string) }.

Definition NewCLIDispatcher (get : string -> option (ToolArgs -> M W string)) (groups : list ToolGroup)
    (sandbox : option (string -> W -> W * (string * option error)))
    (advisor : option (string -> string -> M W string)) : CLIDispatcher :=
  {| cd_registry_Get := get; cd_registry_List := groups; cd_sandbox := sandbox;
     cd_advisor := advisor; cd_activeTiers := None |}.

(** [None]: a nil slice, which turns gating off. *)
Definition SetActiveTiers (toolNames : option (list string)) (d : CLIDispatcher) : CLIDispatcher :=
  {| cd_registry_Get := cd_registry_Get d; cd_registry_List := cd_registry_List d;
     cd_sandbox := cd_sandbox d; cd_advisor := cd_advisor d;
     cd_activeTiers := list_to_set <$> toolNames |}.

Definition handleBash (d : CLIDispatcher) (args : ToolArgs) (w : W) : W * SocketResponse :=
  match stringArg args "command" with
  | None => (w, error_response "bash: missing required arg 'command'")
  | Some command =>
      match cd_sandbox d with
      | None => (w, error_response "bash: sandbox not configured")
      | Some execute =>
          let '(w', (out, err)) := execute command w in
          (w', match err with
               | Some e => error_response ("bash: " +:+ error_Error e)
               | None => result_response out
               end)
      end
  end.

(** A [(string, error)] of a handler as a response. *)
Definition respond (verb : string) (m : M W string) (w : W) : W * SocketResponse :=
  let '(w', r) := m w in
  (w', match r with
       | Ok result => result_response result
       | Err e => error_response (verb +:+ ": " +:+ error_Error e)
       end).

Definition handleAdvisor (d : CLIDispatcher) (args : ToolArgs) (w : W) : W * SocketResponse :=
  match stringArg args "question" with
  | None => (w, error_response "advisor: missing required arg 'question'")
  | Some question =>
      match cd_advisor d with
      | None => (w, error_response "advisor: advisor not configured")
      | Some ask => respond "advisor" (ask question (optional args "provider")) w
      end
  end.

Definition tool_line (t : ToolDef) : string :=
  "  " +:+ bullet +:+ td_Name t +:+
  (if str_empty (td_Description t) then "" else ": " +:+ td_Description t) +:+ newline.
Definition group_lines (g : ToolGroup) : string :=
  "tier " +:+ fmt_d (tg_Tier g) +:+ " (" +:+ tg_Name g +:+ ") — " +:+
  fmt_d (Z.of_nat (length (tg_Tools g))) +:+ " tool(s)" +:+
  (match tg_Keywords g with [] => "" | l => ", keywords: " +:+ str_join l ", " end) +:+ newline +:+
  String.concat "" (map tool_line (tg_Tools g)).
Definition tier_wanted (tier : option string) (g : ToolGroup) : bool :=
  match tier with
  | None => true
  | Some t => String.eqb (fmt_d (tg_Tier g)) t || String.eqb (to_lower unicode_lower (tg_Name g)) t
  end.
Definition handleDiscover (d : CLIDispatcher) (args : ToolArgs) : SocketResponse :=
  match cd_registry_List d with
  | [] => result_response "no tool groups registered"
  | groups => result_response
      (String.concat "" (map group_lines (List.filter (tier_wanted (stringArg args "tier")) groups)))
  end.

Definition gated (d : CLIDispatcher) (method : string) : bool :=
  match cd_activeTiers d with
  | Some active => negb (bool_decide (method ∈ active))
  | None => false
  end.
Definition handleRegistry (d : CLIDispatcher) (method : string) (args : ToolArgs) (w : W)
    : W * SocketResponse :=
  if gated d method
  then (w, error_response ("command " +:+ fmt_q method +:+ " not available in current session tier"))
  else match cd_registry_Get d method with
       | None => (w, error_response ("unknown command: " +:+ method))
       | Some handler => respond method (handler args) w
       end.

(** A nil map of arguments reads as the empty one. *)
Definition Handle (d : CLIDispatcher) (req : SocketRequest) (w : W) : W * SocketResponse :=
  let args := default ∅ (sq_Args req) in
  let verb := to_lower unicode_lower (sq_Method req) in
  if one_of verb ["bash"; "shell"] then handleBash d args w
  else if String.eqb verb "advisor" then handleAdvisor d args w
  else if String.eqb verb "discover" then (w, handleDiscover d args)
  else handleRegistry d (sq_Method req) args w.

(** ** Properties *)

(** The verbs that are not tools. *)
Definition own_verbs : list string := ["bash"; "shell"; "advisor"; "discover"].

(** Gating: once the session's tools are set, a request runs a registered tool only
    if it names one of them exactly; every other request that is not one of the four
    verbs changes nothing and is answered with an error. The verbs are outside the gate:
    they answer the same whatever tools are active. *)
Theorem Handle_gated d names req w :
  let d' := SetActiveTiers (Some names) d in
  (to_lower unicode_lower (sq_Method req) ∈ own_verbs /\ Handle d' req w = Handle d req w) \/
  (sq_Method req ∈ names /\ exists handler, cd_registry_Get d (sq_Method req) = Some handler /\
     Handle d' req w = respond (sq_Method req) (handler (default ∅ (sq_Args req))) w) \/
  (exists e, e <> "" /\ Handle d' req w = (w, error_response e)).
Proof using Type.
  intros d'. subst d'. unfold Handle. cbv zeta. set (verb := to_lower unicode_lower (sq_Method req)).
  destruct (one_of verb ["bash"; "shell"]) eqn:E1.
  { left. apply one_of_elem in E1. split; [|done]. unfold own_verbs. elem_cases E1; in_list. }
  destruct (String.eqb_spec verb "advisor") as [Ev|_]; [left; split; [rewrite Ev; unfold own_verbs; in_list|done]|].
  destruct (String.eqb_spec verb "discover") as [Ev|_]; [left; split; [rewrite Ev; unfold own_verbs; in_list|done]|].
  right. unfold handleRegistry, gated. cbn [cd_activeTiers SetActiveTiers fmap option_fmap option_map].
  destruct (decide (sq_Method req ∈ (list_to_set names : gset string))) as [Hin|Hout].
  - rewrite bool_decide_true by done. cbn [negb cd_registry_Get SetActiveTiers].
    destruct (cd_registry_Get d (sq_Method req)) as [h|] eqn:Eg.
    + left. split; [clear -Hin; set_solver|]. exists h. by split.
    + right. eexists. split; [|done]. done.
  - rewrite bool_decide_false by done. right. eexists. split; [|done]. done.
Qed.
End Dispatcher.

(** ** The command line *)

(** Arguments without a [=] only ever set [query] and [target]. *)
Lemma positional_keys argv : forall n acc, Forall (fun a => key_value a = None) argv ->
  forall k, k <> "query" -> k <> "target" -> parse_args_loop argv n acc !! k = acc !! k.
Proof.
  induction argv as [|a argv IH]; intros n acc H k Hq Ht; [done|]. inversion H as [|? ? Ha Hr]; subst.
  cbn [parse_args_loop]. rewrite Ha, IH by done. destruct n as [|[|n]]; cbv iota;
    [by apply (lookup_insert_ne (M := gmap string))|by apply (lookup_insert_ne (M := gmap string))|done].
Qed.

(** So [athena advisor <question>] and [athena bash <command>] always fail: the
    dispatcher wants the keys [question] and [command]. *)
Lemma positional_verbs_fail {W} lower (d : CLIDispatcher (W := W)) method argv w :
  to_lower lower method ∈ ["bash"; "shell"; "advisor"] -> Forall (fun a => key_value a = None) argv ->
  exists e, Handle lower d (client_request method argv) w = (w, error_response e) /\
    (e = "bash: missing required arg 'command'" \/ e = "advisor: missing required arg 'question'").
Proof.
  intros Hm Ha. unfold Handle. cbv zeta. cbn [sq_Args sq_Method client_request default].
  assert (Hk : forall k, k <> "query" -> k <> "target" -> stringArg (parseArgs argv) k = None).
  { intros k Hq Ht. unfold stringArg, parseArgs. rewrite positional_keys by done.
    assert (Hx : (∅ : ToolArgs) !! k = None) by (apply (lookup_empty (M := gmap string))). by rewrite Hx. }
  remember (to_lower lower method) as verb eqn:Ev. clear Ev. elem_cases Hm; cbn [one_of existsb orb].
  - eexists. unfold handleBash. rewrite Hk by done. split; [done|by left].
  - eexists. unfold handleBash. rewrite Hk by done. split; [done|by left].
  - eexists. unfold handleAdvisor. rewrite Hk by done. split; [done|by right].
Qed.

Section Registered.
Context {W : Type} `{!Awareness.Process W}.
Variable unicode_lower : string -> string.

(** The dispatcher over the registry [RegisterAll] builds. *)
Definition builtin_dispatcher (valid : list string) (groups : list ToolGroup)
    (r : DefaultRegistry (H := Builtin (W := W))) : CLIDispatcher (W := W) :=
  NewCLIDispatcher (fun n => builtin_Execute unicode_lower valid groups <$> Get r n) groups None None.

(** Of the eight commands the help text lists, only [advisor] and [discover] exist: the
    others are no tool's name, whatever is wired. *)
Lemma help_commands_unknown valid groups (stores : Stores (W := W)) providers r method argv w :
  RegisterAll NewDefaultRegistry stores providers = Some r ->
  method ∈ ["memory"; "people"; "channel"; "reflect"; "knowledge"; "settings"] ->
  Handle unicode_lower (builtin_dispatcher valid groups r) (client_request method argv) w =
    (w, error_response ("unknown command: " +:+ method)).
Proof using Type.
  intros Hr Hm.
  destruct (register_each_spec (registrations stores providers) NewDefaultRegistry
    (registrations_NoDup stores providers)) as (r' & E & _ & Hout); [done|].
  unfold RegisterAll in Hr. rewrite E in Hr. injection Hr as ->.
  assert (Hn : Get r method = None).
  { destruct (Hout method) as (-> & _); [|done]. intros Hmem.
    assert (Hno : one_of method (map call_name (registrations stores providers)) = true) by (by apply one_of_elem).
    revert Hno. destruct stores as [[?|] [?|] [?|]], providers as [[?|] [?|]]; elem_cases Hm; by vm_compute. }
  assert (Hl : to_lower unicode_lower method = method) by (elem_cases Hm; by vm_compute).
  unfold Handle. cbn [sq_Method client_request]. cbv zeta. rewrite Hl.
  assert (H1 : one_of method ["bash"; "shell"] = false) by (elem_cases Hm; done).
  assert (H2 : String.eqb method "advisor" = false) by (elem_cases Hm; done).
  assert (H3 : String.eqb method "discover" = false) by (elem_cases Hm; done).
  rewrite H1, H2, H3. unfold handleRegistry. cbn [gated cd_activeTiers builtin_dispatcher NewCLIDispatcher cd_registry_Get].
  by rewrite Hn.
Qed.
End Registered.
