(* ===== verification/Daemon.v ===== *)
(** * The daemon: [internal/daemon], [internal/channels/channel.go] and [registry.go]

    [Daemon.Run] recovers what a crash left, starts the channels, and turns their events
    into sessions: an event must pass the gateway and the wake scheduler. Channel
    adapters, regular expressions, and the session runner are parameters; the choices of
    the event loop's [select] are its input. *)

From S2P Require Import Prelude Frames Types Engine.

(** ** Channels *)

Record InboundEvent := {
  ie_Channel : string; ie_SenderID : string; ie_SenderName : string; ie_Content : string;
  ie_ContentType : string; ie_ThreadID : string; ie_ReceivedAt : Z; ie_WakeWorthy : bool }.

Section Registry.
Context {C : Type} (Name : C -> string).
Definition ChannelRegistry : Type := gmap string C.
Definition NewChannelRegistry : ChannelRegistry := ∅.
(** [None]: panic on a duplicate name. *)
Definition Register (ch : C) (r : ChannelRegistry) : option ChannelRegistry :=
  match r !! Name ch with Some _ => None | None => Some (<[Name ch := ch]> r) end.
Definition Get (name : string) (r : ChannelRegistry) : option C := r !! name.

(** [StartAll] starts the channels in the map's order, [visit]. A channel that starts
    gives the stream of events it will send. *)
Context {W : Type} (Start : C -> M W (list InboundEvent)).
Fixpoint start_each (visit : list C) : M W (list (list InboundEvent)) :=
  match visit with
  | [] => ret []
  | ch :: rest =>
      try! r := Start ch in
      let! streams := start_each rest in
      ret (match r with Ok events => events :: streams | Err _ => streams end)
  end.
Definition StartAll (visit : list C) : M W (list (list InboundEvent)) :=
  match visit with
  | [] => ret []
  | _ => let! streams := start_each visit in
         match streams with
         | [] => fail (ENew "channels: no channels started successfully")
         | _ => ret streams
         end
  end.
End Registry.

(** The goroutines of [StartAll] copy the streams into one channel, interleaved. *)
Inductive merged : list (list InboundEvent) -> list InboundEvent -> Prop :=
  | merged_done streams : Forall (fun s => s = []) streams -> merged streams []
  | merged_next before ev stream after out :
      merged (before ++ stream :: after) out -> merged (before ++ (ev :: stream) :: after) (ev :: out).

(** ** The wake scheduler *)

Record WakeCondition := { wc_Channel : string; wc_Pattern : string; wc_Priority : Z }.
Record WakeScheduler := {
  ws_conditions : list WakeCondition; ws_compiled : list (option (string -> bool));
  ws_scheduled : list Z; ws_minTrust : float64 }.

(** [regexp.Compile], as the matcher it gives. *)
Definition NewWakeScheduler (Compile : string -> option (string -> bool)) (conditions : list WakeCondition)
    : WakeScheduler :=
  {| ws_conditions := conditions; ws_compiled := map (fun c => Compile (wc_Pattern c)) conditions;
     ws_scheduled := []; ws_minTrust := f_lit 30 100 |}.

Definition condition_met (ev : InboundEvent) (c : WakeCondition * option (string -> bool)) : bool :=
  (str_empty (wc_Channel c.1) || String.eqb (wc_Channel c.1) (ie_Channel ev)) &&
  match c.2 with Some re => re (ie_Content ev) && (0 <? wc_Priority c.1) | None => false end.

Definition ShouldWake (ws : WakeScheduler) (ev : InboundEvent) (annotation : option AegisAnnotation) : bool :=
  match annotation with
  | Some a => aa_ScanPassed a && negb (fltb (aa_TrustScore a) (ws_minTrust ws))
  | None => true
  end &&
  (ie_WakeWorthy ev || existsb (condition_met ev) (combine (ws_conditions ws) (ws_compiled ws))).

Definition ScheduleWake (at_ : Z) (ws : WakeScheduler) : WakeScheduler :=
  {| ws_conditions := ws_conditions ws; ws_compiled := ws_compiled ws;
     ws_scheduled := ws_scheduled ws ++ [at_]; ws_minTrust := ws_minTrust ws |}.

Definition sooner (now : Z) (earliest : option Z) (t : Z) : option Z :=
  if now <? t then
    match earliest with
    | None => Some t
    | Some e => if t <? e then Some t else earliest
    end
  else earliest.
Definition NextWake (now : Z) (ws : WakeScheduler) : option Z :=
  fold_left (sooner now) (ws_scheduled ws) None.

(** ** The daemon *)

Definition contentSourceForChannel (name : string) : string :=
  if String.eqb name "discord" then ContentSourceDiscord
  else if one_of name ["agora"; "commons"] then ContentSourceForumContent
  else if String.eqb name "cli" then ContentSourceOperator else ContentSourceToolResult.

Section Daemon.
Context {W : Type}.

(** [dm_StartAll]: [None] without a registry or with an empty one; the supervisor is its
    [Recover] and its [Drain]; [dm_Now] is the clock. *)
Record Daemon := {
  dm_RunSession : SessionTrigger -> M W unit;
  dm_StartAll : option (M W unit);
  dm_gateway : option (@ContentGateway W);
  dm_waker : option WakeScheduler;
  dm_InterruptStaleCheckpoints : option (Z -> M W Z);
  dm_supervisor : option ((Z -> M W Z) * (Z -> M W unit));
  dm_Now : W -> W * Z }.

Definition drainSupervisor (d : Daemon) (w : W) : W :=
  match dm_supervisor d with None => w | Some (_, drain) => (drain (10 * second) w).1 end.

Definition interrupted_note (n : Z) : string :=
  "[session interrupted] " +:+ fmt_d n +:+ " session(s) were interrupted before this wake; " +:+
  "their records up to the interruption point are intact.".
Definition scanInterruptedSessions (d : Daemon) (w : W) : W * list string :=
  match dm_InterruptStaleCheckpoints d with
  | None => (w, [])
  | Some interrupt =>
      let '(w1, now) := dm_Now d w in
      match interrupt (now - 10 * minute) w1 with
      | (w2, Ok n) => (w2, if n =? 0 then [] else [interrupted_note n])
      | (w2, Err _) => (w2, [])
      end
  end.

Definition recoverMetabolismJobs (d : Daemon) (w : W) : W :=
  match dm_supervisor d with None => w | Some (recover, _) => (recover 3 w).1 end.

Definition startup_trigger (notes : list string) : SessionTrigger :=
  {| st_WakeReason := "daemon-startup"; st_InboundContent := ""; st_InboundSender := "";
     st_InboundChannel := ""; st_InbandNotes := notes; st_AegisAnnotation := None |}.
Definition event_trigger (ev : InboundEvent) (annotated : AnnotatedContent) (notes : list string)
    : SessionTrigger :=
  {| st_WakeReason := "channel:" +:+ ie_Channel ev; st_InboundContent := ac_Normalized annotated;
     st_InboundSender := ie_SenderName ev; st_InboundChannel := ie_Channel ev;
     st_InbandNotes := notes; st_AegisAnnotation := Some (ac_Annotation annotated) |}.

(** What ends [Run], if anything: a return, a panic, or nothing so far. *)
Inductive Outcome := Returned (r : result unit) | Panicked | Waiting.

(** [None]: the nil gateway is called. *)
Definition handleEvent (d : Daemon) (ev : InboundEvent) (inbandNotes : list string) (w : W) : option W :=
  match dm_gateway d with
  | None => None
  | Some gw =>
      Some (match gw_ProcessInbound gw (ie_Content ev) (ie_Channel ev)
                    (contentSourceForChannel (ie_Channel ev)) w with
            | (w1, Err _) => w1
            | (w1, Ok annotated) =>
                match dm_waker d with
                | None => w1
                | Some waker =>
                    if ShouldWake waker ev (Some (ac_Annotation annotated))
                    then (dm_RunSession d (event_trigger ev annotated inbandNotes) w1).1
                    else w1
                end
            end)
  end.

(** What the [select] of the loop finds ready. *)
Inductive Choice := CtxDone (e : error) | Event (ev : InboundEvent) | StreamClosed.

(** [notes]: the startup notes until the first event has taken them. *)
Fixpoint event_loop (d : Daemon) (notes : list string) (choices : list Choice) (w : W) : W * Outcome :=
  match choices with
  | [] => (w, Waiting)
  | CtxDone e :: _ => (drainSupervisor d w, Returned (Err e))
  | StreamClosed :: _ => (drainSupervisor d w, Returned (Ok tt))
  | Event ev :: rest =>
      match handleEvent d ev notes w with
      | None => (w, Panicked)
      | Some w' => event_loop d [] rest w'
      end
  end.

Definition one_shot (d : Daemon) (notes : list string) (w : W) : W * Outcome :=
  let '(w1, r) := dm_RunSession d (startup_trigger notes) w in
  (drainSupervisor d w1, Returned r).

Definition Run (d : Daemon) (choices : list Choice) (w : W) : W * Outcome :=
  let '(w2, startupNotes) := scanInterruptedSessions d (recoverMetabolismJobs d w) in
  match dm_StartAll d with
  | None => one_shot d startupNotes w2
  | Some start =>
      match start w2 with
      | (w3, Err _) => one_shot d startupNotes w3
      | (w3, Ok _) => event_loop d startupNotes choices w3
      end
  end.
End Daemon.
Arguments Daemon W : clear implicits.

(** ** Properties *)

(** What reaches the daemon is what the channels sent: an interleaving keeps every
    event, once, and the order of each stream. *)
Lemma merged_complete streams out :
  merged streams out -> out ≡ₚ concat streams /\ Forall (fun s => s `sublist_of` out) streams.
Proof.
  induction 1 as [streams Hnil|before ev stream after out H [IHp IHs]].
  - assert (Hc : concat streams = []) by (induction Hnil as [|s l -> _ IH]; done).
    rewrite Hc. split; [done|]. induction Hnil as [|s l -> Hnil IH]; constructor; [done|].
    apply IH. by cbn in Hc.
  - rewrite concat_app in *. cbn [concat] in *. split.
    + rewrite IHp. apply Permutation_middle.
    + apply Forall_app in IHs as [Hb Ha]. apply Forall_cons in Ha as [Hs Ha].
      apply Forall_app. split; [|constructor; [by apply sublist_skip|]];
        (eapply Forall_impl; [eassumption|intros s Hsub; by apply sublist_cons]).
Qed.

(** [NextWake] is the earliest scheduled time after now. *)
Definition earliest_of (now : Z) (l : list Z) (o : option Z) : Prop :=
  match o with
  | None => forall t, t ∈ l -> t <= now
  | Some e => e ∈ l /\ now < e /\ forall t, t ∈ l -> now < t -> e <= t
  end.

Lemma sooner_step now l acc t : earliest_of now l acc -> earliest_of now (l ++ [t]) (sooner now acc t).
Proof.
  unfold earliest_of, sooner. intros H.
  assert (Hs : forall u, u ∈ l ++ [t] <-> u ∈ l \/ u = t) by (intros u; rewrite elem_of_app, list_elem_of_singleton; done).
  destruct (Z.ltb_spec now t), acc as [e|]; try setoid_rewrite Hs.
  - destruct H as (He & Hn & Hl). destruct (Z.ltb_spec t e); setoid_rewrite Hs.
    + split; [by right|]. split; [done|]. intros u [Hu| ->] Hnu; [specialize (Hl u Hu Hnu)|]; lia.
    + split; [by left|]. split; [done|]. intros u [Hu| ->] Hnu; [by apply Hl|lia].
  - split; [by right|]. split; [done|]. intros u [Hu| ->] Hnu; [specialize (H u Hu)|]; lia.
  - destruct H as (He & Hn & Hl). split; [by left|]. split; [done|]. intros u [Hu| ->] Hnu; [by apply Hl|lia].
  - intros u [Hu| ->]; [by apply H|lia].
Qed.

Lemma NextWake_earliest now ws : earliest_of now (ws_scheduled ws) (NextWake now ws).
Proof.
  unfold NextWake. change (ws_scheduled ws) with ([] ++ ws_scheduled ws) at 1.
  assert (H : earliest_of now [] None) by (intros t Ht; by apply not_elem_of_nil in Ht).
  revert H. generalize (@nil Z) (@None Z). induction (ws_scheduled ws) as [|t l IH]; intros seen acc H.
  - by rewrite app_nil_r.
  - cbn [fold_left]. replace (seen ++ t :: l) with ((seen ++ [t]) ++ l) by (by rewrite <- app_assoc).
    apply IH. by apply sooner_step.
Qed.

(** ** Which sessions start *)

Section Sessions.
Context {W : Type}.

(** The daemon over a state that also records the triggers of the sessions it starts. *)
Definition logged (run : SessionTrigger -> M W unit) (t : SessionTrigger) : M (W * list SessionTrigger) unit :=
  fun '(w, ts) => let '(w', r) := run t w in ((w', ts ++ [t]), r).
Definition lift_gw (gw : @ContentGateway W) : @ContentGateway (W * list SessionTrigger) :=
  {| gw_ProcessInbound := fun a b c => lift (gw_ProcessInbound gw a b c);
     gw_ReviewOutbound := fun c => lift (gw_ReviewOutbound gw c) |}.
Definition recorded (d : Daemon W) : Daemon (W * list SessionTrigger) :=
  {| dm_RunSession := logged (dm_RunSession d);
     dm_StartAll := lift <$> dm_StartAll d; dm_gateway := lift_gw <$> dm_gateway d;
     dm_waker := dm_waker d;
     dm_InterruptStaleCheckpoints := (fun f cutoff => lift (f cutoff)) <$> dm_InterruptStaleCheckpoints d;
     dm_supervisor := (fun s => (fun n => lift (s.1 n), fun t => lift (s.2 t))) <$> dm_supervisor d;
     dm_Now := fun s => let '(w', now) := dm_Now d s.1 in ((w', s.2), now) |}.

(** The gateway annotated the event, its scan passed with enough trust, and the channel
    or a condition asked for a wake. *)
Definition screened (d : Daemon W) (ev : InboundEvent) (annotated : AnnotatedContent) : Prop :=
  exists gw waker w1 w2, dm_gateway d = Some gw /\ dm_waker d = Some waker /\
    gw_ProcessInbound gw (ie_Content ev) (ie_Channel ev) (contentSourceForChannel (ie_Channel ev)) w1
      = (w2, Ok annotated) /\
    aa_ScanPassed (ac_Annotation annotated) = true /\
    fltb (aa_TrustScore (ac_Annotation annotated)) (ws_minTrust waker) = false /\
    (ie_WakeWorthy ev = true \/
     exists c, c ∈ combine (ws_conditions waker) (ws_compiled waker) /\ condition_met ev c = true).

(** A session an event started: the event, what the gateway made of it, and the notes. *)
Notation woken := (InboundEvent * AnnotatedContent * list string)%type.
Definition woken_trigger (x : woken) : SessionTrigger := event_trigger x.1.1 x.1.2 x.2.

(** The events the loop handles: those before its end. *)
Fixpoint events_of (choices : list Choice) : list InboundEvent :=
  match choices with Event ev :: rest => ev :: events_of rest | _ => [] end.

Lemma ShouldWake_spec ws ev a : ShouldWake ws ev (Some a) = true ->
  aa_ScanPassed a = true /\ fltb (aa_TrustScore a) (ws_minTrust ws) = false /\
  (ie_WakeWorthy ev = true \/
   exists c, c ∈ combine (ws_conditions ws) (ws_compiled ws) /\ condition_met ev c = true).
Proof using Type.
  unfold ShouldWake. intros [[Hs Ht]%andb_true_iff Hc]%andb_true_iff. apply negb_true_iff in Ht.
  do 2 (split; [done|]). apply orb_true_iff in Hc as [Hc|Hc]; [by left|right].
  apply existsb_exists in Hc as (c & Hin & Hm). exists c. split; [by apply list_elem_of_In|done].
Qed.

(** Handling one event starts no session, or one whose trigger carries what the gateway
    made of the event. *)
Lemma handleEvent_recorded d ev notes w ts s :
  handleEvent (recorded d) ev notes (w, ts) = Some s ->
  s.2 = ts \/ exists annotated, screened d ev annotated /\ s.2 = ts ++ [woken_trigger (ev, annotated, notes)].
Proof using Type.
  unfold handleEvent. cbn [dm_gateway recorded]. destruct (dm_gateway d) as [gw|] eqn:Eg; [|done].
  cbn [fmap option_fmap option_map lift_gw gw_ProcessInbound]. unfold lift. cbn [fst snd].
  destruct (gw_ProcessInbound gw (ie_Content ev) (ie_Channel ev) _ w) as [w1 [ann|e]] eqn:E;
    [|intros [= <-]; by left].
  cbn [dm_waker recorded]. destruct (dm_waker d) as [waker|] eqn:Ew; [|intros [= <-]; by left].
  destruct (ShouldWake waker ev (Some (ac_Annotation ann))) eqn:Es; [|intros [= <-]; by left].
  intros [= <-]. right. exists ann. apply ShouldWake_spec in Es. split.
  - exists gw, waker, w, w1. by repeat (split; [done|]).
  - cbn [dm_RunSession recorded]. unfold logged. by destruct (dm_RunSession d _ w1).
Qed.

Lemma drain_recorded d w ts : (drainSupervisor (recorded d) (w, ts)).2 = ts.
Proof using Type.
  unfold drainSupervisor. cbn [dm_supervisor recorded]. destruct (dm_supervisor d) as [[r dr]|]; [|done].
  cbn. unfold lift. cbn. by destruct (dr (10 * second) w).
Qed.

Lemma event_loop_recorded d choices : forall notes w ts s o,
  event_loop (recorded d) notes choices (w, ts) = (s, o) ->
  exists l : list woken, s.2 = ts ++ map woken_trigger l /\
    map (fun x => x.1.1) l `sublist_of` events_of choices /\
    Forall (fun x => screened d x.1.1 x.1.2) l /\
    Forall (fun x => x.2 = []) (tail l) /\
    (forall x, head l = Some x -> x.2 = [] \/ (x.2 = notes /\ head (events_of choices) = Some x.1.1)).
Proof using Type.
  induction choices as [|[e|ev|] choices IH]; intros notes w ts s o E; cbn [event_loop events_of] in *.
  1,2,4: injection E as <- _; exists []; rewrite app_nil_r, ?drain_recorded; by repeat split; try constructor.
  destruct (handleEvent (recorded d) ev notes (w, ts)) as [[w1 ts1]|] eqn:Eh.
  2: { injection E as <- _. exists []. rewrite app_nil_r. repeat split; try constructor; try done.
       apply sublist_nil_l. }
  apply IH in E as (l & Hs & Hsub & Hscr & Htail & Hhead).
  assert (Hnil : Forall (fun x : woken => x.2 = []) l).
  { destruct l as [|x l]; [done|]. constructor; [|done]. by destruct (Hhead x eq_refl) as [|[? _]]. }
  apply handleEvent_recorded in Eh. cbn [snd] in Eh. destruct Eh as [->|(ann & Hann & ->)].
  - exists l. split; [done|]. split; [by apply sublist_cons|]. do 2 (split; [done|]).
    intros x Hx. left. destruct l; [done|]. injection Hx as ->. by apply Forall_inv in Hnil.
  - exists ((ev, ann, notes) :: l). split; [by rewrite Hs, <- app_assoc|].
    split; [by apply sublist_skip|]. split; [by constructor|]. split; [done|].
    intros x [= <-]. by right.
Qed.

(** C21: No session starts unasked. Either [Run] starts a single session at start-up,
    which happens only without channels; or every session it starts answers one event,
    in their order, that the gateway screened: the scan passed, the trust reached the
    minimum, the channel or a wake condition asked for it, and the session is given the
    normalized content with its annotation. The notes on interrupted sessions go to the
    first event's session alone. *)
Theorem Run_sessions_screened d choices w s o :
  Run (recorded d) choices (w, []) = (s, o) ->
  (exists notes, s.2 = [startup_trigger notes] /\
     forall start, dm_StartAll d = Some start -> exists w1, is_ok (start w1).2 = false) \/
  (exists l : list woken, s.2 = map woken_trigger l /\
     map (fun x => x.1.1) l `sublist_of` events_of choices /\
     Forall (fun x => screened d x.1.1 x.1.2) l /\
     Forall (fun x => x.2 = []) (tail l) /\
     (forall x, head l = Some x -> x.2 = [] \/ head (events_of choices) = Some x.1.1)).
Proof using Type.
  assert (Hshot : forall notes w s o, one_shot (recorded d) notes (w, []) = (s, o) -> s.2 = [startup_trigger notes]).
  { clear. intros notes w s o. unfold one_shot. cbn [dm_RunSession recorded]. unfold logged.
    destruct (dm_RunSession d _ w) as [w1 r]. intros [= <- _]. apply drain_recorded. }
  unfold Run.
  assert (Hrec : exists w1, recoverMetabolismJobs (recorded d) (w, []) = (w1, [])).
  { unfold recoverMetabolismJobs. cbn [dm_supervisor recorded]. destruct (dm_supervisor d) as [[r dr]|]; [|by eexists].
    cbn. unfold lift. cbn. destruct (r 3 w). by eexists. }
  destruct Hrec as [w1 ->].
  assert (Hscan : exists w2 notes, scanInterruptedSessions (recorded d) (w1, []) = ((w2, []), notes)).
  { unfold scanInterruptedSessions. cbn [dm_InterruptStaleCheckpoints recorded].
    destruct (dm_InterruptStaleCheckpoints d) as [f|]; [|by do 2 eexists].
    cbn [fmap option_fmap option_map dm_Now recorded fst snd]. destruct (dm_Now d w1) as [w2 now].
    unfold lift. cbn [fst snd]. destruct (f _ w2) as [w3 [n|e]]; by do 2 eexists. }
  destruct Hscan as (w2 & notes & ->). cbn [dm_StartAll recorded].
  destruct (dm_StartAll d) as [start|]; cbn [fmap option_fmap option_map].
  - unfold lift. cbn [fst snd]. destruct (start w2) as [w3 [u|e]] eqn:Es.
    + intros E. right. apply event_loop_recorded in E as (l & Hs & Hsub & Hscr & Htail & Hhead).
      exists l. do 4 (split; [done|]). intros x Hx. destruct (Hhead x Hx) as [|[_ ?]]; [by left|by right].
    + intros E. left. exists notes. split; [by eapply Hshot|]. intros st [= <-]. exists w2. by rewrite Es.
  - intros E. left. exists notes. split; [by eapply Hshot|done].
Qed.

(** The notes are lost when the first event starts no session. *)
Lemma startup_notes_lost (d : Daemon W) ev notes choices w :
  (forall w1 ann gw, dm_gateway d = Some gw ->
     gw_ProcessInbound gw (ie_Content ev) (ie_Channel ev) (contentSourceForChannel (ie_Channel ev)) w = (w1, Ok ann) ->
     forall ws, dm_waker d = Some ws -> ShouldWake ws ev (Some (ac_Annotation ann)) = false) ->
  event_loop d notes (Event ev :: choices) w = event_loop d [] (Event ev :: choices) w.
Proof using Type.
  intros H. cbn [event_loop]. unfold handleEvent. destruct (dm_gateway d) as [gw|]; [|done].
  destruct (gw_ProcessInbound gw _ _ _ w) as [w1 [ann|e]] eqn:E; [|done].
  destruct (dm_waker d) as [ws|]; [|done]. by rewrite (H w1 ann gw eq_refl E ws eq_refl).
Qed.

(** Without a gateway the first event brings the process down. *)
Lemma no_gateway_panics (d : Daemon W) notes ev choices w :
  dm_gateway d = None -> event_loop d notes (Event ev :: choices) w = (w, Panicked).
Proof using Type. intros H. cbn [event_loop]. unfold handleEvent. by rewrite H. Qed.
End Sessions.

Section Witnesses.
Definition demo_annotation (ok : bool) : AegisAnnotation :=
  {| aa_TrustScore := f_lit 1 2; aa_Source := ""; aa_ContentSource := ""; aa_Flags := [];
     aa_Sanitized := false; aa_ScanPassed := ok; aa_AnnotatedAt := 0 |}.
Definition demo_gateway : @ContentGateway nat :=
  {| gw_ProcessInbound := fun content _ _ => ret
       {| ac_Original := content; ac_Normalized := content;
          ac_Annotation := demo_annotation (negb (String.eqb content "evil")) |};
     gw_ReviewOutbound := fun _ => ret {| or_Clean := true; or_Findings := []; or_Severity := "" |} |}.
Definition demo_event (content : string) : InboundEvent :=
  {| ie_Channel := "cli"; ie_SenderID := ""; ie_SenderName := "op"; ie_Content := content;
     ie_ContentType := "text"; ie_ThreadID := ""; ie_ReceivedAt := 0; ie_WakeWorthy := true |}.
Definition demo_daemon : Daemon nat :=
  {| dm_RunSession := fun _ n => (S n, Ok tt); dm_StartAll := Some (ret tt); dm_gateway := Some demo_gateway;
     dm_waker := Some (NewWakeScheduler (fun _ => None) []);
     dm_InterruptStaleCheckpoints := Some (fun _ => ret 2); dm_supervisor := None; dm_Now := fun n => (n, 0) |}.
Definition demo_choices : list Choice := [Event (demo_event "evil"); Event (demo_event "hello"); StreamClosed].

Lemma Run_sessions_screened_witness :
  let '(s, o) := Run (recorded demo_daemon) demo_choices (0%nat, []) in
  o = Returned (Ok tt) /\ map st_InboundContent s.2 = ["hello"] /\ map st_InbandNotes s.2 = [[]] /\
  exists l : list (InboundEvent * AnnotatedContent * list string),
    s.2 = map woken_trigger l /\ Forall (fun x => screened demo_daemon x.1.1 x.1.2) l.
Proof.
  destruct (Run (recorded demo_daemon) demo_choices (0%nat, [])) as [s o] eqn:E.
  assert (Hv : o = Returned (Ok tt) /\ map st_InboundContent s.2 = ["hello"] /\ map st_InbandNotes s.2 = [[]])
    by (vm_compute in E; injection E as <- <-; done).
  destruct Hv as (Ho & Hc & Hn). do 3 (split; [done|]).
  destruct (Run_sessions_screened _ _ _ _ _ E) as [(notes & Hs & _)|(l & Hs & _ & Hscr & _)].
  - rewrite Hs in Hc. done.
  - by exists l.
Defined.
End Witnesses.
