(* ===== verification/Peripheral.v ===== *)
(** * Peripheral awareness: [internal/awareness/peripheral.go] and the hooks of
    [internal/engine/hooks_phase3.go] that observe a session

    A float32 is kept as the binary64 number of the same value; [to_float32] is the
    conversion to it. Products and sums are rounded one by one, as on amd64. *)

From S2P Require Import Prelude Frames Types Engine Awareness Retrieval Sandbox Assembly.

(** ** Vectors *)

Definition fsqrt : float64 -> float64 := SFsqrt f_prec f_emax.
Definition f_one : float64 := f_of_Z 1.
(** [float32(x)], as a binary64 number. *)
Definition round_to (prec emax : Z) (x : float64) : float64 :=
  match x with S754_finite s m e => binary_round prec emax s m e | _ => x end.
Definition to_float32 (x : float64) : float64 := round_to f_prec f_emax (round_to 24 128 x).

Fixpoint cosine_sums (a b : list float64) (dot normA normB : float64) : float64 * float64 * float64 :=
  match a, b with
  | x :: a, y :: b =>
      cosine_sums a b (fadd dot (fmul x y)) (fadd normA (fmul x x)) (fadd normB (fmul y y))
  | _, _ => (dot, normA, normB)
  end.
Definition f_is_zero (x : float64) : bool := match x with S754_zero _ => true | _ => false end.
Definition cosineDistance (a b : list float64) : float64 :=
  if negb (length a =? length b)%nat || (length a =? 0)%nat then f_zero
  else
    let '(dot, normA, normB) := cosine_sums a b f_zero f_zero f_zero in
    if f_is_zero normA || f_is_zero normB then f_zero
    else fsub f_one (fdiv dot (fmul (fsqrt normA) (fsqrt normB))).

(** ** Topics *)

(** [strings.Trim] with an ASCII cutset. *)
Fixpoint TrimLeft (cutset s : string) : string :=
  match s with
  | "" => ""
  | String c s' =>
      if existsb (Ascii.eqb c) (String.list_ascii_of_string cutset) then TrimLeft cutset s' else s
  end.
Definition Trim (cutset s : string) : string := TrimRight cutset (TrimLeft cutset s).
Definition punctuation : string := ".,!?;:" +:+ dquote +:+ "'()[]{}".

Definition stopwords : list string :=
  ["a"; "an"; "the"; "and"; "or"; "but"; "in"; "on"; "at"; "to"; "for"; "of"; "with"; "by"; "from"; "as";
   "is"; "was"; "are"; "were"; "be"; "been"; "being"; "have"; "has"; "had"; "do"; "does"; "did"; "will";
   "would"; "could"; "should"; "may"; "might"; "must"; "can"; "it"; "its"; "this"; "that"; "i"; "you";
   "he"; "she"; "we"; "they"; "my"; "your"; "his"; "her"; "our"; "their"; "not"; "no"; "so"; "if"; "then";
   "than"; "what"; "which"; "who"; "when"; "where"; "how"].

Section Topics.
Variable unicode_lower : string -> string.

Definition topic_word (word : string) : string := to_lower unicode_lower (Trim punctuation word).
Definition is_topic (w : string) : bool := negb ((str_len w <? 3) || one_of w stopwords).
Definition count_word (freq : gmap string Z) (word : string) : gmap string Z :=
  let w := topic_word word in
  if is_topic w then <[w := default 0 (freq !! w) + 1]> freq else freq.
Definition frequencies (content : string) : gmap string Z := fold_left count_word (Fields content) ∅.

(** More frequent first, then alphabetically: a total order, so that [sort.Slice] gives
    one result whatever the map's order. *)
Definition entry_le : relation (string * Z) := fun a b => b.2 < a.2 \/ (a.2 = b.2 /\ String.le a.1 b.1).
#[local] Instance entry_le_dec : RelDecision entry_le.
Proof. intros a b. unfold entry_le. apply _. Defined.
Definition extractTopics (content : string) (maxTopics : Z) : list string :=
  map fst (take (Z.to_nat maxTopics) (merge_sort entry_le (map_to_list (frequencies content)))).

Definition chooseTopic (topics : list string) : string :=
  default "current focus" (List.find (fun t => negb (str_empty t)) topics).
Definition nudge_topic (topics : list string) : string :=
  let topic := chooseTopic topics in
  match topics with
  | [] => topic
  | _ => if String.eqb topic "current focus"
         then default topic (head (extractTopics (str_join topics " ") 1)) else topic
  end.
End Topics.

(** ** Peripheral awareness *)

Record PeripheralAwareness := {
  pa_centroid : option (list float64); pa_centroidN : Z; pa_lambda : float64; pa_nudgeCount : Z;
  pa_lastNudgeTurn : Z; pa_velocityThreshold : float64; pa_jitter : float64;
  pa_convergenceWindow : ConvergenceWindow; pa_lastNudgeSession : Z }.

Record NudgeInjection := {
  nu_Turn : Z; nu_Velocity : float64; nu_Verb : string; nu_Args : list string; nu_Topic : string }.

Definition Command (n : NudgeInjection) : string :=
  match nu_Args n with [] => nu_Verb n | args => nu_Verb n +:+ " " +:+ str_join args " " end.

Definition NewPeripheralAwareness (threshold : float64) : PeripheralAwareness :=
  {| pa_centroid := None; pa_centroidN := 0; pa_lambda := f_lit 85 100; pa_nudgeCount := 0;
     pa_lastNudgeTurn := -8; pa_velocityThreshold := threshold; pa_jitter := f_lit 3 100;
     pa_convergenceWindow := NewConvergenceWindow 10; pa_lastNudgeSession := -100 |}.

Definition set_centroid (c : list float64) (n : Z) (pa : PeripheralAwareness) : PeripheralAwareness :=
  {| pa_centroid := Some c; pa_centroidN := n; pa_lambda := pa_lambda pa; pa_nudgeCount := pa_nudgeCount pa;
     pa_lastNudgeTurn := pa_lastNudgeTurn pa; pa_velocityThreshold := pa_velocityThreshold pa;
     pa_jitter := pa_jitter pa; pa_convergenceWindow := pa_convergenceWindow pa;
     pa_lastNudgeSession := pa_lastNudgeSession pa |}.

Definition ewma (lambda c t : float64) : float64 :=
  to_float32 (fadd (fmul lambda c) (fmul (fsub f_one lambda) t)).
Definition UpdateCentroid (turnEmbedding : list float64) (pa : PeripheralAwareness) : PeripheralAwareness :=
  match turnEmbedding, pa_centroid pa with
  | [], _ => pa
  | _, None => set_centroid turnEmbedding 1 pa
  | _, Some c =>
      if (length c =? length turnEmbedding)%nat
      then set_centroid (zip_with (ewma (pa_lambda pa)) c turnEmbedding) (pa_centroidN pa + 1) pa
      else pa
  end.

Definition SemanticVelocity (pa : PeripheralAwareness) (turnEmbedding : list float64) : float64 :=
  match pa_centroid pa with
  | None => f_zero
  | Some c => if (length c =? length turnEmbedding)%nat then cosineDistance c turnEmbedding else f_zero
  end.

Definition nudged (turn : Z) (pa : PeripheralAwareness) : PeripheralAwareness :=
  {| pa_centroid := pa_centroid pa; pa_centroidN := pa_centroidN pa; pa_lambda := pa_lambda pa;
     pa_nudgeCount := pa_nudgeCount pa + 1; pa_lastNudgeTurn := turn;
     pa_velocityThreshold := pa_velocityThreshold pa; pa_jitter := pa_jitter pa;
     pa_convergenceWindow := pa_convergenceWindow pa; pa_lastNudgeSession := pa_lastNudgeSession pa |}.

Section Check.
Context {W : Type} `{!Process W}.
Variable unicode_lower : string -> string.

(** The threshold of one check, with its random jitter. *)
Definition effective_threshold (pa : PeripheralAwareness) (r : float64) : float64 :=
  fadd (pa_velocityThreshold pa) (fmul (fsub (fmul r (f_of_Z 2)) f_one) (pa_jitter pa)).

(** The generator is drawn from only past the cap and the cooldown. *)
Definition CheckNudge (turn : Z) (turnEmbedding : list float64) (topics : list string)
    (pa : PeripheralAwareness) (w : W) : W * (PeripheralAwareness * option NudgeInjection) :=
  if 4 <=? pa_nudgeCount pa then (w, (pa, None))
  else if wrap64 (turn - pa_lastNudgeTurn pa) <? 8 then (w, (pa, None))
  else
    let velocity := SemanticVelocity pa turnEmbedding in
    let '(w', r) := rand_Float64 w in
    if fleb velocity (effective_threshold pa r) then (w', (pa, None))
    else
      let topic := nudge_topic unicode_lower topics in
      (w', (nudged turn pa,
            Some {| nu_Turn := turn; nu_Velocity := velocity; nu_Verb := "memory";
                    nu_Args := ["search"; topic]; nu_Topic := topic |})).

Definition set_convergence (window : ConvergenceWindow) (session : Z) (pa : PeripheralAwareness) : PeripheralAwareness :=
  {| pa_centroid := pa_centroid pa; pa_centroidN := pa_centroidN pa; pa_lambda := pa_lambda pa;
     pa_nudgeCount := pa_nudgeCount pa; pa_lastNudgeTurn := pa_lastNudgeTurn pa;
     pa_velocityThreshold := pa_velocityThreshold pa; pa_jitter := pa_jitter pa;
     pa_convergenceWindow := window; pa_lastNudgeSession := session |}.
Definition CheckConvergenceNudge (session : Z) (metrics : ConvergenceMetrics) (ratioThreshold : float64)
    (cooldown : Z) (pa : PeripheralAwareness) : PeripheralAwareness * option NudgeInjection :=
  let window := Retrieval.Add (pa_convergenceWindow pa) metrics in
  if ShouldNudge window ratioThreshold cooldown (pa_lastNudgeSession pa) session
  then (set_convergence window session pa,
        Some {| nu_Turn := -1; nu_Velocity := RollingRatio window; nu_Verb := "memory";
                nu_Args := ["search"; "direct experience session log"]; nu_Topic := "grounded experience" |})
  else (set_convergence window (pa_lastNudgeSession pa) pa, None).

(** *** The hook: the nudge is logged, never injected; an embedding error is swallowed. *)
Definition PeripheralAwarenessHook_Run (provider : option (EmbeddingProvider W)) (turn : TurnResult)
    (pa : PeripheralAwareness) (w : W) : W * (PeripheralAwareness * option NudgeInjection) :=
  match provider with
  | None => (w, (pa, None))
  | Some p =>
      match @Embed W p (tn_Content turn) w with
      | (w1, Err _) => (w1, (pa, None))
      | (w1, Ok vec) =>
          let '(w2, (pa', nudge)) := CheckNudge (tn_TurnNumber turn) vec (tn_ToolCalls turn) pa w1 in
          (w2, (UpdateCentroid vec pa', nudge))
      end
  end.

(** A session: the hook after every turn, and the nudges it logged. *)
Fixpoint hook_session (provider : option (EmbeddingProvider W)) (turns : list TurnResult)
    (pa : PeripheralAwareness) (w : W) : W * PeripheralAwareness * list NudgeInjection :=
  match turns with
  | [] => (w, pa, [])
  | t :: rest =>
      let '(w1, (pa1, nudge)) := PeripheralAwarenessHook_Run provider t pa w in
      let '(w2, pa2, nudges) := hook_session provider rest pa1 w1 in
      (w2, pa2, match nudge with Some n => n :: nudges | None => nudges end)
  end.
End Check.

(** ** Retrieval usage *)

Record RetrievalUsage := { ru_retrievedIDs : gset string; ru_referencedIDs : gset string }.
Definition NewRetrievalUsageHook (retrievedIDs : list string) : RetrievalUsage :=
  {| ru_retrievedIDs := list_to_set retrievedIDs; ru_referencedIDs := ∅ |}.

(** The loop slices [s] at every offset. *)
Definition findInString (s sub : string) : bool :=
  existsb (fun i => String.eqb (str_take (String.length sub) (str_drop i s)) sub)
    (seq 0 (S (String.length s) - String.length sub)).
Definition contains (s substr : string) : bool :=
  (str_len substr <=? str_len s) &&
  (String.eqb s substr || (str_len substr =? 0) || findInString s substr).

Definition RetrievalUsageHook_Run (turn : TurnResult) (h : RetrievalUsage) : RetrievalUsage :=
  {| ru_retrievedIDs := ru_retrievedIDs h;
     ru_referencedIDs := set_fold (fun id acc => if contains (tn_Content turn) id then {[id]} ∪ acc else acc)
                           (ru_referencedIDs h) (ru_retrievedIDs h) |}.
(** [LogUsageReport]: how many were retrieved, referenced and left unused. *)
Definition usage_report (h : RetrievalUsage) : Z * Z * Z :=
  let total := Z.of_nat (size (ru_retrievedIDs h)) in
  let used := Z.of_nat (size (ru_referencedIDs h)) in
  (total, used, total - used).

(** ** Properties *)

Lemma findInString_spec s sub : findInString s sub = true <-> exists a b, s = a +:+ sub +:+ b.
Proof.
  unfold findInString. rewrite existsb_exists. split.
  - intros (i & Hi & He%String.eqb_eq). exists (str_take i s), (str_drop (String.length sub) (str_drop i s)).
    rewrite <- He at 1. by rewrite str_take_drop, str_take_drop.
  - intros (a & b & ->). exists (String.length a). split.
    + apply in_seq. rewrite !length_str_app. lia.
    + apply String.eqb_eq. by rewrite str_drop_app, str_take_app.
Qed.

(** The hand-written search is [strings.Contains]. *)
Lemma contains_spec s sub : contains s sub = str_contains s sub.
Proof.
  apply eq_true_iff_eq. rewrite str_contains_iff. unfold contains.
  rewrite andb_true_iff, !orb_true_iff, Z.leb_le, Z.eqb_eq, String.eqb_eq, findInString_spec. split.
  - intros [_ [[->|H0]|H]]; [exists "", ""; by rewrite str_app_nil_l, str_app_nil_r| |done].
    destruct sub; [by exists "", s|]. unfold str_len in H0. cbn in H0. lia.
  - intros H. split; [|by right]. destruct H as (a & b & ->). rewrite !str_len_app. unfold str_len. lia.
Qed.

Lemma referenced_fold content (X acc : gset string) :
  set_fold (fun id acc => if contains content id then {[id]} ∪ acc else acc) acc X =
  acc ∪ filter (fun id => contains content id = true) X.
Proof.
  apply (set_fold_ind_L (fun r X => r = acc ∪ filter (fun id => contains content id = true) X)).
  - set_solver.
  - intros x Y r Hx ->. apply set_eq. intros y. rewrite elem_of_union, elem_of_filter, elem_of_union, elem_of_singleton.
    destruct (contains content x) eqn:E; rewrite ?elem_of_union, ?elem_of_singleton, elem_of_filter.
    + split; [intros [->|[?|[??]]]|intros [?|[? [->|?]]]]; tauto.
    + split; [intros [?|[??]]; tauto|]. intros [?|[Hy [->|?]]]; [tauto| |tauto]. by rewrite E in Hy.
Qed.

(** After any turns the hook has marked exactly the retrieved records whose ID occurs
    in the text of some turn; the report's three numbers are those of the retrieved,
    the referenced and the remaining records. *)
Theorem usage_exact ids turns :
  let h := fold_left (fun h t => RetrievalUsageHook_Run t h) turns (NewRetrievalUsageHook ids) in
  (forall id, id ∈ ru_referencedIDs h <->
     id ∈ ids /\ exists t, t ∈ turns /\ str_contains (tn_Content t) id = true) /\
  usage_report h = (Z.of_nat (size (list_to_set ids : gset string)), Z.of_nat (size (ru_referencedIDs h)),
                    Z.of_nat (size ((list_to_set ids : gset string) ∖ ru_referencedIDs h))).
Proof.
  cbv zeta. set (h := fold_left _ _ _).
  assert (H : ru_retrievedIDs h = list_to_set ids /\
    forall id, id ∈ ru_referencedIDs h <->
      id ∈ ids /\ exists t, t ∈ turns /\ str_contains (tn_Content t) id = true).
  { subst h. induction turns as [|t turns [IHr IHs]] using rev_ind.
    { split; [done|]. intros id. split; [set_solver|]. intros [_ (t & Ht & _)]. by apply not_elem_of_nil in Ht. }
    rewrite fold_left_app. cbn [fold_left]. set (h := fold_left _ turns _) in *. split; [done|].
    intros id. cbn [ru_referencedIDs RetrievalUsageHook_Run]. rewrite referenced_fold, IHr, elem_of_union, IHs.
    rewrite elem_of_filter, contains_spec, elem_of_list_to_set.
    assert (Ht : (exists u, u ∈ turns ++ [t] /\ str_contains (tn_Content u) id = true) <->
                 (exists u, u ∈ turns /\ str_contains (tn_Content u) id = true) \/
                 str_contains (tn_Content t) id = true).
    { split.
      - intros (u & [Hu| ->%list_elem_of_singleton]%elem_of_app & Hc); [left; by exists u|by right].
      - intros [(u & Hu & Hc)|Hc]; [exists u|exists t]; rewrite elem_of_app, list_elem_of_singleton; tauto. }
    rewrite Ht. tauto. }
  destruct H as [Hr Hs]. split; [exact Hs|]. unfold usage_report. rewrite Hr. f_equal.
  rewrite size_difference; [|intros id [Hid _]%Hs; by apply elem_of_list_to_set].
  assert (Hle : (size (ru_referencedIDs h) <= size (list_to_set ids : gset string))%nat)
    by (apply subseteq_size; intros id [Hid _]%Hs; by apply elem_of_list_to_set).
  lia.
Qed.

(** ** Nudges are few and far between *)

(** Consecutive members are at least [gap] apart. *)
Fixpoint spaced (gap : Z) (from : Z) (l : list Z) : Prop :=
  match l with [] => True | x :: rest => from + gap <= x /\ spaced gap x rest end.

Section Nudges.
Context {W : Type} `{!Process W} (unicode_lower : string -> string).

(** Turn numbers that do not overflow when subtracted. *)
Definition turn_ok (t : Z) : Prop := 0 <= t < 2 ^ 62.

Lemma CheckNudge_cases turn vec topics pa w w' pa' o :
  CheckNudge unicode_lower turn vec topics pa w = (w', (pa', o)) ->
  (o = None /\ pa' = pa) \/
  (exists n r, o = Some n /\ pa' = nudged turn pa /\ nu_Turn n = turn /\
     pa_nudgeCount pa < 4 /\ 8 <= wrap64 (turn - pa_lastNudgeTurn pa) /\
     nu_Velocity n = SemanticVelocity pa vec /\ fleb (nu_Velocity n) (effective_threshold pa r) = false).
Proof using Type.
  unfold CheckNudge. destruct (Z.leb_spec 4 (pa_nudgeCount pa)); [intros [= <- <- <-]; by left|].
  destruct (Z.ltb_spec (wrap64 (turn - pa_lastNudgeTurn pa)) 8); [intros [= <- <- <-]; by left|].
  destruct (rand_Float64 w) as [w1 r]. destruct (fleb _ _) eqn:Ef; [intros [= <- <- <-]; by left|].
  intros [= <- <- <-]. right. do 2 eexists. do 3 (split; [reflexivity|]). do 3 (split; [lia || done|]). exact Ef.
Qed.

(** Updating the centroid leaves the counters alone. *)
Lemma UpdateCentroid_counters vec pa :
  pa_nudgeCount (UpdateCentroid vec pa) = pa_nudgeCount pa /\
  pa_lastNudgeTurn (UpdateCentroid vec pa) = pa_lastNudgeTurn pa /\
  pa_velocityThreshold (UpdateCentroid vec pa) = pa_velocityThreshold pa /\
  pa_jitter (UpdateCentroid vec pa) = pa_jitter pa.
Proof using Type.
  unfold UpdateCentroid. destruct vec; [done|]. destruct (pa_centroid pa); [|done]. by destruct (_ =? _)%nat.
Qed.

(** What the nudges of a session owe to the state it starts from. *)
Definition session_ok (pa : PeripheralAwareness) (turns : list TurnResult) (nudges : list NudgeInjection) : Prop :=
  pa_nudgeCount pa + Z.of_nat (length nudges) <= Z.max 4 (pa_nudgeCount pa) /\
  spaced 8 (pa_lastNudgeTurn pa) (map nu_Turn nudges) /\
  map nu_Turn nudges `sublist_of` map tn_TurnNumber turns /\
  Forall (fun n => exists r, fleb (nu_Velocity n)
            (fadd (pa_velocityThreshold pa) (fmul (fsub (fmul r (f_of_Z 2)) f_one) (pa_jitter pa))) = false) nudges.

Lemma hook_session_ok provider turns : forall pa w w' pa' nudges,
  Forall (fun t => turn_ok (tn_TurnNumber t)) turns -> -8 <= pa_lastNudgeTurn pa < 2 ^ 62 ->
  hook_session unicode_lower provider turns pa w = (w', pa', nudges) -> session_ok pa turns nudges.
Proof using Type.
  induction turns as [|t turns IH]; intros pa w w' pa' nudges Ht Hl E.
  { injection E as _ _ <-. unfold session_ok. cbn. split; [lia|]. by repeat split; constructor. }
  inversion Ht as [|? ? Ht0 Hts]; subst. cbn [hook_session] in E.
  destruct (PeripheralAwarenessHook_Run unicode_lower provider t pa w) as [w1 [pa1 o]] eqn:E1.
  destruct (hook_session unicode_lower provider turns pa1 w1) as [[w2 pa2] ns] eqn:E2. injection E as _ _ <-.
  assert (Hstep : (o = None /\ pa_nudgeCount pa1 = pa_nudgeCount pa /\ pa_lastNudgeTurn pa1 = pa_lastNudgeTurn pa) \/
    (exists n r, o = Some n /\ nu_Turn n = tn_TurnNumber t /\ pa_nudgeCount pa < 4 /\
       pa_nudgeCount pa1 = pa_nudgeCount pa + 1 /\ pa_lastNudgeTurn pa1 = tn_TurnNumber t /\
       pa_lastNudgeTurn pa + 8 <= tn_TurnNumber t /\ fleb (nu_Velocity n) (effective_threshold pa r) = false)).
  { unfold PeripheralAwarenessHook_Run in E1. destruct provider as [p|]; [|injection E1 as _ <- <-; by left].
    destruct (Embed (tn_Content t) w) as [w3 [vec|e]]; [|injection E1 as _ <- <-; by left].
    destruct (CheckNudge unicode_lower _ vec _ pa w3) as [w4 [pa4 o4]] eqn:Ec. injection E1 as _ <- <-.
    destruct (UpdateCentroid_counters vec pa4) as (Hc & Hlast & _). rewrite Hc, Hlast.
    apply CheckNudge_cases in Ec as [[-> ->]|(n & r & -> & -> & Hn & Hcap & Hgap & _ & Hf)]; [by left|].
    right. exists n, r. rewrite wrap64_id in Hgap by (unfold in_int64, int64_min, int64_max, turn_ok in *; lia).
    cbn [nudged pa_nudgeCount pa_lastNudgeTurn]. do 5 (split; [done|]). split; [lia|done]. }
  assert (Hth : pa_velocityThreshold pa1 = pa_velocityThreshold pa /\ pa_jitter pa1 = pa_jitter pa).
  { unfold PeripheralAwarenessHook_Run in E1. destruct provider as [p|]; [|by injection E1 as _ <- _].
    destruct (Embed (tn_Content t) w) as [w3 [vec|e]]; [|by injection E1 as _ <- _].
    destruct (CheckNudge unicode_lower _ vec _ pa w3) as [w4 [pa4 o4]] eqn:Ec. injection E1 as _ <- _.
    destruct (UpdateCentroid_counters vec pa4) as (_ & _ & -> & ->).
    by apply CheckNudge_cases in Ec as [[_ ->]|(n & r & _ & -> & _)]. }
  destruct Hth as [Hth Hj].
  assert (IH' := IH pa1 w1 w2 pa2 ns Hts). unfold session_ok in IH' |- *. rewrite Hth, Hj in IH'.
  destruct Hstep as [(-> & Hc & Hlast)|(n & r & -> & Hn & Hcap & Hc & Hlast & Hgap & Hf)]; rewrite Hc, Hlast in IH'.
  - destruct (IH' Hl E2) as (H1 & H2 & H3 & H4). cbn [map]. do 2 (split; [done|]). split; [by apply sublist_cons|done].
  - unfold turn_ok in Ht0. destruct (IH' ltac:(lia) E2) as (H1 & H2 & H3 & H4). cbn [map length]. rewrite Hn.
    split; [lia|]. split; [by split|]. split; [by apply sublist_skip|]. constructor; [by exists r|done].
Qed.

(** Over a whole session, whatever is said and embedded, at most four nudges are
    given, each on a turn of the session, in order and at least eight turns after the one
    before; and each only for a velocity that is not at or below the jittered threshold. *)
Theorem nudges_rationed threshold provider turns w w' pa nudges :
  Forall (fun t => turn_ok (tn_TurnNumber t)) turns ->
  hook_session unicode_lower provider turns (NewPeripheralAwareness threshold) w = (w', pa, nudges) ->
  (length nudges <= 4)%nat /\ spaced 8 (-8) (map nu_Turn nudges) /\
  map nu_Turn nudges `sublist_of` map tn_TurnNumber turns /\
  Forall (fun n => exists r, fleb (nu_Velocity n)
            (fadd threshold (fmul (fsub (fmul r (f_of_Z 2)) f_one) (f_lit 3 100))) = false) nudges.
Proof using Type.
  intros Ht E. apply hook_session_ok in E as (H1 & H2 & H3 & H4); [|done|cbn; lia].
  cbn [NewPeripheralAwareness pa_nudgeCount] in H1. split; [lia|]. by do 2 (split; [done|]).
Qed.

(** A convergence nudge respects its own cooldown and records its session. *)
Lemma convergence_nudge_cooldown session metrics ratio cooldown pa pa' n :
  CheckConvergenceNudge session metrics ratio cooldown pa = (pa', Some n) ->
  cooldown <= wrap64 (session - pa_lastNudgeSession pa) /\ pa_lastNudgeSession pa' = session /\
  fltb (nu_Velocity n) ratio = false.
Proof using Type.
  unfold CheckConvergenceNudge, ShouldNudge.
  destruct (Z.ltb_spec (wrap64 (session - pa_lastNudgeSession pa)) cooldown); [done|].
  destruct (fltb _ ratio) eqn:Ef; [done|]. destruct (IsUpward _); [|done]. by intros [= <- <-].
Qed.
End Nudges.

(** ** Topics *)

Section TopicProps.
Variable unicode_lower : string -> string.
#[local] Notation topic_of := (topic_word unicode_lower).

Definition occurrences (w : string) (words : list string) : nat := countb (fun f => String.eqb (topic_of f) w) words.

Lemma frequencies_fold words w :
  fold_left (count_word unicode_lower) words ∅ !! w =
  if is_topic w && (0 <? Z.of_nat (occurrences w words)) then Some (Z.of_nat (occurrences w words)) else None.
Proof.
  induction words as [|f words IH] using rev_ind.
  { cbn. rewrite andb_false_r. apply lookup_empty. }
  rewrite fold_left_app. cbn [fold_left]. unfold count_word at 1.
  assert (Ho : occurrences w (words ++ [f]) = (occurrences w words + (if String.eqb (topic_of f) w then 1 else 0))%nat).
  { unfold occurrences, countb, whereb. rewrite List.filter_app, length_app. f_equal. cbn. by destruct (String.eqb _ _). }
  rewrite Ho. destruct (String.eqb_spec (topic_of f) w) as [->|Hne].
  - destruct (is_topic w) eqn:Et; cbn [andb]; [|by rewrite IH].
    rewrite lookup_insert_eq, IH. cbn [andb].
    destruct (Z.ltb_spec 0 (Z.of_nat (occurrences w words)));
      destruct (Z.ltb_spec 0 (Z.of_nat (occurrences w words + 1))); cbn [from_option id]; unfold id; try lia; f_equal; lia.
  - rewrite Nat.add_0_r. destruct (is_topic (topic_of f)); [rewrite lookup_insert_ne by done|]; done.
Qed.

#[local] Instance entry_le_dec' : RelDecision entry_le := entry_le_dec.
#[local] Instance entry_le_total : Total entry_le.
Proof.
  intros [a x] [b y]. unfold entry_le. cbn. destruct (Z.lt_trichotomy x y) as [?|[->|?]]; [by right; left| |by left; left].
  destruct (total String.le a b); [left; by right|right; by right].
Qed.
#[local] Instance entry_le_trans : Transitive entry_le.
Proof.
  intros [a x] [b y] [c z]. unfold entry_le. cbn.
  intros [?|[-> H1]] [?|[-> H2]]; [left; lia|by left|by left|right; split; [done|by etransitivity]].
Qed.

(** [extractTopics] returns distinct words, at most as many as asked for, each a word of
    the text of three bytes or more that is no stop word; and no word it leaves out
    occurs more often than one it returns. *)
Theorem extractTopics_top content maxTopics :
  let l := extractTopics unicode_lower content maxTopics in
  NoDup l /\ Z.of_nat (length l) <= Z.max 0 maxTopics /\
  forall w, w ∈ l -> is_topic w = true /\ (0 < occurrences w (Fields content))%nat /\
    forall w', is_topic w' = true -> w' ∉ l ->
      (occurrences w' (Fields content) <= occurrences w (Fields content))%nat.
Proof.
  cbv zeta. unfold extractTopics. set (freq := frequencies unicode_lower content).
  set (entries := merge_sort entry_le (map_to_list freq)).
  assert (Hp : entries ≡ₚ map_to_list freq) by apply merge_sort_Permutation.
  assert (Hs : StronglySorted entry_le entries) by (apply Sorted_StronglySorted; [apply _|apply Sorted_merge_sort; apply _]).
  assert (Hnd : NoDup (map fst entries)) by (rewrite Hp; apply NoDup_fst_map_to_list).
  assert (Hin : forall w c, (w, c) ∈ entries <->
     is_topic w = true /\ (0 < occurrences w (Fields content))%nat /\ c = Z.of_nat (occurrences w (Fields content))).
  { intros w c. rewrite Hp, elem_of_map_to_list. unfold freq, frequencies. rewrite frequencies_fold.
    destruct (is_topic w); cbn [andb]; [|by split; [|intros [? _]]].
    destruct (Z.ltb_spec 0 (Z.of_nat (occurrences w (Fields content)))).
    - split; [intros [= <-]; split; [done|split; [lia|done]]|by intros (_ & _ & ->)].
    - split; [done|]. intros (_ & ? & _). lia. }
  clearbody entries freq. clear Hp. set (k := Z.to_nat maxTopics).
  rewrite <- (take_drop k entries) in Hnd, Hs. rewrite map_app in Hnd. apply NoDup_app in Hnd as (Hnd & _ & _).
  split; [done|]. split; [rewrite length_map, length_take; lia|].
  intros w ([w0 c] & Hw & <-)%elem_of_map. cbn [fst].
  assert (Hwc : (w0, c) ∈ entries) by (rewrite <- (take_drop k entries); apply elem_of_app; by left).
  apply Hin in Hwc as (Ht & Hpos & ->). do 2 (split; [done|]). intros w' Ht' Hout.
  destruct (decide (occurrences w' (Fields content) = 0%nat)) as [->|Hn0]; [lia|].
  assert (Hw' : (w', Z.of_nat (occurrences w' (Fields content))) ∈ entries) by (apply Hin; split; [done|split; [lia|done]]).
  rewrite <- (take_drop k entries) in Hw'. apply elem_of_app in Hw' as [Hw'|Hw'].
  { exfalso. apply Hout. apply elem_of_map. by eexists. }
  apply StronglySorted_app in Hs as (Hlt & _ & _).
  destruct (Hlt _ _ Hw Hw') as [Hlt'|[Heq _]]; cbn in *; lia.
Qed.
End TopicProps.

(** ** Witnesses *)

Section Witnesses.
#[local] Existing Instance demo_process.
Definition demo_turn (n : Z) (content : string) : TurnResult :=
  {| tn_SessionID := "s"; tn_TurnNumber := n; tn_Content := content; tn_ToolCalls := ["memory_search"];
     tn_ToolResults := []; tn_PromptTokens := 0; tn_CompletionTokens := 0; tn_ThinkingTokens := 0;
     tn_TTFT := 0; tn_TotalDuration := 0 |}.
(** The embedding of a text that begins with an a points one way, any other the other way. *)
Definition demo_embedder : EmbeddingProvider Db.World :=
  {| Embed := fun text => ret (if has_prefix text "a" then [f_of_Z 1; f_zero] else [f_zero; f_of_Z 1]) |}.
Definition demo_turns : list TurnResult :=
  [demo_turn 0 "a"; demo_turn 1 "b"; demo_turn 2 "b"; demo_turn 9 "b"].

Lemma nudges_rationed_witness :
  let '(w, pa, nudges) := hook_session id (Some demo_embedder) demo_turns
                            (NewPeripheralAwareness (f_lit 28 100)) Db.demo_world in
  map nu_Turn nudges = [1; 9] /\ spaced 8 (-8) (map nu_Turn nudges).
Proof.
  destruct (hook_session id (Some demo_embedder) demo_turns _ Db.demo_world) as [[w pa] nudges] eqn:E.
  destruct (nudges_rationed id (f_lit 28 100) _ demo_turns _ _ _ _
    ltac:(repeat constructor; by vm_compute) E) as (_ & Hs & _).
  split; [|exact Hs]. vm_compute in E. by injection E as _ _ <-.
Defined.

Example extractTopics_ex :
  extractTopics id "The river, the River! and some stones; river stones." 2 = ["river"; "stones"].
Proof. by vm_compute. Qed.
(** A vector with a NaN nudges: the comparison with the threshold is false. *)
Example nan_velocity_nudges :
  let pa := UpdateCentroid [S754_nan] (NewPeripheralAwareness (f_lit 28 100)) in
  is_Some (CheckNudge id 0 [f_of_Z 1] [] pa Db.demo_world).2.2.
Proof. vm_compute. by eexists. Qed.
End Witnesses.
