(* ===== verification/SessionRunner.v ===== *)
(** * One session ([internal/app/session_runner.go])

    [RunSession]: the policy and its change note, the observed wake facts, the resolved
    plan and its records, the assembled context, the engine loop with its hooks, the
    end of the session and the dispatch of its metabolism. The stores, the model, the
    tools, the gateway and the embedding provider are the interfaces of their files;
    the raw queries of [helpers.go] read the shared database. *)

From S2P Require Import Prelude Frames Types Lifecycle Db Jobs Consolidation LifecycleStore.
From S2P Require Import Session Runner Engine Identity Awareness Assembly.

(** [pkg.LifecycleStore], the operations a session uses. A recording operation assigns
    an ID to a record that has none; it is returned with the error. *)
Record LifecycleStore (W : Type) := {
  ls_RecordPlan : LifecyclePlan -> M W (string * result unit);
  ls_RecordWakeFacts : string -> WakeFacts -> M W unit;
  ls_RecordManifest : AssemblyManifest -> M W (string * result unit);
  ls_RecordDisclosure : string -> string -> string -> string -> string -> string -> string -> M W unit;
  ls_WriteCheckpoint : string -> Z -> string -> Z -> string -> M W unit;
  ls_LastCheckpointState : M W string;
  ls_LastWakeAt : M W Z }.
Arguments ls_RecordPlan {W} _ _. Arguments ls_RecordWakeFacts {W} _ _ _.
Arguments ls_RecordManifest {W} _ _. Arguments ls_RecordDisclosure {W} _ _ _ _ _ _ _ _.
Arguments ls_WriteCheckpoint {W} _ _ _ _ _ _. Arguments ls_LastCheckpointState {W} _.
Arguments ls_LastWakeAt {W} _.

Definition SQLiteLifecycleStore `{Env} : LifecycleStore World :=
  {| ls_RecordPlan := fun p => RecordPlan (Some p);
     ls_RecordWakeFacts := fun sid f => RecordWakeFacts sid (Some f);
     ls_RecordManifest := fun m => RecordManifest (Some m);
     ls_RecordDisclosure := RecordDisclosure; ls_WriteCheckpoint := WriteCheckpoint;
     ls_LastCheckpointState := LastCheckpointState; ls_LastWakeAt := LastWakeAt |}.

(** The objects a session's closures share: its counters and its token budget. *)
Record RunState := { rs_sess : Session; rs_budget : TokenBudget }.
Notation LW := (World * RunState)%type.

(** ** Configuration *)

Section Deps.
Context {Args : Type}.

(** [Dependencies]: an absent one is a nil interface. A tool registry is given (the
    application always builds one). The memory store comes with [AppendExperiential]. *)
Record Dependencies := {
  d_AgentName : string; d_WorkspaceDir : string; d_TokenBudget : Z; d_HardFloorTokens : Z;
  d_SkipWitnessCheck : bool; d_DB : bool;
  d_LLM : option (CompletionRequest -> M World CompletionResponse);
  d_MemoryStore : option (MemoryStore World * (ExperientialLog -> M World unit));
  d_EmbeddingProvider : option (EmbeddingProvider World);
  d_AssemblyStore : option (AssemblyStore World);
  d_LifecycleStore : option (LifecycleStore World);
  d_JobStore : option (JobStore World);
  d_ToolRegistry : @ToolRegistry World Args;
  d_Gateway : option (@ContentGateway World) }.

(** [SessionRunner]: the assembler, the job runner's store, and the supervisor as its
    runner's store with its [stopped] flag. *)
Record SessionRunner := {
  sr_deps : Dependencies; sr_assembler : ContextAssembler World;
  sr_jobRunner : option (JobStore World);
  sr_supervisor : option (JobStore World * (World -> bool)) }.

(** *** The tools and the gateway, on the loop's state *)

Definition lift_handler (h : @ToolHandler World Args) : @ToolHandler LW Args :=
  match h with
  | HandlerV1 f => HandlerV1 (fun a => lift (f a))
  | HandlerV2 f => HandlerV2 (fun a => lift (f a))
  end.
Definition lift_registry (reg : @ToolRegistry World Args) : @ToolRegistry LW Args :=
  {| reg_Get := fun n => lift_handler <$> reg_Get reg n; reg_GetMeta := reg_GetMeta reg;
     reg_List := reg_List reg |}.
Definition lift_gateway (gw : @ContentGateway World) : @ContentGateway LW :=
  {| gw_ProcessInbound := fun a b c => lift (gw_ProcessInbound gw a b c);
     gw_ReviewOutbound := fun c => lift (gw_ReviewOutbound gw c) |}.
End Deps.
Arguments Dependencies Args : clear implicits.
Arguments SessionRunner Args : clear implicits.

(** [makeLLMFn] *)
Definition user_message (content : string) : Message :=
  {| msg_Role := "user"; msg_Content := content; msg_Blocks := []; msg_ToolCallID := "";
     msg_IsError := false |}.
Definition makeLLMFn {W} (client : CompletionRequest -> M W CompletionResponse)
    (prompt : string) : M W string :=
  let! resp := wrapM "compression LLM call"
    (client {| cr_System := ""; cr_Messages := [user_message prompt]; cr_Tools := [];
               cr_MaxTokens := 4096; cr_Temperature := None |}) in
  ret (TextContent resp).

(** ** The hooks of a session *)

Definition BudgetMonitorHook_Run (turn : TurnResult) : M LW unit :=
  fun '(w, s) =>
    ((w, {| rs_sess := rs_sess s;
            rs_budget := (Add (tn_PromptTokens turn) (tn_CompletionTokens turn) (rs_budget s)).1 |}),
     Ok tt).
Definition record_turn_hook (turn : TurnResult) : M LW unit :=
  fun '(w, s) =>
    ((w, {| rs_sess := RecordTurn (tn_PromptTokens turn) (tn_CompletionTokens turn) (rs_sess s);
            rs_budget := rs_budget s |}), Ok tt).

(** ** Raw queries ([helpers.go]) *)

Section Session.
Context `{Env} `{!Process World} `{Host} `{FileStat} `{MapRange} {Args : Type}.

Definition mustRandHex : M World string :=
  fun w => (bump_rng w, Ok (hex_string (rand_bytes (w_rng w)))).

(** A row of [SELECT ... ORDER BY key DESC LIMIT 1]; any scan error reads as none. *)
Definition last_row {A B} (db : bool) (key : A -> Z) (get : A -> B) (rows : Database -> list A)
    : M World (option B) :=
  if db then
    try! r := query (fun d _ => match last_by key (rows d) with
                                | Some x => Ok (get x) | None => Err (ESentinel ErrNoRows) end) in
    ret (match r with Ok x => Some x | Err _ => None end)
  else ret None.

Definition queryLastWakeAt (db : bool) : M World (option Z) :=
  let! row := last_row db wr_wake_at (fun r => wr_wake_at r * second) db_wakes in
  ret (match db_time_scan with Some _ => None | None => row end).

Definition policy_of_plan (r : PlanRow) : LifecyclePolicy :=
  {| lp_TemporalMode := pr_temporal_mode r; lp_DefaultAssembly := pr_assembly_profile r;
     lp_BridgePolicy := pr_bridge_policy r; lp_ActivityProfile := "";
     lp_MetabolismPolicy := pr_metabolism_policy r; lp_CommitHash := "" |}.
Definition queryLastPolicy (db : bool) : M World (option LifecyclePolicy) :=
  last_row db pr_resolved_at policy_of_plan db_plans.

(** [switch s { case "interrupted", "active": ... default: ... }] *)
Definition runtime_of_checkpoint (s : string) : string :=
  if one_of s ["interrupted"; "active"] then RuntimeInterrupted else RuntimeEnded.

Definition queryOperationalState (deps : Dependencies Args) : M World OperationalState :=
  let! metaStatus :=
    match d_JobStore deps with
    | Some js =>
        try! r := @js_LastStatus World js in
        ret (match r with Ok s => if str_empty s then "" else jobStatusToMetabolism s | Err _ => "" end)
    | None =>
        let! r := last_row (d_DB deps) jr_created_at jr_status db_jobs in
        ret (match r with Some s => jobStatusToMetabolism s | None => "" end)
    end in
  let! runtimeStatus :=
    match d_LifecycleStore deps with
    | Some ls =>
        try! r := ls_LastCheckpointState ls in
        ret (match r with Ok s => if str_empty s then "" else runtime_of_checkpoint s | Err _ => "" end)
    | None =>
        let! r := last_row (d_DB deps) cp_created_at cp_state db_checkpoints in
        ret (match r with Some s => runtime_of_checkpoint s | None => "" end)
    end in
  ret {| os_PriorRuntimeStatus := runtimeStatus; os_PriorMetabolismStatus := metaStatus;
         os_LastAppliedConfigHash := "" |}.

(** ** Steps 1 to 4: policy, change note, facts *)

Definition default_policy : LifecyclePolicy :=
  {| lp_TemporalMode := TemporalEpisodic; lp_DefaultAssembly := AssemblyFull;
     lp_BridgePolicy := BridgeAgentRequested; lp_ActivityProfile := ActivityNormal;
     lp_MetabolismPolicy := ""; lp_CommitHash := "" |}.

Definition read_policy (deps : Dependencies Args) : M World (LifecyclePolicy * string) :=
  match Read (d_WorkspaceDir deps) with
  | Ok ph => ret ph
  | Err _ => let! lastPolicy := queryLastPolicy (d_DB deps) in ret (default default_policy lastPolicy, "")
  end.

(** The note for the context and the previous hash; both empty without a change. *)
Definition policy_change (deps : Dependencies Args) (policy : LifecyclePolicy) (policyHash : string)
    : M World (string * string) :=
  if str_empty policyHash || negb (d_DB deps) then ret ("", "") else
  try! r := HasChanged policyHash in
  match r with
  | Ok (true, prevHash) =>
      let! oldPolicy := queryLastPolicy (d_DB deps) in
      let! now := draw time_Now in
      let g := GenerateDisclosure oldPolicy policy now in
      ret (ForContext {| cd_PolicyPath := PolicyPath (d_WorkspaceDir deps); cd_OldHash := prevHash;
                         cd_NewHash := policyHash; cd_Changes := cd_Changes g;
                         cd_AppliedAt := cd_AppliedAt g |}, prevHash)
  | _ => ret ("", "")
  end.

Definition previous_activity (deps : Dependencies Args) : M World (option Z) :=
  match d_LifecycleStore deps with
  | Some ls =>
      try! r := ls_LastWakeAt ls in
      ret (match r with Ok t => if time_IsZero t then None else Some t | Err _ => None end)
  | None => queryLastWakeAt (d_DB deps)
  end.

(** ** Steps 5 to 7: the plan, the session and their records *)

Definition backfill (id sid : string) (p : LifecyclePlan) : LifecyclePlan :=
  {| plan_ID := id; plan_SessionID := sid; plan_TemporalMode := plan_TemporalMode p;
     plan_WakeCause := plan_WakeCause p; plan_WakeCauseSecondary := plan_WakeCauseSecondary p;
     plan_ActivityProfile := plan_ActivityProfile p; plan_AssemblyProfile := plan_AssemblyProfile p;
     plan_BridgePolicy := plan_BridgePolicy p; plan_MetabolismPolicy := plan_MetabolismPolicy p;
     plan_PriorMetabolismStatus := plan_PriorMetabolismStatus p; plan_SeamKind := plan_SeamKind p;
     plan_ResolverVersion := plan_ResolverVersion p; plan_PolicyHash := plan_PolicyHash p;
     plan_GapFacts := plan_GapFacts p; plan_TransitionContexts := plan_TransitionContexts p;
     plan_Disclosures := plan_Disclosures p; plan_Reasons := plan_Reasons p;
     plan_CreatedAt := plan_CreatedAt p |}.

(** The error of a call that also returns the ID its record has afterwards. *)
Definition recorded {A} (msg : string) (m : M World (A * result unit)) : M World A :=
  let! r := m in
  match r with (a, Ok _) => ret a | (_, Err e) => fail (EWrap msg e) end.

(** 7a: the plan, as it is after the call, and the facts; fail-closed. *)
Definition record_artifacts (deps : Dependencies Args) (plan : LifecyclePlan) (sid : string)
    (facts : WakeFacts) : M World LifecyclePlan :=
  match d_LifecycleStore deps with
  | None => ret plan
  | Some ls =>
      let! id := recorded "lifecycle: RecordPlan failed (fail-closed)" (ls_RecordPlan ls plan) in
      let! _ := wrapM "lifecycle: RecordWakeFacts failed (fail-closed)"
                  (ls_RecordWakeFacts ls sid facts) in
      ret (backfill id sid plan)
  end.

(** [json.Marshal] of a policy. *)
Variable json_snapshot : LifecyclePolicy -> string.

(** 7b: the change of policy; fail-closed. *)
Definition record_disclosure (deps : Dependencies Args) (policy : LifecyclePolicy)
    (policyHash : string) (note prevHash sid : string) : M World unit :=
  if str_empty note then ret tt else
  match d_LifecycleStore deps with
  | None => ret tt
  | Some ls =>
      let path := PolicyPath (d_WorkspaceDir deps) in
      wrapM "lifecycle: RecordDisclosure failed (fail-closed)"
        (ls_RecordDisclosure ls sid path policyHash prevHash note ("workspace:" +:+ path)
           (json_snapshot policy))
  end.

(** ** Steps 8 and 9: the context *)

Definition runner_deps (deps : Dependencies Args) : RunnerDeps World :=
  {| dep_MemoryStore := fst <$> d_MemoryStore deps; dep_LLM := makeLLMFn <$> d_LLM deps;
     dep_EmbeddingProvider := d_EmbeddingProvider deps; dep_AssemblyStore := d_AssemblyStore deps;
     dep_SkipWitnessCheck := d_SkipWitnessCheck deps |}.

(** What the first nine steps hand to the loop. *)
Record Prepared := {
  pp_plan : LifecyclePlan; pp_sess : Session; pp_assembled : AssembledContext }.

(** Steps 1 to 9a; [None] is a panic. *)
Definition prepare (r : SessionRunner Args) (trigger : SessionTrigger) : M World (option Prepared) :=
  let deps := sr_deps r in
  let! ph := read_policy deps in
  let '(policy, policyHash) := ph in
  let! change := policy_change deps policy policyHash in
  let '(disclosureNote, prevHash) := change in
  let! wakeAt := draw time_Now in
  let! prev := previous_activity deps in
  let facts := observed_facts (st_WakeReason trigger) wakeAt prev in
  let! opState := queryOperationalState deps in
  let! planID := mustRandHex in
  let plan := Resolve policy facts opState planID wakeAt in
  let! started := draw time_Now in
  let! sess := NewSession (d_AgentName deps) (plan_WakeCause plan) started in
  let sid := s_ID sess in
  let! plan := record_artifacts deps (backfill planID sid plan) sid facts in
  let! _ := record_disclosure deps policy policyHash disclosureNote prevHash sid in
  let! assembled := wrapM "lifecycle: assembling context"
    (Assemble (sr_assembler r)
       (session_assemble_config (runner_deps deps) plan sid (st_InbandNotes trigger) disclosureNote)) in
  match assembled with
  | None => ret None
  | Some ctx =>
      let! _ :=
        match d_LifecycleStore deps with
        | None => ret ""
        | Some ls => recorded "lifecycle: RecordManifest failed (fail-closed)"
                       (ls_RecordManifest ls (ctx_Manifest ctx))
        end in
      ret (Some {| pp_plan := plan; pp_sess := sess; pp_assembled := ctx |})
  end.

(** ** Step 10: the loop *)

Definition initial_content (trigger : SessionTrigger) : string :=
  if str_empty (st_InboundContent trigger) then "[session start]"
  else "[inbound event]" +:+
       (if str_empty (st_InboundSender trigger) then ""
        else newline +:+ "from: " +:+ st_InboundSender trigger) +:+
       (if str_empty (st_InboundChannel trigger) then ""
        else newline +:+ "channel: " +:+ st_InboundChannel trigger) +:+
       newline +:+ newline +:+ st_InboundContent trigger.

Definition inbound_entry (trigger : SessionTrigger) (sid : string) (now : Z) : ExperientialLog :=
  {| el_ID := "t2-inbound-" +:+ sid +:+ "-" +:+ fmt_d now; el_SessionID := sid;
     el_Content := initial_content trigger;
     el_ContentSource := str_or (st_InboundChannel trigger) "operator";
     el_CreatedAt := time_zero; el_AegisAnnotation := st_AegisAnnotation trigger |}.

(** The inbound event goes to T2 first; a failure is logged and ignored. *)
Definition archive_inbound (deps : Dependencies Args) (trigger : SessionTrigger) (sid : string)
    : M World unit :=
  match d_MemoryStore deps with
  | Some (_, append) =>
      if str_empty (st_InboundContent trigger) then ret tt else
      let! now := draw time_Now in
      try! _ := append (inbound_entry trigger sid now) in ret tt
  | None => ret tt
  end.

Definition session_hooks (deps : Dependencies Args) : HookPipeline LW :=
  let hooks := match d_MemoryStore deps with
               | Some (_, append) =>
                   RegisterCritical (fun turn =>
                     let! now := lift (draw time_Now) in
                     T2LoggerHook_Run (fun e => lift (append e)) now turn) []
               | None => []
               end in
  Register record_turn_hook (Register BudgetMonitorHook_Run hooks).

Definition session_engine (deps : Dependencies Args)
    (llm : CompletionRequest -> M World CompletionResponse) (sid : string) : @EngineT LW Args :=
  {| en_client := fun req => lift (llm req); en_registry := lift_registry (d_ToolRegistry deps);
     en_hooks := Some (session_hooks deps); en_aegis := lift_gateway <$> d_Gateway deps;
     en_sessionID := sid |}.

Definition session_config : @EngineConfig LW Args :=
  {| cfg_MaxIterations := 25; cfg_ParallelTools := true; cfg_ToolTimeout := 0;
     cfg_DryRun := false; cfg_Rehearsal := false; cfg_BeforeToolCall := None;
     cfg_AfterToolCall := None;
     cfg_ShouldStop := Some (fun _ _ '(_, s) => bool_decide (level (rs_budget s) = BudgetHard));
     cfg_SteeringChan := None; cfg_FollowUpChan := None; cfg_TransformContext := None |}.

Definition session_request (deps : Dependencies Args) (trigger : SessionTrigger)
    (ctx : AssembledContext) : CompletionRequest :=
  {| cr_System := ctx_SystemPrompt ctx; cr_Messages := [user_message (initial_content trigger)];
     cr_Tools := flat_map tg_Tools (reg_List (d_ToolRegistry deps)); cr_MaxTokens := 4096;
     cr_Temperature := None |}.

(** The parameters of the engine: see [Engine]. *)
Variable json_Unmarshal : string -> result (option Args).
Variable json_Marshal : Args -> result string.
Variable empty_args : Args.
Variable deadline_exceeded : LW -> bool.
Variable fmt_duration : Z -> string.
Variable fmt_list : list string -> string.
Variable blocked_json : BlockedOutbound -> string.
Variable schedule : nat -> list nat.

(** A session has no steering channel, so that draining it needs no fuel, and the loop
    returns ([session_loop_returns]): the last case does not arise. *)
Definition session_loop (deps : Dependencies Args)
    (llm : CompletionRequest -> M World CompletionResponse) (trigger : SessionTrigger)
    (p : Prepared) : M LW LoopResult :=
  fun s =>
    match RunLoop json_Unmarshal json_Marshal empty_args deadline_exceeded fmt_duration fmt_list
            blocked_json schedule 0 (session_engine deps llm (s_ID (pp_sess p)))
            (session_request deps trigger (pp_assembled p)) session_config s with
    | Some out => out
    | None => (s, Err (ENew "unreachable"))
    end.

(** [m] on the world alone, from run state [s]: its final run state too. *)
Definition with_state {A} (s : RunState) (m : M LW A) : M World (RunState * A) :=
  fun w => let '((w', s'), r) := m (w, s) in
           (w', match r with Ok a => Ok (s', a) | Err e => Err e end).

Definition checkpoint (deps : Dependencies Args) (s : RunState) (state : string) : M World unit :=
  match d_LifecycleStore deps with
  | None => ret tt
  | Some ls =>
      try! _ := ls_WriteCheckpoint ls (s_ID (rs_sess s)) (s_turnCount (rs_sess s)) ""
                  (wrap64 (d_TokenBudget deps - Remaining (rs_budget s))) state in
      ret tt
  end.

(** ** Step 12: dispatch

    [Submit] of the supervisor and of the job runner, up to the goroutine they start:
    the job whose [Run] is started. Their errors, which differ in text only, are logged. *)
Definition submit_to (js : JobStore World) (sid jobType : string) : M World (list (string * string)) :=
  try! r := @Submit World js sid jobType in
  ret (match r with Ok job => [job] | Err _ => [] end).
Definition dispatch (r : SessionRunner Args) (sid jobType : string)
    : M World (list (string * string)) :=
  match sr_supervisor r, sr_jobRunner r, d_JobStore (sr_deps r) with
  | Some (js, stopped), _, _ =>
      fun w => if stopped w then (w, Ok []) else submit_to js sid jobType w
  | None, Some js, _ => submit_to js sid jobType
  | None, None, Some js => try! _ := @js_Commit World js sid jobType in ret []
  | None, None, None => ret []
  end.

(** Steps 10 to 12; the jobs whose processing was started. A nil model panics when the
    loop calls it. *)
Definition conduct (r : SessionRunner Args) (trigger : SessionTrigger) (p : Prepared)
    : M World (option (list (string * string))) :=
  let deps := sr_deps r in
  let sid := s_ID (pp_sess p) in
  let! _ := archive_inbound deps trigger sid in
  match d_LLM deps with
  | None => ret None
  | Some llm =>
      let s0 := {| rs_sess := pp_sess p;
                   rs_budget := NewTokenBudget (d_TokenBudget deps) (d_HardFloorTokens deps) |} in
      let! out := wrapM "lifecycle: engine loop" (with_state s0 (session_loop deps llm trigger p)) in
      let '(s, _) := out in
      let! _ := checkpoint deps s "active" in
      let! ended := draw time_Now in
      let s := {| rs_sess := End_ ended (rs_sess s); rs_budget := rs_budget s |} in
      let! _ := checkpoint deps s "completed" in
      let! jobs := dispatch r sid (plan_MetabolismPolicy (pp_plan p)) in
      ret (Some jobs)
  end.

Definition RunSession (r : SessionRunner Args) (trigger : SessionTrigger)
    : M World (option (list (string * string))) :=
  let! p := prepare r trigger in
  match p with None => ret None | Some p => conduct r trigger p end.
End Session.
