(* ===== verification/SessionProps.v ===== *)
(** * Properties of a session ([internal/app/session_runner.go])

    What a whole [RunSession] may change, whatever the model, the tools and the stores
    do: frames of assembly and of the engine loop, the dispatch of metabolism last and
    only after success, the records that exist before the loop starts, and the plan
    that is always well-formed. *)

From S2P Require Import Prelude Frames Types Lifecycle Db Jobs Consolidation LifecycleStore.
From S2P Require Import Session Runner Engine Identity Awareness Assembly SessionRunner.

(** ** Assembly *)

Section Assembly.
Context {W : Type} `{!Process W} `{Host} `{FileStat} `{MapRange} (R : relation W) `{!PreOrder R}.

(** The draws of the process, and the operations of a store, leave the state related. *)
Record frames_process : Prop := {
  fp_now : frames R (draw time_Now); fp_rand : frames R (draw rand_Float64);
  fp_read8 : frames R (draw crypto_Read8); fp_read16 : frames R (draw crypto_Read16) }.
Record frames_memory (store : MemoryStore W) : Prop := {
  fm_narrative : forall v n, frames R (SearchNarrative v n);
  fm_reflections : forall v n, frames R (SearchReflections v n);
  fm_by_id : forall i, frames R (GetReflectionByID i);
  fm_entities : forall q n, frames R (SearchEntities q n);
  fm_profiles : frames R ListProfiles }.
Definition frames_llm (f : option (string -> M W string)) : Prop :=
  forall g, f = Some g -> forall p, frames R (g p).

(** The dependencies of a configuration without anchor and edge stores. *)
Record frames_config (cfg : AssembleConfig W) : Prop := {
  fc_process : frames_process; fc_anchors : cfg_anchors cfg = None; fc_edges : cfg_edges cfg = None;
  fc_store : forall s, cfg_store cfg = Some s -> frames_memory s;
  fc_provider : forall p, cfg_provider cfg = Some p -> forall t, frames R (@Embed W p t);
  fc_llm : frames_llm (cfg_llmFn cfg) }.

Lemma frames_liftW {A} (m : M W A) : frames R m -> frames (over R) (liftW m).
Proof using Type. intros Hm [w dm]. unfold liftW, over. simpl. specialize (Hm w). by destruct (m w). Qed.
Lemma frames_note f : frames (over R) (@note W f).
Proof using PreOrder0. intros [w dm]. unfold over. simpl. reflexivity. Qed.
Hint Resolve frames_liftW frames_note fp_now fp_rand fp_read8 fp_read16 fm_narrative fm_reflections
  fm_by_id fm_entities fm_profiles : frames.

Lemma frames_phase dir cfg p rem :
  frames_config cfg -> p ∈ DefaultPhases dir -> frames (over R) (ph_Assemble p cfg rem).
Proof using PreOrder0.
  intros [Hp Ha He Hs Hv Hl] Hin. unfold DefaultPhases in Hin.
  repeat (apply elem_of_cons in Hin as [->|Hin]); [..|by apply elem_of_nil in Hin];
    cbn [ph_Assemble IdentityPhase ContinuityPhase WorldModelPhase EchoPoolPhase IncomingPhase GroundingPhase].
  - unfold identity_Assemble, verify_identity. rewrite Ha. frames_tac. apply frames_liftW. frames_tac.
  - unfold continuity_Assemble. destruct (cfg_store cfg) as [st|] eqn:Es; [|frames_tac].
    pose proof (Hs st eq_refl) as Hst.
    unfold assembleContinuity, plan_notes, add_bridge, SynthesizeBridge. frames_tac.
    all: apply frames_liftW; frames_tac.
  - unfold worldmodel_Assemble. destruct (cfg_store cfg) as [st|] eqn:Es; [|frames_tac].
    pose proof (Hs st eq_refl) as Hst. frames_tac.
  - unfold echoes_Assemble, contradiction_part. rewrite He.
    destruct (cfg_provider cfg) as [pv|] eqn:Ep; [|frames_tac]. pose proof (Hv pv eq_refl) as Hpv.
    destruct (cfg_store cfg) as [st|] eqn:Es; [pose proof (Hs st eq_refl) as Hst|];
      frames_tac; apply frames_liftW; frames_tac.
  - intros [w dm]. unfold over. simpl. reflexivity.
  - unfold grounding_Assemble, Gather. frames_tac. apply frames_liftW. frames_tac.
Qed.

Lemma frames_phase_loop dir cfg phases : frames_config cfg ->
  (forall p, p ∈ phases -> p ∈ DefaultPhases dir) ->
  forall pg, frames (over R) (phase_loop cfg phases pg).
Proof using PreOrder0.
  intros Hc. induction phases as [|p phases IH]; intros Hin pg; cbn [phase_loop]; [frames_tac|].
  assert (IH' : forall pg, frames (over R) (phase_loop cfg phases pg)).
  { intros pg'. apply IH. intros q Hq. apply Hin. by right. }
  assert (Hp : frames (over R) (ph_Assemble p cfg (pg_remaining pg))).
  { apply (frames_phase dir); [done|]. apply Hin. by left. }
  frames_tac.
Qed.

Lemma frames_Assemble dir budget cfg : frames_config cfg ->
  frames R (Assemble (NewContextAssembler dir budget) cfg).
Proof using PreOrder0.
  intros Hc w. unfold Assemble. cbv zeta.
  match goal with |- context [attempt ?m ?k ?s] =>
    assert (Hf : frames (over R) (attempt m k)); [|specialize (Hf s); by destruct (attempt m k s) as [[? ?] ?]] end.
  pose proof (fc_process cfg Hc) as Hp. unfold finish. frames_tac.
  - apply (frames_phase_loop dir); [done|]. intros p Hin. unfold sorted_phases in Hin.
    by rewrite order_by_Permutation in Hin.
  - intros [w1 dm]. unfold over. reflexivity.
Qed.
End Assembly.

(** ** The engine loop *)

Section Loop.
Context {W Args : Type} (R : relation W) `{!PreOrder R}.
Variable json_Unmarshal : string -> result (option Args).
Variable json_Marshal : Args -> result string.
Variable empty_args : Args.
Variable deadline_exceeded : W -> bool.
Variable fmt_duration : Z -> string.
Variable fmt_list : list string -> string.
Variable blocked_json : BlockedOutbound -> string.
Variable schedule : nat -> list nat.

Definition frames_handler (h : @ToolHandler W Args) : Prop :=
  match h with
  | HandlerV1 f => forall a, frames R (f a)
  | HandlerV2 f => forall a, frames R (f a)
  end.
Record frames_gateway (gw : @ContentGateway W) : Prop := {
  fg_in : forall a b c, frames R (gw_ProcessInbound gw a b c);
  fg_out : forall c, frames R (gw_ReviewOutbound gw c) }.
Record frames_engine (e : @EngineT W Args) : Prop := {
  fe_client : forall req, frames R (en_client e req);
  fe_tools : forall n h, reg_Get (en_registry e) n = Some h -> frames_handler h;
  fe_hooks : forall p, en_hooks e = Some p ->
    Forall (fun h => forall t, tn_SessionID t = en_sessionID e -> frames R (he_run h t)) p;
  fe_aegis : forall gw, en_aegis e = Some gw -> frames_gateway gw }.
(** A configuration without hooks, channels and compaction of its own. *)
Record plain_config (cfg : @EngineConfig W Args) : Prop := {
  pc_before : cfg_BeforeToolCall cfg = None; pc_after : cfg_AfterToolCall cfg = None;
  pc_steer : cfg_SteeringChan cfg = None; pc_follow : cfg_FollowUpChan cfg = None;
  pc_transform : cfg_TransformContext cfg = None }.
Context (e : @EngineT W Args) (cfg0 : @EngineConfig W Args).
Context (He : frames_engine e) (Hc : plain_config cfg0).

Hint Resolve fg_in fg_out fe_client : frames.
Notation wired := (wire json_Marshal fmt_list blocked_json e cfg0).
Notation single := (executeSingleTool json_Unmarshal empty_args deadline_exceeded fmt_duration e wired).

Lemma frames_before_hook tc args : frames R (before_hook wired tc args).
Proof using PreOrder0 He Hc.
  unfold before_hook, wire. cbn [cfg_BeforeToolCall]. rewrite (pc_before _ Hc).
  destruct (en_aegis e) as [gw|] eqn:Eg; [|frames_tac]. pose proof (fe_aegis _ He gw Eg) as Hg.
  unfold aegis_before. frames_tac.
Qed.
Lemma frames_after_hook tc r : frames R (after_hook wired tc r).
Proof using PreOrder0 He Hc.
  unfold after_hook, wire. cbn [cfg_AfterToolCall]. rewrite (pc_after _ Hc).
  destruct (en_aegis e) as [gw|] eqn:Eg; [|frames_tac]. pose proof (fe_aegis _ He gw Eg) as Hg.
  unfold aegis_after. frames_tac.
Qed.
Lemma frames_single tc : frames R (single tc).
Proof using PreOrder0 He Hc.
  unfold executeSingleTool. destruct (reg_Get _ _) as [h|] eqn:Eh; [|frames_tac].
  pose proof (fe_tools _ He _ _ Eh) as Hh. pose proof frames_before_hook as Hb.
  pose proof frames_after_hook as Ha.
  destruct (parse_args _ _ _) as [args|]; [|frames_tac].
  apply frames_bind; [apply _|apply Hb|intros [why|]]; [frames_tac|].
  destruct (cfg_DryRun _); [frames_tac|]. apply frames_bind; [apply _| |intros [r o]].
  - unfold run_handler. destruct h; frames_tac.
  - cbn [snd fst]. destruct o; [apply frames_pure; apply _|apply Ha].
Qed.
Lemma frames_batch calls : frames R (executeToolCalls json_Unmarshal empty_args deadline_exceeded
  fmt_duration schedule e wired calls).
Proof using PreOrder0 He Hc.
  unfold executeToolCalls. apply frames_bind; [apply _| |intros rs; frames_tac].
  destruct (_ && _).
  - generalize (repeat zero_result (length calls)). induction (schedule (length calls)) as [|i order IH];
      intros results; cbn [run_parallel]; [frames_tac|].
    destruct (calls !! i) as [tc|]; [|apply IH]. apply frames_bind; [apply _|apply frames_single|].
    intros r. apply IH.
  - induction calls as [|tc calls IH]; cbn [run_sequential]; [frames_tac|].
    apply frames_bind; [apply _|apply frames_single|intros r]. destruct (tr_Terminate r); frames_tac.
Qed.
Lemma frames_run_hooks msg turn : tn_SessionID turn = en_sessionID e -> frames R (run_hooks e msg turn).
Proof using PreOrder0 He.
  intros Ht. unfold run_hooks. destruct (en_hooks e) as [p|] eqn:Ep; [|frames_tac]. apply frames_wrapM.
  pose proof (fe_hooks _ He p Ep) as Hp. clear Ep. induction Hp as [|h p Hh _ IH]; cbn [RunAll]; [frames_tac|].
  apply frames_attempt; [apply _|by apply Hh|intros r]. frames_tac.
Qed.
Lemma frames_iteration k req n system history :
  frames R (iteration json_Unmarshal empty_args deadline_exceeded fmt_duration schedule k e req wired
              n system history).
Proof using PreOrder0 He Hc.
  assert (Ht : transform wired n system history = ret (system, history)).
  { unfold transform. cbn [wire cfg_TransformContext]. by rewrite (pc_transform _ Hc). }
  unfold iteration. rewrite Ht. apply frames_bind; [apply _|frames_tac|intros [sys hist]].
  apply frames_bind; [apply _|frames_tac|intros resp].
  destruct (ToolCallBlocks resp) as [|tc calls].
  - apply frames_bind; [apply _|by apply frames_run_hooks|intros; frames_tac].
  - destruct (String.eqb _ _); [frames_tac|].
    apply frames_bind; [apply _|apply frames_batch|intros [results terminated]].
    apply frames_bind; [apply _|by apply frames_run_hooks|intros _].
    destruct terminated; [frames_tac|]. intros w. unfold drain_channels, follow_up.
    cbn [cfg_SteeringChan cfg_FollowUpChan wire]. rewrite (pc_steer _ Hc), (pc_follow _ Hc).
    by destruct (_ || _).
Qed.
Lemma frames_RunLoop k req s s' r :
  RunLoop json_Unmarshal json_Marshal empty_args deadline_exceeded fmt_duration fmt_list blocked_json
    schedule k e req cfg0 s = Some (s', r) -> R s s'.
Proof using PreOrder0 He Hc.
  unfold RunLoop. destruct (cfg_Rehearsal cfg0); [by intros [= -> _]|].
  generalize (cr_System req) at 1. generalize (cr_Messages req) at 1. generalize 0. revert s.
  induction (Z.to_nat _) as [|fuel IH]; intros s n history system; cbn [loop]; [done|].
  pose proof (frames_iteration k req (n + 1) system history s) as Hi.
  destruct (iteration _ _ _ _ _ _ _ _ _ _ _ _ s) as [s1 [[sys hist|lr|]|err]]; cbn [fst] in Hi.
  - intros E. etransitivity; [exact Hi|]. by eapply IH.
  - by intros [= <- _].
  - done.
  - by intros [= <- _].
Qed.
End Loop.

(** ** The session *)

Section Frame.
Context `{Env} `{!Process World} `{Host} `{FileStat} `{MapRange} {Args : Type}.

Record frames_lifecycle (R : relation World) (ls : LifecycleStore World) : Prop := {
  fl_plan : forall p, frames R (ls_RecordPlan ls p);
  fl_wake : forall sid f, frames R (ls_RecordWakeFacts ls sid f);
  fl_manifest : forall m, frames R (ls_RecordManifest ls m);
  fl_disclosure : forall a b c d e f g, frames R (ls_RecordDisclosure ls a b c d e f g);
  fl_checkpoint : forall a b c d e, frames R (ls_WriteCheckpoint ls a b c d e);
  fl_state : frames R (ls_LastCheckpointState ls); fl_wake_at : frames R (ls_LastWakeAt ls) }.

(** Everything a session calls before it dispatches leaves the world related by [R]:
    queries, random bytes, the clock, and each dependency that is present; of T2, only
    entries of the sessions [own] are asked to. *)
Record session_frame_on (own : string -> Prop) (R : relation World) (r : SessionRunner Args) : Prop := {
  sf_query : forall A (f : Database -> Z -> result A), frames R (query f);
  sf_rng : forall w, R w (bump_rng w);
  sf_process : frames_process R;
  sf_assembler : exists dir budget, sr_assembler r = NewContextAssembler dir budget;
  sf_llm : forall f, d_LLM (sr_deps r) = Some f -> forall req, frames R (f req);
  sf_memory : forall st ap, d_MemoryStore (sr_deps r) = Some (st, ap) ->
    frames_memory R st /\ forall e, own (el_SessionID e) -> frames R (ap e);
  sf_provider : forall p, d_EmbeddingProvider (sr_deps r) = Some p -> forall t, frames R (@Embed _ p t);
  sf_lifecycle : forall ls, d_LifecycleStore (sr_deps r) = Some ls -> frames_lifecycle R ls;
  sf_jobs : forall js, d_JobStore (sr_deps r) = Some js -> frames R (@js_LastStatus _ js);
  sf_tools : forall n h, reg_Get (d_ToolRegistry (sr_deps r)) n = Some h -> frames_handler R h;
  sf_gateway : forall gw, d_Gateway (sr_deps r) = Some gw -> frames_gateway R gw }.

Definition session_frame : relation World -> SessionRunner Args -> Prop := session_frame_on (fun _ => True).

Lemma session_frame_mono (own : string -> Prop) (R R' : relation World) (r : SessionRunner Args) :
  subrelation R R' -> session_frame_on own R r -> session_frame_on own R' r.
Proof using Type.
  intros Hs [Hq Hr [P1 P2 P3 P4] Ha Hl Hm Hv Hc Hj Ht Hg].
  assert (Hmono : forall A (m : M World A), frames R m -> frames R' m) by (intros; by eapply frames_mono).
  split; intros; eauto.
  - split; auto.
  - destruct (Hm st ap) as [[] ?]; [done|]. split; [split|]; auto.
  - destruct (Hc ls) as []; [done|]. split; auto.
  - specialize (Ht n h). destruct h; simpl in *; auto.
  - destruct (Hg gw) as []; [done|]. split; auto.
Qed.

Context (R : relation World) `{!PreOrder R} (json_snapshot : LifecyclePolicy -> string).
Variable json_Unmarshal : string -> result (option Args).
Variable json_Marshal : Args -> result string.
Variable empty_args : Args.
Variable deadline_exceeded : LW -> bool.
Variable fmt_duration : Z -> string.
Variable fmt_list : list string -> string.
Variable blocked_json : BlockedOutbound -> string.
Variable schedule : nat -> list nat.
Notation conduct := (conduct json_Unmarshal json_Marshal empty_args deadline_exceeded fmt_duration
  fmt_list blocked_json schedule).
Notation loop := (session_loop json_Unmarshal json_Marshal empty_args deadline_exceeded fmt_duration
  fmt_list blocked_json schedule).
Notation RunSession := (RunSession json_snapshot json_Unmarshal json_Marshal empty_args
  deadline_exceeded fmt_duration fmt_list blocked_json schedule).
Context (own : string -> Prop) (r : SessionRunner Args) (Hf : session_frame_on own R r).
Implicit Types (trigger : SessionTrigger).

Hint Resolve fl_plan fl_wake fl_manifest fl_disclosure fl_checkpoint fl_state fl_wake_at
  fp_now fp_rand fp_read8 fp_read16 fm_narrative fm_reflections fm_by_id fm_entities fm_profiles
  fg_in fg_out : frames.

Lemma frames_rng {A} (f : World -> result A) : frames R (fun w => (bump_rng w, f w)).
Proof using Hf. intros w. apply (sf_rng own R r Hf). Qed.

Lemma frames_last_row {A B} db (key : A -> Z) (get : A -> B) rows :
  frames R (last_row db key get rows).
Proof using Hf PreOrder0. pose proof (sf_query own R r Hf) as Hq. unfold last_row. frames_tac. Qed.

Lemma frames_session_config plan sid notes note :
  frames_config R (session_assemble_config (runner_deps (sr_deps r)) plan sid notes note).
Proof using Hf PreOrder0.
  split; unfold session_assemble_config, runner_deps; simpl; try done.
  - apply (sf_process own R r Hf).
  - intros s Hs. destruct (d_MemoryStore (sr_deps r)) as [[st ap]|] eqn:Em; [|done].
    simpl in Hs. injection Hs as <-. by apply (sf_memory own R r Hf st ap).
  - apply (sf_provider own R r Hf).
  - intros g Hg p. destruct (d_LLM (sr_deps r)) as [f|] eqn:El; [|done]. simpl in Hg.
    injection Hg as <-. pose proof (sf_llm own R r Hf f El) as Hl. unfold makeLLMFn. frames_tac.
Qed.

Lemma frames_recorded {A} msg (m : M World (A * result unit)) : frames R m -> frames R (recorded msg m).
Proof using PreOrder0. intros Hm. unfold recorded. apply frames_bind; [apply _|done|]. intros [a [u|e]]; frames_tac. Qed.

Lemma frames_prepare trigger : frames R (prepare json_snapshot r trigger).
Proof using Hf PreOrder0.
  pose proof (sf_query own R r Hf) as Hq. pose proof (sf_process own R r Hf) as Hp.
  pose proof (@frames_last_row) as Hrow. pose proof (fun A => @frames_rng A) as Hrng.
  unfold prepare, read_policy, policy_change, HasChanged, previous_activity, queryOperationalState,
    record_artifacts, record_disclosure, queryLastPolicy, queryLastWakeAt, mustRandHex, NewSession.
  destruct (sf_assembler own R r Hf) as (dir & budget & ->).
  assert (Ha : forall plan sid notes note, frames R (Assemble (NewContextAssembler dir budget)
    (session_assemble_config (runner_deps (sr_deps r)) plan sid notes note))).
  { intros. apply frames_Assemble; [apply _|]. apply frames_session_config. }
  destruct (d_LifecycleStore (sr_deps r)) as [ls|] eqn:El;
    [pose proof (sf_lifecycle own R r Hf ls El) as Hls|];
    (destruct (d_JobStore (sr_deps r)) as [js|] eqn:Ej; [pose proof (sf_jobs own R r Hf js Ej) as Hjs|]);
    frames_tac; try apply frames_recorded; frames_tac.
Qed.

(** One bind of a preparation, every piece of which is framed: [HR] leads to its state. *)
Ltac prepare_step E HR :=
  let w' := fresh "w" in let a := fresh "a" in let H := fresh "H" in
  apply frames_bind_inv with (R := R) in E as [(w' & a & H & _ & E)|(? & ? & _)];
  [apply (transitivity HR) in H; clear HR; rename H into HR;
   try match type of a with prod _ _ => destruct a end; cbn beta iota in E
  |done
  |try (unfold read_policy, policy_change, HasChanged, previous_activity, queryOperationalState,
          queryLastPolicy, queryLastWakeAt, mustRandHex, record_artifacts, record_disclosure);
   repeat match goal with El : _ = Some _ |- _ => rewrite El | El : _ = None |- _ => rewrite El end;
   frames_tac; try (apply frames_recorded); solve [frames_tac]].

(** The session's ID is drawn in a state the begin of the call leads to, and the rest of
    the preparation leads on from there. *)
Lemma prepare_draws_session trigger w w1 p : prepare json_snapshot r trigger w = (w1, Ok (Some p)) ->
  exists wa, R w wa /\ R (bump_rng wa) w1 /\
    s_ID (pp_sess p) = d_AgentName (sr_deps r) +:+ "-" +:+ hex_string (rand_bytes (w_rng wa)).
Proof using Hf PreOrder0.
  pose proof (sf_query own R r Hf) as Hq. pose proof (sf_process own R r Hf) as Hp.
  pose proof (@frames_last_row) as Hrow. pose proof (fun A => @frames_rng A) as Hrng.
  destruct (sf_assembler own R r Hf) as (dir & budget & Hasm).
  assert (Ha : forall plan sid notes note, frames R (Assemble (sr_assembler r)
    (session_assemble_config (runner_deps (sr_deps r)) plan sid notes note))).
  { intros. rewrite Hasm. apply frames_Assemble; [apply _|]. apply frames_session_config. }
  assert (HR : R w w) by reflexivity. revert HR. cbv delta [SessionRunner.prepare] beta zeta.
  destruct (d_LifecycleStore (sr_deps r)) as [ls|] eqn:El;
    [pose proof (sf_lifecycle own R r Hf ls El) as Hls|];
    (destruct (d_JobStore (sr_deps r)) as [js|] eqn:Ej; [pose proof (sf_jobs own R r Hf js Ej) as Hjs|]);
  intros HR E; do 7 prepare_step E HR;
    (apply bind_Ok in E as (wb & sess & Es & E); unfold Session.NewSession in Es; injection Es as <- <-);
    (match goal with HR : R w ?wa |- _ => exists wa; split; [exact HR|clear HR];
       assert (HR : R (bump_rng wa) (bump_rng wa)) by reflexivity end);
    do 3 prepare_step E HR; (destruct a6 as [c|]; [|done]); prepare_step E HR.
  all: by injection E as <- <-.
Qed.

Lemma frames_with_state {A} s (m : M LW A) : frames (over R) m -> frames R (with_state s m).
Proof using Type.
  intros Hm w. unfold with_state. specialize (Hm (w, s)). by destruct (m (w, s)) as [[w' s'] [a|e]].
Qed.

(** The engine comes back: a session never meets the last case of [session_loop]. *)
Lemma session_loop_returns (deps : Dependencies Args) llm trigger p s :
  is_Some (RunLoop json_Unmarshal json_Marshal empty_args deadline_exceeded fmt_duration fmt_list
             blocked_json schedule 0 (session_engine deps llm (s_ID (pp_sess p)))
             (session_request deps trigger (pp_assembled p)) session_config s).
Proof using Type. by apply RunLoop_unsteered. Qed.

Lemma frames_loop llm trigger p :
  d_LLM (sr_deps r) = Some llm -> own (s_ID (pp_sess p)) ->
  frames (over R) (loop (sr_deps r) llm trigger p).
Proof using Hf PreOrder0.
  intros Hllm Hown s. unfold session_loop.
  destruct (RunLoop _ _ _ _ _ _ _ _ _ _ _ _ s) as [[s' res]|] eqn:E; [|reflexivity].
  eapply frames_RunLoop in E; [exact E|apply _| |done].
  pose proof (sf_llm own R r Hf llm Hllm) as Hl. split; simpl.
  - intros req. by apply frames_lift.
  - intros n h Hn. destruct (reg_Get (d_ToolRegistry (sr_deps r)) n) as [h0|] eqn:Eh; [|done].
    simpl in Hn. injection Hn as <-. pose proof (sf_tools own R r Hf n h0 Eh) as Hh.
    destruct h0; simpl in *; intros a; by apply frames_lift.
  - intros hooks [= <-]. unfold session_hooks, Register, RegisterCritical.
    assert (Htail : Forall (fun h => forall t, tn_SessionID t = s_ID (pp_sess p) -> frames (over R) (he_run h t))
              (Register record_turn_hook (Register BudgetMonitorHook_Run []))).
    { repeat constructor; intros t _ [w s0]; unfold over; simpl; reflexivity. }
    pose proof (sf_process own R r Hf) as Hp.
    destruct (d_MemoryStore (sr_deps r)) as [[st ap]|] eqn:Em; [|exact Htail].
    constructor; [|exact Htail].
    destruct (sf_memory own R r Hf st ap Em) as [_ Hap]. simpl. intros t Ht.
    unfold T2LoggerHook_Run. apply frames_bind; [apply _|apply frames_lift, Hp|intros now].
    apply frames_bind; [apply _| |intros _].
    + destruct (str_empty _); [frames_tac|]. apply frames_wrapM, frames_lift, Hap. simpl. by rewrite Ht.
    + generalize 0%nat. induction (tn_ToolResults t) as [|x rs IH]; intros i; cbn [log_results]; [frames_tac|].
      destruct (str_empty _); [apply IH|].
      apply frames_bind; [apply _|apply frames_wrapM, frames_lift, Hap; simpl; by rewrite Ht|intros _; apply IH].
  - intros gw Hgw. destruct (d_Gateway (sr_deps r)) as [g|] eqn:Eg; [|done]. simpl in Hgw.
    injection Hgw as <-. destruct (sf_gateway own R r Hf g Eg) as [Hi Ho].
    split; intros; simpl; by apply frames_lift.
Qed.

Lemma frames_checkpoint s state : frames R (checkpoint (sr_deps r) s state).
Proof using Hf PreOrder0.
  unfold checkpoint. destruct (d_LifecycleStore (sr_deps r)) as [ls|] eqn:El; [|frames_tac].
  pose proof (sf_lifecycle own R r Hf ls El) as Hls. frames_tac.
Qed.

Lemma frames_archive trigger sid : own sid -> frames R (archive_inbound (sr_deps r) trigger sid).
Proof using Hf PreOrder0.
  intros Hown.
  pose proof (sf_process own R r Hf) as Hp. unfold archive_inbound.
  destruct (d_MemoryStore (sr_deps r)) as [[st ap]|] eqn:Em; [|frames_tac].
  destruct (sf_memory own R r Hf st ap Em) as [_ Hap]. frames_tac.
Qed.

(** From a related world on, a session's outcome: a dispatch, or nothing more. *)
Definition ends_with_dispatch (p : Prepared) (w w' : World)
    (res : result (option (list (string * string)))) : Prop :=
  match res with
  | Ok (Some jobs) => exists w1, R w w1 /\
      dispatch r (s_ID (pp_sess p)) (plan_MetabolismPolicy (pp_plan p)) w1 = (w', Ok jobs)
  | _ => R w w'
  end.
Lemma ends_with_dispatch_trans p w w1 w' res :
  R w w1 -> ends_with_dispatch p w1 w' res -> ends_with_dispatch p w w' res.
Proof using PreOrder0.
  intros HR1. destruct res as [[jobs|]|e]; simpl; [|by etransitivity..].
  intros (w2 & HR2 & E). exists w2. split; [by etransitivity|done].
Qed.

Lemma submit_to_Commit js sid jt w : submit_to js sid jt w =
  match @js_Commit World js sid jt w with
  | (w', Ok id) => (w', Ok [(id, sid)]) | (w', Err _) => (w', Ok []) end.
Proof using Type.
  unfold submit_to, Submit, attempt, bind, wrapM, ret.
  by destruct (@js_Commit World js sid jt w) as [w' [id|e]].
Qed.

Lemma dispatch_Ok sid jt w : exists w' jobs, dispatch r sid jt w = (w', Ok jobs).
Proof using Type.
  unfold dispatch, attempt, ret.
  destruct (sr_supervisor r) as [[js stopped]|]; [destruct (stopped w); [eauto|]|
    destruct (sr_jobRunner r) as [js|]; [|destruct (d_JobStore (sr_deps r)) as [js|]; [|eauto]]];
    rewrite ?submit_to_Commit; destruct (@js_Commit _ js sid jt w) as [w1 [id|e]]; eauto.
Qed.

Lemma conduct_dispatches trigger p w w' res :
  own (s_ID (pp_sess p)) -> conduct r trigger p w = (w', res) -> ends_with_dispatch p w w' res.
Proof using Hf PreOrder0.
  intros Hown. unfold SessionRunner.conduct. intros E.
  apply frames_bind_inv with (R := R) in E as [(w1 & u & HR1 & _ & E)|(e & -> & HR)];
    [|exact HR|by apply frames_archive]. apply (ends_with_dispatch_trans p w w1 w'); [done|].
  destruct (d_LLM (sr_deps r)) as [llm|] eqn:El; [|injection E as <- <-; simpl; reflexivity].
  apply frames_bind_inv with (R := R) in E as [(w2 & [s lr] & HR2 & _ & E)|(e & -> & HR)];
    [|exact HR|by apply frames_wrapM, frames_with_state, frames_loop].
  apply (ends_with_dispatch_trans p w1 w2 w'); [done|].
  apply frames_bind_inv with (R := R) in E as [(w3 & [] & HR3 & _ & E)|(e & -> & HR)];
    [|exact HR|by apply frames_checkpoint]. apply (ends_with_dispatch_trans p w2 w3 w'); [done|].
  apply frames_bind_inv with (R := R) in E as [(w4 & now & HR4 & _ & E)|(e & -> & HR)];
    [|exact HR|by apply (sf_process own R r Hf)]. apply (ends_with_dispatch_trans p w3 w4 w'); [done|].
  apply frames_bind_inv with (R := R) in E as [(w5 & [] & HR5 & _ & E)|(e & -> & HR)];
    [|exact HR|by apply frames_checkpoint]. apply (ends_with_dispatch_trans p w4 w5 w'); [done|].
  unfold bind in E. destruct (dispatch_Ok (s_ID (pp_sess p)) (plan_MetabolismPolicy (pp_plan p)) w5)
    as (w6 & jobs & Ed). rewrite Ed in E. injection E as <- <-. exists w5. split; [reflexivity|done].
Qed.

(** A session either stops while it is prepared, or runs from the prepared world. *)
Lemma RunSession_cases trigger w w' res : RunSession r trigger w = (w', res) ->
  (R w w' /\ (forall jobs, res <> Ok (Some jobs)) /\
   (forall p, prepare json_snapshot r trigger w <> (w', Ok (Some p)))) \/
  (exists w1 p, prepare json_snapshot r trigger w = (w1, Ok (Some p)) /\ R w w1 /\
     conduct r trigger p w1 = (w', res)).
Proof using Hf PreOrder0.
  unfold SessionRunner.RunSession, bind. pose proof (frames_prepare trigger w) as Hp.
  destruct (prepare json_snapshot r trigger w) as [w1 [[p|]|e]] eqn:Ep; simpl in Hp.
  - intros E. right. eauto.
  - intros [= <- <-]. left. split_and!; [done|congruence|congruence].
  - intros [= <- <-]. left. split_and!; [done|congruence|congruence].
Qed.
End Frame.

(** ** Sessions on the shipped stores *)

(** Each table is the old one, or the old one and a row. *)
Ltac grow :=
  simpl; split_and!; first [by (exists []; rewrite app_nil_r) | eexists; reflexivity].

Section Shipped.
Context `{Env} `{!Process World} `{Host} `{FileStat} `{MapRange} {Args : Type}.
Context (json_snapshot : LifecyclePolicy -> string).
Variable json_Unmarshal : string -> result (option Args).
Variable json_Marshal : Args -> result string.
Variable empty_args : Args.
Variable deadline_exceeded : LW -> bool.
Variable fmt_duration : Z -> string.
Variable fmt_list : list string -> string.
Variable blocked_json : BlockedOutbound -> string.
Variable schedule : nat -> list nat.
Notation RunSession := (RunSession json_snapshot json_Unmarshal json_Marshal empty_args
  deadline_exceeded fmt_duration fmt_list blocked_json schedule).
Notation prepare := (prepare json_snapshot).

(** The job table, and the tables of the lifecycle store, as relations of two worlds. *)
Definition same_jobs (w w' : World) : Prop := db_jobs (w_db w') = db_jobs (w_db w).
Definition grows {A} (rows : Database -> list A) (w w' : World) : Prop :=
  exists l, rows (w_db w') = rows (w_db w) ++ l.
Definition records_grow (w w' : World) : Prop :=
  grows db_plans w w' /\ grows db_wakes w w' /\ grows db_manifests w w' /\ grows db_configs w w'.

#[local] Instance same_jobs_preorder : PreOrder same_jobs.
Proof using Type. unfold same_jobs. split; [by intros w|]. intros a b c E1 E2. congruence. Qed.
#[local] Instance grows_preorder {A} (rows : Database -> list A) : PreOrder (grows rows).
Proof using Type.
  split; [intros w; exists []; by rewrite app_nil_r|].
  intros a b c [l1 E1] [l2 E2]. exists (l1 ++ l2). by rewrite E2, E1, app_assoc.
Qed.
#[local] Instance records_grow_preorder : PreOrder records_grow.
Proof using Type.
  split; [intros w; by split_and!|].
  intros a b c (?&?&?&?) (?&?&?&?). split_and!; by etransitivity.
Qed.

Lemma grows_elem {A} (rows : Database -> list A) w w' x :
  grows rows w w' -> x ∈ rows (w_db w) -> x ∈ rows (w_db w').
Proof using Type. intros [l ->] Hx. apply elem_of_app. by left. Qed.

(** Every job store the session dispatches to is the shipped one. *)
Record sqlite_dispatch (r : SessionRunner Args) : Prop := {
  sd_supervisor : forall js stopped, sr_supervisor r = Some (js, stopped) -> js = SQLiteJobStore;
  sd_runner : forall js, sr_jobRunner r = Some js -> js = SQLiteJobStore;
  sd_store : forall js, d_JobStore (sr_deps r) = Some js -> js = SQLiteJobStore }.

Lemma Commit_creates sid jt w w' res : Commit sid jt w = (w', res) ->
  match res with
  | Ok id => db_jobs (w_db w') = db_jobs (w_db w) ++ [new_job id sid jt (w_clock w)]
  | Err _ => w_db w' = w_db w
  end.
Proof using Type.
  unfold Commit, bind, newID. intros E. apply exec_wrap_cases in E as [_ E].
  destruct res as [id|e]; [|by rewrite E].
  cbn [w_db bump_rng w_clock] in E.
  destruct (insert_pk jr_id _ _) as [rows|] eqn:Ei; [|done]. simpl in E. injection E as <- <-.
  apply insert_pk_Ok in Ei as [-> _]. done.
Qed.

Lemma submit_sqlite sid jt w w' jobs : submit_to SQLiteJobStore sid jt w = (w', Ok jobs) ->
  (jobs = [] /\ db_jobs (w_db w') = db_jobs (w_db w)) \/
  (exists id, jobs = [(id, sid)] /\
     db_jobs (w_db w') = db_jobs (w_db w) ++ [new_job id sid jt (w_clock w)]).
Proof using Type.
  rewrite submit_to_Commit. simpl.
  destruct (Commit sid jt w) as [w1 [id|e]] eqn:E; apply Commit_creates in E; intros [= <- <-].
  - right. eauto.
  - left. by rewrite E.
Qed.

(** What a dispatch adds to the job table: at most one pending job for the session. *)
Definition one_job (sid jt : string) (jobs : list (string * string)) (w w' : World) : Prop :=
  (jobs = [] /\ same_jobs w w') \/
  (exists id now, (jobs = [(id, sid)] \/ jobs = []) /\
     db_jobs (w_db w') = db_jobs (w_db w) ++ [new_job id sid jt now]).

Lemma dispatch_one_job r sid jt w w' jobs :
  sqlite_dispatch r -> dispatch r sid jt w = (w', Ok jobs) -> one_job sid jt jobs w w'.
Proof using Type.
  intros [H1' H2' H3']. unfold dispatch.
  assert (Hs : submit_to SQLiteJobStore sid jt w = (w', Ok jobs) -> one_job sid jt jobs w w').
  { intros [[-> E]|(id & -> & E)]%submit_sqlite; [by left|right; eauto]. }
  destruct (sr_supervisor r) as [[js stopped]|].
  { rewrite (H1' js stopped eq_refl). destruct (stopped w); [intros [= <- <-]; by left|exact Hs]. }
  destruct (sr_jobRunner r) as [js|]; [by rewrite (H2' js eq_refl)|].
  destruct (d_JobStore (sr_deps r)) as [js|]; [|intros [= <- <-]; by left].
  rewrite (H3' js eq_refl). unfold attempt, ret. simpl.
  destruct (Commit sid jt w) as [w1 [id|e]] eqn:E; apply Commit_creates in E; intros [= <- <-].
  - right. eauto 6.
  - left. split; [done|]. unfold same_jobs. by rewrite E.
Qed.

(** C7: Metabolism is dispatched last and once. Whatever the model, the tools and the
    stores do (short of writing jobs themselves), a session that fails or panics leaves
    the job table alone; one that succeeds adds at most one row, the pending job of its
    own session, typed with its plan's metabolism policy, and starts no other. *)
Theorem session_dispatches_last r trigger w w' res :
  session_frame same_jobs r -> sqlite_dispatch r -> RunSession r trigger w = (w', res) ->
  match res with
  | Ok (Some jobs) => exists w1 p, prepare r trigger w = (w1, Ok (Some p)) /\
      one_job (s_ID (pp_sess p)) (plan_MetabolismPolicy (pp_plan p)) jobs w w'
  | _ => same_jobs w w'
  end.
Proof using Type.
  intros Hf Hd E. apply (RunSession_cases same_jobs json_snapshot _ _ _ _ _ _ _ _ (fun _ => True)) in E; [|done].
  destruct E as [(HR & Hno & _)|(w1 & p & Ep & HR & E)].
  - destruct res as [[jobs|]|e]; [|done..]. by destruct (Hno jobs).
  - apply (conduct_dispatches same_jobs _ _ _ _ _ _ _ _ (fun _ => True)) in E; [|done..]. unfold ends_with_dispatch in E.
    destruct res as [[jobs|]|e]; [|by transitivity w1..].
    destruct E as (w2 & HR2 & E). apply dispatch_one_job in E; [|done].
    exists w1, p. split; [done|]. assert (HR' : same_jobs w w2) by (by transitivity w1).
    unfold one_job, same_jobs in *. by rewrite <- HR'.
Qed.

(** *** The lifecycle store only adds rows *)

Lemma RecordPlan_cases p w w' out : RecordPlan (Some p) w = (w', out) ->
  exists id res, out = Ok (id, res) /\
  match res with
  | Ok _ => db_plans (w_db w') = db_plans (w_db w) ++ [plan_row p id (w_clock w)] /\
            w_db w' = set_plans (fun _ => db_plans (w_db w')) (w_db w)
  | Err _ => w_db w' = w_db w
  end.
Proof using Type.
  unfold RecordPlan, bind. intros E.
  assert (Ha : exists w1 id, assign_id (plan_ID p) w = (w1, Ok id) /\ w_db w1 = w_db w /\ w_clock w1 = w_clock w).
  { unfold assign_id, newID, ret. destruct (str_empty _); eauto. }
  destruct Ha as (w1 & id & Ea & Ed & Ec). rewrite Ea in E. unfold attempt, ret in E.
  destruct (wrapM _ _ w1) as [w2 res] eqn:E1. injection E as <- <-. exists id, res. split; [done|].
  apply exec_wrap_cases in E1 as [_ E1]. destruct res as [u|e]; [|by rewrite E1].
  rewrite Ed, Ec in E1. unfold check_constraint in E1. destruct (plan_checks _); [|done]. simpl in E1.
  destruct (insert_pk _ _ _) eqn:Ei; [|done]. injection E1 as <- _. apply insert_pk_Ok in Ei as [-> _].
  done.
Qed.

Lemma RecordManifest_cases m w w' out : RecordManifest (Some m) w = (w', out) ->
  exists id res, out = Ok (id, res) /\
  match res with
  | Ok _ => w_db w' = set_manifests (fun l => l ++ [manifest_row m id (w_clock w)]) (w_db w)
  | Err _ => w_db w' = w_db w
  end.
Proof using Type.
  unfold RecordManifest, bind. intros E.
  assert (Ha : exists w1 id, assign_id (mf_ID m) w = (w1, Ok id) /\ w_db w1 = w_db w /\ w_clock w1 = w_clock w).
  { unfold assign_id, newID, ret. destruct (str_empty _); eauto. }
  destruct Ha as (w1 & id & Ea & Ed & Ec). rewrite Ea in E. unfold attempt, ret in E.
  destruct (wrapM _ _ w1) as [w2 res] eqn:E1. injection E as <- <-. exists id, res. split; [done|].
  apply exec_wrap_cases in E1 as [_ E1]. destruct res as [u|e]; [|by rewrite E1].
  rewrite Ed, Ec in E1. destruct (fk_plan _ _); [|done]. simpl in E1.
  destruct (insert_pk _ _ _) eqn:Ei; [|done]. injection E1 as <- _. apply insert_pk_Ok in Ei as [-> _].
  done.
Qed.

(** The facts of a session go under a plan of that session. *)
Lemma RecordWakeFacts_plan sid f w w' u : RecordWakeFacts sid (Some f) w = (w', Ok u) ->
  exists row, row ∈ db_plans (w_db w) /\ pr_session_id row = sid /\
    w_db w' = set_wakes (fun l => l ++ [wake_row f (pr_id row) (w_clock w)]) (w_db w).
Proof using Type.
  unfold RecordWakeFacts, bind. destruct (wrapM _ (query _) w) as [w1 [pid|e]] eqn:E1; [|done].
  unfold query in E1. apply exec_wrap_cases in E1 as [Ec E1].
  destruct (last_by _ _) as [row|] eqn:El; [|done]. injection E1 as Ed <-. intros E.
  apply exec_wrap_cases in E as [_ E]. rewrite <- Ed, Ec in E.
  destruct (check_constraint _ _); [|done]. simpl in E. destruct (fk_plan _ _); [|done]. injection E as <-.
  apply last_by_max in El as [El _]. apply elem_of_whereb in El as [Hin Hsid]. bools. eauto.
Qed.

(** What everything but the dispatch keeps on the shipped stores. *)
Definition kept (w w' : World) : Prop := same_jobs w w' /\ records_grow w w'.
#[local] Instance kept_preorder : PreOrder kept.
Proof using Type.
  split; [intros w; split; reflexivity|]. intros a b c [? ?] [? ?]. split; by etransitivity.
Qed.

Lemma same_db_grows w w' : w_db w' = w_db w -> records_grow w w'.
Proof using Type. intros E. unfold records_grow, grows. rewrite E. grow. Qed.
Lemma same_db_kept w w' : w_db w' = w_db w -> kept w w'.
Proof using Type. intros E. split; [unfold same_jobs; by rewrite E|by apply same_db_grows]. Qed.
Lemma query_kept {A} (f : Database -> Z -> result A) : frames kept (query f).
Proof using Type. apply frames_intro. intros w w' r E. apply same_db_kept. by apply query_frame in E as [? _]. Qed.

Lemma sqlite_lifecycle_kept : frames_lifecycle kept SQLiteLifecycleStore.
Proof using Type.
  assert (Hk : forall w w' d, w_db w' = d -> kept w (with_db d w') -> kept w w').
  { intros w w' d <- Hk. destruct Hk as [? ?]. by split. }
  split; intros; try apply frames_wrapM, query_kept; apply frames_intro; intros w w' out E; cbn in E.
  - apply (RecordPlan_cases p) in E as (id & [u|e] & -> & E); [|by apply same_db_kept].
    destruct E as [E' E]. rewrite E' in E. apply (Hk _ _ _ E). split; [done|]. unfold records_grow, grows. grow.
  - apply (RecordWakeFacts_cases sid (Some f)) in E as [E|(row & E & _)]; [by apply same_db_kept|].
    apply (Hk _ _ _ E). split; [done|]. unfold records_grow, grows. grow.
  - apply (RecordManifest_cases m) in E as (id & [u|e] & -> & E); [|by apply same_db_kept].
    apply (Hk _ _ _ E). split; [done|]. unfold records_grow, grows. grow.
  - apply exec_wrap_cases in E as [_ E]. destruct out; [|by apply same_db_kept]. injection E as E.
    apply (Hk _ _ _ (eq_sym E)). split; [done|]. unfold records_grow, grows. grow.
  - apply exec_wrap_cases in E as [_ E]. destruct out; [|by apply same_db_kept].
    destruct (check_constraint _ _); [|done]. injection E as E.
    apply (Hk _ _ _ (eq_sym E)). split; [done|]. unfold records_grow, grows. grow.
Qed.

Lemma append_kept e : frames kept (AppendExperiential e).
Proof using Type.
  apply frames_intro. intros w w' r E. apply AppendExperiential_cases in E as [E|(row & rows & _ & _ & E)];
    [by apply same_db_kept|]. unfold kept, same_jobs, records_grow, grows. rewrite E. split; [done|]. grow.
Qed.

(** *** What is on record before the loop *)

(** The session's plan, facts under a plan of the session, and its manifest. *)
Definition on_record (p : Prepared) (d : Database) : Prop :=
  let sid := s_ID (pp_sess p) in
  (exists row, row ∈ db_plans d /\ pr_id row = plan_ID (pp_plan p) /\ pr_session_id row = sid) /\
  (exists wr row, wr ∈ db_wakes d /\ row ∈ db_plans d /\ wr_plan_id wr = pr_id row /\
     pr_session_id row = sid) /\
  (exists m, m ∈ db_manifests d /\ mr_session_id m = sid /\ mr_plan_id m = plan_ID (pp_plan p)).

Lemma on_record_grows p w w' : records_grow w w' -> on_record p (w_db w) -> on_record p (w_db w').
Proof using Type.
  intros (Hp & Hw & Hm & _) ((row & R1 & R2 & R3) & (wr & row' & W1 & W2 & W3) & (m & M1 & M2)).
  unfold on_record. split_and!; eauto 8 using grows_elem.
Qed.

Lemma recorded_Ok {A} msg (m : M World (A * result unit)) w w' a :
  recorded msg m w = (w', Ok a) -> exists u, m w = (w', Ok (a, Ok u)).
Proof using Type.
  unfold recorded, bind, ret, fail. destruct (m w) as [w1 [[b [u|e]]|e]]; [|done..].
  intros [= <- <-]. eauto.
Qed.

Lemma record_artifacts_records deps plan sid facts w w' plan' :
  d_LifecycleStore deps = Some SQLiteLifecycleStore -> plan_SessionID plan = sid ->
  @record_artifacts Args deps plan sid facts w = (w', Ok plan') ->
  (exists row, row ∈ db_plans (w_db w') /\ pr_id row = plan_ID plan' /\ pr_session_id row = sid) /\
  (exists wr row, wr ∈ db_wakes (w_db w') /\ row ∈ db_plans (w_db w') /\ wr_plan_id wr = pr_id row /\
     pr_session_id row = sid).
Proof using Type.
  intros Hs Hsid. unfold record_artifacts. rewrite Hs. intros E.
  apply bind_Ok in E as (w1 & id & E1 & E). apply recorded_Ok in E1 as [u E1].
  apply (RecordPlan_cases plan) in E1 as (id' & res & Eo & E1). injection Eo as <- <-. destruct E1 as [E1 _].
  apply bind_Ok in E as (w2 & u' & E2 & E). injection E as <- <-.
  unfold wrapM in E2. destruct (ls_RecordWakeFacts _ _ _ _) as [w3 [u2|e]] eqn:E3; [|done].
  simpl in E2. injection E2 as <- _. apply (RecordWakeFacts_plan sid facts) in E3 as (row & Hin & Hrow & Ed).
  rewrite Ed. simpl. split.
  - exists (plan_row plan id (w_clock w)). rewrite E1. split_and!; [|done|done].
    apply elem_of_app. right. by left.
  - eexists _, row. split; [apply elem_of_app; right; by left|]. done.
Qed.

Lemma Assemble_manifest_ids (a : ContextAssembler World) cfg w w' c :
  Assemble a cfg w = (w', Ok (Some c)) ->
  mf_SessionID (ctx_Manifest c) = cfg_SessionID cfg /\
  mf_PlanID (ctx_Manifest c) = match cfg_Plan cfg with Some p => plan_ID p | None => "" end.
Proof using Type.
  unfold Assemble, attempt. destruct (phase_loop _ _ _ _) as [[w1 dm] [[pg|]|e]]; [|done..].
  unfold finish, bind, liftW, draw. cbn.
  destruct (crypto_Read16 w1) as [w2 bs]. cbn. destruct (time_Now w2) as [w3 now]. cbn.
  by intros [= _ <-].
Qed.

Lemma prepare_records (r : SessionRunner Args) trigger w w1 p :
  session_frame records_grow r -> d_LifecycleStore (sr_deps r) = Some SQLiteLifecycleStore ->
  prepare r trigger w = (w1, Ok (Some p)) -> on_record p (w_db w1).
Proof using Type.
  intros Hf Hs E. cbv delta [SessionRunner.prepare] beta zeta in E.
  apply bind_Ok in E as (wa & [policy hash] & _ & E). apply bind_Ok in E as (wb & [note prev] & _ & E).
  do 4 apply bind_Ok in E as (? & ? & _ & E). apply bind_Ok in E as (? & ? & _ & E).
  apply bind_Ok in E as (wc & sess & _ & E). apply bind_Ok in E as (wd & plan & E1 & E).
  apply record_artifacts_records in E1; [|done|done].
  apply bind_Ok in E as (we & u & E2 & E). apply bind_Ok in E as (wf & asm & E3 & E).
  destruct asm as [c|]; [|done]. apply bind_Ok in E as (wg & mid & E4 & E). injection E as <- <-.
  assert (G2 : records_grow wd we).
  { eapply frames_elim; [|exact E2]. unfold record_disclosure. rewrite Hs.
    destruct (str_empty note); [apply frames_ret; apply _|]. apply frames_wrapM.
    eapply frames_mono, sqlite_lifecycle_kept. by intros ? ? [? ?]. }
  assert (G3 : records_grow we wf).
  { eapply frames_elim; [|exact E3]. apply frames_wrapM. destruct (sf_assembler _ _ r Hf) as (dir & b & ->).
    apply frames_Assemble; [apply _|]. eapply frames_session_config; [apply _|exact Hf]. }
  rewrite Hs in E4. apply recorded_Ok in E4 as [u' E4].
  apply (RecordManifest_cases (ctx_Manifest c)) in E4 as (id & res & Eo & E4). injection Eo as <- <-.
  unfold wrapM in E3. destruct (Assemble _ _ we) as [wh ra] eqn:Ea. injection E3 as -> Er.
  destruct ra as [oc|]; [|done]. simpl in Er. injection Er as ->.
  apply Assemble_manifest_ids in Ea as [M1 M2]. simpl in M1, M2.
  assert (G4 : records_grow wf wg) by (unfold records_grow, grows; rewrite E4; grow).
  assert (G : records_grow wd wg) by (etransitivity; [exact G2|]; etransitivity; [exact G3|exact G4]).
  destruct G as (Gp & Gw & _). destruct E1 as [(row & R1 & R2 & R3) (wr & row' & W1 & W2 & W3)].
  unfold on_record. simpl. split_and!; [by eauto 8 using grows_elem|by eauto 8 using grows_elem|].
  rewrite E4. simpl. eexists. split; [apply elem_of_app; right; by left|]. done.
Qed.

Lemma dispatch_records (r : SessionRunner Args) sid jt w w' jobs :
  sqlite_dispatch r -> dispatch r sid jt w = (w', Ok jobs) -> records_grow w w'.
Proof using Type.
  intros [H1' H2' H3']. unfold dispatch, attempt, ret.
  assert (Hc : forall w w' res, Commit sid jt w = (w', res) -> records_grow w w').
  { intros w0 w0' res E. unfold Commit, bind, newID in E. apply exec_wrap_cases in E as [_ E].
    destruct res; [|by apply same_db_grows]. destruct (insert_pk _ _ _); [|done]. injection E as E _.
    unfold records_grow, grows. rewrite <- E. grow. }
  destruct (sr_supervisor r) as [[js stopped]|].
  { rewrite (H1' js stopped eq_refl). destruct (stopped w); [by intros [= -> _]|]. rewrite submit_to_Commit. simpl.
    destruct (Commit sid jt w) as [w1 res] eqn:E. apply Hc in E. by destruct res; intros [= <- _]. }
  destruct (sr_jobRunner r) as [js|]; [rewrite (H2' js eq_refl)|
    destruct (d_JobStore (sr_deps r)) as [js|]; [rewrite (H3' js eq_refl)|by intros [= -> _]]];
    rewrite ?submit_to_Commit; simpl; destruct (Commit sid jt w) as [w1 res] eqn:E; apply Hc in E;
    by destruct res; intros [= <- _].
Qed.

(** C6: Fail-closed recording. With the SQLite stores, and whatever the other
    dependencies do (short of deleting lifecycle rows), no session reaches its inbound
    archive, its engine loop or its dispatch before its plan, its wake facts and its
    assembly manifest are stored under its ID; they are still there when it ends. A
    session that cannot record them ends there, with an error or a panic. *)
Theorem session_recorded_before_loop r trigger w w' res :
  session_frame records_grow r -> sqlite_dispatch r ->
  d_LifecycleStore (sr_deps r) = Some SQLiteLifecycleStore ->
  RunSession r trigger w = (w', res) ->
  (exists w1 p, prepare r trigger w = (w1, Ok (Some p)) /\
     conduct json_Unmarshal json_Marshal empty_args deadline_exceeded fmt_duration fmt_list
       blocked_json schedule r trigger p w1 = (w', res) /\
     on_record p (w_db w1) /\ on_record p (w_db w')) \/
  ((forall p, prepare r trigger w <> (w', Ok (Some p))) /\ forall jobs, res <> Ok (Some jobs)).
Proof using Type.
  intros Hf Hd Hs E. apply (RunSession_cases records_grow json_snapshot _ _ _ _ _ _ _ _ (fun _ => True)) in E; [|done].
  destruct E as [(_ & Hno & Hp)|(w1 & p & Ep & _ & E)]; [by right|left].
  pose proof (prepare_records _ _ _ _ _ Hf Hs Ep) as Hr. exists w1, p. split_and!; [done..|].
  apply (on_record_grows p w1); [|done].
  apply (conduct_dispatches records_grow _ _ _ _ _ _ _ _ (fun _ => True)) in E; [|done..].
  destruct res as [[jobs|]|e]; [|done..]. destruct E as (w2 & G & E).
  etransitivity; [exact G|by eapply dispatch_records].
Qed.

(** *** The plan is well-formed *)

Lemma default_policy_ok : policy_ok default_policy.
Proof using Type. split; [right..|by left]; apply one_of_elem; reflexivity. Qed.

Lemma Read_ok ws p h : Read ws = Ok (p, h) -> policy_ok p.
Proof using Type.
  unfold Read. destruct (os_ReadFile _) as [|msg|data]; [|done|].
  - intros [= <- <-]. by split; left.
  - destruct (json_policy data) as [doc|e]; [|done]. simpl. pose proof (validate_spec doc) as Hv.
    destruct (validate doc); [|done]. simpl. intros [= <- <-]. by apply toCanonical_ok.
Qed.

(** The columns of a stored plan make a policy again. *)
Lemma policy_of_plan_ok row : plan_checks row = true -> policy_ok (policy_of_plan row).
Proof using Type.
  unfold plan_checks. rewrite !andb_true_iff, !one_of_elem.
  intros [[[[[[[Ht _] _] _] Ha] Hb] Hm] _]. split; simpl; [by right|by right|by right|by left|by right].
Qed.

Lemma queryLastPolicy_ok db w w' p : lifecycle_ok (w_db w) ->
  queryLastPolicy db w = (w', Ok (Some p)) -> policy_ok p.
Proof using Type.
  intros Hok. unfold queryLastPolicy, last_row. destruct db; [|done]. unfold attempt.
  destruct (query _ w) as [w1 [x|e]] eqn:E; [|done]. intros [= <- <-].
  unfold query in E. apply exec_cases in E as [_ E].
  destruct (last_by _ _) as [row|] eqn:El; [|done]. injection E as _ <-.
  apply last_by_max in El as [El _]. apply policy_of_plan_ok.
  pose proof (lo_checks _ Hok) as Hc. by rewrite Forall_forall in Hc; apply Hc.
Qed.

Lemma read_policy_ok (deps : Dependencies Args) w w' p h :
  lifecycle_ok (w_db w) -> read_policy deps w = (w', Ok (p, h)) -> policy_ok p.
Proof using Type.
  intros Hok. unfold read_policy. destruct (Read (d_WorkspaceDir deps)) as [[p0 h0]|e] eqn:Er.
  - intros [= <- <- <-]. by eapply Read_ok.
  - intros E. apply bind_Ok in E as (w1 & o & E1 & E). injection E as <- <- <-.
    destruct o as [p0|]; [by eapply queryLastPolicy_ok|apply default_policy_ok].
Qed.

(** C32: Whatever the policy file holds, whatever fails on the way and whatever was seen
    of the last wake and the last jobs: on lifecycle tables that keep their constraints,
    the plan a session runs under is well-formed, every field in its declared
    vocabulary, and carries the session's ID. *)
Theorem session_plan_wellformed (r : SessionRunner Args) trigger w w1 p :
  lifecycle_ok (w_db w) -> prepare r trigger w = (w1, Ok (Some p)) ->
  plan_ok (pp_plan p) /\ plan_SessionID (pp_plan p) = s_ID (pp_sess p) /\
  plan_WakeCause (pp_plan p) = wakeReasonToCause (st_WakeReason trigger).
Proof using Type.
  intros Hok E. cbv delta [SessionRunner.prepare] beta zeta in E.
  apply bind_Ok in E as (wa & [policy hash] & Ep & E). apply (read_policy_ok (sr_deps r)) in Ep; [|done].
  apply bind_Ok in E as (wb & [note prev] & _ & E). apply bind_Ok in E as (wc & at_ & _ & E).
  apply bind_Ok in E as (wd & last & _ & E). apply bind_Ok in E as (we & op & _ & E).
  apply bind_Ok in E as (wf & id & _ & E). apply bind_Ok in E as (wg & started & _ & E).
  apply bind_Ok in E as (wh & sess & _ & E). apply bind_Ok in E as (wi & plan & E1 & E).
  apply bind_Ok in E as (wj & u & _ & E). apply bind_Ok in E as (wk & [c|] & _ & E); [|done].
  apply bind_Ok in E as (wl & mid & _ & E). injection E as <- <-. simpl.
  pose proof (Resolve_plan_ok policy _ op id at_ Ep (observed_facts_ok (st_WakeReason trigger) at_ last)) as [].
  assert (Hb : exists i, plan = backfill i (s_ID sess) (backfill id (s_ID sess)
            (Resolve policy (observed_facts (st_WakeReason trigger) at_ last) op id at_))).
  { unfold record_artifacts in E1. destruct (d_LifecycleStore _) as [ls|].
    - apply bind_Ok in E1 as (? & i & _ & E1). apply bind_Ok in E1 as (? & ? & _ & E1).
      injection E1 as _ <-. by exists i.
    - injection E1 as _ <-. exists id. done. }
  destruct Hb as [i ->]. split; [by split|]. split; [done|].
  by destruct (Resolve_copied policy (observed_facts (st_WakeReason trigger) at_ last) op id at_) as (_ & Hc & _).
Qed.

(** Every metabolism policy is dispatched alike, [skip] and [deferred] too: the policy
    is the job's type, which nothing reads, and its processing starts at once. *)
Lemma dispatch_ignores_policy (r : SessionRunner Args) js sid jt w w1 id :
  sr_supervisor r = None -> sr_jobRunner r = Some js ->
  @js_Commit _ js sid jt w = (w1, Ok id) -> dispatch r sid jt w = (w1, Ok [(id, sid)]).
Proof using Type. intros Hs Hj E. unfold dispatch. by rewrite Hs, Hj, submit_to_Commit, E. Qed.
End Shipped.

(** ** A concrete session *)

Definition demo_registry : @ToolRegistry World unit :=
  {| reg_Get := fun _ => None; reg_GetMeta := fun _ => None; reg_List := [] |}.
Definition demo_answer : CompletionResponse :=
  {| resp_Blocks := [{| cb_Type := BlockText; cb_Text := "Good morning."; cb_Thinking := "";
                        cb_ToolCall := None; cb_FieldName := "" |}];
     resp_FinishReason := "stop"; resp_PromptTokens := 100; resp_CompletionTokens := 20;
     resp_ThinkingTokens := 0; resp_RawTokS := f_zero; resp_TTFT := 0; resp_TotalLatency := 0 |}.
Definition demo_deps : Dependencies unit :=
  {| d_AgentName := "ersa"; d_WorkspaceDir := "ws"; d_TokenBudget := 100000; d_HardFloorTokens := 0;
     d_SkipWitnessCheck := false; d_DB := true; d_LLM := Some (fun _ => ret demo_answer);
     d_MemoryStore := Some (Assembly.demo_memory, @AppendExperiential demo_env);
     d_EmbeddingProvider := None; d_AssemblyStore := Some demo_assembly_store;
     d_LifecycleStore := Some (@SQLiteLifecycleStore demo_env);
     d_JobStore := Some (@SQLiteJobStore demo_env); d_ToolRegistry := demo_registry;
     d_Gateway := None |}.
Definition demo_runner : SessionRunner unit :=
  {| sr_deps := demo_deps; sr_assembler := demo_assembler;
     sr_jobRunner := Some (@SQLiteJobStore demo_env); sr_supervisor := None |}.
Definition demo_trigger : SessionTrigger :=
  {| st_WakeReason := "channel:discord"; st_InboundContent := "hello"; st_InboundSender := "ada";
     st_InboundChannel := "discord"; st_InbandNotes := []; st_AegisAnnotation := None |}.
Definition demo_prepare :=
  @prepare demo_env demo_process demo_host unit (fun _ => "{}") demo_runner demo_trigger.
Definition demo_session :=
  @RunSession demo_env demo_process demo_host unit (fun _ => "{}") (fun _ => Ok None) (fun _ => Ok "")
    tt (fun _ => false) (fun _ => "") (fun _ => "") (fun _ => "") (fun n => seq 0 n)
    demo_runner demo_trigger.

Lemma demo_frame : @session_frame demo_env demo_process demo_host demo_stat demo_range unit kept demo_runner.
Proof.
  assert (Hret : forall A (a : A), frames kept (ret a)) by (intros; apply frames_ret, kept_preorder).
  unfold session_frame. split; simpl; intros; simplify_eq; try done.
  - apply query_kept.
  - by apply same_db_kept.
  - split; apply frames_intro; intros w w' x [= <- _]; by apply same_db_kept.
  - by eexists _, _.
  - split; [split; intros; apply Hret|intros; apply append_kept].
  - apply sqlite_lifecycle_kept.
  - apply frames_wrapM, query_kept.
Qed.

Lemma demo_sqlite : @sqlite_dispatch demo_env unit demo_runner.
Proof. split; simpl; by intros; simplify_eq. Qed.

Lemma session_dispatches_last_witness :
  exists jobs, (demo_session demo_world).2 = Ok (Some jobs) /\ jobs <> [] /\
    exists w1 p, demo_prepare demo_world = (w1, Ok (Some p)) /\
      one_job (s_ID (pp_sess p)) (plan_MetabolismPolicy (pp_plan p)) jobs demo_world (demo_session demo_world).1.
Proof.
  eexists. split; [vm_compute; reflexivity|]. split; [discriminate|].
  refine (@session_dispatches_last demo_env demo_process demo_host demo_stat demo_range unit
    (fun _ => "{}") (fun _ => Ok None) (fun _ => Ok "") tt (fun _ => false) (fun _ => "") (fun _ => "")
    (fun _ => "") (fun n => seq 0 n) demo_runner demo_trigger demo_world (demo_session demo_world).1
    (Ok (Some _)) _ demo_sqlite _).
  - eapply session_frame_mono, demo_frame. by intros ? ? [? _].
  - vm_compute. reflexivity.
Defined.

Lemma session_recorded_before_loop_witness :
  exists w1 p, demo_prepare demo_world = (w1, Ok (Some p)) /\
    on_record p (w_db w1) /\ on_record p (w_db (demo_session demo_world).1).
Proof.
  destruct (@session_recorded_before_loop demo_env demo_process demo_host demo_stat demo_range unit
    (fun _ => "{}") (fun _ => Ok None) (fun _ => Ok "") tt (fun _ => false) (fun _ => "") (fun _ => "")
    (fun _ => "") (fun n => seq 0 n) demo_runner demo_trigger demo_world (demo_session demo_world).1
    (demo_session demo_world).2) as [(w1 & p & Ep & _ & H1 & H2)|[_ Hno]].
  - eapply session_frame_mono, demo_frame. by intros ? ? [_ ?].
  - apply demo_sqlite.
  - reflexivity.
  - exact (surjective_pairing (demo_session demo_world)).
  - exists w1, p. exact (conj Ep (conj H1 H2)).
  - exfalso. eapply Hno. vm_compute. reflexivity.
Defined.

Lemma demo_lifecycle_ok : @lifecycle_ok demo_env (w_db demo_world).
Proof. repeat constructor. Qed.
Lemma session_plan_wellformed_witness :
  exists w1 p, demo_prepare demo_world = (w1, Ok (Some p)) /\ plan_ok (pp_plan p).
Proof.
  assert (E : exists w1 p, demo_prepare demo_world = (w1, Ok (Some p))).
  { eexists _, _. vm_compute. reflexivity. }
  destruct E as (w1 & p & E). exists w1, p. split; [exact E|].
  exact (proj1 (@session_plan_wellformed demo_env demo_process demo_host unit (fun _ => "{}")
    demo_runner demo_trigger demo_world w1 p demo_lifecycle_ok E)).
Defined.

(** The fallback for an unreadable policy file is built from the last plan, whose
    profile is the resolved one: after an interrupted session it is [full], whatever
    the policy says. *)
Example fallback_policy_is_the_resolved_profile :
  let policy := {| lp_TemporalMode := ""; lp_DefaultAssembly := AssemblyMinimal; lp_BridgePolicy := "";
                   lp_ActivityProfile := ""; lp_MetabolismPolicy := ""; lp_CommitHash := "h" |} in
  let op := {| os_PriorRuntimeStatus := RuntimeInterrupted; os_PriorMetabolismStatus := "";
               os_LastAppliedConfigHash := "" |} in
  let plan := Resolve policy (observed_facts "heartbeat" 0 None) op "p1" 0 in
  let w := (@LifecycleStore.RecordPlan demo_env (Some plan) demo_world).1 in
  match (@queryLastPolicy demo_env true w).2 with
  | Ok (Some p) => lp_DefaultAssembly p = AssemblyFull
  | _ => False
  end.
Proof. vm_compute. reflexivity. Qed.
