(* ===== verification/Agent.v ===== *)
(** * The whole agent: sessions, workers and the store they share

    Sessions ([app/session_runner.go]) append to T2 and dispatch metabolism jobs; workers
    ([metabolism/runner.go]) claim, consolidate and finish them. They run concurrently
    over one database: [agent_step] interleaves the pieces of both, a session's draw of
    its ID, each of its appends to T2 and its dispatch, a worker's claim, load, commit and
    final write, every one the store's own operation.
    [RunSession_steps] and [Run_steps] show that the code's own calls are sequences of
    these steps; the theorems hold in every reachable state. *)

From S2P Require Import Prelude Frames Types Db Jobs Consolidation Metabolism Runner LifecycleStore.
From S2P Require Import Session Engine Identity Awareness Assembly SessionRunner SessionProps.
From S2P Require Aegis.

(** ** What a session may do to memory while it lives *)

Section Experience.
Context `{Env}.

(** What an append to T2 does, as [append_experience] shows of the store's own: jobs and
    narratives stay, no draw is taken back, and T2 grows by fresh rows of the sessions
    [own], none linked yet. *)
Definition new_logs (own : string -> Prop) (d d' : Database) : Prop :=
  exists rows, db_logs d' = db_logs d ++ rows /\
    Forall (fun x => own (lr_session_id x) /\ lr_narrative_summary_id x = None) rows.
Record experience (own : string -> Prop) (w w' : World) : Prop := {
  ex_jobs : db_jobs (w_db w') = db_jobs (w_db w);
  ex_narratives : db_narratives (w_db w') = db_narratives (w_db w);
  ex_rng : (w_rng w <= w_rng w')%nat;
  ex_logs : new_logs own (w_db w) (w_db w');
  ex_unique : NoDup (map lr_id (db_logs (w_db w))) -> NoDup (map lr_id (db_logs (w_db w'))) }.
(** Nobody's experience: jobs, logs and narratives stay. It is what the parts of the
    agent that are not modelled here are asked to do to these three tables. *)
Definition quiet : World -> World -> Prop := experience (fun _ => False).

#[global] Instance experience_preorder own : PreOrder (experience own).
Proof using Type.
  split.
  - intros w. split; [done..|lia| |done]. exists []. by rewrite app_nil_r.
  - intros a b c [J1 N1 R1 (r1 & L1 & F1) U1] [J2 N2 R2 (r2 & L2 & F2) U2]. split.
    + congruence.
    + congruence.
    + lia.
    + exists (r1 ++ r2). rewrite L2, L1, app_assoc. split; [done|]. by apply Forall_app.
    + auto.
Qed.

Lemma quiet_logs w w' : quiet w w' -> db_logs (w_db w') = db_logs (w_db w).
Proof using Type.
  intros [_ _ _ (rows & -> & Hr) _]. destruct rows as [|x rows]; [apply app_nil_r|].
  by apply Forall_cons in Hr as [[[] _] _].
Qed.
Lemma same_tables_quiet w w' : db_jobs (w_db w') = db_jobs (w_db w) ->
  same_memory (w_db w) (w_db w') -> (w_rng w <= w_rng w')%nat -> quiet w w'.
Proof using Type.
  intros Hj [Hl Hn] Hr. split; [done..| |by rewrite Hl].
  exists []. by rewrite app_nil_r.
Qed.
Lemma same_db_quiet w w' : w_db w' = w_db w -> (w_rng w <= w_rng w')%nat -> quiet w w'.
Proof using Type. intros E Hr. apply same_tables_quiet; [by rewrite E| |done]. unfold same_memory. by rewrite E. Qed.
Lemma quiet_experience own w w' : quiet w w' -> experience own w w'.
Proof using Type.
  intros [Hj Hn Hr (rows & L & F) Hu]. split; [done..| |done].
  exists rows. split; [done|]. eapply Forall_impl; [exact F|]. by intros ? [[] _].
Qed.

(** The append of the memory store, asked only for entries of the sessions [own]. *)
Lemma append_experience own e : own (el_SessionID e) -> frames (experience own) (AppendExperiential e).
Proof using Type.
  intros Ho. apply frames_intro. intros w w' r. unfold AppendExperiential, exec.
  destruct (db_fault _); [intros [= <- _]; apply quiet_experience, same_db_quiet; [done|simpl; lia]|].
  destruct (insert_pk _ _ _) as [rows|x] eqn:Ei; simpl; intros [= <- _];
    [|apply quiet_experience, same_db_quiet; [done|simpl; lia]].
  apply insert_pk_Ok in Ei as [-> Hu]. split; simpl; [done..|lia| |done].
  eexists. split; [done|]. by constructor.
Qed.

(** A session at work: appends for the sessions [own], by the store's own
    [AppendExperiential], and whatever leaves jobs, T2 and narratives alone. *)
Definition works (own : string -> Prop) (w w' : World) : Prop :=
  (exists e r, own (el_SessionID e) /\ AppendExperiential e w = (w', r)) \/ quiet w w'.
Definition lives (own : string -> Prop) : relation World := rtc (works own).
#[global] Instance quiet_lives own : subrelation quiet (lives own).
Proof using Type. intros w w' Hq. apply rtc_once. by right. Qed.
Lemma append_lives own e : own (el_SessionID e) -> frames (lives own) (AppendExperiential e).
Proof using Type. intros Ho. apply frames_intro. intros w w' r E. apply rtc_once. left. eauto. Qed.

(** A statement on other tables, a query, a draw. *)
Lemma exec_experience {A} own (f : Database -> Z -> result (Database * A)) :
  (forall d now d' a, f d now = Ok (d', a) -> db_jobs d' = db_jobs d /\ same_memory d d') ->
  frames (experience own) (exec f).
Proof using Type.
  intros Hf. apply frames_intro. intros w w' r. unfold exec. destruct (db_fault _).
  - intros [= <- _]. apply quiet_experience, same_db_quiet; [done|simpl; lia].
  - destruct (f _ _) as [[d a]|e] eqn:E; intros [= <- _]; apply quiet_experience;
      [|apply same_db_quiet; [done|simpl; lia]].
    apply Hf in E as [? ?]. apply same_tables_quiet; [done..|simpl; lia].
Qed.
Lemma query_experience {A} own (f : Database -> Z -> result A) : frames (experience own) (query f).
Proof using Type. apply exec_experience. intros d now d' a. destruct (f d now); [by intros [= <- _]|done]. Qed.
Lemma newID_experience own : frames (experience own) newID.
Proof using Type. intros w. apply quiet_experience, same_db_quiet; [done|simpl; lia]. Qed.

Lemma lifecycle_experience own : frames_lifecycle (experience own) SQLiteLifecycleStore.
Proof using Type.
  pose proof newID_experience as Hid. pose proof (fun A => @query_experience A own) as Hq.
  split; intros; simpl; unfold RecordPlan, RecordWakeFacts, RecordManifest, RecordDisclosure, WriteCheckpoint,
    LastCheckpointState, LastWakeAt, last_or, assign_id, scan_time; frames_tac.
  all: apply exec_experience; intros dd t dd' y E; cbv zeta beta in E;
    repeat match type of E with (let? _ := ?m in _) = _ => destruct m; [|done]; simpl in E end;
    injection E as <- _; by split.
Qed.
End Experience.

(** ** The agent as a transition system *)

(** Where a worker stands in [JobRunner.Run] and [ProcessSession]. *)
Inductive stage :=
  | Claimed                          (** it holds a claim token *)
  | Loaded (ids : list string)       (** it has read the uncovered logs, these are their IDs *)
  | Processed (r : result unit).     (** [ProcessSession] has returned *)
Record Worker := { wk_job : string; wk_session : string; wk_token : string; wk_stage : stage }.
Definition at_stage (st : stage) (k : Worker) : Worker :=
  {| wk_job := wk_job k; wk_session := wk_session k; wk_token := wk_token k; wk_stage := st |}.

(** The store, the sessions that may still append, the workers under way. *)
Record Agent := { ag_world : World; ag_live : gset string; ag_workers : list Worker }.

Section System.
Context `{Env} `{!Process World} `{Host} `{FileStat} `{MapRange} {Args : Type}.
Context (json_snapshot : LifecyclePolicy -> string) (agent : string).
Context (pl : Pipeline) (commit_tx : bool).

(** A runner of this agent over the shipped job store and the shipped append to T2,
    whose model, tools, gateway and other stores write no job, no log and no narrative
    themselves and take no draw back; of the shipped gateway this is
    [shipped_gateway_quiet]. *)
Record lawful_runner (r : SessionRunner Args) : Prop := {
  lr_agent : d_AgentName (sr_deps r) = agent;
  lr_dispatch : sqlite_dispatch r;
  lr_archive : forall st ap, d_MemoryStore (sr_deps r) = Some (st, ap) ->
    forall e w, ap e w = AppendExperiential e w;
  lr_frame : session_frame_on (fun _ => False) quiet r }.

(** All a session of a lawful runner does to the three tables is append its own entries. *)
Lemma lawful_lives own r : lawful_runner r -> session_frame_on own (lives own) r.
Proof using Type.
  intros [_ _ Ha Hf]. apply (session_frame_mono _ _ (lives own)) in Hf; [|apply quiet_lives].
  destruct Hf as [Hq Hr Hp Has Hl Hm Hv Hc Hj Ht Hg]. split; [done..| |done|done|done|done|done].
  intros st ap Hs. destruct (Hm st ap Hs) as [Hst _]. split; [done|]. intros e Ho w.
  rewrite (Ha st ap Hs). by apply append_lives.
Qed.

(** The ID of the session that takes draw [n]. *)
Definition session_id (n : nat) : string := agent +:+ "-" +:+ hex_string (rand_bytes n).

Inductive agent_step : Agent -> Agent -> Prop :=
  (** Sessions: [prepare] draws the ID; the archive and the loop append, one entry of
      the session at a time; the dispatch ends it, or it fails without one. *)
  | as_begin r trigger w w' p live ws :
      lawful_runner r -> prepare json_snapshot r trigger w = (w', Ok (Some p)) ->
      agent_step {| ag_world := w; ag_live := live; ag_workers := ws |}
        {| ag_world := w'; ag_live := {[s_ID (pp_sess p)]} ∪ live; ag_workers := ws |}
  | as_append e w w' r live ws :
      el_SessionID e ∈ live -> AppendExperiential e w = (w', r) ->
      agent_step {| ag_world := w; ag_live := live; ag_workers := ws |}
        {| ag_world := w'; ag_live := live; ag_workers := ws |}
  | as_dispatch r sid jt w w' jobs live ws :
      lawful_runner r -> sid ∈ live -> @dispatch Args r sid jt w = (w', Ok jobs) ->
      agent_step {| ag_world := w; ag_live := live; ag_workers := ws |}
        {| ag_world := w'; ag_live := live ∖ {[sid]}; ag_workers := ws |}
  | as_session_fails sid w live ws :
      agent_step {| ag_world := w; ag_live := live; ag_workers := ws |}
        {| ag_world := w; ag_live := live ∖ {[sid]}; ag_workers := ws |}
  (** Workers: started on a row of the job table, by a submission or by recovery. *)
  | as_claim row dur w w' tok live ws :
      row ∈ db_jobs (w_db w) -> Claim (jr_id row) dur w = (w', Ok tok) ->
      agent_step {| ag_world := w; ag_live := live; ag_workers := ws |}
        {| ag_world := w'; ag_live := live;
           ag_workers := {| wk_job := jr_id row; wk_session := jr_session_id row;
                            wk_token := tok; wk_stage := Claimed |} :: ws |}
  | as_load k w w' logs live ws ws' :
      wk_stage k = Claimed -> load_logs pl (wk_session k) w = (w', Ok logs) ->
      agent_step {| ag_world := w; ag_live := live; ag_workers := ws ++ k :: ws' |}
        {| ag_world := w'; ag_live := live;
           ag_workers := ws ++ at_stage (Loaded (map el_ID logs)) k :: ws' |}
  | as_nothing k w live ws ws' :
      wk_stage k = Loaded [] ->
      agent_step {| ag_world := w; ag_live := live; ag_workers := ws ++ k :: ws' |}
        {| ag_world := w; ag_live := live; ag_workers := ws ++ at_stage (Processed (Ok tt)) k :: ws' |}
  | as_commit k n ids w w' r live ws ws' :
      wk_stage k = Loaded ids -> commit_summary pl commit_tx n ids (wk_job k) (wk_token k) w = (w', r) ->
      agent_step {| ag_world := w; ag_live := live; ag_workers := ws ++ k :: ws' |}
        {| ag_world := w'; ag_live := live; ag_workers := ws ++ at_stage (Processed r) k :: ws' |}
  | as_error k e w live ws ws' :
      agent_step {| ag_world := w; ag_live := live; ag_workers := ws ++ k :: ws' |}
        {| ag_world := w; ag_live := live; ag_workers := ws ++ at_stage (Processed (Err e)) k :: ws' |}
  | as_finish k w w' r live ws ws' :
      (wk_stage k = Processed (Ok tt) /\ Complete (wk_job k) (wk_token k) w = (w', r)) \/
      (exists e, wk_stage k = Processed (Err e) /\
         (MarkReviewRequired (wk_job k) (wk_token k) (error_Error e) w = (w', r) \/
          Fail (wk_job k) (wk_token k) (error_Error e) w = (w', r))) ->
      agent_step {| ag_world := w; ag_live := live; ag_workers := ws ++ k :: ws' |}
        {| ag_world := w'; ag_live := live; ag_workers := ws ++ ws' |}
  | as_worker_dies k w live ws ws' :
      agent_step {| ag_world := w; ag_live := live; ag_workers := ws ++ k :: ws' |}
        {| ag_world := w; ag_live := live; ag_workers := ws ++ ws' |}
  (** Everything else: other tables, the clock, the model, refused calls. *)
  | as_elsewhere w w' live ws :
      quiet w w' ->
      agent_step {| ag_world := w; ag_live := live; ag_workers := ws |}
        {| ag_world := w'; ag_live := live; ag_workers := ws |}.

(** ** The invariant *)

(** Every log of [sid] that is not linked to a narrative is one of [ids]. *)
Definition unlinked_in (sid : string) (ids : list string) (d : Database) : Prop :=
  forall x, x ∈ db_logs d -> uncovered sid x = true -> lr_id x ∈ ids.
Definition worker_ok (d : Database) (k : Worker) : Prop :=
  (exists j, j ∈ db_jobs d /\ jr_id j = wk_job k /\ jr_session_id j = wk_session k) /\
  match wk_stage k with
  | Loaded ids => unlinked_in (wk_session k) ids d
  | Processed (Ok _) => unlinked_in (wk_session k) [] d
  | _ => True
  end.
Definition job_sessions (d : Database) : list string := map jr_session_id (db_jobs d).

(** The tables: IDs unique, links to stored narratives, one job per session, and only
    consolidated sessions have a completed job. *)
Record tables_ok (d : Database) : Prop := {
  ta_jobs : jobs_ok (db_jobs d); ta_links : provenance_ok d; ta_once : NoDup (job_sessions d);
  ta_done : forall j, j ∈ db_jobs d -> jr_status j = "completed" -> unlinked_in (jr_session_id j) [] d }.
Record agent_ok (s : Agent) : Prop := {
  ao_tables : tables_ok (w_db (ag_world s));
  ao_drawn : forall sid, sid ∈ ag_live s \/ sid ∈ job_sessions (w_db (ag_world s)) ->
    exists n, (n < w_rng (ag_world s))%nat /\ sid = session_id n;
  ao_live : forall sid, sid ∈ ag_live s -> sid ∉ job_sessions (w_db (ag_world s));
  ao_workers : Forall (worker_ok (w_db (ag_world s))) (ag_workers s) }.

(** What every step keeps: jobs keep their session, a dispatched session gets no log. *)
Record advances (d d' : Database) : Prop := {
  ad_rows : forall j, j ∈ db_jobs d -> exists j', j' ∈ db_jobs d' /\ jr_id j' = jr_id j /\
    jr_session_id j' = jr_session_id j;
  ad_unlinked : forall sid ids, sid ∈ job_sessions d -> unlinked_in sid ids d -> unlinked_in sid ids d' }.

Lemma job_session_elem j d : j ∈ db_jobs d -> jr_session_id j ∈ job_sessions d.
Proof using Type. intros Hj. unfold job_sessions. apply elem_of_map. eauto. Qed.
Lemma worker_ok_advances d d' k : advances d d' -> worker_ok d k -> worker_ok d' k.
Proof using Type.
  intros [Hr Hu] [(j & Hj & Hid & Hs) Hk]. split.
  - destruct (Hr j Hj) as (j' & ? & ? & ?). exists j'. split_and!; congruence.
  - assert (Hin : wk_session k ∈ job_sessions d) by (rewrite <- Hs; by apply job_session_elem).
    destruct (wk_stage k) as [|ids|[|]]; auto.
Qed.

(** Jobs rewritten in place, logs untouched. *)
Lemma update_advances p f d d' :
  db_jobs d' = updateb p f (db_jobs d) -> db_logs d' = db_logs d ->
  (forall j, jr_id (f j) = jr_id j /\ jr_session_id (f j) = jr_session_id j) ->
  advances d d' /\ job_sessions d' = job_sessions d.
Proof using Type.
  intros Hj Hl Hf. unfold job_sessions. split.
  - split.
    + intros j Hin. exists (if p j then f j else j). rewrite Hj. split; [by apply elem_of_updateb_intro|].
      destruct (p j); [apply Hf|done].
    + intros sid ids _ Hu x. rewrite Hl. apply Hu.
  - rewrite Hj, map_updateb; [done|]. intros j. apply Hf.
Qed.

(** *** The tables, operation by operation *)

Lemma experience_tables own w w' : experience own w w' -> tables_ok (w_db w) ->
  (forall sid, own sid -> sid ∉ job_sessions (w_db w)) ->
  tables_ok (w_db w') /\ advances (w_db w) (w_db w') /\ job_sessions (w_db w') = job_sessions (w_db w).
Proof using Type.
  intros [Hj Hn _ (rows & Hl & Hrows) Hu] [Tj [L1 L2 L3] To Td] Hown.
  rewrite Forall_forall in Hrows.
  assert (Hun : forall sid ids, sid ∈ job_sessions (w_db w) ->
    unlinked_in sid ids (w_db w) -> unlinked_in sid ids (w_db w')).
  { intros sid ids Hs Hun x Hx Hc. rewrite Hl in Hx. apply elem_of_app in Hx as [Hx|Hx]; [auto|].
    apply Hrows in Hx as [Ho _]. unfold uncovered in Hc. bools. exfalso. apply (Hown _ Ho). congruence. }
  unfold job_sessions in *. split; [|split; [|by rewrite Hj]].
  - split; unfold job_sessions; rewrite ?Hj; [done| |done|].
    + split; [by rewrite Hn|auto|]. intros x nid Hx Hnid. rewrite Hl in Hx.
      apply elem_of_app in Hx as [Hx|Hx]; [rewrite Hn; by eapply L3|]. apply Hrows in Hx as [_ Hx]. congruence.
    + intros j Hin Hd. apply Hun; [by apply job_session_elem|auto].
  - split; [|done]. intros j Hin. exists j. by rewrite Hj.
Qed.

Lemma update_tables p f d d' : tables_ok d -> jobs_ok (db_jobs d') ->
  db_jobs d' = updateb p f (db_jobs d) -> same_memory d d' ->
  (forall j, jr_id (f j) = jr_id j /\ jr_session_id (f j) = jr_session_id j) ->
  (forall j, j ∈ db_jobs d -> p j = true -> jr_status (f j) = "completed" -> unlinked_in (jr_session_id j) [] d) ->
  tables_ok d' /\ advances d d' /\ job_sessions d' = job_sessions d.
Proof using Type.
  intros [Tj [L1 L2 L3] To Td] Hok Hj [Hl Hn] Hf Hdone.
  destruct (update_advances p f d d' Hj Hl Hf) as [Ha Hs]. split_and!; [|done..].
  split; [done| |by rewrite Hs|].
  - split; [by rewrite Hn|by rewrite Hl|]. intros x nid. rewrite Hl, Hn. apply L3.
  - intros j Hin Hst. rewrite Hj in Hin. apply elem_of_updateb in Hin as (j0 & Hin & ->).
    assert (Hs0 : jr_session_id (if p j0 then f j0 else j0) = jr_session_id j0) by (destruct (p j0); [apply Hf|done]).
    rewrite Hs0. apply (ad_unlinked _ _ Ha); [by apply job_session_elem|].
    destruct (p j0) eqn:Ep; [by apply (Hdone j0)|by apply Td].
Qed.

Lemma same_db_tables d d' : d' = d -> tables_ok d ->
  tables_ok d' /\ advances d d' /\ job_sessions d' = job_sessions d.
Proof using Type. intros -> T. split_and!; [done| |done]. split; [eauto|done]. Qed.

Lemma consolidated_tables n nid row ids d d' : consolidated n nid row ids d d' -> tables_ok d ->
  tables_ok d' /\ advances d d' /\ job_sessions d' = job_sessions d.
Proof using Type.
  intros Hc [Tj L To Td]. pose proof (co_jobs _ _ _ _ _ _ Hc) as Hj. unfold job_sessions.
  assert (Hun : forall sid l, unlinked_in sid l d -> unlinked_in sid l d').
  { intros sid l Hu x Hx Hx'.
    assert (Hw : x ∈ whereb (uncovered sid) (db_logs d')) by (by apply elem_of_whereb).
    rewrite (uncovered_consolidated _ _ _ _ _ _ sid Hc) in Hw. apply elem_of_whereb in Hw as [? ?]. bools. auto. }
  split; [|split; [split; [rewrite Hj; eauto|auto]|by rewrite Hj]].
  split; unfold job_sessions; rewrite ?Hj; [done|by eapply consolidated_provenance|done|eauto].
Qed.
(** Once the loaded logs are linked nothing of their session is unlinked. *)
Lemma consolidated_covers n nid row ids sid d d' : consolidated n nid row ids d d' ->
  unlinked_in sid ids d -> unlinked_in sid [] d'.
Proof using Type.
  intros Hc Hu x Hx Hx'. exfalso.
  assert (Hw : x ∈ whereb (uncovered sid) (db_logs d')) by (by apply elem_of_whereb).
  rewrite (uncovered_consolidated _ _ _ _ _ _ sid Hc) in Hw. apply elem_of_whereb in Hw as [Hin Hw].
  apply andb_true_iff in Hw as [Hw Hno]. apply negb_true_iff in Hno. revert Hno. unfold log_in.
  rewrite (proj2 (one_of_elem _ _)); [done|]. by apply Hu.
Qed.

(** *** The store's operations *)

Lemma Commit_memory sid jt w w' r : Commit sid jt w = (w', r) -> same_memory (w_db w) (w_db w').
Proof using Type.
  unfold Commit, bind, newID. intros E. apply exec_jobs_memory in E; [done|].
  intros d now d' a. destruct (insert_pk _ _ _); [by intros [= <- _]|done].
Qed.
Lemma Commit_tables sid jt w w' r : Commit sid jt w = (w', r) -> tables_ok (w_db w) ->
  sid ∉ job_sessions (w_db w) ->
  tables_ok (w_db w') /\ advances (w_db w) (w_db w') /\ (w_rng w <= w_rng w')%nat /\
  job_sessions (w_db w') ⊆ job_sessions (w_db w) ++ [sid].
Proof using Type.
  intros E T Hs. pose proof (Commit_memory _ _ _ _ _ E) as [Hl Hn]. destruct T as [Tj [L1 L2 L3] To Td].
  assert (Hok : jobs_ok (db_jobs (w_db w'))) by (eapply store_step_ok; [by eapply step_commit|done]).
  apply Commit_cases in E as [Hr E].
  assert (Hg : exists rows, db_jobs (w_db w') = db_jobs (w_db w) ++ rows /\
    (rows = [] \/ exists id now, rows = [new_job id sid jt now])).
  { destruct E as [(e & _ & ->)|(_ & _ & ->)]; [exists []; rewrite app_nil_r; auto|eauto 6]. }
  destruct Hg as (rows & Hj & Hrows).
  assert (Hu : forall s l, unlinked_in s l (w_db w) -> unlinked_in s l (w_db w')).
  { intros s l Hu x. rewrite Hl. apply Hu. }
  assert (Hnone : jr_session_id <$> rows = [] \/ jr_session_id <$> rows = [sid])
    by (destruct Hrows as [->|(id & now & ->)]; auto).
  unfold job_sessions in *. split_and!; [|split; [|by auto]|lia|].
  - split; unfold job_sessions; [done|by split; rewrite ?Hn, ?Hl| |].
    + rewrite Hj, map_app. change (map jr_session_id rows) with (jr_session_id <$> rows).
      destruct Hnone as [->| ->]; [by rewrite app_nil_r|]. apply NoDup_app. split; [done|].
      split; [|apply NoDup_singleton]. intros k Hk Hk'. by apply list_elem_of_singleton in Hk' as ->.
    + intros j Hin Hst. apply Hu. rewrite Hj in Hin. apply elem_of_app in Hin as [Hin|Hin]; [auto|].
      destruct Hrows as [->|(id & now & ->)]; [by apply elem_of_nil in Hin|].
      by apply list_elem_of_singleton in Hin as ->.
  - intros j Hin. exists j. rewrite Hj. split; [apply elem_of_app; by left|done].
  - rewrite Hj, map_app. change (map jr_session_id rows) with (jr_session_id <$> rows).
    destruct Hnone as [->| ->]; set_solver.
Qed.

(** A dispatch is one [Commit], or nothing. *)
Lemma dispatch_commits (r : SessionRunner Args) sid jt w w' res : sqlite_dispatch r -> dispatch r sid jt w = (w', res) ->
  w' = w \/ exists rc, Commit sid jt w = (w', rc).
Proof using Type.
  intros [H1' H2' H3']. unfold dispatch, attempt, ret.
  assert (Hc : forall w' res, submit_to SQLiteJobStore sid jt w = (w', res) ->
    exists rc, Commit sid jt w = (w', rc)).
  { intros w0 res0. rewrite submit_to_Commit. simpl. destruct (Commit sid jt w) as [w1 [id|e]]; intros [= <- _]; eauto. }
  destruct (sr_supervisor r) as [[js stopped]|].
  { rewrite (H1' js stopped eq_refl). destruct (stopped w); [intros [= <- _]; by left|].
    intros E. right. by eapply Hc. }
  destruct (sr_jobRunner r) as [js|]; [rewrite (H2' js eq_refl); intros E; right; by eapply Hc|].
  destruct (d_JobStore (sr_deps r)) as [js|]; [|intros [= <- _]; by left]. rewrite (H3' js eq_refl).
  simpl. destruct (Commit sid jt w) as [w1 rc] eqn:E. intros [= <- _]. eauto.
Qed.

Lemma Claim_tables id dur w w' r : Claim id dur w = (w', r) -> tables_ok (w_db w) ->
  tables_ok (w_db w') /\ advances (w_db w) (w_db w') /\ job_sessions (w_db w') = job_sessions (w_db w).
Proof using Type.
  intros E T. pose proof (Claim_memory _ _ _ _ _ E) as Hm.
  assert (Hok : jobs_ok (db_jobs (w_db w'))).
  { destruct r; (eapply store_step_ok; [|apply T]);
      [exact (step_claim _ _ _ _ _ E)|exact (step_claim_refused _ _ _ _ _ E)]. }
  apply Claim_cases in E as [_ [(e & _ & Hj)|(_ & _ & Hj)]].
  - eapply (update_tables (fun _ => false) (fun j => j)); [done..| |done|done|done].
    rewrite Hj. by rewrite updateb_none.
  - by eapply update_tables.
Qed.

(** A final write: only [Complete] may say completed, of a session that has nothing
    unlinked. *)
Lemma finish_tables msg id tok f w w' r : (forall now, finisher (f now)) ->
  fenced_update msg id tok f w = (w', r) -> tables_ok (w_db w) ->
  (forall j now, j ∈ db_jobs (w_db w) -> jr_id j = id -> jr_status (f now j) = "completed" ->
     unlinked_in (jr_session_id j) [] (w_db w)) ->
  tables_ok (w_db w') /\ advances (w_db w) (w_db w') /\ job_sessions (w_db w') = job_sessions (w_db w).
Proof using Type.
  intros Hf E T Hd. pose proof (fenced_update_memory _ _ _ _ _ _ _ E) as Hm.
  assert (Hok : jobs_ok (db_jobs (w_db w'))) by (eapply store_step_ok; [by eapply step_finish|apply T]).
  apply fenced_update_cases in E as [_ [(_ & _ & Hj)|(e & _ & Hj)]].
  - eapply update_tables; [done..| |].
    + intros j. destruct (Hf (w_clock w)) as (s & m & d & k & -> & _). done.
    + intros j Hin Hh Hst. unfold holds, id_is in Hh. bools. by eapply Hd.
  - eapply (update_tables (fun _ => false) (fun j => j)); [done..| |done|done|done].
    rewrite Hj. by rewrite updateb_none.
Qed.

(** *** No draw is taken back *)

Definition rng_le (w w' : World) : Prop := (w_rng w <= w_rng w')%nat.
#[local] Instance rng_le_preorder : PreOrder rng_le.
Proof using Type. unfold rng_le. split; [intros w|intros a b c]; lia. Qed.
Lemma exec_rng {A} (f : Database -> Z -> result (Database * A)) : frames rng_le (exec f).
Proof using Type.
  intros w. unfold exec, rng_le. destruct (db_fault _); [simpl; lia|]. destruct (f _ _) as [[d a]|e]; simpl; lia.
Qed.
Lemma transact_rng {A} bm cm (m : M World A) : frames rng_le m -> frames rng_le (transact bm cm m).
Proof using Type.
  intros Hm w. unfold transact.
  assert (Hq : forall msg, frames rng_le (wrapM msg (query (fun _ _ => Ok tt)))) by (intros; apply frames_wrapM, exec_rng).
  pose proof (Hq bm w) as H1'. destruct (wrapM bm _ w) as [w1 [u|e]]; simpl in *; [|done].
  pose proof (Hm w1) as H2'. destruct (m w1) as [w2 [a|e]]; simpl in *; [|unfold rng_le in *; simpl; lia].
  pose proof (Hq cm w2) as H3'. destruct (wrapM cm _ w2) as [w3 [u'|e]]; unfold rng_le in *; simpl in *; lia.
Qed.
Lemma newID_rng : frames rng_le newID.
Proof using Type. intros w. unfold rng_le, newID. simpl. lia. Qed.
Hint Resolve exec_rng transact_rng newID_rng : frames.

Lemma load_rng sid : frames rng_le (load_logs pl sid).
Proof using Type. unfold load_logs, UncoveredLogs, QueryLogs, query. frames_tac. Qed.
Lemma commit_rng n ids job tok : frames rng_le (commit_summary pl commit_tx n ids job tok).
Proof using Type.
  unfold commit_summary, CommitNarrative, AtomicT2T3Link, insert_narrative, backlink_logs, fence_check, query.
  frames_tac; apply transact_rng; frames_tac.
Qed.

#[local] Existing Instance Aegis.SQLiteTrustStore.
(** The shipped gateway is one a lawful runner may have: all it writes is its registry. *)
Lemma shipped_gateway_quiet nfkc unicode_lower cfg :
  frames_gateway quiet
    {| gw_ProcessInbound := Aegis.screen nfkc unicode_lower cfg;
       gw_ReviewOutbound := fun c w => (w, Ok (Aegis.ReviewOutbound unicode_lower c)) |}.
Proof using Type.
  split; [|intros c w; reflexivity]. intros raw source contentSource w. simpl.
  pose proof (Aegis.screen_frame nfkc unicode_lower cfg raw source contentSource w) as Ht.
  apply trust_only_tables in Ht as (Hj & Hl & Hn & _). apply same_tables_quiet; [done|by split|].
  unfold Aegis.screen, Aegis.ProcessInbound. destruct (Aegis.Sanitize nfkc raw) as [normalized modified].
  destruct (Aegis.Scan unicode_lower normalized) as [ms|]; simpl; [|lia].
  assert (Hs : frames rng_le (Aegis.Score cfg source ms)).
  { unfold Aegis.Score. cbn [Aegis.ts_GetTrust Aegis.ts_UpdateTrust Aegis.ts_IncrementInteractions
      Aegis.SQLiteTrustStore]. unfold Aegis.GetTrust, Aegis.UpdateTrust, Aegis.IncrementInteractions, query.
    frames_tac. }
  specialize (Hs w). by destruct (Aegis.Score cfg source ms w).
Qed.

(** *** Every step keeps the invariant *)

Lemma agent_ok_next w w' live live' ws ws' :
  agent_ok {| ag_world := w; ag_live := live; ag_workers := ws |} ->
  tables_ok (w_db w') -> rng_le w w' ->
  (forall sid, sid ∈ live' -> sid ∉ job_sessions (w_db w') /\
     (sid ∈ live \/ exists n, (n < w_rng w')%nat /\ sid = session_id n)) ->
  (forall sid, sid ∈ job_sessions (w_db w') -> sid ∈ job_sessions (w_db w) \/ sid ∈ live) ->
  Forall (worker_ok (w_db w')) ws' ->
  agent_ok {| ag_world := w'; ag_live := live'; ag_workers := ws' |}.
Proof using Type.
  intros [T D L Wk] T' Hr Hl Hj Hw. unfold rng_le in Hr. simpl in *.
  assert (D' : forall sid, sid ∈ live \/ sid ∈ job_sessions (w_db w) ->
    exists n, (n < w_rng w')%nat /\ sid = session_id n).
  { intros sid Hs. destruct (D sid Hs) as (n & ? & ->). exists n. split; [lia|done]. }
  split; simpl; [done| | |done].
  - intros sid [Hs|Hs]; [destruct (Hl sid Hs) as [_ [Hs'|?]]; auto|apply D'; destruct (Hj sid Hs); auto].
  - intros sid Hs. by apply Hl.
Qed.

(** A step that starts no session and adds no job; [ws'] are its workers. *)
Lemma agent_ok_work w w' live live' ws ws' :
  agent_ok {| ag_world := w; ag_live := live; ag_workers := ws |} ->
  tables_ok (w_db w') /\ advances (w_db w) (w_db w') /\ job_sessions (w_db w') = job_sessions (w_db w) ->
  rng_le w w' -> live' ⊆ live ->
  (Forall (worker_ok (w_db w')) ws -> Forall (worker_ok (w_db w')) ws') ->
  agent_ok {| ag_world := w'; ag_live := live'; ag_workers := ws' |}.
Proof using Type.
  intros Hok (T & A & Hj) Hr Hl Hw. eapply agent_ok_next; [exact Hok|done|done| | |].
  - intros sid Hs. rewrite Hj. destruct Hok as [_ _ L _]. split; [apply L; simpl; set_solver|set_solver].
  - intros sid. rewrite Hj. by left.
  - apply Hw. destruct Hok as [_ _ _ W]. simpl in W. eapply Forall_impl; [exact W|].
    intros k Hk. by eapply worker_ok_advances.
Qed.

(** A worker at a new stage. *)
Lemma at_stage_ok d k st : worker_ok d k -> worker_ok d (at_stage st k) <->
  match st with
  | Loaded ids => unlinked_in (wk_session k) ids d
  | Processed (Ok _) => unlinked_in (wk_session k) [] d
  | _ => True
  end.
Proof using Type. intros [Hj _]. unfold worker_ok. simpl. tauto. Qed.
Lemma Forall_stage d st ws k ws' :
  Forall (worker_ok d) (ws ++ k :: ws') -> (worker_ok d k -> worker_ok d (at_stage st k)) ->
  Forall (worker_ok d) (ws ++ at_stage st k :: ws').
Proof using Type. rewrite !Forall_app, !Forall_cons. tauto. Qed.
Lemma Forall_drop d ws k ws' : Forall (worker_ok d) (ws ++ k :: ws') -> Forall (worker_ok d) (ws ++ ws').
Proof using Type. rewrite !Forall_app, Forall_cons. tauto. Qed.

Lemma commit_summary_cases tx n ids job tok w w' r : pl_consolidation pl = Some tx ->
  commit_summary pl commit_tx n ids job tok w = (w', r) ->
  ((exists e, r = Err e) /\ w_db w' = w_db w) \/
  (r = Ok tt /\ exists n' nid row, consolidated n' nid row ids (w_db w) (w_db w')).
Proof using Type.
  intros Hp. unfold commit_summary, wrapM. rewrite Hp.
  destruct (CommitNarrative _ _ _ w) as [w1 [[]|e]] eqn:E; apply CommitNarrative_cases in E; intros [= <- <-].
  - right. split; [done|]. destruct E as (n' & nid & row & _ & _ & _ & Hc). eauto.
  - left. eauto.
Qed.
Lemma load_covers tx sid w w' logs : pl_consolidation pl = Some tx ->
  load_logs pl sid w = (w', Ok logs) -> w_db w' = w_db w /\ unlinked_in sid (map el_ID logs) (w_db w').
Proof using Type.
  intros Hp E. pose proof (keeps_db_run _ _ _ _ (load_logs_keeps pl sid) E) as Hd. split; [done|].
  apply (load_uncovered _ _ _ _ _ _ Hp) in E. rewrite E, Hd. intros x Hx Hu.
  unfold uncovered_ids. apply elem_of_map. exists x. split; [|done].
  rewrite order_by_Permutation. by apply elem_of_whereb.
Qed.

(** The session IDs of the draws so far are pairwise distinct. *)
Definition ids_distinct (n : nat) : Prop := forall i j, (i < j < n)%nat -> session_id i <> session_id j.

Lemma prepare_quiet r trigger w w' p : lawful_runner r ->
  prepare json_snapshot r trigger w = (w', Ok (Some p)) ->
  quiet w w' /\ exists n, (w_rng w <= n < w_rng w')%nat /\ s_ID (pp_sess p) = session_id n.
Proof using Type.
  intros [Ha _ _ Hq] E. split.
  - eapply (frames_elim _ _ _ _ _ (frames_prepare quiet json_snapshot _ r Hq trigger)). exact E.
  - eapply (prepare_draws_session quiet) in E as (wa & H1' & H2' & Hs); [|exact Hq].
    apply ex_rng in H1', H2'. simpl in H2'. exists (w_rng wa). split; [lia|]. by rewrite Hs, Ha.
Qed.

Lemma begin_ok r trigger w w' p live ws : lawful_runner r ->
  prepare json_snapshot r trigger w = (w', Ok (Some p)) -> ids_distinct (w_rng w') ->
  agent_ok {| ag_world := w; ag_live := live; ag_workers := ws |} ->
  agent_ok {| ag_world := w'; ag_live := {[s_ID (pp_sess p)]} ∪ live; ag_workers := ws |} /\
  s_ID (pp_sess p) ∉ live.
Proof using Type.
  intros Hr E Hd Hok. apply prepare_quiet in E as [Hq (n & Hn & Hs)]; [|done].
  destruct (experience_tables _ _ _ Hq (ao_tables _ Hok) ltac:(done)) as (T & A & Hj).
  assert (Hfresh : forall sid, sid ∈ live \/ sid ∈ job_sessions (w_db w) -> s_ID (pp_sess p) <> sid).
  { intros sid Hs'. destruct (ao_drawn _ Hok sid Hs') as (m & Hm & ->). simpl in Hm. rewrite Hs.
    intros Heq. by apply (Hd m n); [lia|]. }
  split; [|intros Hin; by apply (Hfresh _ (or_introl Hin))].
  eapply agent_ok_next; [exact Hok|done|by apply ex_rng in Hq| |intros sid; rewrite Hj; by left|].
  - intros sid. rewrite Hj, elem_of_union, elem_of_singleton. intros [->|Hin].
    + split; [intros Hin; by apply (Hfresh _ (or_intror Hin))|]. right. exists n. split; [lia|done].
    + split; [by apply (ao_live _ Hok)|by left].
  - eapply Forall_impl; [apply (ao_workers _ Hok)|]. intros k Hk. by eapply worker_ok_advances.
Qed.

Lemma dispatch_ok r sid jt w w' jobs live ws : lawful_runner r -> sid ∈ live ->
  @dispatch Args r sid jt w = (w', Ok jobs) ->
  agent_ok {| ag_world := w; ag_live := live; ag_workers := ws |} ->
  agent_ok {| ag_world := w'; ag_live := live ∖ {[sid]}; ag_workers := ws |}.
Proof using Type.
  intros Hr Hsid E Hok. pose proof (ao_live _ Hok sid Hsid) as Hno. simpl in Hno.
  apply dispatch_commits in E as [->|[rc E]]; [| |apply Hr].
  - eapply agent_ok_work; [exact Hok|apply same_db_tables; [done|apply Hok]|unfold rng_le; lia|set_solver|done].
  - apply Commit_tables in E as (T & A & Hrng & Hj); [|apply Hok|done].
    eapply agent_ok_next; [exact Hok|done|done| | |].
    + intros s Hs. apply elem_of_difference in Hs as [Hs Hne]. rewrite elem_of_singleton in Hne.
      split; [|by left]. intros Hin. apply Hj in Hin. apply elem_of_app in Hin as [Hin|Hin].
      * by apply (ao_live _ Hok s Hs).
      * by apply list_elem_of_singleton in Hin.
    + intros s Hin. apply Hj in Hin. apply elem_of_app in Hin as [Hin|Hin]; [by left|right].
      by apply list_elem_of_singleton in Hin as ->.
    + eapply Forall_impl; [apply (ao_workers _ Hok)|]. intros k Hk. by eapply worker_ok_advances.
Qed.

Lemma finish_ok k w w' r live ws ws' :
  (wk_stage k = Processed (Ok tt) /\ Complete (wk_job k) (wk_token k) w = (w', r)) \/
  (exists e, wk_stage k = Processed (Err e) /\
     (MarkReviewRequired (wk_job k) (wk_token k) (error_Error e) w = (w', r) \/
      Fail (wk_job k) (wk_token k) (error_Error e) w = (w', r))) ->
  agent_ok {| ag_world := w; ag_live := live; ag_workers := ws ++ k :: ws' |} ->
  agent_ok {| ag_world := w'; ag_live := live; ag_workers := ws ++ ws' |}.
Proof using Type.
  intros E Hok. pose proof (ao_workers _ Hok) as Hw. simpl in Hw.
  apply Forall_app in Hw as [_ [[(j & Hj & Hid & Hs) Hk] _]%Forall_cons].
  assert (Hg : exists msg f, (forall now, finisher (f now)) /\
    fenced_update msg (wk_job k) (wk_token k) f w = (w', r) /\
    (forall j' now, jr_status (f now j') = "completed" -> wk_stage k = Processed (Ok tt))).
  { destruct E as [[Ht E]|(e & Ht & [E|E])]; eexists _, _; (split; [|split; [exact E|]]);
      first [by intros; cbv beta; auto with athena|intros j' now Hc; first [exact Ht|discriminate Hc]]. }
  destruct Hg as (msg & f & Hf & E' & Hst).
  assert (T := E'). apply finish_tables in T; [|done|apply Hok|].
  - eapply agent_ok_work; [exact Hok|exact T| |done|apply Forall_drop].
    apply fenced_update_cases in E' as [? _]. unfold rng_le. lia.
  - intros j' now Hin Hid' Hc. apply Hst in Hc. rewrite Hc in Hk.
    destruct (ao_tables _ Hok) as [[Hnd _] _ _ _]. simpl in Hnd.
    assert (j' = j) as -> by (eapply (NoDup_key_inj jr_id); [exact Hnd|done|done|congruence]).
    by rewrite Hs.
Qed.

Lemma agent_step_rng s s' : agent_step s s' -> rng_le (ag_world s) (ag_world s').
Proof using Type.
  assert (Hrefl : forall w, rng_le w w) by (unfold rng_le; lia).
  intros []; simpl; try done.
  - apply prepare_quiet in H4 as [E _]; [|done]. by apply ex_rng in E.
  - eapply frames_elim in H4; [|by apply (append_experience (fun _ => True))]. by apply ex_rng in H4.
  - apply dispatch_commits in H5 as [->|[rc E]]; [done| |by apply lr_dispatch].
    apply Commit_cases in E as [E _]. unfold rng_le. lia.
  - apply Claim_cases in H4 as [E _]. unfold rng_le. lia.
  - assert (Hr := load_rng (wk_session k) w). by rewrite H4 in Hr.
  - assert (Hr := commit_rng n ids (wk_job k) (wk_token k) w). by rewrite H4 in Hr.
  - unfold rng_le. destruct H3 as [[_ E]|(e & _ & [E|E])]; apply fenced_update_cases in E as [-> _]; lia.
  - by apply ex_rng in H3.
Qed.

Lemma agent_ok_step tx s s' : pl_consolidation pl = Some tx ->
  agent_step s s' -> ids_distinct (w_rng (ag_world s')) -> agent_ok s -> agent_ok s'.
Proof using Type.
  intros Hpl Hs Hd Hok. assert (T := ao_tables _ Hok). assert (Hr := agent_step_rng _ _ Hs).
  destruct Hs as [r trigger w w' p live ws Hl E|e w w' r live ws Hsid E|r sid jt w w' jobs live ws Hl Hsid E
    |sid w live ws|row dur w w' tok live ws Hrow E|k w w' logs live ws ws' Hk E|k w live ws ws' Hk
    |k n ids w w' r live ws ws' Hk E|k e w live ws ws'|k w w' r live ws ws' E|k w live ws ws'|w w' live ws E];
    simpl in T, Hd, Hr |- *.
  - by eapply begin_ok.
  - eapply agent_ok_work; [exact Hok| |exact Hr|done|done].
    eapply frames_elim in E; [|by apply (append_experience (fun s => s = el_SessionID e))].
    eapply experience_tables; [exact E|done|]. intros ? ->. by apply (ao_live _ Hok).
  - by eapply dispatch_ok.
  - eapply agent_ok_work; [exact Hok|by apply same_db_tables|done|set_solver|done].
  - apply Claim_tables in E as (T' & A & Hj); [|done].
    eapply agent_ok_work; [exact Hok|done|done|done|]. intros Hw. constructor; [|done].
    destruct (ad_rows _ _ A row Hrow) as (j & ? & ? & ?). split; [by exists j|done].
  - apply (load_covers tx) in E as [Hdb Hu]; [|done].
    eapply agent_ok_work; [exact Hok|by apply same_db_tables|done|done|].
    intros Hw. apply Forall_stage; [done|]. intros Hk'. by apply at_stage_ok.
  - eapply agent_ok_work; [exact Hok|by apply same_db_tables|done|done|].
    intros Hw. apply Forall_stage; [done|]. intros Hk'. apply at_stage_ok; [done|].
    destruct Hk' as [_ Hk']. by rewrite Hk in Hk'.
  - apply (commit_summary_cases tx) in E as [[[e ->] Hdb]|[-> (n' & nid & row & Hc)]]; [| |done].
    + eapply agent_ok_work; [exact Hok|by apply same_db_tables|done|done|].
      intros Hw. apply Forall_stage; [done|]. intros Hk'. by apply at_stage_ok.
    + eapply agent_ok_work; [exact Hok|by eapply consolidated_tables|done|done|].
      intros Hw. apply Forall_stage; [done|]. intros Hk'. apply at_stage_ok; [done|].
      eapply consolidated_covers; [exact Hc|]. pose proof (ao_workers _ Hok) as Hw0. simpl in Hw0.
      apply Forall_app in Hw0 as [_ [[_ Hk0] _]%Forall_cons]. by rewrite Hk in Hk0.
  - eapply agent_ok_work; [exact Hok|by apply same_db_tables|done|done|].
    intros Hw. apply Forall_stage; [done|]. intros Hk'. by apply at_stage_ok.
  - by eapply finish_ok.
  - eapply agent_ok_work; [exact Hok|by apply same_db_tables|done|done|apply Forall_drop].
  - eapply agent_ok_work; [exact Hok| |exact Hr|done|done]. by eapply experience_tables.
Qed.

Lemma agent_ok_steps tx s s' : pl_consolidation pl = Some tx ->
  rtc agent_step s s' -> ids_distinct (w_rng (ag_world s')) -> agent_ok s -> agent_ok s'.
Proof using Type.
  intros Hpl Hs. assert (Hrng : forall s s', rtc agent_step s s' -> rng_le (ag_world s) (ag_world s')).
  { intros a b Hab. induction Hab as [a|a b c Hab _ IH]; [unfold rng_le; lia|].
    apply agent_step_rng in Hab. unfold rng_le in *. lia. }
  induction Hs as [s|s s1 s2 H1' Hs IH]; [done|]. intros Hd Hok. apply IH; [done|].
  eapply agent_ok_step; [done|exact H1'| |done]. apply Hrng in Hs. unfold rng_le in Hs.
  intros i j Hij. apply Hd. lia.
Qed.

(** ** The code's calls are sequences of steps *)

Section Calls.
Context (json_Unmarshal : string -> result (option Args)) (json_Marshal : Args -> result string).
Context (empty_args : Args) (deadline_exceeded : LW -> bool) (fmt_duration : Z -> string).
Context (fmt_list : list string -> string) (blocked_json : BlockedOutbound -> string).
Context (schedule : nat -> list nat).
Notation RunSession := (RunSession json_snapshot json_Unmarshal json_Marshal empty_args
  deadline_exceeded fmt_duration fmt_list blocked_json schedule).

(** The appends of a live session are steps, and so is what happens between them. *)
Lemma lives_steps sid w w' live ws : sid ∈ live -> lives (fun s => s = sid) w w' ->
  rtc agent_step {| ag_world := w; ag_live := live; ag_workers := ws |}
    {| ag_world := w'; ag_live := live; ag_workers := ws |}.
Proof using Type.
  intros Hsid Hs. induction Hs as [w|w w1 w2 [(e & r & <- & E)|Hq] _ IH]; [done| |].
  - eapply rtc_l; [by eapply as_append|done].
  - eapply rtc_l; [by apply as_elsewhere|done].
Qed.

(** A whole session, from its wake to its end. *)
Lemma RunSession_steps r trigger w w' res live ws : lawful_runner r ->
  RunSession r trigger w = (w', res) ->
  exists live', live' ⊆ live /\
    rtc agent_step {| ag_world := w; ag_live := live; ag_workers := ws |}
      {| ag_world := w'; ag_live := live'; ag_workers := ws |}.
Proof using Type.
  intros Hr E. pose proof (lr_frame r Hr) as Hq.
  eapply (RunSession_cases quiet) in E as [(Hw & _)|(w1 & p & Ep & _ & E)];
    [exists live; split; [done|]; by apply rtc_once, as_elsewhere| |exact Hq].
  set (sid := s_ID (pp_sess p)) in *. pose proof (lawful_lives (fun s => s = sid) r Hr) as Hf.
  eapply (conduct_dispatches (lives (fun s => s = sid))) in E; [|exact Hf|done].
  unfold ends_with_dispatch in E. fold sid in E.
  assert (Hend : exists w2, lives (fun s => s = sid) w1 w2 /\
    agent_step {| ag_world := w2; ag_live := {[sid]} ∪ live; ag_workers := ws |}
      {| ag_world := w'; ag_live := ({[sid]} ∪ live) ∖ {[sid]}; ag_workers := ws |}).
  { destruct res as [[jobs|]|e]; [|exists w'; split; [done|constructor]..].
    destruct E as (w2 & Hw2 & E). exists w2. split; [done|]. eapply as_dispatch; [exact Hr|set_solver|exact E]. }
  destruct Hend as (w2 & Hw2 & Hend). eexists. split; [|eapply rtc_l; [by eapply as_begin|];
    etransitivity; [eapply (lives_steps sid); [set_solver|exact Hw2]|]; by apply rtc_once]. set_solver.
Qed.
End Calls.

(** The compressor, the gateway and the embedder take no draw back. *)
Record forward_collaborators : Prop := {
  fw_aegis : forall f, pl_aegis pl = Some f -> forall c t s, frames rng_le (f c t s);
  fw_llm : forall f, pl_llmFn pl = Some f -> forall s, frames rng_le (f s);
  fw_embed : forall f, pl_embedder pl = Some f -> forall s, frames rng_le (f s) }.

Lemma gate_rng logs srcs best parts : forward_collaborators ->
  frames rng_le (gate_logs (pl_aegis pl) logs srcs best parts).
Proof using Type.
  intros Hw. revert srcs best parts. induction logs as [|log logs IH]; intros srcs best parts; [apply frames_ret; apply _|].
  cbn [gate_logs]. apply frames_bind; [apply _| |intros; apply IH]. unfold gate_log.
  destruct (pl_aegis pl) as [f|] eqn:Ea; [pose proof (fw_aegis Hw f Ea) as Hf|]; frames_tac.
Qed.
Lemma compress_quiet llmFn sid logs scores w w' r : collaborators_ok pl -> forward_collaborators ->
  pl_llmFn pl = Some llmFn ->
  review_or_wrap (CompressSession {| cc_Aegis := pl_aegis pl; cc_LLMFn := Some llmFn;
                     cc_Embedder := pl_embedder pl |} sid logs scores) w = (w', r) -> quiet w w'.
Proof using Type.
  intros Hc Hw Hl E.
  assert (Ht : trust_only w w').
  { eapply (frames_elim trust_only); [|exact E]. by apply review_or_wrap_frame, CompressSession_frame. }
  apply trust_only_tables in Ht as (Hj & Hlg & Hn & _). apply same_tables_quiet; [done|by split|].
  - eapply (frames_elim rng_le); [|exact E]. pose proof (fw_llm Hw llmFn Hl) as Hf.
    pose proof (fun logs srcs best parts => gate_rng logs srcs best parts Hw) as Hg.
    unfold review_or_wrap, CompressSession, embed_content, now_UTC. cbn [cc_LLMFn cc_Aegis cc_Embedder].
    destruct (pl_embedder pl) as [em|] eqn:Ee; [pose proof (fw_embed Hw em Ee) as He|]; frames_tac;
      apply frames_pure; apply _.
Qed.

Lemma ProcessSession_steps k w w' r live ws : collaborators_ok pl -> forward_collaborators ->
  pl_db pl = Some commit_tx -> wk_stage k = Claimed ->
  ProcessSession pl (wk_session k) (wk_job k) (wk_token k) w = (w', r) ->
  rtc agent_step {| ag_world := w; ag_live := live; ag_workers := k :: ws |}
    {| ag_world := w'; ag_live := live; ag_workers := at_stage (Processed r) k :: ws |}.
Proof using Type.
  intros Hc Hw Hdb Hk. unfold ProcessSession, bind. rewrite Hdb.
  pose proof (load_rng (wk_session k) w) as Hr. pose proof (load_logs_keeps pl (wk_session k) w) as Hkeep.
  destruct (load_logs pl (wk_session k) w) as [w1 [logs|e]] eqn:El; simpl in Hr, Hkeep.
  2: { intros [= <- <-]. eapply rtc_l; [by apply as_elsewhere, same_db_quiet|].
       apply rtc_once. apply (as_error k e w1 live []). }
  assert (Hload := as_load k w w1 logs live [] ws Hk El). simpl in Hload.
  destruct logs as [|l logs].
  - intros [= <- <-]. eapply rtc_l; [exact Hload|]. apply rtc_once.
    by apply (as_nothing (at_stage (Loaded []) k) w1 live []).
  - set (ls := l :: logs) in *. destruct (pl_llmFn pl) as [llmFn|] eqn:Ell.
    2: { intros [= <- <-]. eapply rtc_l; [exact Hload|]. apply rtc_once. by apply (as_error (at_stage (Loaded (map el_ID ls)) k) _ w1 live []). }
    destruct (review_or_wrap _ w1) as [w2 rn] eqn:Erw. apply compress_quiet in Erw as Hq; [|done..].
    assert (Hquiet := as_elsewhere w1 w2 live (at_stage (Loaded (map el_ID ls)) k :: ws) Hq).
    destruct rn as [[n|]|e].
    + intros E. eapply rtc_l; [exact Hload|]. eapply rtc_l; [exact Hquiet|]. apply rtc_once.
      by apply (as_commit (at_stage (Loaded (map el_ID ls)) k) n (map el_ID ls) w2 w' r live []).
    + by eapply review_compress_some in Erw.
    + intros [= <- <-]. eapply rtc_l; [exact Hload|]. eapply rtc_l; [exact Hquiet|]. apply rtc_once.
      apply (as_error (at_stage (Loaded (map el_ID ls)) k) e w2 live []).
Qed.

(** A whole run of a job, as [JobRunner.Submit], the supervisor and recovery start it. *)
Lemma Run_steps row w w' r live ws : collaborators_ok pl -> forward_collaborators ->
  pl_db pl = Some commit_tx -> row ∈ db_jobs (w_db w) ->
  RunSession_job pl (jr_id row) (jr_session_id row) w = (w', r) ->
  rtc agent_step {| ag_world := w; ag_live := live; ag_workers := ws |}
    {| ag_world := w'; ag_live := live; ag_workers := ws |}.
Proof using Type.
  intros Hc Hw Hdb Hrow E. apply Run_cases in E as [(e & E & _)|(w1 & tok & w2 & p & E & Ep & Ef)].
  - apply rtc_once, as_elsewhere. change (Claim (jr_id row) (5 * minute) w = (w', Err e)) in E.
    pose proof (Claim_memory _ _ _ _ _ E) as Hm. apply Claim_cases in E as [Hr [(? & _ & Hj)|(? & _)]]; [|done].
    apply same_tables_quiet; [done..|lia].
  - change (Claim (jr_id row) (5 * minute) w = (w1, Ok tok)) in E.
    set (k := {| wk_job := jr_id row; wk_session := jr_session_id row; wk_token := tok; wk_stage := Claimed |}).
    eapply rtc_l; [by eapply as_claim|]. fold k.
    etransitivity; [by apply (ProcessSession_steps k w1 w2 p)|]. apply rtc_once.
    destruct Ef as [[] rc E'|e rc _ E'|e rc _ E'];
      eapply (as_finish (at_stage (Processed _) k) w2 w' rc live []); simpl; eauto.
Qed.

(** ** What holds in every reachable state *)

(** A new installation; a restart is every session failing and every worker dying. *)
Record agent_start (s : Agent) : Prop := {
  st_live : ag_live s = ∅; st_workers : ag_workers s = [];
  st_jobs : db_jobs (w_db (ag_world s)) = []; st_logs : db_logs (w_db (ag_world s)) = [];
  st_narratives : db_narratives (w_db (ag_world s)) = [] }.
Lemma agent_start_ok s : agent_start s -> agent_ok s.
Proof using Type.
  intros [Hl Hw Hj Hg Hn]. split; rewrite ?Hw; [|intros sid; unfold job_sessions; rewrite Hl, Hj; set_solver
    |intros sid; rewrite Hl; set_solver|constructor].
  split; unfold job_sessions; rewrite ?Hj; [by split; constructor| |constructor|set_solver].
  split; rewrite ?Hn, ?Hg; [constructor..|]. by intros ? ? ?%elem_of_nil.
Qed.

(** The agent through its own calls: whole sessions and whole job runs, one by one. *)
Section Whole.
Context (json_Unmarshal : string -> result (option Args)) (json_Marshal : Args -> result string).
Context (empty_args : Args) (deadline_exceeded : LW -> bool) (fmt_duration : Z -> string).
Context (fmt_list : list string -> string) (blocked_json : BlockedOutbound -> string).
Context (schedule : nat -> list nat).

Inductive agent_call (w w' : World) : Prop :=
  | call_session r trigger res : lawful_runner r ->
      RunSession json_snapshot json_Unmarshal json_Marshal empty_args deadline_exceeded fmt_duration
        fmt_list blocked_json schedule r trigger w = (w', res) -> agent_call w w'
  | call_job row r : row ∈ db_jobs (w_db w) ->
      RunSession_job pl (jr_id row) (jr_session_id row) w = (w', r) -> agent_call w w'.

(** C4: The transition system covers the code: every sequence of whole calls of
    [RunSession] and of [JobRunner.Run] on rows of the job table is a sequence of its
    steps, whatever the model, the tools and the stores answer and whatever fails. *)
Theorem calls_are_steps w0 w : pl_db pl = Some commit_tx ->
  collaborators_ok pl -> forward_collaborators -> rtc agent_call w0 w ->
  rtc agent_step {| ag_world := w0; ag_live := ∅; ag_workers := [] |}
                 {| ag_world := w; ag_live := ∅; ag_workers := [] |}.
Proof using Type.
  intros Hdb Hc Hw Hs. induction Hs as [w|w w1 w2 H1' Hs IH]; [done|]. etransitivity; [|exact IH].
  destruct H1' as [r trigger res Hr E|row r Hrow E]; [|by eapply Run_steps].
  eapply RunSession_steps in E as (live & Hl & E); [|exact Hr]. assert (live = ∅) as -> by (apply leibniz_equiv, equiv_empty, Hl). exact E.
Qed.
End Whole.

(** C3: The agent remembers. Let sessions and workers run concurrently, piece by piece,
    in any order, with workers overtaken, reclaimed and killed, statements failing and
    processes restarting: in every reachable state each session has at most one job,
    and when that job reads completed every entry of the session's experience is linked
    to a narrative that is in the store. *)
Theorem agent_remembers tx s0 s : pl_consolidation pl = Some tx ->
  agent_start s0 -> rtc agent_step s0 s -> ids_distinct (w_rng (ag_world s)) ->
  let d := w_db (ag_world s) in
  NoDup (map jr_session_id (db_jobs d)) /\
  forall j x, j ∈ db_jobs d -> jr_status j = "completed" ->
    x ∈ db_logs d -> lr_session_id x = jr_session_id j ->
    exists narrative, narrative ∈ db_narratives d /\ lr_narrative_summary_id x = Some (nr_id narrative).
Proof using Type.
  intros Hpl H0' Hs Hd d. eapply agent_ok_steps in Hs; [|done..|by apply agent_start_ok].
  destruct (ao_tables _ Hs) as [_ [_ _ Hlinks] Ho Hdone]. fold d in Hlinks, Ho, Hdone. split; [exact Ho|].
  intros j x Hj Hc Hx Hsid. specialize (Hdone j Hj Hc x Hx). unfold uncovered in Hdone.
  rewrite Hsid, String.eqb_refl in Hdone. destruct (lr_narrative_summary_id x) as [nid|] eqn:En.
  - apply (Hlinks x nid Hx) in En. apply elem_of_map in En as (n & Hn & <-). eauto.
  - by apply elem_of_nil in Hdone.
Qed.

(** Narratives stay; logs stay, say the same, and keep their link or get one. *)
Record memory_grows (d d' : Database) : Prop := {
  mg_narratives : forall n, n ∈ db_narratives d -> n ∈ db_narratives d';
  mg_logs : forall x, x ∈ db_logs d -> exists x', x' ∈ db_logs d' /\ log_of_row x' = log_of_row x /\
    (is_Some (lr_narrative_summary_id x) -> is_Some (lr_narrative_summary_id x')) }.
#[local] Instance memory_grows_preorder : PreOrder memory_grows.
Proof using Type.
  split; [intros d; split; eauto|]. intros a b c [N1 L1] [N2 L2]. split; [auto|]. intros x Hx.
  destruct (L1 x Hx) as (y & Hy & E1 & S1). destruct (L2 y Hy) as (z & Hz & E2 & S2).
  exists z. split_and!; [done|congruence|auto].
Qed.
Lemma same_memory_grows d d' : same_memory d d' -> memory_grows d d'.
Proof using Type. intros [Hl Hn]. split; rewrite ?Hl, ?Hn; eauto. Qed.
Lemma experience_grows own w w' : experience own w w' -> memory_grows (w_db w) (w_db w').
Proof using Type.
  intros [_ Hn _ (rows & Hl & _) _]. split; [by rewrite Hn|]. intros x Hx. exists x. rewrite Hl.
  split; [apply elem_of_app; by left|done].
Qed.
Lemma consolidated_grows n nid row ids d d' : consolidated n nid row ids d d' -> memory_grows d d'.
Proof using Type.
  intros Hc. split.
  - intros m Hm. rewrite (co_narratives _ _ _ _ _ _ Hc). apply elem_of_app. by left.
  - intros x Hx. eexists. split; [rewrite (co_logs _ _ _ _ _ _ Hc); by apply elem_of_updateb_intro|].
    destruct (log_in ids x); [by split|done].
Qed.
Lemma agent_step_grows tx s s' : pl_consolidation pl = Some tx -> agent_step s s' ->
  memory_grows (w_db (ag_world s)) (w_db (ag_world s')).
Proof using Type.
  intros Hpl []; simpl; try reflexivity.
  - apply prepare_quiet in H4 as [E _]; [|done]. by eapply experience_grows.
  - eapply frames_elim in H4; [|by apply (append_experience (fun _ => True))]. by eapply experience_grows.
  - apply dispatch_commits in H5 as [->|[rc E]]; [reflexivity| |by apply lr_dispatch].
    by eapply same_memory_grows, Commit_memory.
  - by eapply same_memory_grows, Claim_memory.
  - apply (load_covers tx) in H4 as [-> _]; [reflexivity|done].
  - apply (commit_summary_cases tx) in H4 as [[_ ->]|[_ (n' & nid & row & Hc)]]; [reflexivity| |done].
    by eapply consolidated_grows.
  - apply same_memory_grows. destruct H3 as [[_ E]|(e & _ & [E|E])]; by eapply fenced_update_memory.
  - by eapply experience_grows.
Qed.

(** C5: It forgets nothing. Sessions append to T2 and dispatch, workers claim, load,
    commit and finish, each by the store's own operation, interleaved, failing and
    restarted in any way; everything else (the model, the tools, the gateway, the other
    stores) writes to other tables. Then no step loses an entry of T2, changes what it
    says or takes its link away, and no narrative is lost or changed: every log and
    narrative of a state is in every later one. *)
Theorem agent_forgets_nothing tx s s' : pl_consolidation pl = Some tx -> rtc agent_step s s' ->
  memory_grows (w_db (ag_world s)) (w_db (ag_world s')).
Proof using Type.
  intros Hpl Hs. induction Hs as [s|s s1 s2 H1' Hs IH]; [reflexivity|].
  etransitivity; [by eapply agent_step_grows|done].
Qed.
End System.

(** ** A session and the job it leaves *)

Definition morning : SessionTrigger :=
  {| st_WakeReason := "operator"; st_InboundContent := "remember me"; st_InboundSender := "ada";
     st_InboundChannel := ""; st_InbandNotes := []; st_AegisAnnotation := None |}.
Definition after_session : World :=
  (@RunSession demo_env demo_process demo_host unit (fun _ => "{}") (fun _ => Ok None) (fun _ => Ok "")
     tt (fun _ => false) (fun _ => "") (fun _ => "") (fun _ => "") (fun n => seq 0 n)
     demo_runner morning demo_world).1.
Definition its_job : JobRow := List.hd (new_job "" "" "" 0) (db_jobs (w_db after_session)).
Definition after_job : World :=
  (@RunSession_job demo_env (demo_pipeline (Some true)) (jr_id its_job) (jr_session_id its_job) after_session).1.
Notation demo_agent_step := (@agent_step demo_env demo_process demo_host demo_stat demo_range unit
  (fun _ => "{}") "ersa" (demo_pipeline (Some true)) true).
Notation at_rest w := {| ag_world := w; ag_live := ∅; ag_workers := [] |}.

Lemma demo_lawful : @lawful_runner demo_env demo_process demo_host demo_stat demo_range unit "ersa" demo_runner.
Proof.
  split; [reflexivity|exact demo_sqlite|intros st ap Hs; simpl in Hs; by simplify_eq|].
  assert (Hret : forall A (a : A), frames quiet (ret a)) by (intros; apply frames_ret, experience_preorder).
  split; simpl; intros; simplify_eq; try done.
  - apply query_experience.
  - apply quiet_experience, same_db_quiet; [done|simpl; lia].
  - split; apply frames_intro; intros w w' x [= <- _]; reflexivity.
  - by eexists _, _.
  - split; [split; intros; apply Hret|done].
  - apply lifecycle_experience.
  - apply frames_wrapM, query_experience.
Qed.
Lemma demo_distinct : @ids_distinct demo_env "ersa" (w_rng after_job).
Proof.
  assert (Hn : NoDup (map (@session_id demo_env "ersa") (seq 0 (w_rng after_job)))).
  { apply (bool_decide_unpack _). vm_compute. exact I. }
  intros i j Hij E. apply (f_equal Some) in E.
  assert (Hi : forall k, (k < w_rng after_job)%nat ->
    map (@session_id demo_env "ersa") (seq 0 (w_rng after_job)) !! k = Some (@session_id demo_env "ersa" k)).
  { intros k Hk. change (map ?f ?l) with (f <$> l). rewrite list_lookup_fmap, lookup_seq_lt; [done|lia]. }
  rewrite <- (Hi i), <- (Hi j) in E by lia.
  assert (i = j); [|lia]. eapply NoDup_lookup; [exact Hn|rewrite E; apply Hi; lia|apply Hi; lia].
Qed.

Lemma demo_start : agent_start (at_rest demo_world).
Proof. by split. Qed.
Lemma demo_forward c : forward_collaborators (demo_pipeline c).
Proof. split; intros f Hf; try discriminate. injection Hf as <-. intros s w. unfold rng_le. simpl. lia. Qed.
Lemma its_job_stored : its_job ∈ db_jobs (w_db after_session).
Proof. vm_compute. left. Qed.

Lemma demo_session_steps : rtc demo_agent_step (at_rest demo_world) (at_rest after_session).
Proof.
  destruct (@RunSession_steps demo_env demo_process demo_host demo_stat demo_range unit (fun _ => "{}")
    "ersa" (demo_pipeline (Some true)) true (fun _ => Ok None) (fun _ => Ok "") tt (fun _ => false)
    (fun _ => "") (fun _ => "") (fun _ => "") (fun n => seq 0 n) demo_runner morning demo_world
    after_session _ ∅ [] demo_lawful (surjective_pairing _)) as (live & Hl & E).
  assert (live = ∅) as -> by (apply leibniz_equiv, equiv_empty, Hl). exact E.
Qed.
Lemma demo_job_steps : rtc demo_agent_step (at_rest after_session) (at_rest after_job).
Proof.
  apply (@Run_steps demo_env demo_process demo_host demo_stat demo_range unit (fun _ => "{}") "ersa"
    (demo_pipeline (Some true)) true its_job after_session after_job _ ∅ []
    (demo_collaborators _) (demo_forward _) eq_refl its_job_stored (surjective_pairing _)).
Qed.

Lemma agent_remembers_witness :
  (exists j, j ∈ db_jobs (w_db after_job) /\ jr_status j = "completed") /\
  length (db_logs (w_db after_job)) = 2%nat /\
  Forall (fun x => is_Some (lr_narrative_summary_id x)) (db_logs (w_db after_job)).
Proof.
  assert (Hj : exists j, j ∈ db_jobs (w_db after_job) /\ jr_status j = "completed" /\
    Forall (fun x => lr_session_id x = jr_session_id j) (db_logs (w_db after_job))).
  { vm_compute. eexists. split; [left|]. split; [reflexivity|]. repeat constructor. }
  destruct Hj as (j & Hj & Hc & Hs). split; [by exists j|]. split; [by vm_compute|].
  apply Forall_forall. intros x Hx. rewrite Forall_forall in Hs.
  destruct (@agent_remembers demo_env demo_process demo_host demo_stat demo_range unit (fun _ => "{}") "ersa"
    (demo_pipeline (Some true)) true true (at_rest demo_world) (at_rest after_job) eq_refl demo_start
    (transitivity demo_session_steps demo_job_steps) demo_distinct) as [_ Hm].
  destruct (Hm j x Hj Hc Hx (Hs x Hx)) as (n & _ & ->). by eexists.
Defined.

Lemma agent_forgets_nothing_witness :
  memory_grows (w_db after_session) (w_db after_job) /\ db_logs (w_db after_session) <> [].
Proof.
  split; [|by vm_compute].
  exact (@agent_forgets_nothing demo_env demo_process demo_host demo_stat demo_range unit (fun _ => "{}") "ersa"
    (demo_pipeline (Some true)) true true (at_rest after_session) (at_rest after_job) eq_refl demo_job_steps).
Defined.

Lemma calls_are_steps_witness : rtc demo_agent_step (at_rest demo_world) (at_rest after_job).
Proof.
  refine (@calls_are_steps demo_env demo_process demo_host demo_stat demo_range unit (fun _ => "{}") "ersa"
    (demo_pipeline (Some true)) true (fun _ => Ok None) (fun _ => Ok "") tt (fun _ => false)
    (fun _ => "") (fun _ => "") (fun _ => "") (fun n => seq 0 n) demo_world after_job eq_refl
    (demo_collaborators _) (demo_forward _) _).
  eapply (rtc_l _ _ after_session).
  - exact (@call_session demo_env demo_process demo_host demo_stat demo_range unit _ _ _ _ _ _ _ _ _ _ _ _ _
      demo_runner morning _ demo_lawful (surjective_pairing _)).
  - apply rtc_once. exact (@call_job demo_env demo_process demo_host demo_stat demo_range unit _ _ _ _ _ _ _ _ _ _ _ _ _
      its_job _ its_job_stored (surjective_pairing _)).
Defined.
