(* ===== verification/Recovery.v ===== *)
(** * The first job helpers and their recovery: [metabolism/jobs.go], [recovery.go]

    The helpers the fenced store ([Jobs]) replaced: plain updates by job ID, on the same
    table, without tokens. Only the tests call them. The time columns of
    [metabolism_jobs] are declared TIMESTAMP, so they scan into a [time.Time]. *)

From S2P Require Import Prelude Types Db Jobs.

Record MetabolismJob := {
  mj_ID : string; mj_SessionID : string; mj_Status : string; mj_JobType : string;
  mj_StartedAt : option Z; mj_CompletedAt : option Z; mj_ErrorMsg : string;
  mj_RetryCount : Z; mj_CreatedAt : Z }.

Definition JobStatusPending : string := "pending".
Definition JobStatusRunning : string := "running".
Definition JobStatusCompleted : string := "completed".
Definition JobStatusFailed : string := "failed".
Definition JobStatusInterrupted : string := "interrupted".
Definition JobStatusReviewRequired : string := "review_required".

(** [SET status = ?, error_message = ?] *)
Definition put_status (status msg : string) : JobRow -> JobRow := set_status status (Some msg) None 0.

(** The CHECK of the status column, for the rows an UPDATE or INSERT writes. *)
Definition status_check (status : string) (n : nat) : result unit :=
  if (n =? 0)%nat || existsb (String.eqb status) job_statuses then Ok tt
  else Err (ENew "CHECK constraint failed: status").

Definition job_of_row (r : JobRow) : MetabolismJob :=
  {| mj_ID := jr_id r; mj_SessionID := jr_session_id r; mj_Status := jr_status r;
     mj_JobType := jr_job_type r; mj_StartedAt := (fun t => t * second) <$> jr_started_at r;
     mj_CompletedAt := (fun t => t * second) <$> jr_completed_at r;
     mj_ErrorMsg := default "" (jr_error_message r); mj_RetryCount := jr_retry_count r;
     mj_CreatedAt := jr_created_at r * second |}.

Definition set_job_status (s : string) (j : MetabolismJob) : MetabolismJob :=
  {| mj_ID := mj_ID j; mj_SessionID := mj_SessionID j; mj_Status := s; mj_JobType := mj_JobType j;
     mj_StartedAt := mj_StartedAt j; mj_CompletedAt := mj_CompletedAt j;
     mj_ErrorMsg := mj_ErrorMsg j; mj_RetryCount := mj_RetryCount j; mj_CreatedAt := mj_CreatedAt j |}.

Section Helpers.
Context `{Env}.

Definition CommitJob (sessionID jobType : string) : M World MetabolismJob :=
  let! id := newID in
  let! now := now_UTC in
  let! _ := wrapM ("metabolism: committing job for session " +:+ sessionID)
    (exec (fun d now =>
       let? rows := insert_pk jr_id (new_job id sessionID jobType now) (db_jobs d) in
       Ok (set_jobs (fun _ => rows) d, tt))) in
  ret {| mj_ID := id; mj_SessionID := sessionID; mj_Status := JobStatusPending; mj_JobType := jobType;
         mj_StartedAt := None; mj_CompletedAt := None; mj_ErrorMsg := ""; mj_RetryCount := 0;
         mj_CreatedAt := now |}.

Definition UpdateJobStatus (jobID status errMsg : string) : M World unit :=
  wrapM ("metabolism: updating job " +:+ jobID +:+ " to " +:+ status)
    (exec (fun d _ =>
       let? _ := status_check status (countb (id_is jobID) (db_jobs d)) in
       Ok ((update_jobs (id_is jobID) (put_status status errMsg) d).1, tt))).

Definition CompleteJob (jobID : string) : M World unit :=
  wrapM ("metabolism: completing job " +:+ jobID)
    (exec (fun d now => Ok ((update_jobs (id_is jobID) (set_completed now) d).1, tt))).

Definition FailJob (jobID errMsg : string) : M World unit :=
  wrapM ("metabolism: failing job " +:+ jobID)
    (exec (fun d _ => Ok ((update_jobs (id_is jobID) (set_failed errMsg) d).1, tt))).

(** [WHERE status IN ('pending', 'running') ORDER BY created_at ASC] *)
Definition incomplete (r : JobRow) : bool := status_is "pending" r || status_is "running" r.
Definition fetchIncompleteJobs : M World (list MetabolismJob) :=
  wrapM "querying incomplete jobs"
    (query (fun d _ => Ok (map job_of_row (order_by jr_created_at (whereb incomplete (db_jobs d)))))).

(** The jobs are reached through pointers: the reset shows in the returned slice. *)
Fixpoint reset_running (jobs : list MetabolismJob) : M World (list MetabolismJob) :=
  match jobs with
  | [] => ret []
  | job :: rest =>
      let! job := if String.eqb (mj_Status job) JobStatusRunning then
                    let! _ := wrapM ("metabolism: resetting running job " +:+ mj_ID job +:+ " to pending")
                                (UpdateJobStatus (mj_ID job) JobStatusPending "") in
                    ret (set_job_status JobStatusPending job)
                  else ret job in
      let! rest := reset_running rest in
      ret (job :: rest)
  end.
Fixpoint split_exhausted (maxRetries : Z) (jobs : list MetabolismJob) : M World (list MetabolismJob) :=
  match jobs with
  | [] => ret []
  | job :: rest =>
      if maxRetries <=? mj_RetryCount job then
        let! _ := wrapM ("metabolism: marking exhausted job " +:+ mj_ID job +:+ " as failed")
                    (UpdateJobStatus (mj_ID job) JobStatusFailed "max retries exceeded") in
        split_exhausted maxRetries rest
      else let! rest := split_exhausted maxRetries rest in ret (job :: rest)
  end.

Definition RecoverIncompleteJobs (maxRetries : Z) : M World (list MetabolismJob) :=
  let! jobs := wrapM "metabolism: recovery scan" fetchIncompleteJobs in
  match jobs with
  | [] => ret []
  | _ => let! jobs := reset_running jobs in split_exhausted maxRetries jobs
  end.
End Helpers.

(** ** What a recovery does *)

(** A row after a recovery. *)
Definition recovered_row (maxRetries : Z) (r : JobRow) : JobRow :=
  if incomplete r then
    if maxRetries <=? jr_retry_count r then put_status "failed" "max retries exceeded" r
    else if status_is "running" r then put_status "pending" "" r else r
  else r.
Definition retryable (maxRetries : Z) (r : JobRow) : bool :=
  incomplete r && (jr_retry_count r <? maxRetries).

Section Recovery.
Context `{Env}.
Hypothesis no_faults : forall n, db_fault n = None.

Lemma UpdateJobStatus_runs id s msg w :
  existsb (String.eqb s) job_statuses = true ->
  exists w', UpdateJobStatus id s msg w = (w', Ok tt) /\
    w_db w' = set_jobs (updateb (id_is id) (put_status s msg)) (w_db w).
Proof.
  intros Hs. unfold UpdateJobStatus, wrapM, exec. rewrite no_faults. unfold status_check.
  rewrite Hs, orb_true_r. cbn. eauto.
Qed.

(** A list of updates by ID, as one update per row. *)
Definition update_all (f : JobRow -> JobRow) (ids : list string) (rows : list JobRow) : list JobRow :=
  updateb (fun r => existsb (String.eqb (jr_id r)) ids) f rows.

Lemma update_all_nil f rows : update_all f [] rows = rows.
Proof. apply updateb_none. done. Qed.
Lemma update_all_cons f id ids rows :
  (forall r, jr_id (f r) = jr_id r) -> (forall r, f (f r) = f r) ->
  update_all f ids (updateb (id_is id) f rows) = update_all f (id :: ids) rows.
Proof.
  intros Hid Hf. unfold update_all, updateb, id_is. rewrite map_map. apply map_ext. intros r. cbn.
  destruct (String.eqb_spec (jr_id r) id) as [E|E]; rewrite ?Hid; cbn; [|done].
  by destruct (existsb _ ids); rewrite ?Hf.
Qed.
Lemma put_status_idem s msg r : put_status s msg (put_status s msg r) = put_status s msg r.
Proof. unfold put_status, set_status. cbn. f_equal. lia. Qed.
Lemma set_jobs_twice f g d : set_jobs f (set_jobs g d) = set_jobs (fun l => f (g l)) d.
Proof. done. Qed.

Definition running_job (j : MetabolismJob) : bool := String.eqb (mj_Status j) "running".
Definition exhausted_job (maxRetries : Z) (j : MetabolismJob) : bool := maxRetries <=? mj_RetryCount j.
Definition as_pending (j : MetabolismJob) : MetabolismJob :=
  if running_job j then set_job_status JobStatusPending j else j.

Lemma reset_running_runs jobs : forall w,
  exists w', reset_running jobs w = (w', Ok (map as_pending jobs)) /\
    w_db w' = set_jobs (update_all (put_status "pending" "") (map mj_ID (whereb running_job jobs))) (w_db w).
Proof.
  induction jobs as [|j jobs IH]; intros w; cbn.
  - exists w. split; [done|]. unfold set_jobs. rewrite update_all_nil. by destruct (w_db w).
  - unfold bind, as_pending, running_job, JobStatusRunning.
    destruct (String.eqb (mj_Status j) "running") eqn:E.
    + unfold wrapM.
      destruct (UpdateJobStatus_runs (mj_ID j) "pending" "" w eq_refl) as (w1 & E1 & D1).
      unfold JobStatusPending. rewrite E1. cbn.
      destruct (IH w1) as (w2 & E2 & D2). rewrite E2. cbn. exists w2. split; [done|].
      rewrite D2, D1, set_jobs_twice. unfold set_jobs. f_equal. cbn. apply update_all_cons; [done|].
      apply put_status_idem.
    + cbn. destruct (IH w) as (w2 & E2 & D2). rewrite E2. cbn. exists w2. done.
Qed.

Lemma split_exhausted_runs maxRetries jobs : forall w,
  exists w', split_exhausted maxRetries jobs w =
      (w', Ok (whereb (fun j => negb (exhausted_job maxRetries j)) jobs)) /\
    w_db w' = set_jobs (update_all (put_status "failed" "max retries exceeded")
                          (map mj_ID (whereb (exhausted_job maxRetries) jobs))) (w_db w).
Proof.
  induction jobs as [|j jobs IH]; intros w; cbn.
  - exists w. split; [done|]. unfold set_jobs. rewrite update_all_nil. by destruct (w_db w).
  - unfold exhausted_job. destruct (maxRetries <=? mj_RetryCount j) eqn:E; cbn; unfold bind, wrapM.
    + destruct (UpdateJobStatus_runs (mj_ID j) "failed" "max retries exceeded" w eq_refl) as (w1 & E1 & D1).
      unfold JobStatusFailed. rewrite E1. cbn.
      destruct (IH w1) as (w2 & E2 & D2). rewrite E2. exists w2. split; [done|].
      rewrite D2, D1, set_jobs_twice. unfold set_jobs. f_equal. cbn. apply update_all_cons; [done|].
      apply put_status_idem.
    + destruct (IH w) as (w2 & E2 & D2). rewrite E2. cbn. exists w2. done.
Qed.

Lemma ids_of_where (p q : JobRow -> bool) rows l r :
  NoDup (map jr_id rows) -> l ≡ₚ whereb q rows -> r ∈ rows ->
  existsb (String.eqb (jr_id r)) (map jr_id (whereb p l)) = q r && p r.
Proof.
  intros Hnd HP Hr. apply eq_true_iff_eq. rewrite existsb_exists, andb_true_iff. split.
  - intros (i & Hi & Ei%String.eqb_eq). apply list_elem_of_In, list_elem_of_fmap in Hi as (x & -> & Hx).
    apply elem_of_whereb in Hx as (Hx & Hp). rewrite HP in Hx. apply elem_of_whereb in Hx as (Hx & Hq).
    by rewrite (NoDup_key_inj jr_id rows r x Hnd Hr Hx Ei).
  - intros (Hq & Hp). exists (jr_id r). split; [|apply String.eqb_refl].
    apply list_elem_of_In, list_elem_of_fmap. exists r. split; [done|].
    apply elem_of_whereb. split; [|done]. rewrite HP. by apply elem_of_whereb.
Qed.

Lemma map_ids (p : JobRow -> bool) (g : JobRow -> MetabolismJob) (q : MetabolismJob -> bool) l :
  (forall r, mj_ID (g r) = jr_id r) -> (forall r, q (g r) = p r) ->
  map mj_ID (whereb q (map g l)) = map jr_id (whereb p l).
Proof.
  intros Hg Hq. unfold whereb. induction l as [|r l IH]; cbn; [done|].
  rewrite Hq. destruct (p r); cbn; by rewrite ?Hg, IH.
Qed.

(** The two rounds of updates, row by row. *)
Lemma recovery_rows maxRetries rows l :
  NoDup (map jr_id rows) -> l ≡ₚ whereb incomplete rows ->
  update_all (put_status "failed" "max retries exceeded")
    (map jr_id (whereb (fun r => maxRetries <=? jr_retry_count r) l))
    (update_all (put_status "pending" "") (map jr_id (whereb (status_is "running") l)) rows)
  = map (recovered_row maxRetries) rows.
Proof.
  intros Hnd HP. unfold update_all at 1, updateb. unfold update_all, updateb. rewrite map_map.
  apply map_ext_in. intros r Hr%list_elem_of_In. cbn.
  rewrite (ids_of_where (status_is "running") incomplete rows l r Hnd HP Hr).
  replace (existsb _ _) with (incomplete r && (maxRetries <=? jr_retry_count r)).
  2: { rewrite <- (ids_of_where (fun r => maxRetries <=? jr_retry_count r) incomplete rows l r Hnd HP Hr).
       by destruct (incomplete r && status_is "running" r). }
  unfold recovered_row. destruct (incomplete r) eqn:Ei; cbn; [|done].
  destruct (maxRetries <=? jr_retry_count r), (status_is "running" r); try done.
  unfold put_status, set_status. cbn. f_equal. lia.
Qed.

Lemma whereb_map {A B} (g : A -> B) (p : B -> bool) l : whereb p (map g l) = map g (whereb (fun x => p (g x)) l).
Proof. unfold whereb. induction l as [|x l IH]; cbn; [done|]. destruct (p (g x)); cbn; by rewrite IH. Qed.

(** On a store with unique job IDs and no driver failure the first recovery
    succeeds and rewrites the job table row by row: an incomplete job with no retry left
    is failed, a running one is reset to pending, and every other row keeps all its
    columns. It returns the incomplete jobs that have retries left, oldest first, as
    pending. *)
Theorem RecoverIncompleteJobs_exact maxRetries w (Hids : NoDup (map jr_id (db_jobs (w_db w)))) :
  exists w', RecoverIncompleteJobs maxRetries w =
    (w', Ok (map (fun r => as_pending (job_of_row r))
               (whereb (fun r => jr_retry_count r <? maxRetries)
                  (order_by jr_created_at (whereb incomplete (db_jobs (w_db w))))))) /\
    w_db w' = set_jobs (map (recovered_row maxRetries)) (w_db w).
Proof.
  unfold RecoverIncompleteJobs, fetchIncompleteJobs, wrapM, bind, query, exec. rewrite no_faults. cbn.
  set (rows := db_jobs (w_db w)) in *. set (l := order_by jr_created_at (whereb incomplete rows)).
  assert (l ≡ₚ whereb incomplete rows) as HP by apply order_by_Permutation.
  pose proof (recovery_rows maxRetries rows l Hids HP) as Hrows.
  destruct l as [|r0 l0] eqn:El.
  - cbn. eexists. split; [done|]. cbn in Hrows. rewrite !update_all_nil in Hrows.
    unfold set_jobs. fold rows. rewrite <- Hrows. by destruct (w_db w).
  - rewrite <- El in *. clear El. destruct (map job_of_row l) as [|j0 js] eqn:Em.
    { destruct l; [|done]. cbn. eexists. split; [done|]. cbn in Hrows.
      rewrite !update_all_nil in Hrows. unfold set_jobs. fold rows. rewrite <- Hrows. by destruct (w_db w). }
    rewrite <- Em. clear Em.
    destruct (reset_running_runs (map job_of_row l) (with_db (w_db w) (bump_stmt w))) as (w1 & E1 & D1).
    unfold bind. rewrite E1.
    destruct (split_exhausted_runs maxRetries (map as_pending (map job_of_row l)) w1) as (w2 & E2 & D2).
    rewrite E2. exists w2. rewrite map_map. split.
    + rewrite whereb_map. f_equal. f_equal. f_equal. unfold whereb. apply filter_ext. intros r.
      unfold exhausted_job, as_pending. destruct (running_job _); cbn; lia.
    + rewrite D2, D1, set_jobs_twice. cbn. rewrite map_map in *. unfold set_jobs. f_equal. cbn.
      fold rows. rewrite <- Hrows.
      rewrite (map_ids (status_is "running") job_of_row running_job) by done.
      rewrite (map_ids (fun r => maxRetries <=? jr_retry_count r)); [done|..]; try intros r;
        unfold exhausted_job, as_pending; by destruct (running_job _).
Qed.
End Recovery.

(** Two jobs a crash left behind: one with retries, one without. *)
Definition crashed (id : string) (retries : Z) : JobRow :=
  {| jr_id := id; jr_session_id := "s"; jr_status := "running"; jr_job_type := "standard";
     jr_started_at := Some 1; jr_completed_at := None; jr_error_message := None;
     jr_retry_count := retries; jr_claim_token := Some "tok"; jr_claim_count := 1; jr_created_at := 1 |}.
Definition crashed_world : World :=
  with_db (set_jobs (fun _ => [crashed "a" 0; crashed "b" 3]) empty_db) demo_world.

Lemma RecoverIncompleteJobs_exact_witness :
  let r := @RecoverIncompleteJobs demo_env 3 crashed_world in
  map jr_status (db_jobs (w_db r.1)) = ["pending"; "failed"] /\
  exists l, r.2 = Ok l /\ map mj_ID l = ["a"].
Proof.
  destruct (@RecoverIncompleteJobs_exact demo_env (fun _ => eq_refl) 3 crashed_world) as (w' & E & D).
  { apply (bool_decide_unpack _). vm_compute. exact I. }
  cbv zeta. rewrite E. cbn [fst snd]. rewrite D. split; [reflexivity|]. eexists. split; [reflexivity|].
  vm_compute. reflexivity.
Defined.

(** The reset leaves the lease: the worker that held the job can still complete it
    after recovery handed it out again. *)
Example recovered_job_keeps_its_lease :
  let w := (@RecoverIncompleteJobs demo_env 3 crashed_world).1 in
  map jr_status (db_jobs (w_db w)) = ["pending"; "failed"] /\
  (@Complete demo_env "a" "tok" w).2 = Ok tt.
Proof. vm_compute. done. Qed.
