(* ===== verification/Dsn.v ===== *)
(** * Opening a database: [internal/platform/db.go], [internal/app/bootstrap.go]

    A DSN names the driver and what it opens. Which drivers are registered with
    [database/sql], what a ping answers, how [net/url] parses and prints, and the pgx
    pool are parameters; open handles are a set of numbers, so that a leak shows. *)

From S2P Require Import Prelude.

Definition TrimPrefix (s p : string) : string :=
  if has_prefix s p then str_drop (String.length p) s else s.

Definition parseDSN (dsn : string) : result (string * string) :=
  if has_prefix dsn "sqlite://" then Ok ("sqlite3", TrimPrefix dsn "sqlite://")
  else if has_prefix dsn "sqlite3://" then Ok ("sqlite3", TrimPrefix dsn "sqlite3://")
  else if has_prefix dsn "postgres://" || has_prefix dsn "postgresql://" then Ok ("postgres", dsn)
  else Err (ENew ("unsupported DSN scheme (want sqlite:// or postgres://): " +:+ fmt_q dsn)).

(** [DriverNameFromDSN] ([bootstrap.go]) *)
Definition DriverNameFromDSN (dsn : string) : string :=
  if str_empty dsn then "sqlite3"
  else if has_prefix dsn "postgres://" || has_prefix dsn "postgresql://" then "postgres"
  else "sqlite3".

(** The handles the process holds: [hd_next] numbers the next one. *)
Record Handles := { hd_next : nat; hd_live : list nat }.
Record Store := { st_DB : nat; st_Driver : string; st_dsn : string }.
Record SQLiteStore := { sq_db : nat; sq_dsn : string }.

Section Opening.
Variable drivers : list string.
(** [db.Ping], of a driver on a data source. *)
Variable Ping : string -> string -> option error.

Definition sql_Open (driver rawDSN : string) : M Handles nat :=
  fun h =>
    if one_of driver drivers
    then ({| hd_next := S (hd_next h); hd_live := hd_live h ++ [hd_next h] |}, Ok (hd_next h))
    else (h, Err (ENew ("sql: unknown driver " +:+ fmt_q driver +:+ " (forgotten import?)"))).
Definition Close (i : nat) : M Handles unit :=
  fun h => ({| hd_next := hd_next h; hd_live := List.filter (fun j => negb (j =? i)%nat) (hd_live h) |}, Ok tt).

(** [sql.Open], then [Ping]; a database that does not answer is closed. *)
Definition open_and_ping (driver rawDSN : string) : M Handles nat :=
  let! db := wrapM ("opening " +:+ driver +:+ " database") (sql_Open driver rawDSN) in
  match Ping driver rawDSN with
  | Some e =>
      let! _ := Close db in fail (EWrap ("connecting to " +:+ driver +:+ " database") e)
  | None => ret db
  end.

Definition NewStore (dsn : string) : M Handles Store :=
  match parseDSN dsn with
  | Err e => fail (EWrap "parsing DSN" e)
  | Ok (driver, rawDSN) =>
      let! db := open_and_ping driver rawDSN in
      ret {| st_DB := db; st_Driver := driver; st_dsn := rawDSN |}
  end.

(** The suffix is what turns foreign keys on; it is appended even to a DSN that has
    options already. *)
Definition NewSQLiteStore (dsn : string) : M Handles SQLiteStore :=
  match parseDSN dsn with
  | Err e => fail e
  | Ok (_, rawDSN) =>
      let! db := open_and_ping "sqlite3" (rawDSN +:+ "?_foreign_keys=on") in
      ret {| sq_db := db; sq_dsn := dsn |}
  end.
Definition NewSQLiteStoreFromDB (db : nat) (dsn : string) : SQLiteStore :=
  {| sq_db := db; sq_dsn := dsn |}.

(** ** PostgreSQL pools *)
Context {PoolConfig : Type}.
Variable ParseConfig : string -> result PoolConfig.
Variable set_MaxConns : Z -> PoolConfig -> PoolConfig.
Variable NewWithConfig : PoolConfig -> M Handles nat.
Variable pool_Ping : nat -> option error.

Definition NewPostgresStore (dsn : string) : M Handles SQLiteStore :=
  match ParseConfig dsn with
  | Err e => fail (EWrap "parsing postgres DSN" e)
  | Ok cfg =>
      let! pool := wrapM "opening postgres pool" (NewWithConfig (set_MaxConns 5 cfg)) in
      match pool_Ping pool with
      | Some e => let! _ := Close pool in fail (EWrap "connecting to postgres" e)
      | None => ret {| sq_db := pool; sq_dsn := dsn |}
      end
  end.

(** [inl] a [SQLiteStore], [inr] a [PostgresStore]. *)
Definition NewMemoryStore (dsn : string) : M Handles (SQLiteStore + SQLiteStore) :=
  if has_prefix dsn "sqlite://" || has_prefix dsn "sqlite3://" then
    let! s := NewSQLiteStore dsn in ret (inl s)
  else if has_prefix dsn "postgres://" || has_prefix dsn "postgresql://" then
    let! s := NewPostgresStore dsn in ret (inr s)
  else fail (ENew ("unsupported DSN scheme: " +:+ fmt_q dsn)).

(** [Close] of the two stores: the pool's reports nothing. *)
Definition SQLiteStore_Close (s : SQLiteStore) : M Handles unit := Close (sq_db s).
Definition PostgresStore_Close (s : SQLiteStore) : M Handles unit :=
  fun h => ((Close (sq_db s) h).1, Ok tt).
End Opening.

(** ** Redaction *)

(** What [RedactedDSN] touches of a [url.URL]: the user info, and the rest. *)
Record URL {R : Type} := { u_User : option (string * option string); u_rest : R }.
Arguments URL : clear implicits.
Section Redaction.
Context {R : Type}.
Variable url_Parse : string -> option (URL R).
Variable url_String : URL R -> string.

Definition RedactedDSN (dsn : string) : string :=
  match url_Parse dsn with
  | None => "[unparseable DSN]"
  | Some u =>
      url_String
        match u_User u with
        | Some (name, _) => {| u_User := Some (name, Some "***"); u_rest := u_rest u |}
        | None => u
        end
  end.

(** The PostgreSQL store redacts the DSN it was opened with. *)
Definition Postgres_RedactedDSN (s : SQLiteStore) : string := RedactedDSN (sq_dsn s).

(** Two DSNs that differ in their passwords only are redacted to the same text. *)
Lemma RedactedDSN_hides_password dsn dsn' name p p' r :
  url_Parse dsn = Some {| u_User := Some (name, p); u_rest := r |} ->
  url_Parse dsn' = Some {| u_User := Some (name, p'); u_rest := r |} ->
  RedactedDSN dsn = RedactedDSN dsn'.
Proof. unfold RedactedDSN. by intros -> ->. Qed.
End Redaction.

(** ** Properties *)

(** The two readings of a DSN agree wherever [parseDSN] accepts it. *)
Lemma DriverNameFromDSN_agrees dsn driver raw :
  parseDSN dsn = Ok (driver, raw) -> DriverNameFromDSN dsn = driver.
Proof.
  unfold parseDSN, DriverNameFromDSN, has_prefix.
  destruct (str_empty dsn) eqn:He; [apply str_empty_true in He as ->; discriminate|].
  destruct (String.prefix "sqlite://" dsn) eqn:E1.
  { apply prefix_split in E1 as [t ->]. by intros [= <- _]. }
  destruct (String.prefix "sqlite3://" dsn) eqn:E2.
  { apply prefix_split in E2 as [t ->]. by intros [= <- _]. }
  destruct (_ || _); by intros [= <- _].
Qed.
(** Not so elsewhere: the application takes an unknown scheme for SQLite. *)
Example unknown_scheme_is_sqlite :
  DriverNameFromDSN "mysql://h/db" = "sqlite3" /\ is_ok (parseDSN "mysql://h/db") = false.
Proof. by vm_compute. Qed.

Definition handles_ok (h : Handles) : Prop := Forall (fun i => (i < hd_next h)%nat) (hd_live h).

Section Properties.
Context (drivers : list string) (Ping : string -> string -> option error).

Lemma open_and_ping_cases driver raw h h' r :
  handles_ok h -> open_and_ping drivers Ping driver raw h = (h', r) ->
  match r with
  | Ok db => driver ∈ drivers /\ Ping driver raw = None /\ db = hd_next h /\
             h' = {| hd_next := S (hd_next h); hd_live := hd_live h ++ [hd_next h] |}
  | Err _ => hd_live h' = hd_live h
  end /\ handles_ok h'.
Proof.
  intros Hok. unfold open_and_ping, bind, wrapM, sql_Open. destruct (one_of driver drivers) eqn:Ed; cbn.
  2: { intros [= <- <-]. done. }
  assert (Hlt : Forall (fun i => (i < S (hd_next h))%nat) (hd_live h))
    by (eapply Forall_impl; [exact Hok|]; intros i Hi; simpl in *; lia).
  destruct (Ping driver raw) as [e|]; intros [= <- <-].
  - assert (Hl : List.filter (fun j => negb (j =? hd_next h)%nat) (hd_live h ++ [hd_next h]) = hd_live h).
    { rewrite List.filter_app. cbn. rewrite Nat.eqb_refl. cbn. rewrite app_nil_r.
      clear -Hok. unfold handles_ok in Hok. induction Hok as [|x l Hx Hl IH]; [done|]. cbn.
      destruct (Nat.eqb_spec x (hd_next h)); [lia|]. cbn. by rewrite IH. }
    split; [exact Hl|]. unfold handles_ok. cbn. by rewrite Hl.
  - split; [split_and!; [by apply one_of_elem|done..]|]. apply Forall_app. split; [done|].
    apply Forall_singleton. cbn. lia.
Qed.

(** [NewStore] holds exactly one more handle when it succeeds, for the driver the DSN
    names, and none more when it fails. *)
Lemma NewStore_exact dsn h h' r :
  handles_ok h -> NewStore drivers Ping dsn h = (h', r) ->
  match r with
  | Ok s => hd_live h' = hd_live h ++ [st_DB s] /\ st_DB s ∉ hd_live h /\
            parseDSN dsn = Ok (st_Driver s, st_dsn s) /\ st_Driver s ∈ drivers /\
            Ping (st_Driver s) (st_dsn s) = None
  | Err _ => hd_live h' = hd_live h
  end.
Proof.
  intros Hok. unfold NewStore. destruct (parseDSN dsn) as [[driver raw]|e]; [|by intros [= <- <-]].
  unfold bind. destruct (open_and_ping _ _ _ _ h) as [h1 r1] eqn:E.
  apply open_and_ping_cases in E as [E _]; [|done]. destruct r1 as [db|e]; [|by intros [= <- <-]].
  destruct E as (Hd & Hp & -> & ->). intros [= <- <-]. split_and!; try done.
  cbn. intros Hin. unfold handles_ok in Hok. rewrite Forall_forall in Hok. specialize (Hok _ Hin). lia.
Qed.

(** [db.go] imports one driver of [database/sql], go-sqlite3, which registers the name
    sqlite3: no PostgreSQL DSN can be opened, by the application or by the migration
    tool. *)
Lemma NewStore_refuses_postgres dsn h :
  "postgres" ∉ drivers -> DriverNameFromDSN dsn = "postgres" ->
  exists e, NewStore drivers Ping dsn h = (h, Err e).
Proof.
  intros Hd Hn. unfold NewStore. destruct (parseDSN dsn) as [[driver raw]|e] eqn:E; [|by eexists].
  apply DriverNameFromDSN_agrees in E. rewrite Hn in E. subst driver.
  unfold open_and_ping, bind, wrapM, sql_Open. destruct (one_of "postgres" drivers) eqn:Ed; [|by eexists].
  exfalso. apply Hd. by apply one_of_elem.
Qed.
End Properties.
