(* ===== verification/Migrate.v ===== *)
(** * The migration tool: [cmd/migrate/main.go]

    Numbered SQL files are applied once, in order, each in one transaction, and recorded
    with their checksum in [schema_migrations]. The database is whatever its statements
    make of it: an abstract state and a function for the driver. The cutting of a file
    into statements and the rewriting of its dialect are modelled byte for byte, with the
    part of [regexp] the eleven patterns use. *)

From S2P Require Import Prelude Dsn.

(** ** Statements of a file *)

Definition quote1 : Ascii.ascii := Ascii.ascii_of_nat 39.
Definition is_newline (c : Ascii.ascii) : bool := ascii_code c =? 10.
Definition next_is (p : Ascii.ascii -> bool) (s : string) : bool :=
  match s with "" => false | String c _ => p c end.
Definition dash (c : Ascii.ascii) : bool := ascii_code c =? 45.
Definition semicolon (c : Ascii.ascii) : bool := ascii_code c =? 59.

(** The loop of [splitStatements]: the statements appended so far and [cur]. *)
Fixpoint split_loop (inString inLineComment : bool) (cur : string) (stmts : list string)
    (sql : string) : list string * string :=
  match sql with
  | "" => (stmts, cur)
  | String ch rest =>
      let written := cur +:+ String ch "" in
      if inLineComment then split_loop inString (negb (is_newline ch)) written stmts rest
      else if negb inString && dash ch && next_is dash rest
      then split_loop inString true written stmts rest
      else
        let inString' := if Ascii.eqb ch quote1 then negb inString else inString in
        if negb inString' && semicolon ch
        then split_loop inString' false "" (stmts ++ [cur]) rest
        else split_loop inString' false written stmts rest
  end.

Section Migrate.
Variable unicode_trim : string -> string.

Definition splitStatements (sql : string) : list string :=
  let '(stmts, cur) := split_loop false false "" [] sql in
  let s := trim_space unicode_trim cur in
  if str_empty s then stmts else stmts ++ [s].

Definition truncate (s : string) (n : nat) : string :=
  if (String.length s <=? n)%nat then s else str_take n s +:+ "...".
End Migrate.

(** ** The dialect of SQLite

    The patterns of [regexp] in use: items in sequence, with a word boundary asked for
    at either end. Letters match as under [(?i)]; [Digits] is [\d+], [Spaces] is [\s+]. *)
Inductive item := Letter (c : Ascii.ascii) | Digits | Spaces.
Record pattern := { pt_lead : bool; pt_items : list item; pt_tail : bool }.

Definition is_upper (c : Ascii.ascii) : bool := (65 <=? ascii_code c) && (ascii_code c <=? 90).
Definition is_digit (c : Ascii.ascii) : bool := (48 <=? ascii_code c) && (ascii_code c <=? 57).
Definition is_word (c : Ascii.ascii) : bool :=
  is_upper c || ((97 <=? ascii_code c) && (ascii_code c <=? 122)) || is_digit c || (ascii_code c =? 95).
(** [\s]: tab, newline, form feed, return, space. *)
Definition re_space (c : Ascii.ascii) : bool :=
  (ascii_code c =? 32) || (ascii_code c =? 9) || (ascii_code c =? 10) || (ascii_code c =? 12) ||
  (ascii_code c =? 13).
Definition same_letter (a b : Ascii.ascii) : bool := Ascii.eqb (lower_byte a) (lower_byte b).

(** A letter at the start of [s] under [(?i)], as a count of bytes: in either case, and
    for [s] and [k] also the characters that fold to them, U+017F and U+212A. *)
Definition byte (n : nat) : Ascii.ascii := Ascii.ascii_of_nat n.
Definition long_s : string := String (byte 197) (String (byte 191) "").
Definition kelvin : string := String (byte 226) (String (byte 132) (String (byte 170) "")).
Definition letter_width (c : Ascii.ascii) (s : string) : option nat :=
  match s with
  | "" => None
  | String c' _ =>
      if same_letter c c' then Some 1%nat
      else if same_letter c (byte 115) && has_prefix s long_s then Some 2%nat
      else if same_letter c (byte 107) && has_prefix s kelvin then Some 3%nat
      else None
  end.

(** The longest run of bytes in [p], as a count. *)
Fixpoint run_length (p : Ascii.ascii -> bool) (s : string) : nat :=
  match s with "" => 0 | String c r => if p c then S (run_length p r) else 0 end.

(** [\b] between the byte before and the byte after. *)
Definition opt_word (c : option Ascii.ascii) : bool :=
  match c with Some c => is_word c | None => false end.
Definition head_of (s : string) : option Ascii.ascii :=
  match s with "" => None | String c _ => Some c end.
Definition boundary (prev : option Ascii.ascii) (s : string) : bool :=
  xorb (opt_word prev) (opt_word (head_of s)).

(** Matching the items at the start of [s]: the bytes consumed, and the last of them.
    The runs of these patterns are followed by a byte they cannot contain, so the longest
    run is the only one that can match. *)
Fixpoint match_items (items : list item) (prev : option Ascii.ascii) (s : string)
    : option (nat * option Ascii.ascii) :=
  match items with
  | [] => Some (0%nat, prev)
  | Letter c :: r =>
      match letter_width c s with
      | Some n =>
          match match_items r (String.get (n - 1) s) (str_drop n s) with
          | Some (m, l) => Some ((n + m)%nat, l)
          | None => None
          end
      | None => None
      end
  | it :: r =>
      let n := run_length (match it with Digits => is_digit | _ => re_space end) s in
      if (n =? 0)%nat then None
      else match match_items r (String.get (n - 1) s) (str_drop n s) with
           | Some (m, l) => Some ((n + m)%nat, l)
           | None => None
           end
  end.
Definition match_pattern (p : pattern) (prev : option Ascii.ascii) (s : string) : option nat :=
  if pt_lead p && negb (boundary prev s) then None
  else match match_items (pt_items p) prev s with
       | Some (n, last) =>
           if pt_tail p && negb (boundary last (str_drop n s)) then None else Some n
       | None => None
       end.
(** An alternation, tried in order. *)
Definition match_any (ps : list pattern) (prev : option Ascii.ascii) (s : string) : option nat :=
  fold_right (fun p k => match match_pattern p prev s with Some n => Some n | None => k end) None ps.

(** [ReplaceAllStringFunc]: the leftmost match, and on behind it. [skip] bytes of the
    current match are still to be dropped. *)
Fixpoint replace_from (ps : list pattern) (f : string -> string) (skip : nat)
    (prev : option Ascii.ascii) (s : string) : string :=
  match s with
  | "" => ""
  | String c r =>
      match skip with
      | S k => replace_from ps f k (Some c) r
      | O =>
          match match_any ps prev s with
          | Some (S k as n) => f (str_take n s) +:+ replace_from ps f k (Some c) r
          | _ => String c (replace_from ps f 0 (Some c) r)
          end
      end
  end.
Definition ReplaceAllStringFunc (ps : list pattern) (s : string) (f : string -> string) : string :=
  replace_from ps f 0 None s.
Definition ReplaceAllString (ps : list pattern) (s repl : string) : string :=
  ReplaceAllStringFunc ps s (fun _ => repl).

Definition letters (w : string) : list item := map Letter (String.list_ascii_of_string w).
Definition word (w : string) : pattern := {| pt_lead := true; pt_items := letters w; pt_tail := true |}.

Definition reBigSerial : list pattern := [word "BIGSERIAL"].
Definition reSerialOnly : list pattern := [word "SERIAL"].
Definition reSerial : list pattern := [word "BIGSERIAL"; word "SERIAL"].
Definition reVectorType : list pattern :=
  [{| pt_lead := true; pt_items := letters "vector(" ++ [Digits] ++ letters ")"; pt_tail := false |}].
Definition reTimestamptz : list pattern := [word "TIMESTAMPTZ"].
Definition reNow : list pattern :=
  [{| pt_lead := true; pt_items := letters "now()"; pt_tail := false |}].
Definition reConcurrently : list pattern :=
  [{| pt_lead := false; pt_tail := false;
      pt_items := letters "CREATE" ++ [Spaces] ++ letters "INDEX" ++ [Spaces] ++ letters "CONCURRENTLY" |}].
Definition reJSONB : list pattern := [word "JSONB"].
Definition reBooleanType : list pattern := [word "BOOLEAN"].
Definition reTrue : list pattern := [word "TRUE"].
Definition reFalse : list pattern := [word "FALSE"].

Definition upper_byte (c : Ascii.ascii) : Ascii.ascii :=
  if (97 <=? ascii_code c) && (ascii_code c <=? 122)
  then Ascii.ascii_of_nat (Z.to_nat (ascii_code c - 32)) else c.
(** [strings.ToUpper] on what [reSerial] matches and produces: ASCII and U+017F. *)
Fixpoint ToUpper (s : string) : string :=
  match s with
  | "" => ""
  | String c r =>
      match r with
      | "" => String (upper_byte c) ""
      | String d r' =>
          if Ascii.eqb c (byte 197) && Ascii.eqb d (byte 191) then String (byte 83) (ToUpper r')
          else String (upper_byte c) (ToUpper r)
      end
  end.

Definition serial_key : string := "INTEGER PRIMARY KEY AUTOINCREMENT".
Definition rewrite_serial (m : string) : string :=
  let upper := ToUpper m in
  if str_contains upper "BIGSERIAL" then ToUpper (ReplaceAllString reSerial m serial_key)
  else if str_contains upper "SERIAL" then ToUpper (ReplaceAllString reSerial m serial_key)
  else m.

Definition adaptForSQLite (sql : string) : string :=
  let sql := ReplaceAllStringFunc reSerial sql rewrite_serial in
  let sql := ReplaceAllString reBigSerial sql serial_key in
  let sql := ReplaceAllString reSerialOnly sql serial_key in
  let sql := ReplaceAllString reVectorType sql "TEXT" in
  let sql := ReplaceAllString reTimestamptz sql "TEXT" in
  let sql := ReplaceAllString reNow sql "CURRENT_TIMESTAMP" in
  let sql := ReplaceAllString reConcurrently sql "CREATE INDEX" in
  let sql := ReplaceAllString reJSONB sql "TEXT" in
  let sql := ReplaceAllString reBooleanType sql "INTEGER" in
  let sql := ReplaceAllString reTrue sql "1" in
  ReplaceAllString reFalse sql "0".

(** U+017F folds to [s] but is no word character: [\b] sees none before it. *)
Example adapt_folds :
  adaptForSQLite "id bigſerial, ok boolean default falſe, t timeſtamptz"
  = "id INTEGER PRIMARY KEY AUTOINCREMENT, ok INTEGER default 0, t TEXT" /\
  adaptForSQLite "ſerial" = "ſerial" /\ adaptForSQLite "aſerial" = "aSERIAL".
Proof. split_and!; vm_compute; reflexivity. Qed.

(** ** Applying migrations

    [D] is the database apart from [schema_migrations], [sql_Exec] what a statement of a
    migration file does to it (or the error it is refused with). As in [Db], the driver
    may also fail any request. *)
Definition HasSuffix (s p : string) : bool :=
  (String.length p <=? String.length s)%nat &&
  String.eqb (str_drop (String.length s - String.length p) s) p.

Record MigWorld {D : Type} := {
  mg_db : D;
  mg_rows : option (list (string * string));  (** [schema_migrations], once created *)
  mg_stmt : nat                               (** requests sent to the driver *) }.
Arguments MigWorld : clear implicits.

Section Run.
Context {D : Type}.
Variable sql_Exec : string -> D -> result D.
Variable fault : nat -> option string.
Variable unicode_trim : string -> string.
Variable sha256_hex : string -> string.

Definition bump (w : MigWorld D) : MigWorld D :=
  {| mg_db := mg_db w; mg_rows := mg_rows w; mg_stmt := S (mg_stmt w) |}.
Definition with_state (d : D) (rows : option (list (string * string))) (w : MigWorld D) : MigWorld D :=
  {| mg_db := d; mg_rows := rows; mg_stmt := mg_stmt w |}.

Definition request {A} (f : D -> option (list (string * string)) ->
    result (D * option (list (string * string)) * A)) : M (MigWorld D) A :=
  fun w =>
    match fault (mg_stmt w) with
    | Some msg => (bump w, Err (ENew msg))
    | None =>
        match f (mg_db w) (mg_rows w) with
        | Ok (d, rows, a) => (with_state d rows (bump w), Ok a)
        | Err e => (bump w, Err e)
        end
    end.

(** [CREATE TABLE IF NOT EXISTS schema_migrations], in either dialect. *)
Definition ensureMigrationsTable : M (MigWorld D) unit :=
  request (fun d rows => Ok (d, Some (default [] rows), tt)).

Definition no_table : error := ENew "no such table: schema_migrations".
Definition appliedMigrations : M (MigWorld D) (gmap string string) :=
  request (fun d rows =>
    match rows with
    | None => Err no_table
    | Some l => Ok (d, rows, fold_left (fun m '(name, checksum) => <[name := checksum]> m) l ∅)
    end).

Fixpoint exec_statements (stmts : list string) : M (MigWorld D) unit :=
  match stmts with
  | [] => ret tt
  | stmt :: rest =>
      let stmt := trim_space unicode_trim stmt in
      if str_empty stmt then exec_statements rest
      else
        let! _ := wrapM ("executing statement " +:+ fmt_q (truncate stmt 120))
          (request (fun d rows => let? d' := sql_Exec stmt d in Ok (d', rows, tt))) in
        exec_statements rest
  end.

Definition record_migration (name checksum : string) : M (MigWorld D) unit :=
  wrapM "recording migration"
    (request (fun d rows =>
       match rows with
       | None => Err no_table
       | Some l =>
           if one_of name (map fst l)
           then Err (ENew "UNIQUE constraint failed: schema_migrations.name")
           else Ok (d, Some (l ++ [(name, checksum)]), tt)
       end)).

Definition nothing : M (MigWorld D) unit := request (fun d rows => Ok (d, rows, tt)).

(** One transaction: any error, [Commit]'s included, restores the state of [Begin]. *)
Definition applyMigration (name sqlText checksum : string) : M (MigWorld D) unit :=
  fun w =>
    match nothing w with
    | (w1, Err e) => (w1, Err e)
    | (w1, Ok _) =>
        let body :=
          let! _ := exec_statements (splitStatements unicode_trim sqlText) in
          let! _ := record_migration name checksum in
          nothing in
        match body w1 with
        | (w2, Ok _) => (w2, Ok tt)
        | (w2, Err e) => (with_state (mg_db w1) (mg_rows w1) w2, Err e)
        end
    end.

(** [collectMigrationFiles]: the names; all lie in one directory, so sorting the paths
    sorts the names. An entry is its name and whether it is a directory. *)
Definition collectMigrationFiles (ReadDir : result (list (string * bool))) : result (list string) :=
  let? entries := ReadDir in
  Ok (sort_strings (map fst (whereb (fun e => negb (e.2 || negb (HasSuffix e.1 ".sql"))) entries))).

Variable ReadFile : string -> result string.
Variable Driver : string.

Definition migration_sql (raw : string) : string :=
  if String.eqb Driver "sqlite3" then adaptForSQLite raw else raw.

(** The loop of [run]: how many migrations it applied. *)
Fixpoint apply_files (applied : gmap string string) (files : list string) (pending : Z)
    : M (MigWorld D) Z :=
  match files with
  | [] => ret pending
  | name :: rest =>
      match ReadFile name with
      | Err e => fail (EWrap ("reading " +:+ name) e)
      | Ok raw =>
          let checksum := sha256_hex raw in
          match applied !! name with
          | Some prev =>
              if negb (String.eqb prev checksum)
              then fail (ENew ("checksum mismatch on applied migration " +:+ name +:+
                               " — never edit applied migrations; add a new file"))
              else apply_files applied rest pending
          | None =>
              let! _ := wrapM ("applying " +:+ name) (applyMigration name (migration_sql raw) checksum) in
              apply_files applied rest (pending + 1)
          end
      end
  end.

(** [run] on an open store. *)
Definition migrate (schemaDir : string) (ReadDir : result (list (string * bool))) : M (MigWorld D) Z :=
  let! _ := wrapM "ensuring schema_migrations table" ensureMigrationsTable in
  match collectMigrationFiles ReadDir with
  | Err e => fail (EWrap ("collecting migration files from " +:+ schemaDir) e)
  | Ok files =>
      let! applied := wrapM "loading applied migrations" appliedMigrations in
      apply_files applied files 0
  end.
End Run.

(** [run] as a whole: open the store the environment names, then migrate it. *)
Definition run {D} (sql_Exec : string -> D -> result D) (fault : nat -> option string)
    (unicode_trim sha256_hex : string -> string) (drivers : list string)
    (Ping : string -> string -> option error) (Getenv : string -> string)
    (ReadDir : string -> result (list (string * bool))) (ReadFile : string -> string -> result string)
    : M (Handles * MigWorld D) Z :=
  fun '(h, w) =>
    let dsn := str_or (Getenv "DATABASE_DSN") "sqlite://./agent.db" in
    let schemaDir := str_or (Getenv "SCHEMA_DIR") "./schema" in
    match NewStore drivers Ping dsn h with
    | (h1, Err e) => ((h1, w), Err (EWrap "connecting to database" e))
    | (h1, Ok store) =>
        let '(w1, r) := migrate sql_Exec fault unicode_trim sha256_hex (ReadFile schemaDir)
                          (st_Driver store) schemaDir (ReadDir schemaDir) w in
        let '(h2, _) := Close (st_DB store) h1 in
        ((h2, w1), r)
    end.

(** ** Cutting is exact

    A reference reading of a piece: [scan] runs the lexer over it and finds a semicolon in
    code ([None]) or the state it ends in. *)
Inductive lexState := InCode | InString | InLineComment.

Fixpoint scan (st : lexState) (s : string) : option lexState :=
  match s with
  | "" => Some st
  | String c r =>
      match st with
      | InLineComment => scan (if is_newline c then InCode else InLineComment) r
      | InString => scan (if Ascii.eqb c quote1 then InCode else InString) r
      | InCode =>
          if semicolon c then None
          else if dash c && next_is dash r then scan InLineComment r
          else scan (if Ascii.eqb c quote1 then InString else InCode) r
      end
  end.
Definition in_string (st : lexState) : bool := match st with InString => true | _ => false end.
Definition in_comment (st : lexState) : bool := match st with InLineComment => true | _ => false end.
Definition semi : string := ";".

Section SplitProps.

Lemma semicolon_not_dash c : semicolon c = true -> dash c = false /\ Ascii.eqb c quote1 = false.
Proof.
  unfold semicolon, dash. intros H. split; [lia|]. destruct (Ascii.eqb_spec c quote1) as [->|]; [|done].
  by vm_compute in H.
Qed.
Lemma quote_not_semicolon c : Ascii.eqb c quote1 = true -> semicolon c = false /\ dash c = false.
Proof. intros H. by apply Ascii.eqb_eq in H as ->. Qed.

(** The loop reads a piece as [scan] does, whatever follows that is not a dash. *)
Lemma split_loop_piece s : forall st st' cur stmts t,
  scan st s = Some st' -> next_is dash t = false ->
  split_loop (in_string st) (in_comment st) cur stmts (s +:+ t) =
  split_loop (in_string st') (in_comment st') (cur +:+ s) stmts t.
Proof.
  induction s as [|c r IH]; intros st st' cur stmts t Hs Ht.
  { injection Hs as <-. by rewrite str_app_nil_l, str_app_nil_r. }
  assert (Hn : next_is dash (r +:+ t) = next_is dash r) by (by destruct r).
  assert (Hcur : cur +:+ String c r = (cur +:+ String c "") +:+ r) by (by rewrite str_app_assoc).
  rewrite Hcur, str_app_cons. cbn [split_loop scan] in *. destruct st; cbn [in_string in_comment negb andb].
  - rewrite Hn. destruct (semicolon c) eqn:Ec; [done|]. destruct (dash c && next_is dash r) eqn:Ed.
    + by apply (IH InLineComment).
    + destruct (Ascii.eqb c quote1) eqn:Eq; cbn [negb andb].
      * by apply (IH InString).
      * by apply (IH InCode).
  - destruct (Ascii.eqb c quote1) eqn:Eq; cbn [negb andb].
    + apply quote_not_semicolon in Eq as [-> _]. by apply (IH InCode).
    + by apply (IH InString).
  - destruct (is_newline c); [by apply (IH InCode)|by apply (IH InLineComment)].
Qed.

Lemma split_loop_semi cur stmts t :
  split_loop false false cur stmts (semi +:+ t) = split_loop false false "" (stmts ++ [cur]) t.
Proof. done. Qed.

(** Text with a semicolon in code is a piece, the semicolon, and a rest. *)
Lemma scan_cut s : forall st, scan st s = None ->
  exists p t, s = p +:+ (semi +:+ t) /\ scan st p = Some InCode.
Proof.
  induction s as [|c r IH]; intros st Hs; [done|]. cbn [scan] in Hs.
  assert (Hgo : forall st', scan st' r = None ->
    (forall p t, r = p +:+ (semi +:+ t) -> scan st (String c p) = scan st' p) ->
    exists p t, String c r = p +:+ (semi +:+ t) /\ scan st p = Some InCode).
  { intros st' Hr Hst. destruct (IH _ Hr) as (p & t & -> & Hp).
    exists (String c p), t. split; [done|]. by rewrite (Hst p t). }
  destruct st.
  - destruct (semicolon c) eqn:Ec.
    { exists "", r. split; [|done]. unfold semicolon, ascii_code in Ec. f_equal.
      rewrite <- (Ascii.ascii_nat_embedding c). by replace (Ascii.nat_of_ascii c) with 59%nat by lia. }
    destruct (dash c && next_is dash r) eqn:Ed; (eapply Hgo; [exact Hs|]); intros p t ->; cbn [scan];
      rewrite Ec; (assert (next_is dash (p +:+ (semi +:+ t)) = next_is dash p) as Hn by (by destruct p));
      rewrite Hn in Ed; by rewrite Ed.
  - eapply Hgo; [exact Hs|]. done.
  - eapply Hgo; [exact Hs|]. done.
Qed.

Definition pieces_ok (stmts : list string) (cur : string) : Prop :=
  Forall (fun s => scan InCode s = Some InCode) stmts /\ is_Some (scan InCode cur).

Lemma pieces_exist sql : exists stmts cur, sql = str_join (stmts ++ [cur]) semi /\ pieces_ok stmts cur.
Proof.
  remember (String.length sql) as n eqn:Hn. revert sql Hn.
  induction (lt_wf n) as [n _ IH]. intros sql ->.
  destruct (scan InCode sql) as [st|] eqn:E.
  { exists [], sql. split; [done|]. by split; [|eexists]. }
  apply scan_cut in E as (p & t & -> & Hp).
  destruct (IH (String.length t)) with (sql := t) as (stmts & cur & Ht & Hf & Hc); [|done|].
  { rewrite !length_str_app. cbn. lia. }
  exists (p :: stmts), cur. split; [|split; [by constructor|done]]. rewrite Ht at 1.
  cbn [app]. unfold str_join. by destruct (stmts ++ [cur]) as [|x l] eqn:E; [destruct stmts|].
Qed.

Lemma split_loop_pieces stmts cur done_ : pieces_ok stmts cur ->
  split_loop false false "" done_ (str_join (stmts ++ [cur]) semi) = (done_ ++ stmts, cur).
Proof.
  intros [Hs [st Hc]]. revert done_. induction Hs as [|s l Hs Hl IH]; intros done_.
  - pose proof (split_loop_piece cur InCode st "" done_ "" Hc eq_refl) as Hp.
    rewrite str_app_nil_r, str_app_nil_l in Hp. change (str_join ([] ++ [cur]) semi) with cur.
    refine (eq_trans Hp _). cbn [split_loop]. by rewrite app_nil_r.
  - assert (Hj : str_join ((s :: l) ++ [cur]) semi = s +:+ (semi +:+ str_join (l ++ [cur]) semi)).
    { cbn [app]. unfold str_join. by destruct (l ++ [cur]) as [|x l'] eqn:E; [destruct l|]. }
    rewrite Hj. etransitivity; [by apply (split_loop_piece s InCode InCode)|].
    cbn [in_string in_comment]. rewrite split_loop_semi, IH, str_app_nil_l. by rewrite <- app_assoc.
Qed.

Lemma split_loop_exact sql stmts cur :
  split_loop false false "" [] sql = (stmts, cur) <->
  sql = str_join (stmts ++ [cur]) semi /\ pieces_ok stmts cur.
Proof.
  split.
  - intros H. destruct (pieces_exist sql) as (l & c & -> & Hok).
    rewrite split_loop_pieces in H by done. by injection H as <- <-.
  - intros [-> Hok]. by rewrite split_loop_pieces.
Qed.

(** C38: Cutting a file into statements. The pieces, joined with semicolons, are the file; no
    piece has a semicolon outside strings and line comments and every piece but the last
    ends outside them; no other cut has these properties; and the statements are the
    pieces, the last one trimmed and left out when nothing remains of it. *)
Theorem splitStatements_exact (unicode_trim : string -> string) sql :
  exists stmts cur,
    sql = str_join (stmts ++ [cur]) semi /\ pieces_ok stmts cur /\
    (forall stmts' cur', sql = str_join (stmts' ++ [cur']) semi -> pieces_ok stmts' cur' ->
       stmts' = stmts /\ cur' = cur) /\
    splitStatements unicode_trim sql =
      stmts ++ (let s := trim_space unicode_trim cur in if str_empty s then [] else [s]).
Proof.
  destruct (split_loop false false "" [] sql) as [stmts cur] eqn:E. exists stmts, cur.
  destruct (proj1 (split_loop_exact _ _ _) E) as [Hj Hok]. split; [done|]. split; [done|]. split.
  - intros stmts' cur' Hj' Hok'.
    assert (E' := proj2 (split_loop_exact sql stmts' cur') (conj Hj' Hok')).
    rewrite E in E'. by injection E' as <- <-.
  - unfold splitStatements. rewrite E. destruct (str_empty _); [by rewrite app_nil_r|done].
Qed.
End SplitProps.

(** ** Word patterns rewrite words

    Reference: [map_words g s] applies [g] to every maximal run of word bytes of [s] and
    keeps the rest. It is stated of texts without the
    bytes that U+017F and U+212A are told by, as the migration files are. *)
Fixpoint map_words (g : string -> string) (cur s : string) : string :=
  let flush := if str_empty cur then "" else g cur in
  match s with
  | "" => flush
  | String c r =>
      if is_word c then map_words g (cur +:+ String c "") r
      else flush +:+ String c (map_words g "" r)
  end.
Definition ci_eq (a b : string) : bool := String.eqb (str_map lower_byte a) (str_map lower_byte b).
Fixpoint last_of (prev : option Ascii.ascii) (s : string) : option Ascii.ascii :=
  match s with "" => prev | String c r => last_of (Some c) r end.

Section WordProps.
Context (ws : list string) (f : string -> string).
Hypothesis ws_words : Forall (fun w => w <> "" /\ str_forall is_word w = true) ws.
Definition rewrite_word (t : string) : string := if existsb (ci_eq t) ws then f t else t.

Lemma is_word_lower c : is_word (lower_byte c) = is_word c.
Proof. destruct c as [[] [] [] [] [] [] [] []]; reflexivity. Qed.
Lemma ci_words a b : ci_eq a b = true -> str_forall is_word a = str_forall is_word b.
Proof.
  unfold ci_eq. intros H%String.eqb_eq. revert b H. induction a as [|x a IH]; intros [|y b] H; try done.
  cbn in *. injection H as Hxy H. by rewrite <- (is_word_lower x), Hxy, is_word_lower, (IH _ H).
Qed.

Definition no_fold (c : Ascii.ascii) : bool := negb (Ascii.eqb c (byte 197)) && negb (Ascii.eqb c (byte 170)).
Notation plain s := (str_forall no_fold s = true).
Lemma plain_app s t : plain (s +:+ t) <-> plain s /\ plain t.
Proof.
  induction s as [|c s IH]; [rewrite str_app_nil_l; by split; [|intros [_ ?]]|].
  rewrite str_app_cons. cbn [str_forall]. rewrite !andb_true_iff, IH. tauto.
Qed.
Lemma word_no_fold c : is_word c = true -> no_fold c = true.
Proof. by destruct c as [[] [] [] [] [] [] [] []]. Qed.
Lemma word_plain t : str_forall is_word t = true -> plain t.
Proof.
  induction t as [|c t IH]; [done|]. cbn [str_forall]. rewrite !andb_true_iff.
  intros [Hc Ht]. split; [by apply word_no_fold|by apply IH].
Qed.
Lemma letter_width_plain c c' s : plain (String c' s) ->
  letter_width c (String c' s) = if same_letter c c' then Some 1%nat else None.
Proof.
  intros Hp. unfold letter_width. destruct (same_letter c c'); [done|].
  assert (has_prefix (String c' s) long_s = false /\ has_prefix (String c' s) kelvin = false) as [-> ->];
    [|by rewrite !andb_false_r].
  unfold has_prefix, long_s, kelvin. cbn [String.prefix str_forall] in *. unfold no_fold in Hp. bools. split.
  - by destruct (Ascii.ascii_dec (byte 197) c') as [<-|].
  - destruct (Ascii.ascii_dec _ c'); [|done]. destruct s as [|c1 s]; [done|]. cbn [String.prefix].
    destruct (Ascii.ascii_dec _ c1); [|done]. destruct s as [|c2 s]; [done|]. cbn [str_forall String.prefix] in *. bools.
    by destruct (Ascii.ascii_dec (byte 170) c2) as [<-|].
Qed.

Lemma match_letters_Some w : forall prev s n l, plain s -> match_items (letters w) prev s = Some (n, l) ->
  exists p q, s = p +:+ q /\ n = String.length p /\ ci_eq p w = true /\ l = last_of prev p.
Proof.
  induction w as [|c w IH]; intros prev s n l Ha H; cbn -[letter_width] in H.
  { injection H as <- <-. by exists "", s. }
  destruct s as [|c' s]; [done|]. rewrite letter_width_plain in H by done.
  cbn [str_forall] in Ha. apply andb_true_iff in Ha as [_ Ha]. unfold same_letter in H.
  destruct (Ascii.eqb_spec (lower_byte c) (lower_byte c')) as [Ec|]; [|done]. cbn in H.
  destruct (match_items _ (Some c') s) as [[m l']|] eqn:E; [|done]. injection H as <- <-.
  apply IH in E as (p & q & -> & -> & Hci & ->); [|done]. exists (String c' p), q. split; [done|].
  split; [done|]. split; [|done]. unfold ci_eq in *. cbn. rewrite Ec, Ascii.eqb_refl. exact Hci.
Qed.
Lemma match_letters w : forall prev p q, ci_eq p w = true ->
  match_items (letters w) prev (p +:+ q) = Some (String.length p, last_of prev p).
Proof.
  induction w as [|c w IH]; intros prev [|c' p] q H; try done.
  unfold ci_eq in H. cbn in H.
  destruct (Ascii.eqb_spec (lower_byte c') (lower_byte c)) as [Ec|]; [|done].
  rewrite str_app_cons. cbn [letters map String.list_ascii_of_string match_items letter_width].
  unfold same_letter at 1.
  fold (letters w). rewrite Ec, Ascii.eqb_refl. cbn. by rewrite (IH (Some c') p q).
Qed.

Lemma last_of_word p : forall prev, p <> "" -> str_forall is_word p = true -> opt_word (last_of prev p) = true.
Proof.
  induction p as [|c p IH]; intros prev Hne Hp; [done|]. cbn in *. bools.
  destruct p; [done|]. by apply IH.
Qed.

(** A word prefix lies in the first run of words. *)
Lemma word_prefix p : forall q t u, p +:+ q = t +:+ u -> str_forall is_word p = true ->
  opt_word (head_of u) = false -> exists t', t = p +:+ t' /\ q = t' +:+ u.
Proof.
  induction p as [|c p IH]; intros q t u H Hp Hu; [by exists t|]. cbn in Hp. bools.
  destruct t as [|d t].
  { rewrite str_app_cons, str_app_nil_l in H. subst u. cbn in Hu. congruence. }
  rewrite !str_app_cons in H. injection H as <- H. destruct (IH _ _ _ H ltac:(done) Hu) as (t' & -> & ->).
  by exists t'.
Qed.

Lemma match_word w prev t u : w <> "" -> str_forall is_word w = true ->
  opt_word prev = false -> str_forall is_word t = true -> opt_word (head_of u) = false -> plain u ->
  match_pattern (word w) prev (t +:+ u) = if ci_eq t w then Some (String.length t) else None.
Proof.
  intros Hw Hww Hprev Ht Hu Ha. unfold match_pattern. cbn [pt_lead pt_items pt_tail word andb].
  destruct (ci_eq t w) eqn:Ec.
  - destruct t as [|c t]; [by destruct w|]. rewrite match_letters, str_drop_app by done.
    unfold boundary. rewrite Hprev, Hu, last_of_word by done. apply andb_true_iff in Ht as [Hc _]. rewrite str_app_cons. cbn. by rewrite Hc.
  - destruct (negb _); [done|]. destruct (match_items _ prev _) as [[n l]|] eqn:E; [|done].
    apply match_letters_Some in E as (p & q & Hpq & -> & Hci & ->);
      [|apply plain_app; split; [by apply word_plain|done]].
    assert (Hp : str_forall is_word p = true) by (by rewrite (ci_words _ _ Hci)).
    destruct (word_prefix p q t u (eq_sym Hpq) Hp Hu) as (t' & -> & ->).
    assert (Hpne : p <> "") by (by intros ->; destruct w).
    rewrite str_app_assoc, str_drop_app. unfold boundary. rewrite last_of_word by done.
    destruct t' as [|c t']; [rewrite str_app_nil_r in Ec; congruence|].
    assert (is_word c = true) as Hc.
    { clear -Ht. induction p as [|x p IH]; apply andb_true_iff in Ht as [? ?]; [done|]. by apply IH. }
    rewrite str_app_cons. cbn. by rewrite Hc.
Qed.
Lemma match_word_none w prev s : w <> "" -> str_forall is_word w = true -> plain s ->
  opt_word prev = true \/ opt_word (head_of s) = false -> match_pattern (word w) prev s = None.
Proof.
  intros Hw Hww Ha Hor. unfold match_pattern. cbn [pt_lead pt_items pt_tail word andb].
  destruct (negb (boundary prev s)) eqn:Eb; [done|].
  destruct (match_items _ prev s) as [[n l]|] eqn:E; [|done].
  apply match_letters_Some in E as (p & q & -> & -> & Hci & ->); [|done].
  destruct p as [|c p]; [by destruct w|]. pose proof (ci_words _ _ Hci) as Hp. rewrite Hww in Hp.
  apply andb_true_iff in Hp as [Hp _]. unfold boundary in Eb. rewrite str_app_cons in Eb, Hor.
  cbn in Eb, Hor. rewrite Hp in Eb, Hor.
  destruct Hor as [Hor|]; [|done]. by rewrite Hor in Eb.
Qed.

Lemma match_any_words prev t u :
  opt_word prev = false -> str_forall is_word t = true -> opt_word (head_of u) = false -> plain u ->
  match_any (map word ws) prev (t +:+ u) = if existsb (ci_eq t) ws then Some (String.length t) else None.
Proof.
  intros Hprev Ht Hu Ha. unfold match_any. pose proof ws_words as Hall. revert Hall.
  generalize ws as l. intros l Hall. induction Hall as [|w l [Hw Hww] Hl IH]; [done|]. cbn.
  rewrite match_word by done. destruct (ci_eq t w); [done|]. apply IH.
Qed.
Lemma match_any_none prev s : plain s -> opt_word prev = true \/ opt_word (head_of s) = false ->
  match_any (map word ws) prev s = None.
Proof.
  intros Ha Hor. unfold match_any. pose proof ws_words as Hall. revert Hall.
  generalize ws as l. intros l Hall. induction Hall as [|w l [Hw Hww] Hl IH]; [done|]. cbn.
  rewrite match_word_none by done. exact IH.
Qed.

Lemma replace_inside t : forall prev u, opt_word prev = true -> str_forall is_word t = true -> plain u ->
  replace_from (map word ws) f 0 prev (t +:+ u) = t +:+ replace_from (map word ws) f 0 (last_of prev t) u.
Proof.
  induction t as [|c t IH]; intros prev u Hprev Ht Ha; [done|]. apply andb_true_iff in Ht as [Hc Ht].
  assert (Hct : plain (String c (t +:+ u))).
  { cbn [str_forall]. apply andb_true_iff. split; [by apply word_no_fold|].
    apply plain_app. split; [by apply word_plain|done]. }
  rewrite !str_app_cons. cbn [replace_from last_of]. rewrite match_any_none by (done || by left).
  f_equal. by apply IH.
Qed.
Lemma replace_skip t : forall prev u,
  replace_from (map word ws) f (String.length t) prev (t +:+ u)
  = replace_from (map word ws) f 0 (last_of prev t) u.
Proof. induction t as [|c t IH]; intros prev u; [by destruct u|]. rewrite str_app_cons. cbn. apply IH. Qed.

Lemma map_words_run g t : forall cur u, str_forall is_word t = true ->
  map_words g cur (t +:+ u) = map_words g (cur +:+ t) u.
Proof.
  induction t as [|c t IH]; intros cur u Ht; [by rewrite str_app_nil_r|].
  apply andb_true_iff in Ht as [Hc Ht].
  rewrite str_app_cons. cbn [map_words]. rewrite Hc, IH by done. by rewrite str_app_assoc.
Qed.
Lemma word_run s : exists t u, s = t +:+ u /\ str_forall is_word t = true /\ opt_word (head_of u) = false.
Proof.
  induction s as [|c s (t & u & -> & Ht & Hu)]; [by exists "", ""|].
  destruct (is_word c) eqn:Ec.
  - exists (String c t), u. split; [done|]. split; [|done]. cbn. by rewrite Ec.
  - by exists "", (String c (t +:+ u)).
Qed.

(** Rewriting with word-bounded alternatives is rewriting word by word. *)
Lemma ReplaceAllStringFunc_words s : plain s ->
  ReplaceAllStringFunc (map word ws) s f = map_words rewrite_word "" s.
Proof.
  unfold ReplaceAllStringFunc. assert (Hn : opt_word None = false) by done. revert Hn.
  generalize (@None Ascii.ascii) as prev. remember (String.length s) as n eqn:En. revert s En.
  induction (lt_wf n) as [n _ IH]. intros s -> prev Hprev Ha.
  destruct (word_run s) as (t & u & -> & Ht & Hu). apply plain_app in Ha as [_ Ha]. rewrite map_words_run, str_app_nil_l by done.
  assert (Hrest : forall prev', (t <> "" -> opt_word prev' = true) -> (t = "" -> prev' = prev) ->
    (if str_empty t then "" else rewrite_word t) +:+ replace_from (map word ws) f 0 prev' u
    = map_words rewrite_word t u).
  { intros prev' Hp _. destruct u as [|d u]; [by rewrite str_app_nil_r|]. cbn in Hu. cbn [replace_from map_words].
    rewrite Hu, match_any_none by (done || (right; exact Hu)). f_equal. f_equal.
    cbn [str_forall] in Ha. apply andb_true_iff in Ha as [_ Ha].
    apply (IH (String.length u)) with (s := u); [|done|exact Hu|done]. rewrite length_str_app. cbn. lia. }
  destruct t as [|c t].
  { rewrite <- (Hrest prev) by done. done. }
  rewrite <- (Hrest (last_of prev (String c t))); [|intros _; by apply last_of_word|done].
  cbn [str_empty String.eqb]. unfold rewrite_word.
  assert (Hm := match_any_words prev (String c t) u Hprev Ht Hu Ha).
  rewrite str_app_cons in *. cbn [replace_from]. rewrite Hm. destruct (existsb _ ws).
  - cbn [String.length]. rewrite <- str_app_cons.
    change (S (String.length t)) with (String.length (String c t)). rewrite str_take_app.
    f_equal. by rewrite replace_skip.
  - apply andb_true_iff in Ht as [Hc Ht]. rewrite str_app_cons. cbn [last_of].
    by rewrite <- (replace_inside t (Some c) u).
Qed.
End WordProps.

(** ** What a run does *)
Section RunProps.
Context {D : Type}.
Context (sql_Exec : string -> D -> result D) (fault : nat -> option string).
Context (unicode_trim sha256_hex : string -> string).
Context (ReadFile : string -> result string) (Driver : string).
Notation rows_of w := (default [] (mg_rows w)).

(** The statements of a migration and what they do to the database. *)
Definition statements (sql : string) : list string :=
  whereb (fun s => negb (str_empty s)) (map (trim_space unicode_trim) (splitStatements unicode_trim sql)).
Fixpoint effect (stmts : list string) (d : D) : result D :=
  match stmts with [] => Ok d | s :: r => let? d' := sql_Exec s d in effect r d' end.
Fixpoint effects (names : list string) (d : D) : result D :=
  match names with
  | [] => Ok d
  | name :: r =>
      let? raw := ReadFile name in
      let? d' := effect (statements (migration_sql Driver raw)) d in effects r d'
  end.
Definition checksum (name : string) : string :=
  match ReadFile name with Ok raw => sha256_hex raw | Err _ => "" end.

Lemma request_cases {A} (f : D -> option (list (string * string)) -> result (D * option (list (string * string)) * A))
    w w' r :
  request fault f w = (w', r) ->
  match r with
  | Ok a => f (mg_db w) (mg_rows w) = Ok (mg_db w', mg_rows w', a)
  | Err _ => mg_db w' = mg_db w /\ mg_rows w' = mg_rows w
  end.
Proof.
  unfold request. destruct (fault _); [by intros [= <- <-]|].
  destruct (f _ _) as [[[d rows] a]|e]; by intros [= <- <-].
Qed.

Lemma wrap_request_cases {A} msg (f : D -> option (list (string * string)) -> result (D * option (list (string * string)) * A))
    w w' r :
  wrapM msg (request fault f) w = (w', r) ->
  match r with
  | Ok a => f (mg_db w) (mg_rows w) = Ok (mg_db w', mg_rows w', a)
  | Err _ => mg_db w' = mg_db w /\ mg_rows w' = mg_rows w
  end.
Proof.
  unfold wrapM. destruct (request fault f w) as [w1 r1] eqn:E. intros [= <- <-].
  apply request_cases in E. by destruct r1.
Qed.

Lemma exec_statements_Ok stmts : forall w w', exec_statements sql_Exec fault unicode_trim stmts w = (w', Ok tt) ->
  mg_rows w' = mg_rows w /\
  effect (whereb (fun s => negb (str_empty s)) (map (trim_space unicode_trim) stmts)) (mg_db w) = Ok (mg_db w').
Proof.
  induction stmts as [|s l IH]; intros w w' E; [by injection E as <-|]. cbn in E |- *.
  destruct (str_empty (trim_space unicode_trim s)); cbn [negb]; [by apply IH|].
  unfold bind in E. destruct (wrapM _ _ w) as [w1 [u|e]] eqn:E1; [|done].
  apply wrap_request_cases in E1. cbn. destruct (sql_Exec _ (mg_db w)) as [d|]; [|done].
  injection E1 as -> -> _. cbn. by apply IH.
Qed.

Lemma record_Ok name cs (w w' : MigWorld D) : record_migration fault name cs w = (w', Ok tt) ->
  exists l, mg_rows w = Some l /\ name ∉ map fst l /\ mg_rows w' = Some (l ++ [(name, cs)]) /\ mg_db w' = mg_db w.
Proof.
  intros E. apply wrap_request_cases in E. destruct (mg_rows w) as [l|]; [|done].
  destruct (one_of name (map fst l)) eqn:Eo; [done|]. injection E as <- <-. exists l. split; [done|].
  split; [|done]. intros Hin%one_of_elem. congruence.
Qed.

Lemma applyMigration_cases name sql cs (w w' : MigWorld D) r :
  applyMigration sql_Exec fault unicode_trim name sql cs w = (w', r) ->
  match r with
  | Ok _ => exists l, mg_rows w = Some l /\ name ∉ map fst l /\ mg_rows w' = Some (l ++ [(name, cs)]) /\
              effect (statements sql) (mg_db w) = Ok (mg_db w')
  | Err _ => mg_db w' = mg_db w /\ mg_rows w' = mg_rows w
  end.
Proof.
  unfold applyMigration. destruct (nothing fault w) as [w1 [u|e]] eqn:E1; apply request_cases in E1;
    [|by intros [= <- <-]]. injection E1 as Ed1 Er1 _.
  destruct (bind _ _ w1) as [w2 r2] eqn:E. destruct r2 as [u2|e]; intros [= <- <-]; [|by cbn; rewrite Ed1, Er1].
  unfold bind in E. destruct (exec_statements _ _ _ _ w1) as [w3 [[]|e]] eqn:E3; [|done].
  destruct (record_migration _ _ _ w3) as [w4 [[]|e]] eqn:E4; [|done].
  apply exec_statements_Ok in E3 as [Hr3 Hd3]. apply record_Ok in E4 as (l & Hl & Hn & Hr4 & Hd4).
  apply request_cases in E. injection E as Ed2 Er2 _.
  exists l. rewrite Er1, <- Hr3, <- Er2, <- Ed2, Hd4, Ed1. by split_and!.
Qed.

(** [applied] is the table as it was when the run began. *)
Definition recorded (l : list (string * string)) (name : string) : bool := one_of name (map fst l).
Definition reads (applied : gmap string string) (l : list (string * string)) : Prop :=
  forall name, applied !! name = None <-> recorded l name = false.

Lemma effects_app a b d d1 : effects a d = Ok d1 -> effects (a ++ b) d = effects b d1.
Proof.
  revert d. induction a as [|x a IH]; intros d H; [by injection H as <-|]. cbn in *.
  destruct (ReadFile x); [|done]. cbn in *. destruct (effect _ d); [|done]. cbn in *. by apply IH.
Qed.

Lemma apply_files_cases applied l0 : reads applied l0 ->
  (forall name c, applied !! name = Some c -> (name, c) ∈ l0) ->
  forall files pending w w' r,
  apply_files sql_Exec fault unicode_trim sha256_hex ReadFile Driver applied files pending w = (w', r) ->
  exists done_, let todo := whereb (fun n => negb (recorded l0 n)) files in
    rows_of w' = rows_of w ++ map (fun n => (n, checksum n)) done_ /\
    (is_Some (mg_rows w) -> is_Some (mg_rows w')) /\
    (NoDup (map fst (rows_of w)) -> NoDup (map fst (rows_of w'))) /\
    effects done_ (mg_db w) = Ok (mg_db w') /\
    match r with
    | Ok k => done_ = todo /\ k = pending + Z.of_nat (length done_) /\
              forall n, n ∈ files -> exists raw, ReadFile n = Ok raw /\
                ((n, sha256_hex raw) ∈ l0 \/ n ∈ done_)
    | Err _ => exists rest, todo = done_ ++ rest
    end.
Proof.
  intros Hap Hin. induction files as [|name files IH]; intros pending w w' r E.
  { injection E as <- <-. exists []. cbn. rewrite app_nil_r.
    split_and!; try done; [lia|by intros n Hn%elem_of_nil]. }
  cbn in E. assert (Hstop : forall todo, (w', r) = (w, Err todo) ->
    exists done_ : list string, let td := whereb (fun n => negb (recorded l0 n)) (name :: files) in
      rows_of w' = rows_of w ++ map (fun n => (n, checksum n)) done_ /\
      (is_Some (mg_rows w) -> is_Some (mg_rows w')) /\
      (NoDup (map fst (rows_of w)) -> NoDup (map fst (rows_of w'))) /\
      effects done_ (mg_db w) = Ok (mg_db w') /\
      match r with Ok k => False | Err _ => exists rest, td = done_ ++ rest end).
  { intros e [= -> ->]. exists []. cbn. rewrite app_nil_r. split_and!; try done. by eexists. }
  destruct (ReadFile name) as [raw|e] eqn:Er.
  2: { injection E as <- <-. destruct (Hstop _ eq_refl) as (dn & ? & ? & ? & ? & ?). by exists dn. }
  cbn [whereb List.filter]. destruct (applied !! name) as [prev|] eqn:Ea.
  - assert (Hrec : recorded l0 name = true).
    { destruct (recorded l0 name) eqn:Hr; [done|]. apply Hap in Hr. congruence. }
    destruct (String.eqb_spec prev (sha256_hex raw)) as [->|Hne]; cbn in E.
    2: { injection E as <- <-. destruct (Hstop _ eq_refl) as (dn & ? & ? & ? & ? & Hx). exists dn.
         cbn in Hx. split_and!; try done. }
    apply IH in E as (dn & Hr1 & Hs & Hnd & He & Hm). exists dn. rewrite Hrec. cbn [negb].
    split_and!; try done. destruct r as [k|]; [|done]. destruct Hm as (-> & -> & Hall).
    split_and!; try done. intros n [->|Hn]%elem_of_cons; [|by apply Hall].
    exists raw. split; [done|]. left. by apply Hin.
  - assert (Hrec : recorded l0 name = false) by (by apply Hap).
    unfold bind in E. destruct (wrapM _ _ w) as [w1 r1] eqn:E1. unfold wrapM in E1.
    destruct (applyMigration _ _ _ _ _ _ w) as [w2 r2] eqn:E2. injection E1 as <- <-.
    apply applyMigration_cases in E2. destruct r2 as [u|e]; cbn in E.
    2: { injection E as <- <-. destruct E2 as [Hd Hr]. exists []. cbn. rewrite Hd, Hr, app_nil_r.
         split_and!; try done. by eexists. }
    destruct E2 as (l & Hl & Hn & Hl2 & He2).
    apply IH in E as (dn & Hr1 & Hs & Hnd & He & Hm). exists (name :: dn).
    assert (Hcs : checksum name = sha256_hex raw) by (unfold checksum; by rewrite Er).
    rewrite Hrec. cbn [negb]. rewrite Hl2 in Hr1, Hs, Hnd. cbn in Hr1, Hnd. rewrite Hl. cbn [default].
    split_and!.
    + rewrite Hr1. cbn. rewrite Hcs. by rewrite <- app_assoc.
    + intros _. by apply Hs.
    + intros Hnd0. apply Hnd. rewrite map_app. apply NoDup_app. split; [done|]. cbn.
      split; [|apply NoDup_singleton]. intros x Hx ->%list_elem_of_singleton. done.
    + cbn. rewrite Er. cbn. rewrite He2. exact He.
    + destruct r as [k|]; [|destruct Hm as [rest Hm]; exists rest; exact (f_equal (cons name) Hm)].
      destruct Hm as (-> & -> & Hall). split_and!; [done|cbn; lia|].
      intros n [->|Hn']%elem_of_cons; [exists raw; split; [done|right; by left]|].
      destruct (Hall n Hn') as (raw' & ? & [?|?]); exists raw'; (split; [done|]); [by left|right; by right].
Qed.

Notation table l := (fold_left (fun m '(name, checksum) => <[name := checksum]> m) l (∅ : gmap string string)).

Lemma table_snoc l x c : table (l ++ [(x, c)]) = <[x := c]> (table l).
Proof. by rewrite fold_left_app. Qed.
Lemma table_spec l :
  reads (table l) l /\ (forall name c, table l !! name = Some c -> (name, c) ∈ l) /\
  (NoDup (map fst l) -> forall name c, (name, c) ∈ l -> table l !! name = Some c).
Proof.
  induction l as [|[x c] l IH] using rev_ind.
  { split_and!; [done|done|]. by intros _ ? ? ?%elem_of_nil. }
  destruct IH as (IH1 & IH2 & IH3). rewrite table_snoc. unfold reads, recorded in *.
  assert (Hsn : forall n, one_of n (map fst (l ++ [(x, c)])) = one_of n (map fst l) || String.eqb n x).
  { intros n. unfold one_of. rewrite map_app, existsb_app. cbn. by rewrite orb_false_r. }
  split_and!.
  - intros name. rewrite Hsn. destruct (String.eqb_spec name x) as [->|Hne].
    + rewrite lookup_insert_eq, orb_true_r. done.
    + rewrite lookup_insert_ne, orb_false_r by congruence. apply IH1.
  - intros name c'. destruct (decide (x = name)) as [->|Hne].
    + rewrite lookup_insert_eq. intros [= <-]. apply elem_of_app. right. by left.
    + rewrite lookup_insert_ne by done. intros H. apply elem_of_app. left. by apply IH2.
  - rewrite map_app. intros (Hnd & Hdis & _)%NoDup_app name c' [Hin|Hin%list_elem_of_singleton]%elem_of_app.
    + destruct (decide (x = name)) as [->|Hne]; [|rewrite lookup_insert_ne by done; by apply IH3].
      exfalso. apply (Hdis name); [|by left]. apply elem_of_map. by exists (name, c').
    + injection Hin as -> ->. by rewrite lookup_insert_eq.
Qed.

Context (schemaDir : string) (ReadDir : result (list (string * bool))).
Notation migrate' := (migrate sql_Exec fault unicode_trim sha256_hex ReadFile Driver schemaDir ReadDir).

Lemma migrate_start (w w1 : MigWorld D) r1 :
  wrapM "ensuring schema_migrations table" (ensureMigrationsTable fault) w = (w1, r1) ->
  mg_db w1 = mg_db w /\ rows_of w1 = rows_of w /\ (is_ok r1 = true -> is_Some (mg_rows w1)).
Proof.
  intros E. apply wrap_request_cases in E. destruct r1; [|by destruct E as [-> ->]].
  by injection E as <- <- _.
Qed.

(** Migrating up to date: every file is on record with its checksum. *)
Lemma migrate_up_to_date (w : MigWorld D) files :
  NoDup (map fst (rows_of w)) -> is_Some (mg_rows w) ->
  collectMigrationFiles ReadDir = Ok files ->
  (forall n, n ∈ files -> exists raw, ReadFile n = Ok raw /\ (n, sha256_hex raw) ∈ rows_of w) ->
  fault (mg_stmt w) = None -> fault (S (mg_stmt w)) = None ->
  exists w2, migrate' w = (w2, Ok 0) /\ mg_db w2 = mg_db w /\ mg_rows w2 = mg_rows w.
Proof.
  intros Hnd [l Hl] Hc Hall H0 H1. rewrite Hl in Hnd, Hall. cbn in Hnd, Hall.
  unfold migrate, bind, wrapM, ensureMigrationsTable, request. rewrite H0, Hc, Hl. cbn.
  unfold appliedMigrations, request. cbn. rewrite H1. cbn.
  assert (Hgo : forall fs, (forall n, n ∈ fs -> n ∈ files) -> forall v,
    apply_files sql_Exec fault unicode_trim sha256_hex ReadFile Driver (table l) fs 0 v = (v, Ok 0)).
  { intros fs. induction fs as [|n fs IH]; intros Hsub v; [done|]. cbn.
    destruct (Hall n) as (raw & -> & Hin); [apply Hsub; by left|].
    rewrite (proj2 (proj2 (table_spec l)) Hnd _ _ Hin), String.eqb_refl. cbn.
    apply IH. intros m Hm. apply Hsub. by right. }
  rewrite Hgo by done. eexists. split; [reflexivity|]. by cbn.
Qed.

(** C23: What a run of the migration tool does, whatever fails on the way: it adds to the
    record the first of the files not yet on record, in order, each with its checksum,
    and changes the database by the statements of exactly these. If it succeeds these are
    all such files, every file is on record with the checksum it has now, and running
    again applies nothing. *)
Theorem migrate_exact (w w' : MigWorld D) r :
  NoDup (map fst (rows_of w)) -> migrate' w = (w', r) ->
  NoDup (map fst (rows_of w')) /\
  exists done_,
    rows_of w' = rows_of w ++ map (fun n => (n, checksum n)) done_ /\
    effects done_ (mg_db w) = Ok (mg_db w') /\
    match collectMigrationFiles ReadDir with
    | Err _ => done_ = [] /\ is_ok r = false
    | Ok files =>
        let todo := whereb (fun n => negb (recorded (rows_of w) n)) files in
        match r with
        | Err _ => exists rest, todo = done_ ++ rest
        | Ok k =>
            done_ = todo /\ k = Z.of_nat (length done_) /\
            (forall n, n ∈ files -> exists raw, ReadFile n = Ok raw /\ (n, sha256_hex raw) ∈ rows_of w') /\
            (fault (mg_stmt w') = None -> fault (S (mg_stmt w')) = None ->
             exists w2, migrate' w' = (w2, Ok 0) /\ mg_db w2 = mg_db w' /\ mg_rows w2 = mg_rows w')
        end
    end.
Proof.
  intros Hnd E. assert (E0 := E). unfold migrate, bind in E.
  destruct (wrapM _ _ w) as [w1 r1] eqn:E1. apply migrate_start in E1 as (Hd1 & Hr1 & Hs1).
  assert (Hstop : forall v, mg_db v = mg_db w -> rows_of v = rows_of w ->
    NoDup (map fst (rows_of v)) /\ rows_of v = rows_of w ++ map (fun n => (n, checksum n)) [] /\
    effects [] (mg_db w) = Ok (mg_db v)).
  { intros v Hd Hr. rewrite Hr. cbn. by rewrite Hd, app_nil_r. }
  destruct r1 as [u|e].
  2: { injection E as <- <-. destruct (Hstop w1 Hd1 Hr1) as (? & ? & ?). split; [done|]. exists [].
       split_and!; try done. destruct (collectMigrationFiles ReadDir); [by eexists|done]. }
  destruct (collectMigrationFiles ReadDir) as [files|e] eqn:Ec.
  2: { injection E as <- <-. destruct (Hstop w1 Hd1 Hr1) as (? & ? & ?). split; [done|]. by exists []. }
  destruct (wrapM _ _ w1) as [w2 r2] eqn:E2. apply wrap_request_cases in E2. destruct r2 as [applied|e].
  2: { injection E as <- <-. destruct E2 as [Hd2 Hr2]. rewrite Hd1 in Hd2. rewrite <- Hr2 in Hr1.
       destruct (Hstop w2 Hd2 Hr1) as (? & ? & ?). split; [done|]. exists []. split_and!; try done. by eexists. }
  destruct (mg_rows w1) as [l|] eqn:El; [|done]. injection E2 as Hd2 Hr2 <-. cbn in Hr1.
  destruct (table_spec l) as (Ht1 & Ht2 & Ht3).
  destruct (apply_files_cases (table l) l Ht1 Ht2 files 0 w2 w' r E) as (dn & Hr & Hs & Hn & He & Hm).
  rewrite <- Hr2, Hr1 in Hr, Hn. cbn [default] in Hr, Hn. rewrite <- Hd2, Hd1 in He. rewrite Hr1 in Hm.
  specialize (Hn Hnd). split; [done|]. exists dn. split_and!; try done.
  destruct r as [k|]; [|done]. destruct Hm as (Hdn & -> & Hall).
  assert (Hrec : forall n, n ∈ files -> exists raw, ReadFile n = Ok raw /\ (n, sha256_hex raw) ∈ rows_of w').
  { intros n Hin. destruct (Hall n Hin) as (raw & Hraw & Hor). exists raw. split; [done|]. rewrite Hr.
    apply elem_of_app. destruct Hor as [Hin0|Hdone]; [by left|right]. apply elem_of_map. exists n.
    split; [done|]. unfold checksum. by rewrite Hraw. }
  split_and!; try done. intros Hf0 Hf1. apply (migrate_up_to_date w' files); try done.
  apply Hs. rewrite <- Hr2. by eexists.
Qed.
End RunProps.

(** The migration tool never migrates a PostgreSQL database. *)
Theorem migrate_refuses_postgres {D} (sql_Exec : string -> D -> result D) fault unicode_trim sha256_hex
    drivers Ping Getenv ReadDir ReadFile h w :
  "postgres" ∉ drivers -> DriverNameFromDSN (Getenv "DATABASE_DSN") = "postgres" ->
  exists e, run sql_Exec fault unicode_trim sha256_hex drivers Ping Getenv ReadDir ReadFile (h, w)
            = ((h, w), Err e).
Proof.
  intros Hd Hn. unfold run.
  assert (Hdsn : str_or (Getenv "DATABASE_DSN") "sqlite://./agent.db" = Getenv "DATABASE_DSN").
  { unfold str_or. destruct (str_empty _) eqn:E; [|done]. apply str_empty_true in E. rewrite E in Hn. done. }
  rewrite Hdsn. destruct (NewStore_refuses_postgres drivers Ping _ h Hd Hn) as [e ->]. by eexists.
Qed.

(** ** Examples and witnesses *)

Definition sample_sql : string :=
  "CREATE TABLE t (id BIGSERIAL, s serial, v vector(1024), at TIMESTAMPTZ DEFAULT now(), b Boolean DEFAULT TRUE, xtrue INT); create  index   concurrently i on t(v);".
Example adaptForSQLite_ex : adaptForSQLite sample_sql =
  "CREATE TABLE t (id INTEGER PRIMARY KEY AUTOINCREMENT, s INTEGER PRIMARY KEY AUTOINCREMENT, v TEXT, at TEXT DEFAULT CURRENT_TIMESTAMP, b INTEGER DEFAULT 1, xtrue INT); CREATE INDEX i on t(v);".
Proof. by vm_compute. Qed.
(** The rewriting does not look for strings: data changes with the dialect. *)
Example adaptForSQLite_rewrites_data :
  adaptForSQLite "INSERT INTO agent_settings VALUES ('note', 'true until now()')" =
  "INSERT INTO agent_settings VALUES ('note', '1 until CURRENT_TIMESTAMP')".
Proof. by vm_compute. Qed.
Example splitStatements_ex :
  splitStatements id ("a; -- it's; not" +:+ newline +:+ "b ';' ''; c ") =
  ["a"; " -- it's; not" +:+ newline +:+ "b ';' ''"; "c"].
Proof. by vm_compute. Qed.

(** A database that keeps the statements it executed. *)
Definition demo_Exec (s : string) (d : list string) : result (list string) :=
  if str_contains s "bad" then Err (ENew "syntax error") else Ok (d ++ [s]).
Definition demo_dir : result (list (string * bool)) :=
  Ok [("002_b.sql", false); ("README.md", false); ("001_a.sql", false); ("old.sql", true)].
Definition demo_file (name : string) : result string :=
  if String.eqb name "001_a.sql" then Ok "x TRUE; y" else Ok "z;".
Definition demo_empty : MigWorld (list string) := {| mg_db := []; mg_rows := None; mg_stmt := 0 |}.
#[local] Notation demo_migrate :=
  (migrate demo_Exec (fun _ => None) id id demo_file "sqlite3" "schema" demo_dir).

Lemma migrate_exact_witness :
  exists w' w2, demo_migrate demo_empty = (w', Ok 2) /\
    mg_db w' = ["x 1"; "y"; "z"] /\ map fst (default [] (mg_rows w')) = ["001_a.sql"; "002_b.sql"] /\
    demo_migrate w' = (w2, Ok 0) /\ mg_db w2 = mg_db w'.
Proof.
  destruct (demo_migrate demo_empty) as [w' r] eqn:E.
  assert (Hr : r = Ok 2 /\ mg_db w' = ["x 1"; "y"; "z"] /\
               map fst (default [] (mg_rows w')) = ["001_a.sql"; "002_b.sql"])
    by (vm_compute in E; injection E as <- <-; done).
  destruct Hr as (-> & Hd & Hm).
  destruct (migrate_exact _ _ _ _ _ _ _ _ demo_empty w' (Ok 2) ltac:(apply NoDup_nil_2) E)
    as (_ & dn & _ & _ & H).
  destruct (collectMigrationFiles demo_dir) as [files|e] eqn:Ec; [|by vm_compute in Ec].
  destruct H as (_ & _ & _ & Hagain). destruct (Hagain eq_refl eq_refl) as (w2 & E2 & Hd2 & _).
  by exists w', w2.
Defined.

Lemma migrate_refuses_postgres_witness :
  exists e, run demo_Exec (fun _ => None) id id ["sqlite3"] (fun _ _ => None)
    (fun v => if String.eqb v "DATABASE_DSN" then "postgres://h/db" else "") (fun _ => demo_dir)
    (fun _ => demo_file) ({| hd_next := 0; hd_live := [] |}, demo_empty)
    = (({| hd_next := 0; hd_live := [] |}, demo_empty), Err e).
Proof. apply migrate_refuses_postgres; [|by vm_compute]. by intros [|?%elem_of_nil]%elem_of_cons. Defined.
