(* ===== verification/Config.v ===== *)
(** * Configuration: [internal/platform/config.go]

    The environment is a function from names to values (the empty string when unset);
    [strconv.ParseFloat] and [time.ParseDuration] are parameters, [Atoi] and [ParseBool]
    are written out. *)

From S2P Require Import Prelude.

Record Config := {
  cg_IdentityDir : string; cg_AgentName : string;
  cg_LLMProvider : string; cg_LLMModel : string; cg_LLMAPIKey : string; cg_LLMEndpoint : string;
  cg_LLMProfile : string;
  cg_LLMSecondaryProvider : string; cg_LLMSecondaryEndpoint : string; cg_LLMSecondaryModel : string;
  cg_LLMSecondaryAPIKey : string; cg_LLMSecondaryRole : string;
  cg_EmbedProvider : string; cg_EmbedModel : string; cg_EmbedAPIKey : string; cg_EmbedDimensions : Z;
  cg_DatabaseDSN : string;
  cg_TokenBudget : Z; cg_HardFloorTokens : Z; cg_SessionTrigger : string; cg_WorkspaceDir : string;
  cg_PAVelocityThreshold : float64; cg_BridgeAbstainRate : float64;
  cg_BeliefDecayRate : float64; cg_InferenceDecayBase : float64; cg_StaleThreshold : float64;
  cg_ContradictionRetrievalProbability : float64; cg_ConvergenceRatioThreshold : float64;
  cg_ConvergenceNudgeCooldown : Z; cg_ConvergenceWindowSize : Z;
  cg_TelemetryEnabled : bool;
  cg_SandboxMode : string; cg_SandboxAllowedPaths : string; cg_SandboxBlockedCmds : string;
  cg_SandboxUser : string; cg_RuntimeDir : string; cg_AdvisorConfigPath : string;
  cg_LLMRequestTimeout : Z;
  cg_DiscordToken : string; cg_DiscordChannelIDs : string; cg_DiscordPollSecs : Z;
  cg_AegisTrustSkepticalPrior : float64; cg_AegisTrustRampN : Z; cg_AegisOutboundPathPrefixes : string;
  cg_SkipWitnessCheck : bool }.

(** ** [strconv] *)

(** [Atoi]: an optional sign and decimal digits, in the range of an int. *)
Fixpoint digits_value (s : string) (acc : Z) : option Z :=
  match s with
  | "" => Some acc
  | String c r =>
      if (48 <=? ascii_code c) && (ascii_code c <=? 57)
      then digits_value r (10 * acc + (ascii_code c - 48)) else None
  end.
Definition in_int64b (z : Z) : bool := (int64_min <=? z) && (z <=? int64_max).
Definition Atoi (s : string) : option Z :=
  let unsigned (t : string) := if str_empty t then None else digits_value t 0 in
  let v := if has_prefix s "-" then Z.opp <$> unsigned (str_drop 1 s)
           else if has_prefix s "+" then unsigned (str_drop 1 s) else unsigned s in
  match v with Some z => if in_int64b z then Some z else None | None => None end.

Definition ParseBool (s : string) : option bool :=
  if one_of s ["1"; "t"; "T"; "true"; "TRUE"; "True"] then Some true
  else if one_of s ["0"; "f"; "F"; "false"; "FALSE"; "False"] then Some false else None.

Section Load.
Variable ParseFloat : string -> option float64.
Variable ParseDuration : string -> option Z.
Variable Getenv : string -> string.

Definition envStr (key def : string) : string := str_or (Getenv key) def.
(** [envInt], [envFloat], [envBool] and [envDuration]: unset or unparseable is the default. *)
Definition env_parsed {A} (parse : string -> option A) (key : string) (def : A) : A :=
  let v := Getenv key in if str_empty v then def else default def (parse v).
Definition envInt : string -> Z -> Z := env_parsed Atoi.
Definition envFloat : string -> float64 -> float64 := env_parsed ParseFloat.
Definition envBool : string -> bool -> bool := env_parsed ParseBool.
Definition envDuration : string -> Z -> Z := env_parsed ParseDuration.

Definition clampFloat (v lo hi : float64) : float64 :=
  if fltb v lo then lo else if fgtb v hi then hi else v.
Definition clampInt (v lo hi : Z) : Z := if v <? lo then lo else if hi <? v then hi else v.

Definition set_budgets (budget floor : Z) (c : Config) : Config :=
  {| cg_IdentityDir := cg_IdentityDir c; cg_AgentName := cg_AgentName c;
     cg_LLMProvider := cg_LLMProvider c; cg_LLMModel := cg_LLMModel c; cg_LLMAPIKey := cg_LLMAPIKey c;
     cg_LLMEndpoint := cg_LLMEndpoint c; cg_LLMProfile := cg_LLMProfile c;
     cg_LLMSecondaryProvider := cg_LLMSecondaryProvider c;
     cg_LLMSecondaryEndpoint := cg_LLMSecondaryEndpoint c;
     cg_LLMSecondaryModel := cg_LLMSecondaryModel c; cg_LLMSecondaryAPIKey := cg_LLMSecondaryAPIKey c;
     cg_LLMSecondaryRole := cg_LLMSecondaryRole c;
     cg_EmbedProvider := cg_EmbedProvider c; cg_EmbedModel := cg_EmbedModel c;
     cg_EmbedAPIKey := cg_EmbedAPIKey c; cg_EmbedDimensions := cg_EmbedDimensions c;
     cg_DatabaseDSN := cg_DatabaseDSN c; cg_TokenBudget := budget; cg_HardFloorTokens := floor;
     cg_SessionTrigger := cg_SessionTrigger c; cg_WorkspaceDir := cg_WorkspaceDir c;
     cg_PAVelocityThreshold := cg_PAVelocityThreshold c; cg_BridgeAbstainRate := cg_BridgeAbstainRate c;
     cg_BeliefDecayRate := cg_BeliefDecayRate c; cg_InferenceDecayBase := cg_InferenceDecayBase c;
     cg_StaleThreshold := cg_StaleThreshold c;
     cg_ContradictionRetrievalProbability := cg_ContradictionRetrievalProbability c;
     cg_ConvergenceRatioThreshold := cg_ConvergenceRatioThreshold c;
     cg_ConvergenceNudgeCooldown := cg_ConvergenceNudgeCooldown c;
     cg_ConvergenceWindowSize := cg_ConvergenceWindowSize c;
     cg_TelemetryEnabled := cg_TelemetryEnabled c; cg_SandboxMode := cg_SandboxMode c;
     cg_SandboxAllowedPaths := cg_SandboxAllowedPaths c; cg_SandboxBlockedCmds := cg_SandboxBlockedCmds c;
     cg_SandboxUser := cg_SandboxUser c; cg_RuntimeDir := cg_RuntimeDir c;
     cg_AdvisorConfigPath := cg_AdvisorConfigPath c; cg_LLMRequestTimeout := cg_LLMRequestTimeout c;
     cg_DiscordToken := cg_DiscordToken c; cg_DiscordChannelIDs := cg_DiscordChannelIDs c;
     cg_DiscordPollSecs := cg_DiscordPollSecs c;
     cg_AegisTrustSkepticalPrior := cg_AegisTrustSkepticalPrior c;
     cg_AegisTrustRampN := cg_AegisTrustRampN c;
     cg_AegisOutboundPathPrefixes := cg_AegisOutboundPathPrefixes c;
     cg_SkipWitnessCheck := cg_SkipWitnessCheck c |}.

Definition validate (c : Config) : result Config :=
  if str_empty (cg_LLMProvider c) then Err (ENew "LLM_PROVIDER is required")
  else if str_empty (cg_DatabaseDSN c) then Err (ENew "DATABASE_DSN is required")
  else if cg_TokenBudget c <=? 0 then Err (ENew "TOKEN_BUDGET must be positive")
  else if cg_HardFloorTokens c <=? 0 then Err (ENew "HARD_FLOOR_TOKENS must be positive")
  else if cg_TokenBudget c <=? cg_HardFloorTokens c then Ok (set_budgets 200000 1500 c)
  else Ok c.

Definition Load : result Config :=
  wrap_err "config validation" (validate
  {| cg_IdentityDir := envStr "IDENTITY_DIR" "./identity";
     cg_AgentName := envStr "AGENT_NAME" "aurora";
     cg_LLMProvider := envStr "LLM_PROVIDER" "openai";
     cg_LLMModel := envStr "LLM_MODEL" "";
     cg_LLMAPIKey := envStr "LLM_API_KEY" "";
     cg_LLMEndpoint := envStr "LLM_ENDPOINT" "";
     cg_LLMProfile := envStr "LLM_PROFILE" "enforce-eager";
     cg_LLMSecondaryProvider := envStr "LLM_SECONDARY_PROVIDER" "";
     cg_LLMSecondaryEndpoint := envStr "LLM_SECONDARY_ENDPOINT" "";
     cg_LLMSecondaryModel := envStr "LLM_SECONDARY_MODEL" "";
     cg_LLMSecondaryAPIKey := envStr "LLM_SECONDARY_API_KEY" "";
     cg_LLMSecondaryRole := envStr "LLM_SECONDARY_ROLE" "";
     cg_EmbedProvider := envStr "EMBED_PROVIDER" "voyage";
     cg_EmbedModel := envStr "EMBED_MODEL" "voyage-3.5";
     cg_EmbedAPIKey := envStr "EMBED_API_KEY" "";
     cg_EmbedDimensions := envInt "EMBED_DIMENSIONS" 1024;
     cg_DatabaseDSN := envStr "DATABASE_DSN" "sqlite://./agent.db";
     cg_TokenBudget := envInt "TOKEN_BUDGET" 200000;
     cg_HardFloorTokens := envInt "HARD_FLOOR_TOKENS" 1500;
     cg_SessionTrigger := envStr "SESSION_TRIGGER" "heartbeat";
     cg_WorkspaceDir := envStr "WORKSPACE_DIR" "./workspace";
     cg_PAVelocityThreshold := envFloat "PA_VELOCITY_THRESHOLD" (f_lit 28 100);
     cg_BridgeAbstainRate := envFloat "BRIDGE_ABSTAIN_RATE" (f_lit 20 100);
     cg_BeliefDecayRate := envFloat "BELIEF_DECAY_RATE" (f_lit 5 100);
     cg_InferenceDecayBase := envFloat "INFERENCE_DECAY_BASE" (f_lit 90 100);
     cg_StaleThreshold := envFloat "STALE_THRESHOLD" (f_lit 20 100);
     cg_ContradictionRetrievalProbability :=
       clampFloat (envFloat "CONTRADICTION_RETRIEVAL_PROBABILITY" (f_lit 30 100)) f_zero (f_of_Z 1);
     cg_ConvergenceRatioThreshold :=
       clampFloat (envFloat "CONVERGENCE_RATIO_THRESHOLD" (f_lit 60 100)) f_zero (f_of_Z 1);
     cg_ConvergenceNudgeCooldown := clampInt (envInt "CONVERGENCE_NUDGE_COOLDOWN" 5) 1 20;
     cg_ConvergenceWindowSize := clampInt (envInt "CONVERGENCE_WINDOW_SIZE" 10) 3 50;
     cg_TelemetryEnabled := envBool "TELEMETRY_ENABLED" true;
     cg_SandboxMode := envStr "SANDBOX_MODE" "user";
     cg_SandboxAllowedPaths := envStr "SANDBOX_ALLOWED_PATHS" "";
     cg_SandboxBlockedCmds := envStr "SANDBOX_BLOCKED_CMDS" "";
     cg_SandboxUser := envStr "SANDBOX_USER" "";
     cg_RuntimeDir := envStr "RUNTIME_DIR" "./run";
     cg_AdvisorConfigPath := envStr "ADVISOR_CONFIG" "";
     cg_DiscordToken := envStr "DISCORD_TOKEN" "";
     cg_DiscordChannelIDs := envStr "DISCORD_CHANNEL_IDS" "";
     cg_DiscordPollSecs := envInt "DISCORD_POLL_SECONDS" 30;
     cg_LLMRequestTimeout := envDuration "LLM_REQUEST_TIMEOUT" (10 * minute);
     cg_SkipWitnessCheck := envBool "SKIP_WITNESS_CHECK" false;
     cg_AegisTrustSkepticalPrior := envFloat "AEGIS_TRUST_SKEPTICAL_PRIOR" (f_lit 40 100);
     cg_AegisTrustRampN := envInt "AEGIS_TRUST_RAMP_N" 5;
     cg_AegisOutboundPathPrefixes := envStr "AEGIS_OUTBOUND_PATH_PREFIXES" "/home/,/etc/,/opt/,/storage/" |}).

(** ** Properties *)

Lemma envStr_nonempty key def : def <> "" -> str_empty (envStr key def) = false.
Proof.
  intros Hd. unfold envStr, str_or. destruct (str_empty (Getenv key)) eqn:E; [|done].
  destruct (str_empty def) eqn:E2; [|done]. by apply str_empty_true in E2.
Qed.
Lemma clampInt_range v lo hi : lo <= hi -> lo <= clampInt v lo hi <= hi.
Proof. unfold clampInt. intros ?. destruct (Z.ltb_spec v lo), (Z.ltb_spec hi v); lia. Qed.
(** A NaN is neither below nor above: it passes. *)
Lemma clampFloat_range v lo hi : fltb hi lo = false ->
  fltb (clampFloat v lo hi) lo = false /\ fgtb (clampFloat v lo hi) hi = false.
Proof.
  unfold clampFloat, fgtb. intros Hlh. destruct (fltb v lo) eqn:E1; [by rewrite fltb_irrefl|].
  destruct (SFltb hi v) eqn:E2; [|done]. fold (fltb hi hi). by rewrite fltb_irrefl.
Qed.

(** What [Load] accepts and delivers. Loading fails exactly when the token budget or the
    hard floor is not positive; otherwise the budget exceeds the floor, which is positive
    (both are reset to their defaults when the environment has them the wrong way round),
    the settings the construction of the application turns on are the environment's or
    their defaults, and the clamped settings are in their ranges, NaN apart. *)
Theorem Load_exact :
  let budget := envInt "TOKEN_BUDGET" 200000 in
  let floor := envInt "HARD_FLOOR_TOKENS" 1500 in
  match Load with
  | Err e =>
      (budget <= 0 /\ e = EWrap "config validation" (ENew "TOKEN_BUDGET must be positive")) \/
      (0 < budget /\ floor <= 0 /\ e = EWrap "config validation" (ENew "HARD_FLOOR_TOKENS must be positive"))
  | Ok c =>
      0 < budget /\ 0 < floor /\ 0 < cg_HardFloorTokens c < cg_TokenBudget c /\
      (floor < budget -> cg_TokenBudget c = budget /\ cg_HardFloorTokens c = floor) /\
      cg_DatabaseDSN c = envStr "DATABASE_DSN" "sqlite://./agent.db" /\ cg_DatabaseDSN c <> "" /\
      cg_LLMProvider c = envStr "LLM_PROVIDER" "openai" /\ cg_LLMEndpoint c = envStr "LLM_ENDPOINT" "" /\
      cg_SessionTrigger c = envStr "SESSION_TRIGGER" "heartbeat" /\
      cg_EmbedAPIKey c = envStr "EMBED_API_KEY" "" /\
      (forall x, x ∈ [cg_ContradictionRetrievalProbability c; cg_ConvergenceRatioThreshold c] ->
         fltb x f_zero = false /\ fgtb x (f_of_Z 1) = false) /\
      1 <= cg_ConvergenceNudgeCooldown c <= 20 /\ 3 <= cg_ConvergenceWindowSize c <= 50
  end.
Proof.
  cbn zeta. unfold Load, validate. cbn [cg_LLMProvider cg_DatabaseDSN cg_TokenBudget cg_HardFloorTokens].
  rewrite !envStr_nonempty by done.
  assert (Hdsn : envStr "DATABASE_DSN" "sqlite://./agent.db" <> "").
  { intros E. assert (H := envStr_nonempty "DATABASE_DSN" "sqlite://./agent.db" ltac:(done)).
    by rewrite E in H. }
  assert (Hf : fltb (f_of_Z 1) f_zero = false) by (by vm_compute).
  destruct (Z.leb_spec (envInt "TOKEN_BUDGET" 200000) 0); [by left|].
  destruct (Z.leb_spec (envInt "HARD_FLOOR_TOKENS" 1500) 0); [by right|].
  destruct (Z.leb_spec (envInt "TOKEN_BUDGET" 200000) (envInt "HARD_FLOOR_TOKENS" 1500)); cbn;
    (split_and!; try done; try lia; try (by apply clampInt_range));
    intros x [->|[->|Hx%elem_of_nil]%elem_of_cons]%elem_of_cons; try done; by apply clampFloat_range.
Qed.
End Load.

Example Atoi_ex : (Atoi "-12", Atoi "+7", Atoi "", Atoi "1_0", Atoi "9223372036854775808")
  = (Some (-12), Some 7, None, None, None).
Proof. by vm_compute. Qed.
