(* ===== verification/App.v ===== *)
(** * The composition root: [internal/app/app.go], [profile.go], [cmd/agent/main.go]

    [NewApp] builds every component from the configuration and checks the result against
    the runtime profile. What it builds is represented by what it is built from: a store
    by its dialect and its database, the gateway by its trust configuration and its store,
    the daemon by its collaborators. Opening the database is [Dsn.NewStore]. *)

From S2P Require Import Prelude Dsn Config Client Aegis Daemon.

(** ** Profiles *)

Definition ProfileErsaProduction : string := "ersa_production".
Definition ProfileDevelopment : string := "development".
Definition ProfileConnectivityTest : string := "connectivity_test".
Definition ValidProfiles : list string :=
  [ProfileErsaProduction; ProfileDevelopment; ProfileConnectivityTest].

(** [range_names]: the keys in the order the map is ranged over. *)
Definition ParseProfile (range_names : list string) (s : string) : result string :=
  if str_empty s then Ok ProfileDevelopment
  else if one_of s ValidProfiles then Ok s
  else Err (ENew ("unknown runtime profile " +:+ fmt_q s +:+ " (valid: " +:+ str_join range_names ", " +:+ ")")).

(** ** What is wired *)

Inductive Dialect := SQLite | Postgres.
Inductive DBRef := OpenedDB (handle : nat) | InjectedDB (closer : bool).
Record StoreRef := { sf_dialect : Dialect; sf_db : DBRef }.
(** A [*platform.SQLiteStore] on a database, or another [MemoryStore]. *)
Inductive MemoryRef := SQLiteMemory (db : DBRef) | OtherMemory.
Inductive LLMRef := InjectedLLM | OpenAILLM (cfg : ClientConfig) (timeout : Z).
Inductive EmbedRef := InjectedEmbed | VoyageEmbed (apiKey model : string).
Inductive GatewayRef := InjectedGateway | AegisGateway (trust : TrustConfig) (store : DBRef).
Inductive ToolsRef :=
  | InjectedTools
  | BuiltinTools (memory : option MemoryRef) (t2_and_settings : DBRef) (embedding : option EmbedRef).

Record Dependencies := {
  d_DB : option DBRef; d_Config : option Config; d_LLM : option LLMRef;
  d_JobStore : option StoreRef; d_ConsolidationStore : option StoreRef;
  d_LifecycleStore : option StoreRef; d_AssemblyStore : option StoreRef;
  d_MemoryStore : option MemoryRef; d_EmbeddingProvider : option EmbedRef;
  d_Gateway : option GatewayRef; d_ToolRegistry : option ToolsRef }.

Definition present {A} (o : option A) : bool := match o with Some _ => true | None => false end.

(** The calls of [check]: name, presence, whether the profile requires it. *)
Definition profile_checks (profile : string) (d : Dependencies) : option (list (string * bool * bool)) :=
  let base := [("DB", present (d_DB d), true); ("LLM", present (d_LLM d), true);
               ("Config", present (d_Config d), true)] in
  let stores := [("JobStore", present (d_JobStore d), true);
                 ("ConsolidationStore", present (d_ConsolidationStore d), true);
                 ("LifecycleStore", present (d_LifecycleStore d), true);
                 ("AssemblyStore", present (d_AssemblyStore d), true)] in
  let services (required : bool) :=
    [("MemoryStore", present (d_MemoryStore d), required);
     ("EmbeddingProvider", present (d_EmbeddingProvider d), required);
     ("Gateway (Aegis)", present (d_Gateway d), required);
     ("ToolRegistry", present (d_ToolRegistry d), required)] in
  if String.eqb profile ProfileErsaProduction then Some (base ++ stores ++ services true)
  else if String.eqb profile ProfileDevelopment then Some (base ++ stores ++ services false)
  else if String.eqb profile ProfileConnectivityTest then Some base
  else None.
Definition missing_of (checks : list (string * bool * bool)) : list string :=
  map (fun c => c.1.1) (whereb (fun c => negb c.1.2 && c.2) checks).

Definition Validate (profile : string) (d : Dependencies) : result unit :=
  match profile_checks profile d with
  | None => Err (ENew ("unknown runtime profile: " +:+ fmt_q profile))
  | Some checks =>
      match missing_of checks with
      | [] => Ok tt
      | missing => Err (ENew ("profile " +:+ fmt_q profile +:+ " requires: " +:+ str_join missing ", "))
      end
  end.

(** ** Options *)

Definition with_DB (o : option DBRef) (d : Dependencies) : Dependencies :=
  {| d_DB := o; d_Config := d_Config d; d_LLM := d_LLM d; d_JobStore := d_JobStore d;
     d_ConsolidationStore := d_ConsolidationStore d; d_LifecycleStore := d_LifecycleStore d;
     d_AssemblyStore := d_AssemblyStore d; d_MemoryStore := d_MemoryStore d;
     d_EmbeddingProvider := d_EmbeddingProvider d; d_Gateway := d_Gateway d;
     d_ToolRegistry := d_ToolRegistry d |}.
Definition with_LLM (o : option LLMRef) (d : Dependencies) : Dependencies :=
  {| d_DB := d_DB d; d_Config := d_Config d; d_LLM := o; d_JobStore := d_JobStore d;
     d_ConsolidationStore := d_ConsolidationStore d; d_LifecycleStore := d_LifecycleStore d;
     d_AssemblyStore := d_AssemblyStore d; d_MemoryStore := d_MemoryStore d;
     d_EmbeddingProvider := d_EmbeddingProvider d; d_Gateway := d_Gateway d;
     d_ToolRegistry := d_ToolRegistry d |}.
Definition with_MemoryStore (o : option MemoryRef) (d : Dependencies) : Dependencies :=
  {| d_DB := d_DB d; d_Config := d_Config d; d_LLM := d_LLM d; d_JobStore := d_JobStore d;
     d_ConsolidationStore := d_ConsolidationStore d; d_LifecycleStore := d_LifecycleStore d;
     d_AssemblyStore := d_AssemblyStore d; d_MemoryStore := o;
     d_EmbeddingProvider := d_EmbeddingProvider d; d_Gateway := d_Gateway d;
     d_ToolRegistry := d_ToolRegistry d |}.
Definition WithLLM (client : LLMRef) : Dependencies -> Dependencies := with_LLM (Some client).
Definition WithDB (db : DBRef) : Dependencies -> Dependencies := with_DB (Some db).
Definition WithMemoryStore (store : MemoryRef) : Dependencies -> Dependencies := with_MemoryStore (Some store).

(** ** The application *)

Record PipelineRef := {
  pp_aegis : option GatewayRef; pp_llm : option LLMRef; pp_embedder : option EmbedRef;
  pp_db : option DBRef; pp_driver : string; pp_consolidation : option StoreRef;
  pp_memory : option MemoryRef }.
Record JobRunnerRef := { jn_store : StoreRef; jn_pipeline : PipelineRef }.
Record SupervisorRef := { sv_runner : JobRunnerRef; sv_maxConcurrent : Z }.
Inductive RunnerRef :=
  | Phase1Runner
  | LifecycleRunner (jobRunner : option JobRunnerRef) (supervisor : option SupervisorRef).
Inductive ChannelRef := DiscordChannel (token : string) (ids : list string) (poll : Z) | CLIChannel.
Definition channel_name (c : ChannelRef) : string :=
  match c with DiscordChannel _ _ _ => "discord" | CLIChannel => "cli" end.
Record DaemonRef := {
  da_AgentName : string; da_SessionTrigger : string; da_runner : RunnerRef;
  da_lifecycle : option StoreRef; da_supervisor : option SupervisorRef;
  da_channels : option (list ChannelRef * option GatewayRef * list WakeCondition) }.
Record App := {
  app_Config : Config; app_Profile : string; app_Dependencies : Dependencies;
  app_Runner : RunnerRef; app_Supervisor : option SupervisorRef; app_Daemon : DaemonRef }.

Section NewApp.
Variable unicode_trim : string -> string.
Variable Getenv : string -> string.
Variable drivers : list string.
Variable Ping : string -> string -> option error.

Definition positive (x : float64) : bool := fltb f_zero x.
Definition trust_config (cfg : Config) : TrustConfig :=
  {| tc_SkepticalPrior := if positive (cg_AegisTrustSkepticalPrior cfg)
                          then cg_AegisTrustSkepticalPrior cfg else tc_SkepticalPrior DefaultTrustConfig;
     tc_RampInteractions := if 0 <? cg_AegisTrustRampN cfg
                            then cg_AegisTrustRampN cfg else tc_RampInteractions DefaultTrustConfig;
     tc_MaxTrust := tc_MaxTrust DefaultTrustConfig |}.

(** The database: the dependencies with it, and the handle just opened. *)
Definition open_database (cfg : Config) (profile : string) (d : Dependencies)
    : M Handles (Dependencies * option nat) :=
  if negb (present (d_DB d)) && negb (str_empty (cg_DatabaseDSN cfg)) then
    try! r := NewStore drivers Ping (cg_DatabaseDSN cfg) in
    match r with
    | Err e =>
        if one_of profile [ProfileConnectivityTest; ProfileErsaProduction]
        then fail (EWrap ("app: DB required for " +:+ profile) e)
        else ret (d, None)
    | Ok store => ret (with_DB (Some (OpenedDB (st_DB store))) d, Some (st_DB store))
    end
  else ret (d, None).

Definition repository_stores (driverName : string) (d : Dependencies) : result Dependencies :=
  match d_DB d with
  | None => Ok d
  | Some db =>
      let wire dialect :=
        let s := Some {| sf_dialect := dialect; sf_db := db |} in
        {| d_DB := d_DB d; d_Config := d_Config d; d_LLM := d_LLM d; d_JobStore := s;
           d_ConsolidationStore := s; d_LifecycleStore := s; d_AssemblyStore := s;
           d_MemoryStore := d_MemoryStore d; d_EmbeddingProvider := d_EmbeddingProvider d;
           d_Gateway := d_Gateway d; d_ToolRegistry := d_ToolRegistry d |} in
      if String.eqb driverName "sqlite3" then Ok (wire SQLite)
      else if String.eqb driverName "postgres" then Ok (wire Postgres)
      else Err (ENew ("app: unsupported database driver " +:+ fmt_q driverName +:+
                      " (supported: sqlite3, postgres)"))
  end.

Definition build_LLM (cfg : Config) (d : Dependencies) : result Dependencies :=
  if present (d_LLM d) then Ok d
  else if negb (one_of (cg_LLMProvider cfg) ["openai"; "openai-compat"])
  then Err (ENew ("app: Phase 1 supports only LLM_PROVIDER=openai; got " +:+ fmt_q (cg_LLMProvider cfg)))
  else if str_empty (cg_LLMEndpoint cfg)
  then Err (ENew "app: LLM_ENDPOINT is required for openai-compat provider")
  else
    let client := NewOpenAICompatClient
      {| cl_endpoint := cg_LLMEndpoint cfg; cl_apiKey := cg_LLMAPIKey cfg; cl_model := cg_LLMModel cfg;
         cl_systemMsgFirstOnly := String.eqb (cg_LLMProfile cfg) "qwen" ||
                                  String.eqb (Getenv "LLM_SYSTEM_FIRST_ONLY") "true";
         cl_thinkingMode := String.eqb (Getenv "LLM_THINKING_MODE") "true" |} in
    Ok (with_LLM (Some (OpenAILLM client (cg_LLMRequestTimeout cfg))) d).

(** The memory store, and the [sqliteStore] the gateway and the tools are built on. *)
Definition memory_store (driverName : string) (rawSQLDB : option nat) (d : Dependencies)
    : Dependencies * option DBRef :=
  match d_MemoryStore d, rawSQLDB with
  | None, Some db =>
      if String.eqb driverName "sqlite3"
      then (with_MemoryStore (Some (SQLiteMemory (OpenedDB db))) d, Some (OpenedDB db))
      else (d, None)
  | Some (SQLiteMemory db), _ => (d, Some db)
  | _, _ => (d, None)
  end.

(** Embeddings, gateway and tools. *)
Definition domain_services (cfg : Config) (sqliteStore : option DBRef) (d : Dependencies) : Dependencies :=
  let embed := match d_EmbeddingProvider d with
               | Some e => Some e
               | None => if str_empty (cg_EmbedAPIKey cfg) then None
                         else Some (VoyageEmbed (cg_EmbedAPIKey cfg) (str_or (cg_EmbedModel cfg) "voyage-3.5"))
               end in
  let gateway := match d_Gateway d, sqliteStore with
                 | None, Some db => Some (AegisGateway (trust_config cfg) db)
                 | g, _ => g
                 end in
  let tools := match d_ToolRegistry d, sqliteStore with
               | None, Some db => Some (BuiltinTools (d_MemoryStore d) db embed)
               | t, _ => t
               end in
  {| d_DB := d_DB d; d_Config := d_Config d; d_LLM := d_LLM d; d_JobStore := d_JobStore d;
     d_ConsolidationStore := d_ConsolidationStore d; d_LifecycleStore := d_LifecycleStore d;
     d_AssemblyStore := d_AssemblyStore d; d_MemoryStore := d_MemoryStore d;
     d_EmbeddingProvider := embed; d_Gateway := gateway; d_ToolRegistry := tools |}.

(** The metabolism stack. *)
Definition metabolism_stack (driverName : string) (d : Dependencies)
    : option JobRunnerRef * option SupervisorRef :=
  match d_JobStore d, d_DB d with
  | Some js, Some db =>
      let runner := {| jn_store := js; jn_pipeline :=
        {| pp_aegis := d_Gateway d; pp_llm := d_LLM d; pp_embedder := d_EmbeddingProvider d;
           pp_db := Some db; pp_driver := driverName; pp_consolidation := d_ConsolidationStore d;
           pp_memory := d_MemoryStore d |} |} in
      (Some runner, Some {| sv_runner := runner; sv_maxConcurrent := 2 |})
  | _, _ => (None, None)
  end.

(** The channels a configuration names, and their wake conditions. *)
Definition build_channels (cfg : Config) : list ChannelRef * list WakeCondition :=
  let discord :=
    if negb (str_empty (cg_DiscordToken cfg)) && negb (str_empty (cg_DiscordChannelIDs cfg)) then
      [(DiscordChannel (cg_DiscordToken cfg)
          (map (trim_space unicode_trim) (split_comma (cg_DiscordChannelIDs cfg)))
          (wrap64 (cg_DiscordPollSecs cfg * second)),
        {| wc_Channel := "discord"; wc_Pattern := ".*"; wc_Priority := 1 |})]
    else [] in
  let cli := if String.eqb (Getenv "CLI_CHANNEL") "true"
             then [(CLIChannel, {| wc_Channel := "cli"; wc_Pattern := ".*"; wc_Priority := 2 |})] else [] in
  (map fst (discord ++ cli), map snd (discord ++ cli)).

(** Everything behind the database. *)
Definition assemble_app (cfg : Config) (profile : string) (d : Dependencies) (rawSQLDB : option nat)
    : result App :=
  let driverName := DriverNameFromDSN (cg_DatabaseDSN cfg) in
  let? d := repository_stores driverName d in
  let? d := build_LLM cfg d in
  let '(d, sqliteStore) := memory_store driverName rawSQLDB d in
  let d := domain_services cfg sqliteStore d in
  let? _ := wrap_err "app" (Validate profile d) in
  let '(jobRunner, supervisor) := metabolism_stack driverName d in
  let runner := if String.eqb (Getenv "PHASE1_MODE") "true" then Phase1Runner
                else LifecycleRunner jobRunner supervisor in
  let external := String.eqb (cg_SessionTrigger cfg) "external" in
  let '(channels, conditions) := build_channels cfg in
  if external && String.eqb profile ProfileErsaProduction && (length channels =? 0)%nat
  then Err (ENew "app: ersa_production with SESSION_TRIGGER=external requires at least one channel (set DISCORD_TOKEN+DISCORD_CHANNEL_IDS or CLI_CHANNEL=true)")
  else Ok
    {| app_Config := cfg; app_Profile := profile; app_Dependencies := d; app_Runner := runner;
       app_Supervisor := supervisor;
       app_Daemon :=
         {| da_AgentName := cg_AgentName cfg; da_SessionTrigger := cg_SessionTrigger cfg;
            da_runner := runner; da_lifecycle := d_LifecycleStore d; da_supervisor := supervisor;
            da_channels := if external then Some (channels, d_Gateway d, conditions) else None |} |}.

Definition no_dependencies (cfg : Config) : Dependencies :=
  {| d_DB := None; d_Config := Some cfg; d_LLM := None; d_JobStore := None;
     d_ConsolidationStore := None; d_LifecycleStore := None; d_AssemblyStore := None;
     d_MemoryStore := None; d_EmbeddingProvider := None; d_Gateway := None; d_ToolRegistry := None |}.

Definition NewApp (cfg : Config) (profile : string) (opts : list (Dependencies -> Dependencies))
    : M Handles App :=
  let! opened := open_database cfg profile (fold_left (fun d opt => opt d) opts (no_dependencies cfg)) in
  fun h => (h, assemble_app cfg profile opened.1 opened.2).

(** [App.Close]: the database, if it can be closed. *)
Definition Close (a : App) : M Handles unit :=
  match d_DB (app_Dependencies a) with
  | Some (OpenedDB i) => Dsn.Close i
  | _ => ret tt
  end.

(** [App.Run]; the two services it calls are given. *)
Definition Run (ping_LLM : M Handles unit) (daemon_Run : DaemonRef -> M Handles unit) (a : App)
    : M Handles unit :=
  if String.eqb (app_Profile a) ProfileConnectivityTest
  then wrapM "app: connectivity test — LLM unreachable" ping_LLM
  else daemon_Run (app_Daemon a).

(** [run] of [cmd/agent]: load, build, run, and close whatever the run ends with. *)
Definition run (ParseFloat : string -> option float64) (ParseDuration : string -> option Z)
    (range_names : list string) (ping_LLM : M Handles unit) (daemon_Run : DaemonRef -> M Handles unit)
    : M Handles unit :=
  match Load ParseFloat ParseDuration Getenv with
  | Err e => fail (EWrap "loading config" e)
  | Ok cfg =>
      match ParseProfile range_names (Getenv "AGENT_PROFILE") with
      | Err e => fail e
      | Ok profile =>
          let! a := wrapM "initialization failed" (NewApp cfg profile []) in
          try! r := Run ping_LLM daemon_Run a in
          try! _ := Close a in
          match r with Ok _ => ret tt | Err e => fail e end
      end
  end.
End NewApp.

(** ** Properties *)

(** Which dependencies a profile requires. *)
Definition required_names (profile : string) : list string :=
  ["DB"; "LLM"; "Config"] ++
  (if String.eqb profile ProfileConnectivityTest then []
   else ["JobStore"; "ConsolidationStore"; "LifecycleStore"; "AssemblyStore"]) ++
  (if String.eqb profile ProfileErsaProduction
   then ["MemoryStore"; "EmbeddingProvider"; "Gateway (Aegis)"; "ToolRegistry"] else []).
Definition supplied (d : Dependencies) (name : string) : bool :=
  match List.find (fun c => String.eqb c.1 name)
    [("DB", present (d_DB d)); ("LLM", present (d_LLM d)); ("Config", present (d_Config d));
     ("JobStore", present (d_JobStore d)); ("ConsolidationStore", present (d_ConsolidationStore d));
     ("LifecycleStore", present (d_LifecycleStore d)); ("AssemblyStore", present (d_AssemblyStore d));
     ("MemoryStore", present (d_MemoryStore d)); ("EmbeddingProvider", present (d_EmbeddingProvider d));
     ("Gateway (Aegis)", present (d_Gateway d)); ("ToolRegistry", present (d_ToolRegistry d))] with
  | Some c => c.2
  | None => false
  end.

Lemma missing_of_spec profile d checks : profile_checks profile d = Some checks ->
  profile ∈ ValidProfiles /\
  missing_of checks = whereb (fun name => negb (supplied d name)) (required_names profile).
Proof.
  assert (Hgo : forall l : list (string * bool * bool),
    Forall (fun c => c.1.2 = supplied d c.1.1) l ->
    missing_of l = whereb (fun name => negb (supplied d name)) (map (fun c => c.1.1) (whereb (fun c => c.2) l))).
  { intros l Hs. unfold missing_of, whereb. induction Hs as [|[[n b] q] l Hb _ IH]; [done|]. cbn in *.
    rewrite Hb, andb_comm. destruct q; cbn; [|exact IH]. destruct (supplied d n); cbn; [exact IH|by f_equal]. }
  unfold profile_checks.
  destruct (String.eqb_spec profile ProfileErsaProduction) as [->|H1].
  { intros [= <-]. split; [by left|]. apply Hgo. by repeat constructor. }
  destruct (String.eqb_spec profile ProfileDevelopment) as [->|H2].
  { intros [= <-]. split; [right; by left|]. apply Hgo. by repeat constructor. }
  destruct (String.eqb_spec profile ProfileConnectivityTest) as [->|H3]; [|done].
  intros [= <-]. split; [right; right; by left|]. apply Hgo. by repeat constructor.
Qed.

(** [Validate] accepts exactly the dependency sets that have all a known profile
    requires; otherwise it names every missing one, in order, or refuses the profile. *)
Theorem Validate_exact profile d :
  let missing := whereb (fun name => negb (supplied d name)) (required_names profile) in
  (profile ∈ ValidProfiles ->
   Validate profile d = match missing with
                        | [] => Ok tt
                        | _ => Err (ENew ("profile " +:+ fmt_q profile +:+ " requires: " +:+ str_join missing ", "))
                        end) /\
  (profile ∉ ValidProfiles -> Validate profile d = Err (ENew ("unknown runtime profile: " +:+ fmt_q profile))).
Proof.
  cbn zeta. unfold Validate. destruct (profile_checks profile d) as [checks|] eqn:E.
  - apply missing_of_spec in E as [Hp ->]. split; [|done]. intros _.
    by destruct (whereb _ (required_names profile)).
  - split; [|done]. intros Hp. exfalso. unfold profile_checks in E.
    unfold ValidProfiles in Hp. elem_cases Hp; discriminate.
Qed.

Section NewAppProps.
Context (unicode_trim Getenv : string -> string) (drivers : list string).
Context (Ping : string -> string -> option error).
Notation newApp := (NewApp unicode_trim Getenv drivers Ping).

Lemma Validate_needs_database profile d : d_DB d = None -> exists e, Validate profile d = Err e.
Proof.
  intros Hd. destruct (decide (profile ∈ ValidProfiles)) as [Hp|Hp].
  - rewrite (proj1 (Validate_exact profile d) Hp). unfold required_names. cbn. rewrite Hd. cbn. by eexists.
  - rewrite (proj2 (Validate_exact profile d) Hp). by eexists.
Qed.

Lemma build_LLM_cases cfg d d' : d_LLM d = None -> build_LLM Getenv cfg d = Ok d' ->
  exists llm, d' = with_LLM (Some llm) d /\ one_of (cg_LLMProvider cfg) ["openai"; "openai-compat"] = true.
Proof.
  unfold build_LLM. intros ->. cbn [present]. destruct (one_of _ _); [|done]. cbn [negb].
  destruct (str_empty _); [done|]. intros [= <-]. by eexists.
Qed.

Lemma assemble_needs_database cfg profile d raw : d_DB d = None -> d_LLM d = None ->
  exists e, assemble_app unicode_trim Getenv cfg profile d raw = Err e.
Proof.
  intros Hdb Hllm. unfold assemble_app, repository_stores. rewrite Hdb. cbn [result_bind].
  destruct (build_LLM _ cfg d) as [d1|e] eqn:El; [|by eexists]. apply build_LLM_cases in El as (llm & -> & _); [|done].
  cbn [result_bind]. destruct (memory_store _ _ _) as [d2 sq] eqn:Em.
  assert (H2 : d_DB d2 = None).
  { unfold memory_store in Em. repeat case_match; injection Em as <- _; exact Hdb. }
  destruct (Validate_needs_database profile (domain_services cfg sq d2) H2) as [e ->]. by eexists.
Qed.

(** No profile runs without its database, though the construction announces that it goes
    on without persistence when the database cannot be opened. *)
Lemma NewApp_needs_database cfg profile h h' e :
  NewStore drivers Ping (cg_DatabaseDSN cfg) h = (h', Err e) ->
  exists h1 e1, newApp cfg profile [] h = (h1, Err e1).
Proof.
  intros E. unfold NewApp, bind, open_database. cbn [fold_left no_dependencies d_DB present negb andb].
  assert (Hno : forall raw (h1 : Handles), exists h2 e1,
    (h1, assemble_app unicode_trim Getenv cfg profile (no_dependencies cfg) raw) = (h2, @Err App e1)).
  { intros raw h1. destruct (assemble_needs_database cfg profile (no_dependencies cfg) raw) as [e1 ->]; eauto. }
  destruct (negb (str_empty _)); [|apply Hno]. unfold attempt. rewrite E.
  destruct (one_of profile _); [by do 2 eexists|apply Hno].
Qed.

(** C30: What [NewApp] builds when no option replaces a part. Its database is the SQLite file
    the DSN names, opened once; every store, the gateway's trust store, the memory store
    and the tools are on that handle; the gateway screens the pipeline and the daemon's
    channels; consolidation is wired; and the daemon has the supervisor and the lifecycle
    store. Production has an embedding provider and, when it waits for events, a
    channel. *)
Theorem NewApp_wired cfg profile h h' a :
  "postgres" ∉ drivers -> handles_ok h -> newApp cfg profile [] h = (h', Ok a) ->
  exists db raw,
    parseDSN (cg_DatabaseDSN cfg) = Ok ("sqlite3", raw) /\ hd_live h' = hd_live h ++ [db] /\
    let on_db := Some {| sf_dialect := SQLite; sf_db := OpenedDB db |} in
    let gateway := Some (AegisGateway (trust_config cfg) (OpenedDB db)) in
    let d := app_Dependencies a in
    (d_DB d = Some (OpenedDB db) /\ d_JobStore d = on_db /\ d_ConsolidationStore d = on_db /\
     d_LifecycleStore d = on_db /\ d_AssemblyStore d = on_db /\
     d_MemoryStore d = Some (SQLiteMemory (OpenedDB db)) /\ d_Gateway d = gateway /\
     is_Some (d_LLM d) /\
     d_ToolRegistry d = Some (BuiltinTools (d_MemoryStore d) (OpenedDB db) (d_EmbeddingProvider d))) /\
    (exists s, app_Supervisor a = Some s /\ sv_maxConcurrent s = 2 /\
       let p := jn_pipeline (sv_runner s) in
       pp_aegis p = gateway /\ pp_consolidation p = on_db /\ pp_memory p = d_MemoryStore d /\
       pp_embedder p = d_EmbeddingProvider d /\ pp_llm p = d_LLM d /\
       da_supervisor (app_Daemon a) = Some s) /\
    da_lifecycle (app_Daemon a) = on_db /\
    match da_channels (app_Daemon a) with
    | None => cg_SessionTrigger cfg <> "external"
    | Some (channels, gw, _) =>
        cg_SessionTrigger cfg = "external" /\ gw = gateway /\
        (profile = ProfileErsaProduction -> channels <> [])
    end /\
    (profile = ProfileErsaProduction -> is_Some (d_EmbeddingProvider d)).
Proof.
  intros Hpg Hok E. unfold NewApp, bind, open_database in E.
  cbn [fold_left no_dependencies d_DB present negb andb] in E.
  assert (Hno : forall raw (h1 : Handles),
    (h1, assemble_app unicode_trim Getenv cfg profile (no_dependencies cfg) raw) <> (h', Ok a)).
  { intros raw h1. by destruct (assemble_needs_database cfg profile (no_dependencies cfg) raw) as [e1 ->]. }
  destruct (negb (str_empty _)); [|by apply Hno in E]. unfold attempt in E.
  destruct (NewStore _ _ _ h) as [h1 [s|e]] eqn:En; [|by destruct (one_of profile _); [|apply Hno in E]].
  apply NewStore_exact in En as (Hlive & _ & Hp & Hd & _); [|done]. injection E as <- E.
  assert (Hdrv : st_Driver s = "sqlite3").
  { assert (Hp' := Hp). unfold parseDSN in Hp'. repeat case_match; try discriminate Hp'; injection Hp' as Hdr _; try done.
    exfalso. apply Hpg. by rewrite Hdr. }
  pose proof (DriverNameFromDSN_agrees _ _ _ Hp) as Hdn. rewrite Hdrv in Hp, Hdn.
  exists (st_DB s), (st_dsn s). split; [done|]. split; [done|].
  unfold assemble_app, repository_stores in E. rewrite Hdn in E.
  cbn -[build_LLM build_channels Validate] in E.
  destruct (build_LLM _ _ _) as [d1|] eqn:El; [|done]. apply build_LLM_cases in El as (llm & -> & _); [|done].
  cbn -[build_channels Validate] in E. destruct (Validate profile _) as [[]|] eqn:Ev; [|done].
  cbn -[build_channels] in E. destruct (build_channels _ _ cfg) as [chs conds].
  destruct (_ && _ && _) eqn:Eext; [done|]. injection E as <-. cbn.
  split; [split_and!; try done; by eexists|]. split; [eexists; split_and!; done|]. split; [done|]. split.
  - destruct (String.eqb_spec (cg_SessionTrigger cfg) "external"); [|done]. split; [done|]. split; [done|].
    intros ->. cbn in Eext. intros Hc. by rewrite Hc in Eext.
  - intros ->. rewrite (proj1 (Validate_exact ProfileErsaProduction _)) in Ev by (by left). cbn in Ev.
    destruct (str_empty (cg_EmbedAPIKey cfg)); [done|]. by eexists.
Qed.
End NewAppProps.

(** ** Witnesses *)

Section Witnesses.
Definition demo_getenv (v : string) : string :=
  if String.eqb v "LLM_ENDPOINT" then "http://llm/" else if String.eqb v "EMBED_API_KEY" then "k"
  else if String.eqb v "SESSION_TRIGGER" then "external" else if String.eqb v "CLI_CHANNEL" then "true" else "".
Definition demo_getenv_without (key v : string) : string := if String.eqb v key then "" else demo_getenv v.
Definition load_demo (getenv : string -> string) : option Config :=
  match Load (fun _ => None) (fun _ => None) getenv with Ok c => Some c | Err _ => None end.
Definition no_handles : Handles := {| hd_next := 0; hd_live := [] |}.
#[local] Notation build getenv cfg :=
  (NewApp id getenv ["sqlite3"] (fun _ _ => None) cfg ProfileErsaProduction [] no_handles).

Lemma NewApp_wired_witness :
  exists cfg h' a channels gw conditions, load_demo demo_getenv = Some cfg /\ build demo_getenv cfg = (h', Ok a) /\
    da_channels (app_Daemon a) = Some (channels, gw, conditions) /\ channels = [CLIChannel] /\ is_Some gw.
Proof.
  destruct (load_demo demo_getenv) as [cfg|] eqn:Ec; [|by vm_compute in Ec]. exists cfg.
  destruct (build demo_getenv cfg) as [h' [a|e]] eqn:E.
  2: { exfalso. vm_compute in Ec. injection Ec as <-. by vm_compute in E. }
  destruct (NewApp_wired id demo_getenv ["sqlite3"] (fun _ _ => None) cfg _ no_handles h' a
    ltac:(by intros [|?%elem_of_nil]%elem_of_cons) ltac:(constructor) E)
    as (db & raw & _ & _ & _ & _ & _ & Hch & _).
  destruct (da_channels (app_Daemon a)) as [[[channels gw] conditions]|] eqn:Eda.
  - destruct Hch as (_ & -> & _). exists h', a, channels, (Some (AegisGateway (trust_config cfg) (OpenedDB db))), conditions.
    split; [done|]. split; [done|]. split; [exact Eda|]. split; [|by eexists].
    vm_compute in Ec. injection Ec as <-. vm_compute in E. injection E as <- <-.
    vm_compute in Eda. by injection Eda as <- _ _.
  - exfalso. apply Hch. vm_compute in Ec. by injection Ec as <-.
Defined.

(** A construction that fails after the database was opened leaves it open. *)
Example failed_NewApp_leaks :
  match load_demo (demo_getenv_without "EMBED_API_KEY") with
  | Some cfg =>
      let '(h', r) := build (demo_getenv_without "EMBED_API_KEY") cfg in
      hd_live h' = [0%nat] /\
      r = Err (EWrap "app" (ENew ("profile " +:+ fmt_q "ersa_production" +:+ " requires: EmbeddingProvider")))
  | None => False
  end.
Proof. vm_compute. by split. Qed.
End Witnesses.
