(* ===== verification/Builders.v ===== *)
(** * Constructors and options

    The [New...] functions and chained setters of the program ([engine/engine.go],
    [assembly/assembler.go], [metabolism/pipeline.go], [daemon/daemon.go],
    [app/session_runner.go], [engine/hooks.go]), and lemmas that the values the other
    files write as records are what the program's own chains of calls build. *)

From S2P Require Import Prelude Types Frames Db Awareness Identity Assembly Engine Session.
From S2P Require Import SessionRunner.
From S2P Require App Config Daemon.

(** ** The engine and its hooks *)

Section Engine.
Context {W Args : Type}.

Definition NewEngine (client : CompletionRequest -> M W CompletionResponse) (registry : @ToolRegistry W Args)
    (hooks : option (HookPipeline W)) : @EngineT W Args :=
  {| en_client := client; en_registry := registry; en_hooks := hooks; en_aegis := None; en_sessionID := "" |}.
Definition WithAegis (gw : @ContentGateway W) (e : @EngineT W Args) : @EngineT W Args :=
  {| en_client := en_client e; en_registry := en_registry e; en_hooks := en_hooks e; en_aegis := Some gw;
     en_sessionID := en_sessionID e |}.
Definition WithSessionID (id : string) (e : @EngineT W Args) : @EngineT W Args :=
  {| en_client := en_client e; en_registry := en_registry e; en_hooks := en_hooks e; en_aegis := en_aegis e;
     en_sessionID := id |}.

(** A hook has a name and a function; registering it keeps the function. *)
Record TurnHook := { th_Name : string; th_Run : TurnResult -> M W unit }.
Definition NewHookPipeline : HookPipeline W := [].
Definition NewFuncHook (name : string) (fn : TurnResult -> M W unit) : TurnHook :=
  {| th_Name := name; th_Run := fn |}.
Definition register (h : TurnHook) (p : HookPipeline W) : HookPipeline W := Register (th_Run h) p.
Definition register_critical (h : TurnHook) (p : HookPipeline W) : HookPipeline W := RegisterCritical (th_Run h) p.
End Engine.

Section SessionEngine.
Context `{Env} `{!Process World} {Args : Type}.

Definition NewT2LoggerHook (append : ExperientialLog -> M World unit) : @TurnHook LW :=
  {| th_Name := "tier2-logger";
     th_Run := fun turn => let! now := lift (draw time_Now) in
                           T2LoggerHook_Run (fun e => lift (append e)) now turn |}.
Definition NewBudgetMonitorHook : @TurnHook LW :=
  {| th_Name := "budget-monitor"; th_Run := BudgetMonitorHook_Run |}.

(** The pipeline of a session, as [RunSession] registers it. *)
Lemma session_hooks_built (deps : Dependencies Args) :
  session_hooks deps =
  (let hooks := NewHookPipeline in
   let hooks := match d_MemoryStore deps with
                | Some (_, append) => register_critical (NewT2LoggerHook append) hooks
                | None => hooks
                end in
   register (NewFuncHook "record-turn" record_turn_hook) (register NewBudgetMonitorHook hooks)).
Proof using Type. unfold session_hooks. by destruct (d_MemoryStore deps) as [[st ap]|]. Qed.

(** Its engine. *)
Lemma session_engine_built (deps : Dependencies Args) llm sid :
  session_engine deps llm sid =
  (let eng := NewEngine (fun req => lift (llm req)) (lift_registry (d_ToolRegistry deps)) (Some (session_hooks deps)) in
   let eng := WithSessionID sid eng in
   match d_Gateway deps with Some gw => WithAegis (lift_gateway gw) eng | None => eng end).
Proof using Type. unfold session_engine. by destruct (d_Gateway deps). Qed.
End SessionEngine.

(** ** The assembly configuration *)

Section Assembly.
Context {W : Type}.
Definition set_cfg (store : option (MemoryStore W)) (provider : option (EmbeddingProvider W))
    (bridge : BridgeConfig) (llmFn : option (string -> M W string)) (c : AssembleConfig W) : AssembleConfig W :=
  {| cfg_store := store; cfg_edges := cfg_edges c; cfg_anchors := cfg_anchors c; cfg_provider := provider;
     cfg_grounding := cfg_grounding c; cfg_bridge := bridge; cfg_llmFn := llmFn;
     cfg_contradictionProbability := cfg_contradictionProbability c; cfg_InbandNotes := cfg_InbandNotes c;
     cfg_AssemblyStore := cfg_AssemblyStore c; cfg_SkipWitnessCheck := cfg_SkipWitnessCheck c;
     cfg_Plan := cfg_Plan c; cfg_SessionID := cfg_SessionID c |}.
Definition SetStore (s : MemoryStore W) (c : AssembleConfig W) : AssembleConfig W :=
  set_cfg (Some s) (cfg_provider c) (cfg_bridge c) (cfg_llmFn c) c.
Definition SetProvider (p : EmbeddingProvider W) (c : AssembleConfig W) : AssembleConfig W :=
  set_cfg (cfg_store c) (Some p) (cfg_bridge c) (cfg_llmFn c) c.
Definition SetBridge (b : BridgeConfig) (c : AssembleConfig W) : AssembleConfig W :=
  set_cfg (cfg_store c) (cfg_provider c) b (cfg_llmFn c) c.
Definition SetLLMFn (f : string -> M W string) (c : AssembleConfig W) : AssembleConfig W :=
  set_cfg (cfg_store c) (cfg_provider c) (cfg_bridge c) (Some f) c.

(** The exported fields, assigned on a minimal configuration. *)
Definition exported_fields (deps : RunnerDeps W) (plan : LifecyclePlan) (sessionID : string)
    (notes : list string) : AssembleConfig W :=
  let m := @MinimalAssembleConfig W in
  {| cfg_store := cfg_store m; cfg_edges := cfg_edges m; cfg_anchors := cfg_anchors m;
     cfg_provider := cfg_provider m; cfg_grounding := cfg_grounding m; cfg_bridge := cfg_bridge m;
     cfg_llmFn := cfg_llmFn m; cfg_contradictionProbability := cfg_contradictionProbability m;
     cfg_InbandNotes := notes; cfg_AssemblyStore := dep_AssemblyStore deps;
     cfg_SkipWitnessCheck := dep_SkipWitnessCheck deps; cfg_Plan := Some plan; cfg_SessionID := sessionID |}.

(** The setters are the only way to the unexported fields, and [RunSession] calls these
    four: the anchors, the edges, the grounding and the contradiction probability keep
    their zero values ([Assembly.session_never_verifies_identity]). *)
Lemma session_config_built (deps : RunnerDeps W) plan sid notes note :
  session_assemble_config deps plan sid notes note =
  (let c := exported_fields deps plan sid (notes ++ (if str_empty note then [] else [note])) in
   let c := match dep_MemoryStore deps with
            | Some s => SetBridge DefaultBridgeConfig (SetStore s c) | None => c end in
   let c := match dep_LLM deps with Some f => SetLLMFn f c | None => c end in
   match dep_EmbeddingProvider deps with Some p => SetProvider p c | None => c end).
Proof using Type.
  destruct deps as [ms ep llm ast skip]. destruct ms, ep, llm; vm_compute; reflexivity.
Qed.
End Assembly.

(** ** The metabolism stack and the daemon *)

Import App Config.

(** [metabolism.Pipeline] with the query store the application leaves nil. *)
Record PipelineObject := { po_store : option StoreRef; po_ref : PipelineRef }.
Definition NewPipeline (store : option StoreRef) (aegis : option GatewayRef) (llmFn : option LLMRef)
    (embedder : option EmbedRef) (db : option DBRef) (driverName : string) : PipelineObject :=
  {| po_store := store;
     po_ref := {| pp_aegis := aegis; pp_llm := llmFn; pp_embedder := embedder; pp_db := db;
                  pp_driver := driverName; pp_consolidation := None; pp_memory := None |} |}.
Definition with_ref (f : PipelineRef -> PipelineRef) (p : PipelineObject) : PipelineObject :=
  {| po_store := po_store p; po_ref := f (po_ref p) |}.
Definition Pipeline_WithDB (db : option DBRef) (driverName : string) : PipelineObject -> PipelineObject :=
  with_ref (fun r => {| pp_aegis := pp_aegis r; pp_llm := pp_llm r; pp_embedder := pp_embedder r; pp_db := db;
    pp_driver := driverName; pp_consolidation := pp_consolidation r; pp_memory := pp_memory r |}).
Definition WithConsolidation (cs : option StoreRef) : PipelineObject -> PipelineObject :=
  with_ref (fun r => {| pp_aegis := pp_aegis r; pp_llm := pp_llm r; pp_embedder := pp_embedder r; pp_db := pp_db r;
    pp_driver := pp_driver r; pp_consolidation := cs; pp_memory := pp_memory r |}).
Definition WithCompression (memStore : option MemoryRef) (llmFn : option LLMRef) (embedder : option EmbedRef)
    : PipelineObject -> PipelineObject :=
  with_ref (fun r => {| pp_aegis := pp_aegis r; pp_llm := llmFn; pp_embedder := embedder; pp_db := pp_db r;
    pp_driver := pp_driver r; pp_consolidation := pp_consolidation r; pp_memory := memStore |}).
Definition NewJobRunner (store : StoreRef) (pipeline : PipelineRef) : JobRunnerRef :=
  {| jn_store := store; jn_pipeline := pipeline |}.
Definition NewSupervisorRef (runner : JobRunnerRef) (maxConcurrent : Z) : SupervisorRef :=
  {| sv_runner := runner; sv_maxConcurrent := maxConcurrent |}.

(** The stack as [NewApp] chains it. *)
Lemma metabolism_stack_built driverName (d : App.Dependencies) :
  metabolism_stack driverName d =
  match App.d_JobStore d, d_DB d with
  | Some js, Some db =>
      let p := NewPipeline None (App.d_Gateway d) (App.d_LLM d) (App.d_EmbeddingProvider d) (Some db) driverName in
      let p := match d_ConsolidationStore d with Some cs => WithConsolidation (Some cs) p | None => p end in
      let p := match App.d_MemoryStore d with
               | Some m => WithCompression (Some m) (App.d_LLM d) (App.d_EmbeddingProvider d) p | None => p end in
      let jobRunner := NewJobRunner js (po_ref p) in
      (Some jobRunner, Some (NewSupervisorRef jobRunner 2))
  | _, _ => (None, None)
  end.
Proof.
  unfold metabolism_stack, WithCompression, WithConsolidation, with_ref, NewPipeline.
  destruct (App.d_JobStore d), (d_DB d); [|done..].
  by destruct (d_ConsolidationStore d), (App.d_MemoryStore d).
Qed.

(** The options of one [ProcessSession] call, applied in order to an empty configuration. *)
Record processConfig := { pcf_claimToken : string; pcf_jobID : string }.
Definition WithClaimFence (jobID claimToken : string) (c : processConfig) : processConfig :=
  {| pcf_claimToken := claimToken; pcf_jobID := jobID |}.
Definition process_config (opts : list (processConfig -> processConfig)) : processConfig :=
  fold_left (fun c o => o c) opts {| pcf_claimToken := ""; pcf_jobID := "" |}.
(** The last fence given wins. *)
Lemma last_fence_wins opts j t : process_config (opts ++ [WithClaimFence j t]) = {| pcf_claimToken := t; pcf_jobID := j |}.
Proof. unfold process_config. by rewrite fold_left_app. Qed.

Definition New (agentName sessionTrigger : string) (runner : RunnerRef) : DaemonRef :=
  {| da_AgentName := agentName; da_SessionTrigger := sessionTrigger; da_runner := runner;
     da_lifecycle := None; da_supervisor := None; da_channels := None |}.
Definition WithLifecycleStore (s : StoreRef) (d : DaemonRef) : DaemonRef :=
  {| da_AgentName := da_AgentName d; da_SessionTrigger := da_SessionTrigger d; da_runner := da_runner d;
     da_lifecycle := Some s; da_supervisor := da_supervisor d; da_channels := da_channels d |}.
Definition WithSupervisor (s : SupervisorRef) (d : DaemonRef) : DaemonRef :=
  {| da_AgentName := da_AgentName d; da_SessionTrigger := da_SessionTrigger d; da_runner := da_runner d;
     da_lifecycle := da_lifecycle d; da_supervisor := Some s; da_channels := da_channels d |}.
Definition WithChannels (registry : list ChannelRef) (gateway : option GatewayRef)
    (waker : list Daemon.WakeCondition) (d : DaemonRef) : DaemonRef :=
  {| da_AgentName := da_AgentName d; da_SessionTrigger := da_SessionTrigger d; da_runner := da_runner d;
     da_lifecycle := da_lifecycle d; da_supervisor := da_supervisor d;
     da_channels := Some (registry, gateway, waker) |}.

(** The daemon of an application that started. *)
Lemma app_daemon_built trim Getenv cfg profile d raw a :
  assemble_app trim Getenv cfg profile d raw = Ok a ->
  let deps := app_Dependencies a in
  let '(chans, conds) := build_channels trim Getenv cfg in
  app_Daemon a =
  (let dm := New (cg_AgentName cfg) (cg_SessionTrigger cfg) (app_Runner a) in
   let dm := match App.d_LifecycleStore deps with Some s => WithLifecycleStore s dm | None => dm end in
   let dm := match app_Supervisor a with Some s => WithSupervisor s dm | None => dm end in
   if String.eqb (cg_SessionTrigger cfg) "external" then WithChannels chans (App.d_Gateway deps) conds dm else dm).
Proof.
  unfold assemble_app. destruct (repository_stores _ d) as [d1|e]; [|done]. simpl.
  destruct (build_LLM _ _) as [d2|e]; [|done]. simpl.
  destruct (memory_store _ _ _) as [d3 s3]. destruct (Validate _ _) as [u|e]; [|done]. simpl.
  destruct (metabolism_stack _ _) as [jr sv]. destruct (build_channels trim Getenv cfg) as [chans conds].
  destruct (_ && _)%bool; [done|]. intros [= <-]. cbn -[String.eqb].
  destruct (App.d_LifecycleStore _), sv, (String.eqb (cg_SessionTrigger cfg) "external"); reflexivity.
Qed.
