(* ===== verification/Embeddings.v ===== *)
(** * Embedding providers and the embedding worker: [internal/memory/embeddings.go]

    Two HTTP providers, and the background worker that fills in the missing vectors of
    narratives, reflections and entities, a batch per table and tick. JSON and the
    transport are parameters; a table is handled through the columns the worker uses. *)

From S2P Require Import Prelude Types Db Client.

(** ** Providers *)

Record VoyageProvider := { vp_apiKey : string; vp_model : string; vp_dimensions : Z; vp_endpoint : string }.
Definition NewVoyageProvider (apiKey model : string) : VoyageProvider :=
  {| vp_apiKey := apiKey; vp_model := model; vp_dimensions := 1024;
     vp_endpoint := "https://api.voyageai.com/v1/embeddings" |}.

Record NomicProvider := { np_endpoint : string; np_model : string; np_dimensions : Z }.
Definition NewNomicProvider (endpoint model : string) : NomicProvider :=
  {| np_endpoint := endpoint; np_model := model;
     np_dimensions := if String.eqb model "mxbai-embed-large" then 1024 else 768 |}.

(** The decoded bodies: [data] and [error.message]; [embedding] and [error]. *)
Record voyageResponse := { vr_Data : list (list float64); vr_Error : option string }.
Record nomicResponse := { nr_Embedding : list float64; nr_Error : string }.

Section Providers.
Context {W : Type}.
Variable http_Do : HttpRequest -> M W HttpResponse.
Variable check_url : string -> option error.
Variable voyage_body : list string -> string -> string.
Variable nomic_body : string -> string -> string.
Variable parse_voyage : string -> result voyageResponse.
Variable parse_nomic : string -> result nomicResponse.

(** The request, its transport error, its body and its status. *)
Definition fetch (who url : string) (headers : list (string * string)) (body : string) : M W string :=
  match check_url url with
  | Some e => fail (EWrap (who +:+ ": building request") e)
  | None =>
      let! resp := wrapM (who +:+ ": HTTP request")
        (http_Do {| hq_url := url; hq_headers := ("Content-Type", "application/json") :: headers;
                    hq_body := body |}) in
      match hp_read_err resp with
      | Some e => fail (EWrap (who +:+ ": reading response") e)
      | None =>
          if hp_status resp =? 200 then ret (hp_body resp)
          else fail (ENew (who +:+ ": HTTP " +:+ fmt_d (hp_status resp) +:+ ": " +:+ hp_body resp))
      end
  end.

Definition Voyage_Embed (v : VoyageProvider) (text : string) : M W (list float64) :=
  let! raw := fetch "voyage" (vp_endpoint v) [("Authorization", "Bearer " +:+ vp_apiKey v)]
                (voyage_body [text] (vp_model v)) in
  match parse_voyage raw with
  | Err e => fail (EWrap "voyage: decoding response" e)
  | Ok vr =>
      match vr_Error vr with
      | Some msg => fail (ENew ("voyage: API error: " +:+ msg))
      | None => match vr_Data vr with
                | [] => fail (ENew "voyage: empty data in response")
                | vec :: _ => ret vec
                end
      end
  end.

Definition Nomic_Embed (n : NomicProvider) (text : string) : M W (list float64) :=
  let! raw := fetch "nomic" (np_endpoint n +:+ "/api/embeddings") [] (nomic_body (np_model n) text) in
  match parse_nomic raw with
  | Err e => fail (EWrap "nomic: decoding response" e)
  | Ok nr => if str_empty (nr_Error nr) then ret (nr_Embedding nr)
             else fail (ENew ("nomic: API error: " +:+ nr_Error nr))
  end.
End Providers.

(** ** The worker *)

(** What the worker reads and writes of a table. *)
Record EmbTable := {
  et_row : Type;
  et_rows : Database -> list et_row;
  et_set : (list et_row -> list et_row) -> Database -> Database;
  et_id : et_row -> string; et_content : et_row -> string; et_created : et_row -> Z;
  et_embedding : et_row -> option (list float64);
  et_store : list float64 -> et_row -> et_row }.

Definition embed_narrative (v : list float64) (r : NarrativeRow) : NarrativeRow :=
  {| nr_id := nr_id r; nr_session_id := nr_session_id r; nr_content := nr_content r;
     nr_embedding := Some v; nr_belief_meta := nr_belief_meta r;
     nr_content_sources := nr_content_sources r; nr_aegis_meta := nr_aegis_meta r;
     nr_created_at := nr_created_at r |}.
Definition embed_reflection (v : list float64) (r : ReflectionRow) : ReflectionRow :=
  {| re_id := re_id r; re_type := re_type r; re_content := re_content r;
     re_base_confidence := re_base_confidence r; re_belief_meta := re_belief_meta r;
     re_embedding := Some v; re_visibility := re_visibility r; re_created_at := re_created_at r |}.
Definition embed_entity (v : list float64) (r : EntityRow) : EntityRow :=
  {| ke_id := ke_id r; ke_name := ke_name r; ke_type := ke_type r; ke_content := ke_content r;
     ke_belief_meta := ke_belief_meta r; ke_embedding := Some v; ke_created := ke_created r;
     ke_expired := ke_expired r |}.

Definition narrative_summaries : EmbTable :=
  {| et_row := NarrativeRow; et_rows := db_narratives; et_set := set_narratives; et_id := nr_id;
     et_content := nr_content; et_created := nr_created_at; et_embedding := nr_embedding;
     et_store := embed_narrative |}.
Definition reflections : EmbTable :=
  {| et_row := ReflectionRow; et_rows := db_reflections; et_set := fun f => set_memory id f id;
     et_id := re_id; et_content := re_content; et_created := re_created_at;
     et_embedding := re_embedding; et_store := embed_reflection |}.
Definition kg_entities : EmbTable :=
  {| et_row := EntityRow; et_rows := db_entities; et_set := fun f => set_memory id id f;
     et_id := ke_id; et_content := ke_content; et_created := ke_created;
     et_embedding := ke_embedding; et_store := embed_entity |}.

Definition pending (T : EmbTable) (r : et_row T) : bool :=
  match et_embedding T r with None => true | Some _ => false end.
(** [WHERE embedding IS NULL ORDER BY created_at ASC LIMIT batch] *)
Definition batch_of (T : EmbTable) (batch : Z) (d : Database) : list (et_row T) :=
  take (Z.to_nat batch) (order_by (et_created T) (whereb (pending T) (et_rows T d))).

(** [json.Marshal] refuses NaN and the infinities. *)
Definition is_finite (x : float64) : bool :=
  match x with S754_nan | S754_infinity _ => false | _ => true end.

Section Worker.
Context `{Env}.
Variable Embed : string -> M World (list float64).

Definition update_embedding (T : EmbTable) (i : string) (v : list float64) : M World unit :=
  exec (fun d _ => Ok (et_set T (updateb (fun r => String.eqb (et_id T r) i) (et_store T v)) d, tt)).

(** The loop of [embedRows]: what fails is logged and passed over. *)
Fixpoint embedRows (T : EmbTable) (items : list (string * string)) : M World unit :=
  match items with
  | [] => ret tt
  | (i, content) :: rest =>
      try! vec := Embed content in
      match vec with
      | Ok v =>
          if forallb is_finite v
          then try! _ := update_embedding T i v in embedRows T rest
          else embedRows T rest
      | Err _ => embedRows T rest
      end
  end.

Definition processPending (T : EmbTable) (batch : Z) : M World unit :=
  let! items := query (fun d _ => Ok (map (fun r => (et_id T r, et_content T r)) (batch_of T batch d))) in
  embedRows T items.
Definition processPendingT3 : Z -> M World unit := processPending narrative_summaries.
Definition processPendingT4 : Z -> M World unit := processPending reflections.
Definition processPendingT5 : Z -> M World unit := processPending kg_entities.

Record EmbedWorkerConfig := { ew_BatchSize : Z; ew_PollInterval : Z }.
Definition DefaultEmbedWorkerConfig : EmbedWorkerConfig :=
  {| ew_BatchSize := 20; ew_PollInterval := 30 * second |}.
Definition with_defaults (cfg : EmbedWorkerConfig) : EmbedWorkerConfig :=
  {| ew_BatchSize := if ew_BatchSize cfg <=? 0 then 20 else ew_BatchSize cfg;
     ew_PollInterval := if ew_PollInterval cfg <=? 0 then 30 * second else ew_PollInterval cfg |}.

(** One tick: three batches, whose errors are only logged. *)
Definition embed_tick (batch : Z) (w : World) : World :=
  let '(w, _) := processPendingT3 batch w in
  let '(w, _) := processPendingT4 batch w in
  (processPendingT5 batch w).1.
(** The worker, for the ticks before its context is cancelled. *)
Definition EmbedWorker (cfg : EmbedWorkerConfig) (ticks : nat) (w : World) : World :=
  Nat.iter ticks (embed_tick (ew_BatchSize (with_defaults cfg))) w.
End Worker.

(** ** Properties *)

Class EmbTableOk (T : EmbTable) := {
  eo_rows : forall f d, et_rows T (et_set T f d) = f (et_rows T d);
  eo_set : forall f g d, et_set T f (et_set T g d) = et_set T (fun l => f (g l)) d;
  eo_const : forall f d, et_set T f d = et_set T (fun _ => f (et_rows T d)) d;
  eo_same : forall d, et_set T (fun _ => et_rows T d) d = d;
  eo_id : forall v r, et_id T (et_store T v r) = et_id T r;
  eo_embedding : forall v r, et_embedding T (et_store T v r) = Some v }.
#[global] Instance narratives_ok : EmbTableOk narrative_summaries.
Proof. split; try done. by intros []. Qed.
#[global] Instance reflections_ok : EmbTableOk reflections.
Proof. split; try done. by intros []. Qed.
#[global] Instance entities_ok : EmbTableOk kg_entities.
Proof. split; try done. by intros []. Qed.

(** A row before and after: the same, or pending and given a finite vector. *)
Definition filled (T : EmbTable) (r r' : et_row T) : Prop :=
  r' = r \/ (pending T r = true /\ exists v, forallb is_finite v = true /\ r' = et_store T v r).

(** A table before and after. *)
Definition backfilled (T : EmbTable) (rows rows' : list (et_row T)) : Prop := Forall2 (filled T) rows rows'.

Section Tables.
Context (T : EmbTable) {OK : EmbTableOk T}.

Lemma filled_id r r' : filled T r r' -> et_id T r' = et_id T r.
Proof. intros [->|(_ & v & _ & ->)]; [done|apply eo_id]. Qed.
Lemma pending_store v r : pending T (et_store T v r) = false.
Proof. unfold pending. by rewrite eo_embedding. Qed.

#[global] Instance filled_reflexive : Reflexive (filled T). Proof. by left. Qed.
#[global] Instance filled_transitive : Transitive (filled T).
Proof.
  intros r r' r'' [->|(Hp & v & Hv & ->)] H2; [done|].
  destruct H2 as [->|(Hp2 & _)]; [by right; eauto|]. by rewrite pending_store in Hp2.
Qed.

Lemma backfilled_ids rows rows' :
  backfilled T rows rows' -> map (et_id T) rows' = map (et_id T) rows.
Proof. induction 1 as [|r r' ?? Hr ? IH]; cbn; [done|]. by rewrite (filled_id _ _ Hr), IH. Qed.

(** Storing a vector under an ID whose rows are all pending fills them. *)
Lemma updateb_filled i v rows :
  forallb is_finite v = true ->
  (forall r, r ∈ rows -> et_id T r = i -> pending T r = true) ->
  backfilled T rows (updateb (fun r => String.eqb (et_id T r) i) (et_store T v) rows).
Proof.
  intros Hv Hp. unfold backfilled, updateb.
  assert (forall r, r ∈ rows -> filled T r (if String.eqb (et_id T r) i then et_store T v r else r)) as H.
  { intros r Hr. destruct (String.eqb_spec (et_id T r) i) as [E|]; [|by left]. right; eauto. }
  clear Hp. induction rows as [|r rows IH]; constructor.
  - apply H. left.
  - apply IH. intros; apply H. by right.
Qed.

(** The rows of a batch are the pending rows of some IDs, each named once. *)
Lemma batch_ids batch d :
  NoDup (map (et_id T) (et_rows T d)) ->
  NoDup (map (et_id T) (batch_of T batch d)) /\
  forall r, r ∈ et_rows T d -> et_id T r ∈ map (et_id T) (batch_of T batch d) -> pending T r = true.
Proof.
  intros Hnd. unfold batch_of. set (l := order_by _ _).
  assert (l ≡ₚ whereb (pending T) (et_rows T d)) as HP by apply order_by_Permutation.
  assert (NoDup (map (et_id T) l)) as Hl.
  { rewrite HP. by apply NoDup_map_whereb. }
  split.
  - rewrite <- (take_drop (Z.to_nat batch) l), map_app in Hl.
    by apply NoDup_app in Hl as (Hl & _).
  - intros r Hr (r2 & E & Hr2)%list_elem_of_fmap.
    assert (r2 ∈ whereb (pending T) (et_rows T d)) as Hw.
    { rewrite <- HP. eapply subseteq_take, Hr2. }
    apply elem_of_whereb in Hw as (Hin & Hp).
    by rewrite (NoDup_key_inj _ _ _ _ Hnd Hr Hin E).
Qed.
End Tables.

(** ** What a pass may do, whatever fails *)

Section Safety.
Context `{Env} (Embed : string -> M World (list float64)).
Hypothesis Embed_db : forall text w, w_db (Embed text w).1 = w_db w.

(** Only the table changed, and only by filling pending rows. *)
Definition filled_db (T : EmbTable) (d d' : Database) : Prop :=
  exists rows', d' = et_set T (fun _ => rows') d /\ backfilled T (et_rows T d) rows'.

Section OneTable.
Context (T : EmbTable) {OK : EmbTableOk T}.

Lemma filled_db_refl d : filled_db T d d.
Proof. exists (et_rows T d). rewrite eo_same. split; [done|]. unfold backfilled. reflexivity. Qed.
Lemma filled_db_trans d d' d'' : filled_db T d d' -> filled_db T d' d'' -> filled_db T d d''.
Proof.
  intros (l & -> & Hl) (l' & -> & Hl'). exists l'. rewrite eo_rows in Hl'. rewrite eo_set.
  split; [done|]. unfold backfilled in *. by etrans.
Qed.
Lemma filled_db_ids d d' :
  filled_db T d d' -> map (et_id T) (et_rows T d') = map (et_id T) (et_rows T d).
Proof. intros (l & -> & Hl). rewrite eo_rows. by apply backfilled_ids. Qed.

Lemma update_embedding_cases i v w :
  w_db (update_embedding T i v w).1 = w_db w \/
  w_db (update_embedding T i v w).1 =
    et_set T (updateb (fun r => String.eqb (et_id T r) i) (et_store T v)) (w_db w).
Proof. unfold update_embedding, exec. destruct (db_fault _); cbn; auto. Qed.

Lemma embedRows_filled items : forall w,
  NoDup (map (et_id T) (et_rows T (w_db w))) -> NoDup (map fst items) ->
  (forall r, r ∈ et_rows T (w_db w) -> et_id T r ∈ map fst items -> pending T r = true) ->
  filled_db T (w_db w) (w_db (embedRows Embed T items w).1).
Proof.
  induction items as [|[i content] items IH]; intros w Hnd Hi Hp; [apply filled_db_refl|].
  cbn in Hi. apply NoDup_cons in Hi as (Hfresh & Hi).
  assert (forall w', w_db w' = w_db w ->
            filled_db T (w_db w) (w_db (embedRows Embed T items w').1)) as Hskip.
  { intros w' E. rewrite <- E. apply IH; rewrite ?E; auto.
    intros r Hr Hin. apply Hp; [done|]. cbn. by right. }
  specialize (Embed_db content w). cbn. unfold attempt, bind. cbn.
  destruct (Embed content w) as [w1 [v|e]] eqn:E1; cbn in *; [|by apply Hskip].
  destruct (forallb is_finite v) eqn:Hv; [|by apply Hskip].
  pose proof (update_embedding_cases i v w1) as Hu.
  destruct (update_embedding T i v w1) as [w2 r2] eqn:E2. cbn in Hu. rewrite Embed_db in Hu.
  destruct Hu as [Hu|Hu]; [by apply Hskip|].
  assert (filled_db T (w_db w) (w_db w2)) as H2.
  { exists (et_rows T (w_db w2)). rewrite Hu, eo_rows. split; [apply eo_const|].
    apply updateb_filled; [done|]. intros r Hr <-. apply Hp; [done|]. cbn. left. }
  eapply filled_db_trans; [apply H2|]. apply IH; [by rewrite (filled_db_ids _ _ H2)|done|].
  intros r Hr Hin. rewrite Hu, eo_rows in Hr. apply elem_of_updateb in Hr as (r0 & Hr0 & ->).
  destruct (String.eqb_spec (et_id T r0) i) as [E|]; [|apply Hp; [done|]; cbn; by right].
  exfalso. apply Hfresh. rewrite eo_id, E in Hin. done.
Qed.

Lemma processPending_filled batch w :
  NoDup (map (et_id T) (et_rows T (w_db w))) ->
  filled_db T (w_db w) (w_db (processPending Embed T batch w).1).
Proof.
  intros Hnd. unfold processPending, bind, query, exec.
  destruct (db_fault _); cbn; [apply filled_db_refl|].
  destruct (batch_ids T batch (w_db w) Hnd) as (Hb & Hp).
  apply (embedRows_filled (map (fun r => (et_id T r, et_content T r)) (batch_of T batch (w_db w)))
           (with_db (w_db w) (bump_stmt w))); cbn; [done|..]; rewrite map_map; done.
Qed.
End OneTable.

(** IDs are primary keys. *)
Definition embed_ids (d : Database) : Prop :=
  NoDup (map nr_id (db_narratives d)) /\ NoDup (map re_id (db_reflections d)) /\
  NoDup (map ke_id (db_entities d)).

(** The three tables filled, and nothing else of the database changed. *)
Definition worker_step (d d' : Database) : Prop :=
  backfilled narrative_summaries (db_narratives d) (db_narratives d') /\
  backfilled reflections (db_reflections d) (db_reflections d') /\
  backfilled kg_entities (db_entities d) (db_entities d') /\
  d' = set_narratives (fun _ => db_narratives d')
         (set_memory id (fun _ => db_reflections d') (fun _ => db_entities d') d).

Lemma worker_step_refl d : worker_step d d.
Proof. unfold worker_step, backfilled. split_and!; try reflexivity. by destruct d. Qed.
Lemma worker_step_trans d d' d'' : worker_step d d' -> worker_step d' d'' -> worker_step d d''.
Proof.
  intros (N & R & K & E) (N' & R' & K' & E'). unfold worker_step, backfilled in *.
  split_and!; [by etrans|by etrans|by etrans|]. rewrite E', E. done.
Qed.
Lemma worker_step_ids d d' : worker_step d d' -> embed_ids d -> embed_ids d'.
Proof.
  intros (N & R & K & _) (Hn & Hr & Hk). unfold embed_ids.
  rewrite (backfilled_ids narrative_summaries _ _ N : map nr_id _ = _).
  rewrite (backfilled_ids reflections _ _ R : map re_id _ = _).
  by rewrite (backfilled_ids kg_entities _ _ K : map ke_id _ = _).
Qed.

Lemma filled_narratives d d' : filled_db narrative_summaries d d' -> worker_step d d'.
Proof.
  intros (l & -> & Hl). unfold worker_step, backfilled in *. split_and!; try reflexivity; done.
Qed.
Lemma filled_reflections d d' : filled_db reflections d d' -> worker_step d d'.
Proof.
  intros (l & -> & Hl). unfold worker_step, backfilled in *. split_and!; try reflexivity; done.
Qed.
Lemma filled_entities d d' : filled_db kg_entities d d' -> worker_step d d'.
Proof.
  intros (l & -> & Hl). unfold worker_step, backfilled in *. split_and!; try reflexivity; done.
Qed.

Lemma embed_tick_step batch w :
  embed_ids (w_db w) -> worker_step (w_db w) (w_db (embed_tick Embed batch w)).
Proof.
  intros Hi. unfold embed_tick.
  pose proof (filled_narratives _ _ (processPending_filled narrative_summaries batch w (proj1 Hi))) as H1.
  fold (processPendingT3 Embed) in H1. destruct (processPendingT3 Embed batch w) as [w1 r1]. cbn in H1.
  pose proof (worker_step_ids _ _ H1 Hi) as Hi1.
  pose proof (filled_reflections _ _
                (processPending_filled reflections batch w1 (proj1 (proj2 Hi1)))) as H2.
  fold (processPendingT4 Embed) in H2. destruct (processPendingT4 Embed batch w1) as [w2 r2]. cbn in H2.
  pose proof (worker_step_ids _ _ H2 Hi1) as Hi2.
  pose proof (filled_entities _ _
                (processPending_filled kg_entities batch w2 (proj2 (proj2 Hi2)))) as H3.
  eapply worker_step_trans; [apply H1|]. eapply worker_step_trans; [apply H2|apply H3].
Qed.

(** Whatever the provider answers and the driver refuses, however long the worker
    runs: no stored vector is overwritten, no other column and no other table is
    touched, and what is stored is finite. *)
Lemma EmbedWorker_step cfg ticks w :
  embed_ids (w_db w) -> worker_step (w_db w) (w_db (EmbedWorker Embed cfg ticks w)).
Proof.
  intros Hi. unfold EmbedWorker. induction ticks as [|n IH]; cbn; [apply worker_step_refl|].
  eapply worker_step_trans; [apply IH|]. apply embed_tick_step, (worker_step_ids _ _ IH Hi).
Qed.
End Safety.

(** ** Progress *)

Section Progress.
Context `{Env} (Embed : string -> M World (list float64)).

(** The provider always answers with a finite vector and leaves the database alone. *)
Definition answers : Prop :=
  forall text w, exists v w', Embed text w = (w', Ok v) /\ forallb is_finite v = true /\ w_db w' = w_db w.
Hypothesis Embed_answers : answers.
Hypothesis no_faults : forall n, db_fault n = None.

Lemma answers_db text w : w_db (Embed text w).1 = w_db w.
Proof. destruct (Embed_answers text w) as (v & w' & -> & _ & E). done. Qed.

Section OneTable.
Context (T : EmbTable) {OK : EmbTableOk T}.

(** What is left to do after a table was filled under some IDs. *)
Definition left_pending (ids : list string) (rows : list (et_row T)) : list (et_row T) :=
  whereb (fun r => bool_decide (et_id T r ∉ ids)) (whereb (pending T) rows).

Lemma pending_updateb i v rows :
  whereb (pending T) (updateb (fun r => String.eqb (et_id T r) i) (et_store T v) rows)
  = left_pending [i] rows.
Proof.
  unfold left_pending, whereb, updateb. induction rows as [|r rows IH]; cbn; [done|].
  destruct (String.eqb_spec (et_id T r) i) as [E|E].
  - rewrite (pending_store T), IH. destruct (pending T r); cbn; [|done].
    rewrite bool_decide_false; [done|]. rewrite E. set_solver.
  - destruct (pending T r); cbn; rewrite IH; [|done].
    rewrite bool_decide_true; [done|]. set_solver.
Qed.

Lemma embedRows_pending items : forall w,
  whereb (pending T) (et_rows T (w_db (embedRows Embed T items w).1))
  = left_pending (map fst items) (et_rows T (w_db w)).
Proof.
  induction items as [|[i content] items IH]; intros w.
  - cbn. unfold left_pending. symmetry. apply whereb_all. intros. apply bool_decide_true. set_solver.
  - cbn. unfold attempt. destruct (Embed_answers content w) as (v & w1 & -> & -> & E).
    unfold update_embedding, exec. rewrite no_faults. cbn. rewrite IH. cbn. rewrite E, eo_rows.
    unfold left_pending at 1. rewrite pending_updateb. unfold left_pending, whereb.
    induction (List.filter (pending T) (et_rows T (w_db w))) as [|r l IHl]; cbn; [done|].
    repeat case_bool_decide; cbn; rewrite ?IHl; repeat case_bool_decide; cbn; try done; set_solver.
Qed.

Lemma left_pending_take (n : nat) rows :
  NoDup (map (et_id T) rows) ->
  length (left_pending (map (et_id T) (take n (order_by (et_created T) (whereb (pending T) rows)))) rows)
  = (countb (pending T) rows - n)%nat.
Proof.
  intros Hnd%(NoDup_map_whereb _ (pending T)). unfold left_pending, countb.
  set (l := whereb (pending T) rows) in *.
  assert (order_by (et_created T) l ≡ₚ l) as HP by apply order_by_Permutation.
  rewrite <- HP in Hnd. rewrite <- (Permutation_length (whereb_perm _ _ _ HP)).
  rewrite <- (Permutation_length HP). set (o := order_by _ l) in *. clearbody o. clear HP.
  rewrite <- (take_drop n o) in Hnd. rewrite map_app in Hnd. apply NoDup_app in Hnd as (_ & Hd & _).
  set (p := fun r => bool_decide (et_id T r ∉ map (et_id T) (take n o))).
  assert (whereb p (take n o ++ drop n o) = drop n o) as E.
  2: { rewrite take_drop in E. by rewrite E, length_drop. }
  rewrite whereb_app, whereb_nil, whereb_all; [done|..].
  - intros r Hr. apply bool_decide_true. intros Hin. apply (Hd _ Hin). by apply list_elem_of_fmap_2.
  - intros r Hr. apply bool_decide_false. intros Hn. apply Hn. by apply list_elem_of_fmap_2.
Qed.

(** A pass embeds a batch, or all there is. *)
Lemma processPending_count batch w :
  NoDup (map (et_id T) (et_rows T (w_db w))) ->
  countb (pending T) (et_rows T (w_db (processPending Embed T batch w).1))
  = (countb (pending T) (et_rows T (w_db w)) - Z.to_nat batch)%nat.
Proof.
  intros Hnd. unfold processPending, bind, query, exec. rewrite no_faults. unfold countb at 1.
  rewrite (embedRows_pending (map (fun r => (et_id T r, et_content T r)) (batch_of T batch (w_db w)))
             (with_db (w_db w) (bump_stmt w))). cbn. rewrite map_map.
  by apply left_pending_take.
Qed.
End OneTable.

Lemma embed_tick_counts batch w :
  embed_ids (w_db w) ->
  let d := w_db w in let d' := w_db (embed_tick Embed batch w) in
  let n := Z.to_nat batch in
  countb (pending narrative_summaries) (db_narratives d')
    = (countb (pending narrative_summaries) (db_narratives d) - n)%nat /\
  countb (pending reflections) (db_reflections d')
    = (countb (pending reflections) (db_reflections d) - n)%nat /\
  countb (pending kg_entities) (db_entities d')
    = (countb (pending kg_entities) (db_entities d) - n)%nat.
Proof.
  intros Hi. unfold embed_tick.
  pose proof (processPending_filled Embed answers_db narrative_summaries batch w (proj1 Hi)) as F1.
  pose proof (processPending_count narrative_summaries batch w (proj1 Hi)) as C1.
  unfold processPendingT3. destruct (processPending _ narrative_summaries batch w) as [w1 r1].
  cbn in F1, C1. pose proof (worker_step_ids _ _ (filled_narratives _ _ F1) Hi) as Hi1.
  destruct F1 as (l1 & E1 & _).
  pose proof (processPending_filled Embed answers_db reflections batch w1 (proj1 (proj2 Hi1))) as F2.
  pose proof (processPending_count reflections batch w1 (proj1 (proj2 Hi1))) as C2.
  unfold processPendingT4. destruct (processPending _ reflections batch w1) as [w2 r2].
  cbn in F2, C2. pose proof (worker_step_ids _ _ (filled_reflections _ _ F2) Hi1) as Hi2.
  destruct F2 as (l2 & E2 & _).
  pose proof (processPending_filled Embed answers_db kg_entities batch w2 (proj2 (proj2 Hi2))) as F3.
  pose proof (processPending_count kg_entities batch w2 (proj2 (proj2 Hi2))) as C3.
  unfold processPendingT5. destruct (processPending _ kg_entities batch w2) as [w3 r3].
  cbn in F3, C3 |- *. destruct F3 as (l3 & E3 & _).
  rewrite E1 in C1, E2, C2. rewrite E2 in C2, E3, C3. rewrite E3 in C3 |- *. cbn in *. auto.
Qed.
End Progress.

(** C36: What the embedding worker does to the database, for any number of ticks. Whatever
    the provider answers and whichever statements fail, it only fills: in the three
    tables a row stays as it was or, when it had no vector, gets a finite one; no
    other column, row or table changes. When the provider answers every text and no
    statement fails, it makes progress: each tick takes a batch off the pending rows
    of every table, so that enough ticks leave none. *)
Theorem EmbedWorker_exact `{Env} (Embed : string -> M World (list float64)) cfg ticks w
  (Embed_db : forall text v, w_db (Embed text v).1 = w_db v) (Hids : embed_ids (w_db w)) :
  let d := w_db w in let d' := w_db (EmbedWorker Embed cfg ticks w) in
  let done_by := (ticks * Z.to_nat (ew_BatchSize (with_defaults cfg)))%nat in
  worker_step d d' /\
  (answers Embed -> (forall n, db_fault n = None) ->
   countb (pending narrative_summaries) (db_narratives d')
     = (countb (pending narrative_summaries) (db_narratives d) - done_by)%nat /\
   countb (pending reflections) (db_reflections d')
     = (countb (pending reflections) (db_reflections d) - done_by)%nat /\
   countb (pending kg_entities) (db_entities d')
     = (countb (pending kg_entities) (db_entities d) - done_by)%nat).
Proof.
  split; [by apply EmbedWorker_step|]. intros Ha Hf. unfold EmbedWorker.
  set (batch := ew_BatchSize (with_defaults cfg)) in *.
  induction ticks as [|n IH]; cbn [Nat.iter]; [cbn; rewrite !Nat.sub_0_r; auto|].
  pose proof (EmbedWorker_step Embed Embed_db cfg n w Hids) as Hs.
  pose proof (embed_tick_counts Embed Ha Hf batch _ (worker_step_ids _ _ Hs Hids)) as (N & R & K).
  fold batch in N, R, K. unfold EmbedWorker in N, R, K. fold batch in N, R, K.
  destruct IH as (IN & IR & IK). unfold Nat.iter in *. cbn [nat_rect] in *.
  rewrite N, R, K, IN, IR, IK. repeat split; lia.
Qed.

(** ** Runs *)

Definition pending_narrative (i : string) (at_ : Z) : NarrativeRow :=
  {| nr_id := i; nr_session_id := "s"; nr_content := i; nr_embedding := None; nr_belief_meta := None;
     nr_content_sources := []; nr_aegis_meta := None; nr_created_at := at_ |}.
Definition two_pending : World :=
  {| w_db := set_narratives (fun _ => [pending_narrative "new" 2; pending_narrative "old" 1]) empty_db;
     w_clock := 0; w_rng := 0; w_stmt := 0 |}.
#[local] Instance worker_env : Env :=
  {| rand_bytes := fun _ => []; db_fault := fun _ => None; db_time_scan := None; db_foreign_keys := false |}.
#[local] Notation constant := (fun (_ : string) (w : World) => (w, Ok [S754_zero false])).
(** A provider that refuses one text. *)
Definition refuses_old (text : string) (w : World) : World * result (list float64) :=
  (w, if String.eqb text "old" then Err (ENew "HTTP 400") else Ok [S754_zero false]).
Definition one_at_a_time : EmbedWorkerConfig := {| ew_BatchSize := 1; ew_PollInterval := 0 |}.

Lemma EmbedWorker_exact_witness :
  let d' := w_db (EmbedWorker constant one_at_a_time 2 two_pending) in
  worker_step (w_db two_pending) d' /\ countb (pending narrative_summaries) (db_narratives d') = 0%nat.
Proof.
  assert (embed_ids (w_db two_pending)) as Hi.
  { unfold embed_ids. cbn. split_and!; apply (bool_decide_unpack _); vm_compute; exact I. }
  destruct (EmbedWorker_exact constant one_at_a_time 2 two_pending (fun _ _ => eq_refl) Hi) as (Hs & Hp).
  split; [exact Hs|].
  assert (answers constant) as Ha by (intros text w; exists [S754_zero false], w; done).
  destruct (Hp Ha (fun _ => eq_refl)) as (E & _). exact E.
Defined.

Lemma refused_tick w :
  w_db w = w_db two_pending -> w_db (embed_tick refuses_old 1 w) = w_db two_pending.
Proof. destruct w as [d c r s]. cbn. intros ->. reflexivity. Qed.

(** A batch the provider keeps refusing stands in front of all the others: the text of
    the younger row can be embedded, and never is. *)
Lemma refused_batch_starves_others n :
  w_db (EmbedWorker refuses_old one_at_a_time n two_pending) = w_db two_pending.
Proof.
  unfold EmbedWorker. induction n as [|n IH]; cbn [Nat.iter]; [done|]. unfold Nat.iter in *.
  cbn [nat_rect]. by apply refused_tick.
Qed.
