(* ===== verification/Sql.v ===== *)
(** * Statements as text: the DB interface of [platform/dbwrap.go] and the codecs of
    [platform/storage/storage.go]

    The storage stores build SQL text and a list of arguments and hand both to a
    [platform.DB]. Here the text is kept as written. A dialect reads a text into a
    template of characters and numbered holes, [?] in order of appearance or [$n] by
    number, and a DB sends the template with its holes filled to the engine behind the
    driver, which is a parameter: what it answers, how a column converts to the Go type
    it is scanned into, and the error of a row that is not there. *)

From S2P Require Import Prelude Types MemoryStore.

(** ** Values and templates *)

(** An argument or a column ([any]); a time is in nanoseconds. *)
Inductive Value :=
  | VNull
  | VText (s : string)
  | VInt (z : Z)
  | VFloat (f : float64)
  | VBool (b : bool)
  | VTime (ns : Z).

(** A nil [*string] is NULL. *)
Definition opt_text (s : option string) : Value :=
  match s with Some s => VText s | None => VNull end.

Inductive Tok := Txt (c : Ascii.ascii) | Hole (n : nat).
Definition Template : Type := list Tok.

Definition is_char (k : string) (c : Ascii.ascii) : bool := String.eqb (String c "") k.

(** SQLite: the [?]s outside quotes, numbered from [next]. *)
Fixpoint template_q (quoted : bool) (next : nat) (text : string) : Template :=
  match text with
  | "" => []
  | String c rest =>
      if is_char "'" c then Txt c :: template_q (negb quoted) next rest
      else if negb quoted && is_char "?" c then Hole next :: template_q quoted (S next) rest
      else Txt c :: template_q quoted next rest
  end.

(** PostgreSQL: [$n] outside quotes. [num]: the number read so far after a [$]. *)
Definition close_num (num : option Z) : Template :=
  match num with Some n => [Hole (Z.to_nat n)] | None => [] end.
Fixpoint template_d (quoted : bool) (num : option Z) (text : string) : Template :=
  match text with
  | "" => close_num num
  | String c rest =>
      match num, digit c with
      | Some n, Some k => template_d quoted (Some (10 * n + k)) rest
      | _, _ =>
          close_num num ++
          (if is_char "'" c then Txt c :: template_d (negb quoted) None rest
           else if negb quoted && is_char "$" c then template_d quoted (Some 0) rest
           else Txt c :: template_d quoted None rest)
      end
  end.

Inductive Dialect := SQLite | PostgreSQL.
Definition template (D : Dialect) (text : string) : Template :=
  match D with SQLite => template_q false 1 text | PostgreSQL => template_d false None text end.

(** A statement: its characters with values in place of the holes. Both drivers refuse
    a number of arguments that is not the number of parameters. *)
Definition Stmt : Type := list (Ascii.ascii + Value).
Definition hole_count (t : Template) : nat :=
  foldr (fun x n => match x with Hole k => Nat.max k n | Txt _ => n end) 0%nat t.
Definition fill_tok (args : list Value) (x : Tok) : option (Ascii.ascii + Value) :=
  match x with
  | Txt c => Some (inl c)
  | Hole (S k) => inr <$> args !! k
  | Hole 0 => None
  end.
Definition fill (args : list Value) (t : Template) : option Stmt :=
  if (hole_count t =? length args)%nat then mapM (fill_tok args) t else None.
Definition arity_error (t : Template) (args : list Value) : error :=
  ENew ("expected " +:+ fmt_d (Z.of_nat (hole_count t)) +:+ " arguments, got " +:+
        fmt_d (Z.of_nat (length args))).

(** ** The engine and the DB interface *)

(** A result set: its rows, and the error [rows.Err] reports at its end. *)
Definition Rows : Type := list (list Value) * option error.

Record Engine (W : Type) := {
  e_exec : Stmt -> M W (result Z);           (** the second result is [RowsAffected]'s *)
  e_query : Stmt -> M W Rows;
  e_transactions : bool;                     (** the DB is a [TxDB] *)
  e_begin : M W unit; e_commit : M W unit; e_rollback : M W unit;
  e_no_rows : error;
  e_string : Value -> result string;         (** [Scan] into a [string], ... *)
  e_int : Value -> result Z; e_bool : Value -> result bool; e_time : Value -> result Z;
  e_float : Value -> result float64;
  e_newID : M W string; e_now : M W Z }.
Arguments e_exec {W}. Arguments e_query {W}. Arguments e_transactions {W}. Arguments e_begin {W}.
Arguments e_commit {W}. Arguments e_rollback {W}. Arguments e_no_rows {W}. Arguments e_string {W}.
Arguments e_int {W}. Arguments e_bool {W}. Arguments e_time {W}. Arguments e_newID {W}. Arguments e_float {W}. Arguments e_now {W}.

Record DB (W : Type) := { db_engine : Engine W; db_dialect : Dialect }.
Arguments db_engine {W}. Arguments db_dialect {W}.
(** [WrapSQLDB] on the SQLite driver, [WrapPgxPool]. *)
Definition WrapSQLDB {W} (E : Engine W) : DB W := {| db_engine := E; db_dialect := SQLite |}.
Definition WrapPgxPool {W} (E : Engine W) : DB W := {| db_engine := E; db_dialect := PostgreSQL |}.

Section Interface.
Context {W : Type} (db : DB W).

Definition statement {A} (text : string) (args : list Value) (k : Stmt -> M W A) : M W A :=
  let t := template (db_dialect db) text in
  match fill args t with Some st => k st | None => fail (arity_error t args) end.

Definition ExecContext (text : string) (args : list Value) : M W (result Z) :=
  statement text args (e_exec (db_engine db)).
Definition QueryContext (text : string) (args : list Value) : M W Rows :=
  statement text args (e_query (db_engine db)).
(** [QueryRowContext(...).Scan(...)]: the errors of the query come out of [Scan]. *)
Definition QueryRowContext {A} (text : string) (args : list Value) (scan : list Value -> result A) : M W A :=
  let! rows := QueryContext text args in
  match rows with
  | ([], None) => fail (e_no_rows (db_engine db))
  | ([], Some e) => fail e
  | (r :: _, _) => fun w => (w, scan r)
  end.
End Interface.

(** [for rows.Next() { rows.Scan(...) }; return out, rows.Err()] *)
Fixpoint scan_all {A} (msg : string) (scan : list Value -> result A) (rows : list (list Value))
    : result (list A) :=
  match rows with
  | [] => Ok []
  | r :: rest =>
      let? a := wrap_err msg (scan r) in
      let? l := scan_all msg scan rest in
      Ok (a :: l)
  end.
Definition collect {A} (msg : string) (scan : list Value -> result A) (rows : Rows) : result (list A) :=
  let? l := scan_all msg scan rows.1 in
  match rows.2 with Some e => Err e | None => Ok l end.
Definition lift {W A} (r : result A) : M W A := fun w => (w, r).
Definition column_count {A} : result A := Err (ENew "sql: expected a different number of destination arguments in Scan").

(** [Scan], column by column; a nil [*T] stands for NULL. *)
Definition scan_col {A B} (conv : Value -> result A) (k : A -> list Value -> result B) (row : list Value)
    : result B :=
  match row with
  | [] => column_count
  | v :: rest => let? a := conv v in k a rest
  end.
Definition scan_end {B} (b : B) (row : list Value) : result B :=
  match row with [] => Ok b | _ => column_count end.
Definition nullable {A} (conv : Value -> result A) (v : Value) : result (option A) :=
  match v with VNull => Ok None | _ => let? a := conv v in Ok (Some a) end.

(** [err == sql.ErrNoRows]: identity, not [errors.Is]. *)
Definition is_ErrNoRows (e : error) : bool :=
  match e with ESentinel ErrNoRows => true | _ => false end.

(** ** The codecs of [storage.go] *)

(** What [json.Marshal] is given and [json.Unmarshal] returns in a [map[string]any]. *)
Inductive Jv := JStr (s : string) | JNum (f : float64) | JBool (b : bool) | JStrs (l : list string) | JOther.

(** [time.Parse("2006-01-02 15:04:05", s)]; a fraction of a second is accepted. *)
Definition time_Parse_plain (s : string) : option Z :=
  '(y, s) ← digits 4 s 0; s ← expect "-" s;
  '(mo, s) ← digits 2 s 0; s ← expect "-" s;
  '(d, s) ← digits 2 s 0; s ← expect " " s;
  '(h, s) ← hour_digits s; s ← expect ":" s;
  '(mi, s) ← digits 2 s 0; s ← expect ":" s;
  '(sec, s) ← digits 2 s 0;
  let '(ns, s) := opt_fraction s in
  if str_empty s && (1 <=? mo) && (mo <=? 12) && (1 <=? d) && (d <=? days_in y mo) &&
     (h <=? 23) && (mi <=? 59) && (sec <=? 59)
  then Some ((days_from_civil y mo d * 86400 + h * 3600 + mi * 60 + sec) * second + ns)
  else None.

(** The third layout it tries, with a literal [Z], accepts nothing RFC 3339 does not. *)
Definition parseSQLiteTimestamp (s : string) : result Z :=
  match time_Parse_plain s with
  | Some t => Ok t
  | None =>
      match time_Parse_RFC3339 s with
      | Some t => Ok t
      | None => Err (ENew ("storage: unparseable timestamp " +:+ fmt_q s))
      end
  end.

Section Codecs.
(** [json.Marshal] of a [map[string]any], a [[]float32], a [[]string] and a
    [map[string]string]; [json.Unmarshal] into a [map[string]any] and a [[]string]. *)
Class JsonText := {
  Marshal_object : gmap string Jv -> string;
  Marshal_floats : list float64 -> string;
  Marshal_strings : list string -> string;
  Marshal_texts : gmap string string -> string;
  Marshal_facts : WakeFacts -> string;
  Unmarshal_object : string -> option (gmap string Jv);
  Unmarshal_strings : string -> option (list string) }.
Context `{JsonText}.

Definition beliefMetaJSON (b : option BeliefMeta) : string :=
  match b with
  | None => "{}"
  | Some b =>
      let m := <["anchor_at" := JStr (fmt_RFC3339 (bm_AnchorAt b))]>
               (<["inference_distance" := JNum (f_of_Z (bm_InferenceDistance b))]>
               (<["verification_state" := JStr (bm_VerificationState b)]>
               (<["source" := JStr (bm_Source b)]> ∅))) in
      Marshal_object
        (if str_empty (bm_EmotionalRegister b) then m
         else <["emotional_register" := JStr (bm_EmotionalRegister b)]> m)
  end.

Definition embeddingJSON (vec : list float64) : Value :=
  match vec with [] => VNull | _ => VText (Marshal_floats vec) end.

Definition aegisMetaJSON (ann : option AegisAnnotation) : string :=
  match ann with
  | None => ""
  | Some a =>
      let m := <["trust_score" := JNum (aa_TrustScore a)]>
               (<["source" := JStr (aa_Source a)]>
               (<["content_source" := JStr (aa_ContentSource a)]>
               (<["scan_passed" := JBool (aa_ScanPassed a)]>
               (<["sanitized" := JBool (aa_Sanitized a)]>
               (<["annotated_at" := JStr (fmt_RFC3339 (aa_AnnotatedAt a))]> ∅))))) in
      Marshal_object
        (match aa_Flags a with [] => m | fl => <["flags" := JStrs fl]> m end)
  end.

Definition str_field (m : gmap string Jv) (k : string) : string :=
  match m !! k with Some (JStr s) => s | _ => "" end.
Definition bool_field (m : gmap string Jv) (k : string) : bool :=
  match m !! k with Some (JBool b) => b | _ => false end.

Definition decodeAegisMeta (s : string) : option AegisAnnotation :=
  if str_empty s then None
  else match Unmarshal_object s with
       | None => None
       | Some m =>
           Some {| aa_TrustScore := match m !! "trust_score" with Some (JNum f) => f | _ => f_of_Z 0 end;
                   aa_Source := str_field m "source";
                   aa_ContentSource := str_field m "content_source";
                   aa_Flags := match m !! "flags" with Some (JStrs l) => l | _ => [] end;
                   aa_Sanitized := bool_field m "sanitized";
                   aa_ScanPassed := bool_field m "scan_passed";
                   aa_AnnotatedAt := match m !! "annotated_at" with
                                     | Some (JStr v) => default time_zero (time_Parse_RFC3339 v)
                                     | _ => time_zero
                                     end |}
       end.

Definition contentSourcesJSON (sources : list string) : string :=
  match sources with [] => "[]" | _ => Marshal_strings sources end.

(** [decodeBelief] of [platform/db.go]; [decodeBeliefMeta] leaves the register out. *)
Definition decodeBelief (metaJSON : string) (baseConf : option float64) : BeliefMeta :=
  let m := default ∅ (Unmarshal_object metaJSON) in
  {| bm_BaseConfidence := default f_zero baseConf;
     bm_AnchorAt := match m !! "anchor_at" with
                    | Some (JStr v) => default time_zero (time_Parse_RFC3339 v)
                    | _ => time_zero
                    end;
     bm_InferenceDistance := match m !! "inference_distance" with Some (JNum f) => f_to_int f | _ => 0 end;
     bm_VerificationState := str_field m "verification_state"; bm_Source := str_field m "source";
     bm_EmotionalRegister := str_field m "emotional_register" |}.
Definition decodeBeliefMeta (metaJSON : string) : BeliefMeta :=
  let b := decodeBelief metaJSON None in
  {| bm_BaseConfidence := bm_BaseConfidence b; bm_AnchorAt := bm_AnchorAt b;
     bm_InferenceDistance := bm_InferenceDistance b; bm_VerificationState := bm_VerificationState b;
     bm_Source := bm_Source b; bm_EmotionalRegister := "" |}.

Definition decodeContentSources (s : string) : list string :=
  if str_empty s || String.eqb s "[]" then []
  else default [] (Unmarshal_strings s).

(** What a column written by [aegisMetaJSON] reads back as, for JSON that reads what it
    writes: the annotation, its time cut to the second. *)
Lemma decodeAegisMeta_aegisMetaJSON a :
  (forall m, Unmarshal_object (Marshal_object m) = Some m) ->
  (forall m, Marshal_object m <> "") ->
  seconds_min <= aa_AnnotatedAt a / second <= seconds_max ->
  decodeAegisMeta (aegisMetaJSON (Some a)) =
    Some {| aa_TrustScore := aa_TrustScore a; aa_Source := aa_Source a;
            aa_ContentSource := aa_ContentSource a; aa_Flags := aa_Flags a;
            aa_Sanitized := aa_Sanitized a; aa_ScanPassed := aa_ScanPassed a;
            aa_AnnotatedAt := aa_AnnotatedAt a / second * second |}.
Proof.
  intros Hrt Hne Ht. unfold decodeAegisMeta, aegisMetaJSON.
  destruct (str_empty (Marshal_object _)) eqn:E; [apply str_empty_true in E; by apply Hne in E|].
  rewrite Hrt. unfold str_field, bool_field. destruct (aa_Flags a) as [|f fl].
  - simplify_map_eq. by rewrite time_Parse_Format.
  - simplify_map_eq. by rewrite time_Parse_Format.
Qed.
End Codecs.
