(* ===== verification/Dbwrap.v ===== *)
(** * Two drivers behind one interface: [platform/dbwrap.go]

    [database/sql] and pgx as they are called here, records of operations whose results
    are the drivers', and the adapters that make each a [platform.DB] with transactions.
    [Sql] writes the stores against the interface; this file says what the adapters add
    to a driver and what they take away. *)

From S2P Require Import Prelude Sql.

(** ** The interfaces *)

(** [sql.Result]. *)
Record Result := { LastInsertId : result Z; RowsAffected : result Z }.

(** [platform.Rows] is used by [Next], [Scan], [Err] and [Close]: the rows it yields, the
    error at its end, and what closing it reports. *)
Record RowsI := { ri_rows : list (list Value); ri_Err : option error; ri_Close : result unit }.
(** [platform.Row]: scanning it yields a row or the query's error. *)
Definition RowI : Type := result (list Value).

Record DBI (W : Type) := {
  di_QueryContext : string -> list Value -> M W RowsI;
  di_ExecContext : string -> list Value -> M W Result;
  di_QueryRowContext : string -> list Value -> W -> W * RowI }.
Arguments di_QueryContext {W}. Arguments di_ExecContext {W}. Arguments di_QueryRowContext {W}.
Record Tx (W : Type) := { tx_DB : DBI W; tx_Commit : M W unit; tx_Rollback : M W unit }.
Arguments tx_DB {W}. Arguments tx_Commit {W}. Arguments tx_Rollback {W}.
(** A [DB] that is also a [TxDB]. *)
Record TxDB (W : Type) := { td_DB : DBI W; td_BeginTx : M W (Tx W); td_Close : M W unit }.
Arguments td_DB {W}. Arguments td_BeginTx {W}. Arguments td_Close {W}.

(** ** The drivers *)

(** [*sql.DB] and [*sql.Tx] share their statement methods. *)
Record SqlConn (W : Type) := {
  sc_Query : string -> list Value -> M W RowsI;
  sc_Exec : string -> list Value -> M W Result;
  sc_QueryRow : string -> list Value -> W -> W * RowI }.
Arguments sc_Query {W}. Arguments sc_Exec {W}. Arguments sc_QueryRow {W}.
Record SqlTx (W : Type) := { st_conn : SqlConn W; st_Commit : M W unit; st_Rollback : M W unit }.
Arguments st_conn {W}. Arguments st_Commit {W}. Arguments st_Rollback {W}.
Record SqlDB (W : Type) := { sd_conn : SqlConn W; sd_Begin : M W (SqlTx W); sd_Close : M W unit }.
Arguments sd_conn {W}. Arguments sd_Begin {W}. Arguments sd_Close {W}.

(** [pgx.Rows]: closing it reports nothing; a [pgconn.CommandTag] has a count. *)
Record PgxRows := { pr_rows : list (list Value); pr_Err : option error }.
Record PgxConn (W : Type) := {
  pc_Query : string -> list Value -> M W PgxRows;
  pc_Exec : string -> list Value -> M W Z;
  pc_QueryRow : string -> list Value -> W -> W * RowI }.
Arguments pc_Query {W}. Arguments pc_Exec {W}. Arguments pc_QueryRow {W}.
Record PgxTx (W : Type) := { pt_conn : PgxConn W; pt_Commit : M W unit; pt_Rollback : M W unit }.
Arguments pt_conn {W}. Arguments pt_Commit {W}. Arguments pt_Rollback {W}.
Record PgxPool (W : Type) := { pp_conn : PgxConn W; pp_Begin : M W (PgxTx W); pp_Close : W -> W }.
Arguments pp_conn {W}. Arguments pp_Begin {W}. Arguments pp_Close {W}.

(** ** The adapters *)

(** A pgx result knows how many rows it affected, and no inserted ID. *)
Definition pgxResult (n : Z) : Result := {| LastInsertId := Ok 0; RowsAffected := Ok n |}.
Definition pgxRowsAdapter (rows : PgxRows) : RowsI :=
  {| ri_rows := pr_rows rows; ri_Err := pr_Err rows; ri_Close := Ok tt |}.

Section Adapters.
Context {W : Type}.

Definition sqlDB_methods (c : SqlConn W) : DBI W :=
  {| di_QueryContext := fun q args => let! rows := sc_Query c q args in ret rows;
     di_ExecContext := sc_Exec c; di_QueryRowContext := sc_QueryRow c |}.
Definition sqlTx (t : SqlTx W) : Tx W :=
  {| tx_DB := sqlDB_methods (st_conn t); tx_Commit := st_Commit t; tx_Rollback := st_Rollback t |}.
Definition WrapSQLDB (db : SqlDB W) : TxDB W :=
  {| td_DB := sqlDB_methods (sd_conn db);
     td_BeginTx := (let! tx := sd_Begin db in ret (sqlTx tx));
     td_Close := sd_Close db |}.

Definition pgxDB_methods (c : PgxConn W) : DBI W :=
  {| di_QueryContext := fun q args => let! rows := pc_Query c q args in ret (pgxRowsAdapter rows);
     di_ExecContext := fun q args => let! tag := pc_Exec c q args in ret (pgxResult tag);
     di_QueryRowContext := pc_QueryRow c |}.
Definition pgxTx (t : PgxTx W) : Tx W :=
  {| tx_DB := pgxDB_methods (pt_conn t); tx_Commit := pt_Commit t; tx_Rollback := pt_Rollback t |}.
Definition WrapPgxPool (pool : PgxPool W) : TxDB W :=
  {| td_DB := pgxDB_methods (pp_conn pool);
     td_BeginTx := (let! tx := pp_Begin pool in ret (pgxTx tx));
     td_Close := fun w => (pp_Close pool w, Ok tt) |}.

(** ** A program over the interface

    What the stores do with a [platform.DB]: statements one after another, each depending
    on the answers so far, through whichever handle is in hand, the DB or a transaction
    begun on it. *)
Inductive Program (A : Type) :=
  | Done (r : result A)
  | Exec (q : string) (args : list Value) (k : result Z -> Program A)
  | Query (q : string) (args : list Value) (k : result (list (list Value) * option error) -> Program A)
  | QueryRow (q : string) (args : list Value) (k : RowI -> Program A).
Arguments Done {A}. Arguments Exec {A}. Arguments Query {A}. Arguments QueryRow {A}.

(** Its run on a DB; of a result only [RowsAffected] is read, as every store does. *)
Fixpoint run {A} (db : DBI W) (p : Program A) : M W A :=
  match p with
  | Done r => fun w => (w, r)
  | Exec q args k => try! r := di_ExecContext db q args in
                     run db (k (match r with Ok x => RowsAffected x | Err e => Err e end))
  | Query q args k => try! r := di_QueryContext db q args in
                      run db (k (match r with Ok x => Ok (ri_rows x, ri_Err x) | Err e => Err e end))
  | QueryRow q args k => fun w => let '(w', row) := di_QueryRowContext db q args w in run db (k row) w'
  end.

(** [BeginTx], the program on the transaction, [Commit] after a success; the deferred
    [Rollback] always. *)
Definition in_transaction {A} (db : TxDB W) (p : Program A) : M W A :=
  let! tx := td_BeginTx db in
  try! r := (let! a := run (tx_DB tx) p in let! _ := tx_Commit tx in ret a) in
  try! _ := tx_Rollback tx in
  (fun w => (w, r)).

(** Drivers that answer alike, up to what the adapters hide. *)
Record conns_alike (c : SqlConn W) (p : PgxConn W) : Prop := {
  ca_query : forall q args w, exists w', match pc_Query p q args w with
    | (w1, Ok rows) => w1 = w' /\ exists x, sc_Query c q args w = (w', Ok x) /\
                         ri_rows x = pr_rows rows /\ ri_Err x = pr_Err rows
    | (w1, Err e) => w1 = w' /\ sc_Query c q args w = (w', Err e) end;
  ca_exec : forall q args w, exists w', match pc_Exec p q args w with
    | (w1, Ok n) => w1 = w' /\ exists x, sc_Exec c q args w = (w', Ok x) /\ RowsAffected x = Ok n
    | (w1, Err e) => w1 = w' /\ sc_Exec c q args w = (w', Err e) end;
  ca_row : forall q args w, sc_QueryRow c q args w = pc_QueryRow p q args w }.

Lemma run_alike {A} (c : SqlConn W) (p : PgxConn W) (prog : Program A) : conns_alike c p ->
  forall w, run (sqlDB_methods c) prog w = run (pgxDB_methods p) prog w.
Proof.
  intros [Hq He Hr]. induction prog as [r|q args k IH|q args k IH|q args k IH]; intros w; [done|cbn [run]..].
  - unfold attempt. simpl. unfold bind, ret. destruct (He q args w) as [w' E].
    destruct (pc_Exec p q args w) as [w1 [n|e]].
    + destruct E as [-> (x & -> & Hx)]. simpl. rewrite Hx. apply IH.
    + destruct E as [-> ->]. apply IH.
  - unfold attempt. simpl. unfold bind, ret. destruct (Hq q args w) as [w' E].
    destruct (pc_Query p q args w) as [w1 [rows|e]].
    + destruct E as [-> (x & -> & Hx & Hx')]. simpl. rewrite Hx, Hx'. apply IH.
    + destruct E as [-> ->]. apply IH.
  - simpl. rewrite Hr. destruct (pc_QueryRow p q args w) as [w1 row]. apply IH.
Qed.

(** Over drivers that answer alike, a program does not see which adapter it runs on:
    outside a transaction and in one, its states, its result and its errors are equal. *)
Theorem adapters_alike {A} (db : SqlDB W) (pool : PgxPool W) (prog : Program A) w :
  conns_alike (sd_conn db) (pp_conn pool) ->
  (forall w, match pp_Begin pool w with
             | (w1, Ok t) => exists s, sd_Begin db w = (w1, Ok s) /\ conns_alike (st_conn s) (pt_conn t) /\
                 (forall v, st_Commit s v = pt_Commit t v) /\ (forall v, st_Rollback s v = pt_Rollback t v)
             | (w1, Err e) => sd_Begin db w = (w1, Err e) end) ->
  run (td_DB (WrapSQLDB db)) prog w = run (td_DB (WrapPgxPool pool)) prog w /\
  in_transaction (WrapSQLDB db) prog w = in_transaction (WrapPgxPool pool) prog w.
Proof.
  intros Hc Hb. split; [by apply run_alike|].
  unfold in_transaction, attempt, bind, ret. cbn [td_BeginTx WrapSQLDB WrapPgxPool]. unfold bind. specialize (Hb w).
  destruct (pp_Begin pool w) as [w1 [t|e]]; [|by rewrite Hb].
  destruct Hb as (s & -> & Ht & Hcm & Hrb). cbn [ret tx_DB tx_Commit tx_Rollback sqlTx pgxTx].
  rewrite (run_alike _ _ _ Ht). destruct (run _ prog w1) as [w2 [a|e]]; [|by rewrite Hrb].
  rewrite Hcm. destruct (pt_Commit t w2) as [w3 [u|e]]; by rewrite Hrb.
Qed.

(** What is lost: an inserted ID is always 0 behind pgx, and closing never fails. *)
Lemma pgx_forgets (pool : PgxPool W) q args w w' r :
  di_ExecContext (td_DB (WrapPgxPool pool)) q args w = (w', Ok r) -> LastInsertId r = Ok 0.
Proof.
  simpl. unfold bind, ret. destruct (pc_Exec _ q args w) as [w1 [n|e]]; [|done]. by intros [= _ <-].
Qed.
End Adapters.
