(* ===== verification/StorageSqlite.v ===== *)
(** * The storage stores as they are written, SQLite: [storage/*_sqlite.go]

    The statements' texts and arguments as the code builds them, over the DB interface.
    [Jobs], [Consolidation] and [LifecycleStore] model what the statements do to the
    tables; [Portability] compares these with the PostgreSQL stores. *)

From S2P Require Import Prelude Types MemoryStore Jobs Sql.

Section Stores.
Context {W : Type} `{JsonText} (db : DB W).
Let newID : M W string := e_newID (db_engine db).
Let Scan_string : Value -> result string := e_string (db_engine db).
Let Scan_int : Value -> result Z := e_int (db_engine db).

(** ** Jobs *)

Definition Commit (sessionID jobType : string) : M W string :=
  let! id := newID in
  let! _ := wrapM ("storage: committing job for session " +:+ sessionID)
    (ExecContext db
"INSERT INTO metabolism_jobs (id, session_id, status, job_type, created_at)
		 VALUES (?, ?, 'pending', ?, CURRENT_TIMESTAMP)"
       [VText id; VText sessionID; VText jobType]) in
  ret id.

(** The threshold is a modifier of SQLite's [datetime]. *)
Definition Claim_text : string :=
"UPDATE metabolism_jobs
		 SET status = 'running', started_at = CURRENT_TIMESTAMP,
		     claim_token = ?, claim_count = claim_count + 1
		 WHERE id = ? AND claim_count < ? AND (
		     status = 'pending' OR
		     status = 'failed' OR
		     (status = 'running' AND started_at < datetime('now', ?))
		 )".
Definition Claim_args (claimToken jobID : string) (staleDuration : Z) : list Value :=
  [VText claimToken; VText jobID; VInt MaxClaimCount;
   VText ("-" +:+ fmt_d (Z.quot staleDuration second) +:+ " seconds")].
Definition Claim (jobID : string) (staleDuration : Z) : M W string :=
  let! claimToken := newID in
  let! n := wrapM ("storage: claiming job " +:+ jobID)
    (ExecContext db Claim_text (Claim_args claimToken jobID staleDuration)) in
  let! n := wrapM ("storage: checking claim result for job " +:+ jobID) (lift n) in
  if n =? 0 then fail (ESentinel ErrJobNotPending) else ret claimToken.

Definition fencedOrNotFound (jobID : string) : M W unit :=
  let! exists_ := wrapM ("storage: checking job " +:+ jobID +:+ " existence")
    (QueryRowContext db "SELECT EXISTS(SELECT 1 FROM metabolism_jobs WHERE id = ?)"
       [VText jobID]
       (fun row => match row with [v] => e_bool (db_engine db) v | _ => column_count end)) in
  if exists_ : bool then fail (ESentinel ErrClaimFenced)
  else fail (ENew ("storage: job " +:+ jobID +:+ " not found")).

(** [n, _ := result.RowsAffected()]: an error leaves [n] at zero. *)
Definition affected_or_fenced (jobID : string) (n : result Z) : M W unit :=
  match n with
  | Ok n => if n =? 0 then fencedOrNotFound jobID else ret tt
  | Err _ => fencedOrNotFound jobID
  end.

Definition Complete (jobID claimToken : string) : M W unit :=
  let! n := wrapM ("storage: completing job " +:+ jobID)
    (ExecContext db
"UPDATE metabolism_jobs
		 SET status = 'completed', completed_at = CURRENT_TIMESTAMP
		 WHERE id = ? AND claim_token = ?"
       [VText jobID; VText claimToken]) in
  affected_or_fenced jobID n.

Definition Fail (jobID claimToken cause : string) : M W unit :=
  let! n := wrapM ("storage: failing job " +:+ jobID)
    (ExecContext db
"UPDATE metabolism_jobs
		 SET status = 'failed', error_message = ?, retry_count = retry_count + 1
		 WHERE id = ? AND claim_token = ?"
       [VText cause; VText jobID; VText claimToken]) in
  affected_or_fenced jobID n.

Definition MarkReviewRequired (jobID claimToken reason : string) : M W unit :=
  let! n := wrapM ("storage: marking job " +:+ jobID +:+ " review_required")
    (ExecContext db
"UPDATE metabolism_jobs
		 SET status = 'review_required', error_message = ?, completed_at = CURRENT_TIMESTAMP
		 WHERE id = ? AND claim_token = ?"
       [VText reason; VText jobID; VText claimToken]) in
  affected_or_fenced jobID n.

Definition scan_recoverable (row : list Value) : result RecoverableJob :=
  match row with
  | [a; b; c] =>
      let? id := Scan_string a in
      let? sid := Scan_string b in
      let? n := Scan_int c in
      Ok {| rj_JobID := id; rj_SessionID := sid; rj_RetryCount := n |}
  | _ => column_count
  end.
Definition Recoverable (maxRetries : Z) : M W (list RecoverableJob) :=
  let! rows := wrapM "storage: querying recoverable jobs"
    (QueryContext db
"SELECT id, session_id, retry_count
		 FROM metabolism_jobs
		 WHERE status IN ('pending', 'running', 'failed') AND retry_count < ? AND claim_count < ?
		 ORDER BY created_at ASC"
       [VInt maxRetries; VInt MaxClaimCount]) in
  lift (collect "storage: scanning recoverable job" scan_recoverable rows).

Definition scan_string1 (row : list Value) : result string :=
  match row with [v] => Scan_string v | _ => column_count end.
(** [if err == sql.ErrNoRows { return zero }] *)
Definition or_zero {A B} (msg : string) (zero : B) (m : M W A) (k : A -> M W B) : M W B :=
  try! r := m in
  match r with
  | Ok a => k a
  | Err e => if is_ErrNoRows e then ret zero else fail (EWrap msg e)
  end.

Definition LastStatus : M W string :=
  or_zero "storage: querying last job status" ""
    (QueryRowContext db
"SELECT status FROM metabolism_jobs ORDER BY created_at DESC LIMIT 1" [] scan_string1) ret.

(** ** Consolidation *)

Definition updateQ (sourceLogIDs : list string) : string :=
  "UPDATE experiential_logs SET narrative_summary_id = ? WHERE id IN (" +:+
  str_join (map (fun _ => "?") sourceLogIDs) ", " +:+ ")".
(** The body of the transaction. *)
Definition commit_body (n : NarrativeSummary) (sourceLogIDs : list string) : M W unit :=
  let! id := if str_empty (ns_ID n) then newID else ret (ns_ID n) in
  let! _ := wrapM ("storage: inserting T3 narrative " +:+ id)
    (ExecContext db
"INSERT INTO narrative_summaries
			(id, session_id, content, embedding, belief_meta, content_sources, aegis_meta, created_at)
		 VALUES (?, ?, ?, ?, ?, ?, ?, CURRENT_TIMESTAMP)"
       [VText id; VText (ns_SessionID n); VText (ns_Content n); embeddingJSON (ns_Embedding n);
        VText (beliefMetaJSON (ns_Belief n)); VText (contentSourcesJSON (ns_ContentSources n));
        VText (aegisMetaJSON (ns_ExternalAnnotation n))]) in
  let! _ := wrapM ("storage: updating T2 back-links for narrative " +:+ id)
    (ExecContext db (updateQ sourceLogIDs) (VText id :: map VText sourceLogIDs)) in
  wrapM "storage: committing consolidation transaction" (e_commit (db_engine db)).
(** The deferred [Rollback] runs on every way out; its error is dropped. *)
Definition CommitNarrative (narrative : option NarrativeSummary) (sourceLogIDs : list string) : M W unit :=
  match narrative, sourceLogIDs with
  | None, _ => fail (ENew "storage: narrative summary is nil")
  | Some _, [] => fail (ENew "storage: no source log IDs for T2 back-link")
  | Some n, _ =>
      if negb (e_transactions (db_engine db)) then fail (ENew "storage: database does not support transactions")
      else
        let! _ := wrapM "storage: beginning consolidation transaction" (e_begin (db_engine db)) in
        try! r := commit_body n sourceLogIDs in
        try! _ := e_rollback (db_engine db) in
        lift r
  end.

(** The column is scanned as text; a text that does not parse leaves the zero time. *)
Definition Scan_created (v : Value) : result Z :=
  let? s := Scan_string v in Ok (default time_zero (time_Parse_plain s)).
Definition scan_log (row : list Value) : result ExperientialLog :=
  match row with
  | [a; b; c; d; e; f] =>
      let? id := Scan_string a in
      let? sid := Scan_string b in
      let? content := Scan_string c in
      let? source := Scan_string d in
      let? aegis := Scan_string e in
      let? created := Scan_created f in
      Ok {| el_ID := id; el_SessionID := sid; el_Content := content; el_ContentSource := source;
            el_CreatedAt := created; el_AegisAnnotation := decodeAegisMeta aegis |}
  | _ => column_count
  end.
Definition UncoveredLogs (sessionID : string) : M W (list ExperientialLog) :=
  let! rows := wrapM ("storage: querying uncovered logs for session " +:+ sessionID)
    (QueryContext db
"SELECT id, session_id, content, content_source, aegis_meta, created_at
		 FROM experiential_logs
		 WHERE session_id = ? AND narrative_summary_id IS NULL
		 ORDER BY created_at ASC"
       [VText sessionID]) in
  lift (collect "storage: scanning uncovered log" scan_log rows).

(** ** Lifecycle *)

Definition RecordPlan (plan : option LifecyclePlan) : M W (string * result unit) :=
  match plan with
  | None => ret ("", Err (ENew "storage: lifecycle plan is nil"))
  | Some p =>
      let! id := if str_empty (plan_ID p) then newID else ret (plan_ID p) in
      try! r := wrapM ("storage: recording lifecycle plan " +:+ id)
        (ExecContext db
"INSERT INTO lifecycle_plans
			(id, session_id, temporal_mode, wake_cause, wake_cause_secondary,
			 activity_profile, assembly_profile, bridge_policy, metabolism_policy,
			 seam_kind, resolver_version, policy_hash, resolved_at)
		 VALUES (?, ?, ?, ?, ?, ?, ?, ?, ?, ?, ?, ?, CURRENT_TIMESTAMP)"
           [VText id; VText (plan_SessionID p); VText (plan_TemporalMode p); VText (plan_WakeCause p);
            opt_text (plan_WakeCauseSecondary p); VText (plan_ActivityProfile p);
            VText (plan_AssemblyProfile p); VText (plan_BridgePolicy p);
            VText (plan_MetabolismPolicy p); VText (plan_SeamKind p);
            VText (plan_ResolverVersion p); VText (plan_PolicyHash p)]) in
      ret (id, match r with Ok _ => Ok tt | Err e => Err e end)
  end.

Definition RecordWakeFacts (sessionID : string) (facts : option WakeFacts) : M W unit :=
  match facts with
  | None => fail (ENew "storage: wake facts are nil")
  | Some f =>
      let! planID := wrapM ("storage: no lifecycle plan found for session " +:+ sessionID)
        (QueryRowContext db "SELECT id FROM lifecycle_plans WHERE session_id = ? ORDER BY resolved_at DESC LIMIT 1"
           [VText sessionID] scan_string1) in
      let gapClass := if str_empty (gf_GapClass (wf_GapFacts f)) then VNull
                      else VText (gf_GapClass (wf_GapFacts f)) in
      let transitionCtx := match wf_TransitionContexts f with [] => VNull | t :: _ => VText t end in
      let! _ := wrapM ("storage: recording wake facts for session " +:+ sessionID)
        (ExecContext db
"INSERT INTO wake_facts
			(plan_id, wake_at, elapsed_duration_sec, gap_class, transition_context, extra_json)
		 VALUES (?, CURRENT_TIMESTAMP, ?, ?, ?, ?)"
           [VText planID; VFloat (duration_Seconds (wf_ElapsedDuration f)); gapClass; transitionCtx;
            VText (Marshal_facts f)]) in
      ret tt
  end.

Definition utilization (m : AssemblyManifest) : float64 :=
  if 0 <? mf_BudgetTotal m then fdiv (f_of_Z (mf_BudgetUsed m)) (f_of_Z (mf_BudgetTotal m)) else f_zero.
Definition RecordManifest (manifest : option AssemblyManifest) : M W (string * result unit) :=
  match manifest with
  | None => ret ("", Err (ENew "storage: assembly manifest is nil"))
  | Some m =>
      let! id := if str_empty (mf_ID m) then newID else ret (mf_ID m) in
      try! r := wrapM ("storage: recording assembly manifest " +:+ id)
        (ExecContext db
"INSERT INTO assembly_manifests
			(id, session_id, plan_id, phases_loaded, phases_skipped,
			 known_omissions, total_tokens_used, total_tokens_budget,
			 context_utilization, assembled_at)
		 VALUES (?, ?, ?, ?, ?, ?, ?, ?, ?, CURRENT_TIMESTAMP)"
           [VText id; VText (mf_SessionID m); VText (mf_PlanID m);
            VText (Marshal_strings (mf_PhasesRun m)); VText (Marshal_strings (mf_PhasesSkipped m));
            VText (Marshal_texts (mf_SkipReasons m));
            VInt (mf_BudgetUsed m); VInt (mf_BudgetTotal m); VFloat (utilization m)]) in
      ret (id, match r with Ok _ => Ok tt | Err e => Err e end)
  end.

Definition RecordDisclosure (sessionID policyPath policyHash previousHash changesSummary
    policySource policySnapshot : string) : M W unit :=
  let prevHash := if str_empty previousHash then VNull else VText previousHash in
  let! _ := wrapM ("storage: recording disclosure for session " +:+ sessionID)
    (ExecContext db
"INSERT INTO configuration_applied
			(session_id, policy_path, policy_hash, previous_hash, changes_summary,
			 policy_source, policy_snapshot, applied_at)
		 VALUES (?, ?, ?, ?, ?, ?, ?, CURRENT_TIMESTAMP)"
       [VText sessionID; VText policyPath; VText policyHash; prevHash; VText changesSummary;
        VText policySource; VText policySnapshot]) in
  ret tt.

Definition LastPolicyHash : M W string :=
  or_zero "storage: querying last policy hash" ""
    (QueryRowContext db
"SELECT policy_hash FROM configuration_applied ORDER BY applied_at DESC LIMIT 1" [] scan_string1) ret.

Definition WriteCheckpoint (sessionID : string) (turnNumber : Z) (t2HighWater : string)
    (tokenUsage : Z) (state : string) : M W unit :=
  let! _ := wrapM ("storage: write checkpoint for session " +:+ sessionID)
    (ExecContext db
"INSERT INTO session_checkpoints (id, session_id, turn_number, t2_high_water, token_usage, state, created_at)
		 VALUES (?, ?, ?, ?, ?, ?, CURRENT_TIMESTAMP)
		 ON CONFLICT (id) DO UPDATE
		   SET turn_number   = excluded.turn_number,
		       t2_high_water = excluded.t2_high_water,
		       token_usage   = excluded.token_usage,
		       state         = excluded.state,
		       created_at    = CURRENT_TIMESTAMP"
       [VText sessionID; VText sessionID; VInt turnNumber; VText t2HighWater; VInt tokenUsage; VText state]) in
  ret tt.

Definition InterruptStaleCheckpoints (cutoff : Z) : M W Z :=
  let! n := wrapM "storage: interrupting stale checkpoints"
    (ExecContext db
"UPDATE session_checkpoints
		 SET state = 'interrupted'
		 WHERE state = 'active' AND created_at < ?"
       [VText (fmt_stamp " " "" cutoff)]) in
  wrapM "storage: checking interrupted count" (lift n).

Definition LastCheckpointState : M W string :=
  or_zero "storage: querying last checkpoint state" ""
    (QueryRowContext db
"SELECT state FROM session_checkpoints ORDER BY created_at DESC LIMIT 1" [] scan_string1) ret.

Definition LastWakeAt : M W Z :=
  or_zero "storage: querying last wake time" time_zero
    (QueryRowContext db
"SELECT wake_at FROM wake_facts ORDER BY wake_at DESC LIMIT 1" [] scan_string1)
    (fun wakeAtStr => lift (parseSQLiteTimestamp wakeAtStr)).

(** ** Assembly *)

Definition HasWitnessLetter : M W bool :=
  let! count := wrapM "storage: querying founding_records"
    (QueryRowContext db
"SELECT COUNT(*) FROM founding_records WHERE record_type = 'witness_letter'" []
       (fun row => match row with [v] => Scan_int v | _ => column_count end)) in
  ret (0 <? count).

Definition LogOperatorAction (actionType description : string) : M W unit :=
  let! id := newID in
  let! _ := wrapM "storage: logging operator action"
    (ExecContext db
"INSERT INTO operator_actions (id, action_type, actor, description, created_at)
		 VALUES (?, ?, 'system', ?, CURRENT_TIMESTAMP)"
       [VText id; VText actionType; VText description]) in
  ret tt.
End Stores.
