(* ===== verification/Portability.v ===== *)
(** * The two dialects of the storage stores

    The stores exist twice, once per dialect, in files whose SQL and arguments are kept
    in step by hand. Spoken to one engine, each pair is one program. *)

From S2P Require Import Prelude Types MemoryStore Jobs Sql.
From S2P Require StorageSqlite StoragePostgres.

(** ** Numbers in placeholders *)

Lemma pretty_N_go_app x : forall s t, pretty_N_go x s +:+ t = pretty_N_go x (s +:+ t).
Proof.
  induction (N.lt_wf_0 x) as [x _ IH]. intros s t. destruct (decide (x = 0%N)) as [->|Hx].
  - by rewrite !pretty_N_go_0.
  - rewrite !(pretty_N_go_step x) by lia. rewrite IH by (apply N.div_lt; lia). by rewrite str_app_cons.
Qed.

Lemma digit_char x : digit (pretty_N_char (x mod 10)) = Some (Z.of_N (x mod 10)).
Proof.
  assert (x mod 10 < 10)%N as H by (apply N.mod_lt; lia). revert H. generalize (x mod 10)%N. intros n H.
  assert (n ∈ [0; 1; 2; 3; 4; 5; 6; 7; 8; 9]%N) as Hn.
  { destruct n as [|p]; [set_solver|]. do 4 (destruct p as [p|p|]; try set_solver; try lia). }
  by elem_cases Hn.
Qed.

Lemma template_d_go x : forall q s,
  template_d q (Some 0) (pretty_N_go x s) = template_d q (Some (Z.of_N x)) s.
Proof.
  induction (N.lt_wf_0 x) as [x _ IH]. intros q s. destruct (decide (x = 0%N)) as [->|Hx].
  - by rewrite pretty_N_go_0.
  - rewrite pretty_N_go_step by lia. rewrite IH by (apply N.div_lt; lia). cbn [template_d].
    rewrite digit_char. f_equal. f_equal. pose proof (N.div_mod x 10 ltac:(lia)). lia.
Qed.

(** [$n] reads as hole [n] before anything that is not a digit. *)
Lemma template_d_placeholder n c rest :
  0 < n -> digit c = None ->
  template_d false None ("$" +:+ fmt_d n +:+ String c rest)
  = Hole (Z.to_nat n) :: template_d false None (String c rest).
Proof.
  intros Hn Hc. rewrite !str_app_cons. cbn [template_d]. unfold fmt_d.
  destruct n as [|p|p]; [lia| |lia]. change (pretty (Zpos p)) with (pretty_N_go (Npos p) "").
  rewrite (eq_refl : "" +:+ (pretty_N_go (N.pos p) "" +:+ String c rest) = pretty_N_go (N.pos p) "" +:+ String c rest).
  rewrite pretty_N_go_app, (eq_refl : "" +:+ String c rest = String c rest).
  change (template_d false (Some 0) (pretty_N_go (N.pos p) (String c rest))
          = Hole (Z.to_nat (Z.pos p)) :: template_d false None (String c rest)).
  rewrite template_d_go. cbn [template_d]. rewrite Hc. cbn [close_num app]. by destruct (digit c).
Qed.

Lemma separator_q k u :
  template_q false k ("?" +:+ String (Ascii.ascii_of_nat 44) (String (Ascii.ascii_of_nat 32) u))
  = Hole k :: Txt (Ascii.ascii_of_nat 44) :: Txt (Ascii.ascii_of_nat 32) :: template_q false (S k) u.
Proof. reflexivity. Qed.
Lemma separator_d u :
  template_d false None (String (Ascii.ascii_of_nat 44) (String (Ascii.ascii_of_nat 32) u))
  = Txt (Ascii.ascii_of_nat 44) :: Txt (Ascii.ascii_of_nat 32) :: template_d false None u.
Proof. reflexivity. Qed.

(** The IN lists: the [i]th ID is argument [i + 2] of both. *)
Lemma in_list ids : forall k (f : nat -> string -> string),
  ids <> [] -> (0 < k)%nat -> (forall i x, f i x = "$" +:+ fmt_d (Z.of_nat (k + i))) ->
  template_q false k (str_join (map (fun _ : string => "?") ids) ", " +:+ ")")
  = template_d false None (str_join (imap f ids) ", " +:+ ")").
Proof.
  induction ids as [|x ids IH]; intros k f Hne Hk Hf; [done|].
  assert (Z.to_nat (Z.of_nat (k + 0)) = k) as Hn by lia.
  destruct ids as [|y ids].
  - cbn [imap map]. unfold str_join. cbn [String.concat]. rewrite Hf, !str_app_assoc.
    change (")") with (String (Ascii.ascii_of_nat 41) "").
    rewrite template_d_placeholder by done || lia. by rewrite Hn.
  - specialize (IH (S k) (f ∘ S) ltac:(done) ltac:(lia)).
    rewrite imap_cons. unfold str_join in *. change (map _ (x :: y :: ids)) with ("?" :: map (fun _ : string => "?") (y :: ids)).
    assert (forall (p : string) (l : list string), l <> [] ->
              String.concat ", " (p :: l) = p +:+ String (Ascii.ascii_of_nat 44) (String (Ascii.ascii_of_nat 32) (String.concat ", " l))) as Hc.
    { intros p l Hl. destruct l; [done|]. reflexivity. }
    rewrite !Hc by done. rewrite Hf, !str_app_assoc, !(str_app_cons (Ascii.ascii_of_nat 44)).
    rewrite template_d_placeholder by done || lia. rewrite Hn.
    rewrite !(str_app_cons (Ascii.ascii_of_nat 32)), separator_q, separator_d. do 3 f_equal.
    apply IH. intros i z. unfold compose. rewrite Hf.
    by replace (k + S i)%nat with (S k + i)%nat by lia.
Qed.

Lemma updateQ_same ids :
  ids <> [] ->
  template SQLite (StorageSqlite.updateQ ids) = template PostgreSQL (StoragePostgres.updateQ ids).
Proof.
  intros Hne. cbn [template]. unfold StorageSqlite.updateQ, StoragePostgres.updateQ.
  pose proof (in_list ids 2 (fun i _ => StoragePostgres.placeholder i) Hne ltac:(lia)) as H.
  assert (forall i x, (fun (i : nat) (_ : string) => StoragePostgres.placeholder i) i x
                      = "$" +:+ fmt_d (Z.of_nat (2 + i))) as Hp.
  { intros i x. unfold StoragePostgres.placeholder. do 2 f_equal. lia. }
  specialize (H Hp). clear Hp. revert H.
  generalize (str_join (map (fun _ : string => "?") ids) ", " +:+ ")").
  generalize (str_join (imap (fun i (_ : string) => StoragePostgres.placeholder i) ids) ", " +:+ ")").
  intros u v H.
  assert (template_q false 1 ("UPDATE experiential_logs SET narrative_summary_id = ? WHERE id IN (" +:+ v)
          = template_q false 1 "UPDATE experiential_logs SET narrative_summary_id = ? WHERE id IN ("
            ++ template_q false 2 v) as -> by reflexivity.
  assert (template_d false None ("UPDATE experiential_logs SET narrative_summary_id = $1 WHERE id IN (" +:+ u)
          = template_d false None "UPDATE experiential_logs SET narrative_summary_id = $1 WHERE id IN ("
            ++ template_d false None u) as -> by reflexivity.
  rewrite H. reflexivity.
Qed.

(** ** The stores *)

Inductive StoreCall :=
  | c_Commit (sessionID jobType : string)
  | c_Claim (jobID : string) (staleDuration : Z)
  | c_Complete (jobID claimToken : string)
  | c_Fail (jobID claimToken cause : string)
  | c_MarkReviewRequired (jobID claimToken reason : string)
  | c_Recoverable (maxRetries : Z)
  | c_LastStatus
  | c_CommitNarrative (narrative : option NarrativeSummary) (sourceLogIDs : list string)
  | c_UncoveredLogs (sessionID : string)
  | c_RecordPlan (plan : option LifecyclePlan)
  | c_RecordWakeFacts (sessionID : string) (facts : option WakeFacts)
  | c_RecordManifest (manifest : option AssemblyManifest)
  | c_RecordDisclosure (sessionID policyPath policyHash previousHash changesSummary policySource
      policySnapshot : string)
  | c_LastPolicyHash
  | c_WriteCheckpoint (sessionID : string) (turnNumber : Z) (t2HighWater : string) (tokenUsage : Z)
      (state : string)
  | c_InterruptStaleCheckpoints (cutoff : Z)
  | c_LastCheckpointState
  | c_LastWakeAt
  | c_HasWitnessLetter
  | c_LogOperatorAction (actionType description : string).

Inductive Answer :=
  | a_unit | a_string (s : string) | a_int (z : Z) | a_bool (b : bool)
  | a_jobs (l : list RecoverableJob) | a_logs (l : list ExperientialLog)
  | a_recorded (r : string * result unit).

(** ** The two staleness tests of [Claim]: the right-hand side of [started_at < ...] *)

Definition chars (s : string) : Stmt := map inl (String.list_ascii_of_string s).
(** [datetime('now', ?)] with the argument ["-N seconds"]. *)
Definition stale_sqlite (staleDuration : Z) : Stmt :=
  chars "datetime('now', " ++ [inr (VText ("-" +:+ fmt_d (Z.quot staleDuration second) +:+ " seconds"))] ++
  chars ")".
(** [now() - interval '1 second' * $4] with the argument [N]. *)
Definition stale_postgres (staleDuration : Z) : Stmt :=
  chars "now() - interval '1 second' * " ++ [inr (VInt (Z.quot staleDuration second))].

(** Whether a statement that starts with [st] is inside quotes after it. *)
Fixpoint in_quotes (quoted : bool) (st : Stmt) : bool :=
  match st with
  | [] => quoted
  | inl c :: rest => in_quotes (if is_char "'" c then negb quoted else quoted) rest
  | inr _ :: rest => in_quotes quoted rest
  end.

Section Calls.
Context {W : Type} `{JsonText} (E : Engine W).

Definition answer {A} (f : A -> Answer) (m : M W A) : M W Answer := let! a := m in ret (f a).

Definition sqlite_call (c : StoreCall) : M W Answer :=
  let db := WrapSQLDB E in
  match c with
  | c_Commit s j => answer a_string (StorageSqlite.Commit db s j)
  | c_Claim j d => answer a_string (StorageSqlite.Claim db j d)
  | c_Complete j t => answer (fun _ => a_unit) (StorageSqlite.Complete db j t)
  | c_Fail j t m => answer (fun _ => a_unit) (StorageSqlite.Fail db j t m)
  | c_MarkReviewRequired j t m => answer (fun _ => a_unit) (StorageSqlite.MarkReviewRequired db j t m)
  | c_Recoverable n => answer a_jobs (StorageSqlite.Recoverable db n)
  | c_LastStatus => answer a_string (StorageSqlite.LastStatus db)
  | c_CommitNarrative n ids => answer (fun _ => a_unit) (StorageSqlite.CommitNarrative db n ids)
  | c_UncoveredLogs s => answer a_logs (StorageSqlite.UncoveredLogs db s)
  | c_RecordPlan p => answer a_recorded (StorageSqlite.RecordPlan db p)
  | c_RecordWakeFacts s f => answer (fun _ => a_unit) (StorageSqlite.RecordWakeFacts db s f)
  | c_RecordManifest m => answer a_recorded (StorageSqlite.RecordManifest db m)
  | c_RecordDisclosure a b c d e f g => answer (fun _ => a_unit) (StorageSqlite.RecordDisclosure db a b c d e f g)
  | c_LastPolicyHash => answer a_string (StorageSqlite.LastPolicyHash db)
  | c_WriteCheckpoint s n h u t => answer (fun _ => a_unit) (StorageSqlite.WriteCheckpoint db s n h u t)
  | c_InterruptStaleCheckpoints t => answer a_int (StorageSqlite.InterruptStaleCheckpoints db t)
  | c_LastCheckpointState => answer a_string (StorageSqlite.LastCheckpointState db)
  | c_LastWakeAt => answer a_int (StorageSqlite.LastWakeAt db)
  | c_HasWitnessLetter => answer a_bool (StorageSqlite.HasWitnessLetter db)
  | c_LogOperatorAction a d => answer (fun _ => a_unit) (StorageSqlite.LogOperatorAction db a d)
  end.

Definition postgres_call (c : StoreCall) : M W Answer :=
  let db := WrapPgxPool E in
  match c with
  | c_Commit s j => answer a_string (StoragePostgres.Commit db s j)
  | c_Claim j d => answer a_string (StoragePostgres.Claim db j d)
  | c_Complete j t => answer (fun _ => a_unit) (StoragePostgres.Complete db j t)
  | c_Fail j t m => answer (fun _ => a_unit) (StoragePostgres.Fail db j t m)
  | c_MarkReviewRequired j t m => answer (fun _ => a_unit) (StoragePostgres.MarkReviewRequired db j t m)
  | c_Recoverable n => answer a_jobs (StoragePostgres.Recoverable db n)
  | c_LastStatus => answer a_string (StoragePostgres.LastStatus db)
  | c_CommitNarrative n ids => answer (fun _ => a_unit) (StoragePostgres.CommitNarrative db n ids)
  | c_UncoveredLogs s => answer a_logs (StoragePostgres.UncoveredLogs db s)
  | c_RecordPlan p => answer a_recorded (StoragePostgres.RecordPlan db p)
  | c_RecordWakeFacts s f => answer (fun _ => a_unit) (StoragePostgres.RecordWakeFacts db s f)
  | c_RecordManifest m => answer a_recorded (StoragePostgres.RecordManifest db m)
  | c_RecordDisclosure a b c d e f g => answer (fun _ => a_unit) (StoragePostgres.RecordDisclosure db a b c d e f g)
  | c_LastPolicyHash => answer a_string (StoragePostgres.LastPolicyHash db)
  | c_WriteCheckpoint s n h u t => answer (fun _ => a_unit) (StoragePostgres.WriteCheckpoint db s n h u t)
  | c_InterruptStaleCheckpoints t => answer a_int (StoragePostgres.InterruptStaleCheckpoints db t)
  | c_LastCheckpointState => answer a_string (StoragePostgres.LastCheckpointState db)
  | c_LastWakeAt => answer a_int (StoragePostgres.LastWakeAt db)
  | c_HasWitnessLetter => answer a_bool (StoragePostgres.HasWitnessLetter db)
  | c_LogOperatorAction a d => answer (fun _ => a_unit) (StoragePostgres.LogOperatorAction db a d)
  end.

(** Where the engine has to treat two things alike: the two staleness tests, wherever
    one stands, outside quotes, as the right-hand side of a comparison in parentheses,
    and the two ways of reading a time column in [UncoveredLogs]. *)
Definition alike (c : StoreCall) : Prop :=
  match c with
  | c_Claim _ d => forall before after w, in_quotes false before = false ->
      e_exec E (before ++ chars " < " ++ stale_postgres d ++ chars ")" ++ after) w
      = e_exec E (before ++ chars " < " ++ stale_sqlite d ++ chars ")" ++ after) w
  | c_UncoveredLogs _ => forall v,
      StoragePostgres.Scan_created (WrapPgxPool E) v = StorageSqlite.Scan_created (WrapSQLDB E) v
  | _ => True
  end.
End Calls.

Section Portable.
Context {W : Type} `{JsonText} (E : Engine W).

Lemma exec_same q d args :
  template SQLite q = template PostgreSQL d ->
  ExecContext (WrapPgxPool E) d args = ExecContext (WrapSQLDB E) q args.
Proof. intros T. unfold ExecContext, statement. cbn [db_dialect db_engine WrapPgxPool WrapSQLDB]. by rewrite T. Qed.
Lemma query_same q d args :
  template SQLite q = template PostgreSQL d ->
  QueryContext (WrapPgxPool E) d args = QueryContext (WrapSQLDB E) q args.
Proof. intros T. unfold QueryContext, statement. cbn [db_dialect db_engine WrapPgxPool WrapSQLDB]. by rewrite T. Qed.
Lemma query_row_same {A} q d args (scan : list Value -> result A) :
  template SQLite q = template PostgreSQL d ->
  QueryRowContext (WrapPgxPool E) d args scan = QueryRowContext (WrapSQLDB E) q args scan.
Proof. intros T. unfold QueryRowContext. by rewrite (query_same q d). Qed.

(** Rewrites the PostgreSQL text of each statement into the SQLite one. *)
Ltac same_text :=
  repeat match goal with
  | |- context [ExecContext (WrapPgxPool E) ?d ?a] =>
      match goal with |- context [ExecContext (WrapSQLDB E) ?q a] =>
        rewrite (exec_same q d a) by (vm_compute; exact eq_refl) end
  | |- context [QueryContext (WrapPgxPool E) ?d ?a] =>
      match goal with |- context [QueryContext (WrapSQLDB E) ?q a] =>
        rewrite (query_same q d a) by (vm_compute; exact eq_refl) end
  | |- context [QueryRowContext (WrapPgxPool E) ?d ?a ?s] =>
      match goal with |- context [QueryRowContext (WrapSQLDB E) ?q a s] =>
        rewrite (query_row_same q d a s) by (vm_compute; exact eq_refl) end
  end.

Lemma fenced_same j : StoragePostgres.fencedOrNotFound (WrapPgxPool E) j
                      = StorageSqlite.fencedOrNotFound (WrapSQLDB E) j.
Proof.
  unfold StoragePostgres.fencedOrNotFound, StorageSqlite.fencedOrNotFound.
  cbn [db_engine WrapPgxPool WrapSQLDB]. same_text. reflexivity.
Qed.
Lemma affected_same j n : StoragePostgres.affected_or_fenced (WrapPgxPool E) j n
                          = StorageSqlite.affected_or_fenced (WrapSQLDB E) j n.
Proof.
  unfold StoragePostgres.affected_or_fenced, StorageSqlite.affected_or_fenced.
  rewrite fenced_same. reflexivity.
Qed.

Lemma bind_ext {A B} (m : M W A) (k k' : A -> M W B) w :
  (forall a v, k a v = k' a v) -> bind m k w = bind m k' w.
Proof. intros Hk. unfold bind. destruct (m w) as [v [a|e]]; [apply Hk|done]. Qed.
Lemma answer_ext {A} (f : A -> Answer) (m m' : M W A) w : m w = m' w -> answer f m w = answer f m' w.
Proof. intros Hm. unfold answer, bind. by rewrite Hm. Qed.

Lemma bind_same {A B} (m m' : M W A) (k : A -> M W B) w : m w = m' w -> bind m k w = bind m' k w.
Proof. intros Hm. unfold bind. by rewrite Hm. Qed.
Lemma wrapM_same {A} msg (m m' : M W A) w : m w = m' w -> wrapM msg m w = wrapM msg m' w.
Proof. intros Hm. unfold wrapM. by rewrite Hm. Qed.
Lemma attempt_same {A B} (m m' : M W A) (k : result A -> M W B) w : m w = m' w -> attempt m k w = attempt m' k w.
Proof. intros Hm. unfold attempt. by rewrite Hm. Qed.

(** The two statements of [Claim] are one but for the staleness tests. *)
Lemma Claim_statements tok j d : exists before after,
  in_quotes false before = false /\
  fill (StoragePostgres.Claim_args tok j d) (template PostgreSQL StoragePostgres.Claim_text)
    = Some (before ++ chars " < " ++ stale_postgres d ++ chars ")" ++ after) /\
  fill (StorageSqlite.Claim_args tok j d) (template SQLite StorageSqlite.Claim_text)
    = Some (before ++ chars " < " ++ stale_sqlite d ++ chars ")" ++ after).
Proof.
  exists (default [] (mapM (fill_tok [VText tok; VText j; VInt MaxClaimCount]) (template SQLite
"UPDATE metabolism_jobs
		 SET status = 'running', started_at = CURRENT_TIMESTAMP,
		     claim_token = ?, claim_count = claim_count + 1
		 WHERE id = ? AND claim_count < ? AND (
		     status = 'pending' OR
		     status = 'failed' OR
		     (status = 'running' AND started_at"))), (chars "
		 )").
  unfold StoragePostgres.Claim_args, StorageSqlite.Claim_args, stale_postgres, stale_sqlite.
  generalize (VInt (Z.quot d second)).
  generalize (VText ("-" +:+ fmt_d (Z.quot d second) +:+ " seconds")). intros u v.
  split_and!; vm_compute; reflexivity.
Qed.

Lemma Claim_same j d w : alike E (c_Claim j d) ->
  StoragePostgres.Claim (WrapPgxPool E) j d w = StorageSqlite.Claim (WrapSQLDB E) j d w.
Proof.
  intros Ha. unfold StoragePostgres.Claim, StorageSqlite.Claim. apply bind_ext. intros tok v.
  apply bind_same, wrapM_same. unfold ExecContext, statement. cbn [db_dialect db_engine WrapPgxPool WrapSQLDB].
  destruct (Claim_statements tok j d) as (before & after & Hq & -> & ->). by apply Ha.
Qed.

Lemma commit_body_same n ids w : ids <> [] ->
  StoragePostgres.commit_body (WrapPgxPool E) n ids w = StorageSqlite.commit_body (WrapSQLDB E) n ids w.
Proof.
  intros Hne. unfold StoragePostgres.commit_body, StorageSqlite.commit_body.
  apply bind_ext. intros id v. apply bind_ext. intros _ v'.
  apply bind_same, wrapM_same. by rewrite (exec_same _ _ _ (updateQ_same ids Hne)).
Qed.

Lemma CommitNarrative_same n ids w :
  StoragePostgres.CommitNarrative (WrapPgxPool E) n ids w
  = StorageSqlite.CommitNarrative (WrapSQLDB E) n ids w.
Proof.
  unfold StoragePostgres.CommitNarrative, StorageSqlite.CommitNarrative.
  destruct n as [n|]; [|done]. destruct ids as [|i ids]; [done|].
  cbn [db_engine WrapPgxPool WrapSQLDB]. destruct (negb _); [done|].
  apply bind_ext. intros _ v. apply attempt_same. by apply commit_body_same.
Qed.

Lemma scan_all_ext {A} msg (f g : list Value -> result A) rows :
  (forall r, f r = g r) -> scan_all msg f rows = scan_all msg g rows.
Proof. intros Hf. induction rows as [|r rows IH]; cbn; [done|]. by rewrite Hf, IH. Qed.

Lemma scan_log_same row : alike E (c_UncoveredLogs "") ->
  StoragePostgres.scan_log (WrapPgxPool E) row = StorageSqlite.scan_log (WrapSQLDB E) row.
Proof.
  intros Ha. unfold StoragePostgres.scan_log, StorageSqlite.scan_log.
  repeat (destruct row as [|? row]; [done|]). destruct row; [|done].
  cbn [db_engine WrapPgxPool WrapSQLDB]. unfold result_bind. by rewrite Ha.
Qed.

Lemma UncoveredLogs_same sid w : alike E (c_UncoveredLogs sid) ->
  StoragePostgres.UncoveredLogs (WrapPgxPool E) sid w = StorageSqlite.UncoveredLogs (WrapSQLDB E) sid w.
Proof.
  intros Ha. unfold StoragePostgres.UncoveredLogs, StorageSqlite.UncoveredLogs. same_text.
  apply bind_ext. intros rows v. unfold lift, collect.
  rewrite (scan_all_ext _ _ (StorageSqlite.scan_log (WrapSQLDB E))); [done|].
  intros row. by apply scan_log_same.
Qed.

(** C29: The two dialects of the storage stores are one program. Whatever the engine
    answers, a call of a PostgreSQL store sends the statements the SQLite store sends,
    with each argument in the same place, in the same order, and makes the same of the
    answers, errors included. [Claim] and [UncoveredLogs] are so provided the engine
    treats alike what they write differently: the staleness test in whatever statement
    it stands, the time column. *)
Theorem stores_portable c w (Halike : alike E c) : postgres_call E c w = sqlite_call E c w.
Proof.
  destruct c; cbn [sqlite_call postgres_call]; apply answer_ext.
  all: try reflexivity.
  - by apply Claim_same.
  - apply CommitNarrative_same.
  - by apply UncoveredLogs_same.
Qed.

End Portable.

(** The lookups compare the error of an empty answer with [sql.ErrNoRows] by identity.
    [sql.DB] returns that error and they answer with a zero; pgx returns an error of its
    own, and on an empty table every one of them fails. *)
Section Empty.
Context {W : Type} (E : Engine W) (w : W).
Hypothesis no_row : forall st, exists v, e_query E st w = (v, Ok ([], None)).

Lemma or_zero_empty {A B} D text msg (zero : B) (scan : list Value -> result A) k :
  forallb (fun x => match x with Txt _ => true | Hole _ => false end) (template D text) = true ->
  (StoragePostgres.or_zero msg zero (QueryRowContext {| db_engine := E; db_dialect := D |} text [] scan) k w).2
  = if is_ErrNoRows (e_no_rows E) then Ok zero else Err (EWrap msg (e_no_rows E)).
Proof.
  intros Hh. unfold StoragePostgres.or_zero, attempt, QueryRowContext, bind, QueryContext, statement, fill.
  cbn [db_dialect db_engine].
  assert (hole_count (template D text) = 0%nat /\
          exists st, mapM (fill_tok []) (template D text) = Some st) as (-> & st & ->).
  { revert Hh. induction (template D text) as [|x t IH]; [cbn; eauto|]. intros Hh.
    destruct x as [c|n]; [|done]. destruct (IH Hh) as (E1 & st & E2).
    split; [exact E1|]. cbn. rewrite E2. cbn. eauto. }
  cbn [Nat.eqb length].
  destruct (no_row st) as (v & ->). cbn. by destruct (is_ErrNoRows _).
Qed.

Theorem pgx_lookups_fail_when_empty (Hpgx : e_no_rows E <> ESentinel ErrNoRows) :
  let e msg := Err (EWrap msg (e_no_rows E)) in
  (StoragePostgres.LastStatus (WrapPgxPool E) w).2 = e "storage: querying last job status" /\
  (StoragePostgres.LastPolicyHash (WrapPgxPool E) w).2 = e "storage: querying last policy hash" /\
  (StoragePostgres.LastCheckpointState (WrapPgxPool E) w).2 = e "storage: querying last checkpoint state" /\
  (StoragePostgres.LastWakeAt (WrapPgxPool E) w).2
    = Err (EWrap "storage: querying last wake time" (e_no_rows E)).
Proof.
  assert (is_ErrNoRows (e_no_rows E) = false) as Hn by (destruct (e_no_rows E) as [|[]|]; done).
  unfold StoragePostgres.LastStatus, StoragePostgres.LastPolicyHash, StoragePostgres.LastCheckpointState,
    StoragePostgres.LastWakeAt, WrapPgxPool.
  split_and!; (rewrite or_zero_empty; [by rewrite Hn|vm_compute; reflexivity]).
Qed.
End Empty.

(** ** Runs *)

(** JSON is not looked at. *)
#[local] Instance no_json : JsonText :=
  {| Marshal_object := fun _ => "{}"; Marshal_floats := fun _ => "[]"; Marshal_strings := fun _ => "[]";
     Marshal_texts := fun _ => "{}"; Marshal_facts := fun _ => "{}"; Unmarshal_object := fun _ => None;
     Unmarshal_strings := fun _ => None |}.
(** An engine that keeps what [trace] tells of each statement it executes, and the
    queries. *)
Definition recorder_of (trace : Stmt -> Stmt) : Engine (list Stmt) :=
  {| e_exec := fun st l => (l ++ [trace st], Ok (Ok 1));
     e_query := fun st l => (l ++ [st], Ok ([], None)); e_transactions := true;
     e_begin := ret tt; e_commit := ret tt; e_rollback := ret tt; e_no_rows := ENew "no rows in result set";
     e_string := fun v => match v with VText s => Ok s | _ => Err (ENew "Scan") end;
     e_int := fun _ => Ok 0; e_bool := fun _ => Ok true; e_time := fun _ => Ok 0; e_float := fun _ => Ok f_zero; e_newID := ret "id"; e_now := ret 0 |}.
Definition recorder := recorder_of id.

(** A reading of statements for which a threshold is its number of seconds: the values,
    ["-300 seconds"] as 300, and the characters no threshold is written with. *)
Definition threshold_char (c : Ascii.ascii) : bool :=
  bool_decide (c ∈ String.list_ascii_of_string "datetime('now', ) - interval '1 second' * ").
Definition tells (x : Ascii.ascii + Value) : Stmt :=
  match x with
  | inl c => if threshold_char c then [] else [inl c]
  | inr (VText s) => [inr (if String.eqb s "-300 seconds" then VInt 300 else VText s)]
  | inr v => [inr v]
  end.
Definition reader := recorder_of (flat_map tells).
Lemma reader_alike j : alike reader (c_Claim j (5 * minute)).
Proof. intros before after w _. simpl. do 3 f_equal. by rewrite !flat_map_app. Qed.
Definition a_narrative : NarrativeSummary :=
  {| ns_ID := "n"; ns_SessionID := "s"; ns_Content := "c"; ns_Belief := None; ns_Embedding := [];
     ns_ContentSources := []; ns_ExternalAnnotation := None |}.

Lemma stores_portable_witness :
  let commit := c_CommitNarrative (Some a_narrative) ["a"; "b"; "c"] in
  let claim := c_Claim "j" (5 * minute) in
  postgres_call recorder commit [] = sqlite_call recorder commit [] /\
  length (sqlite_call recorder commit []).1 = 2%nat /\
  postgres_call reader claim [] = sqlite_call reader claim [] /\
  omap (fun x => match x with inr v => Some v | _ => None end) (concat (sqlite_call reader claim []).1)
    = [VText "id"; VText "j"; VInt MaxClaimCount; VInt 300].
Proof.
  intros commit claim. split; [exact (stores_portable recorder commit [] I)|].
  split; [vm_compute; reflexivity|].
  split; [exact (stores_portable reader claim [] (reader_alike "j"))|vm_compute; reflexivity].
Defined.

Lemma pgx_lookups_fail_when_empty_witness :
  (StoragePostgres.LastStatus (WrapPgxPool recorder) []).2
  = Err (EWrap "storage: querying last job status" (ENew "no rows in result set")).
Proof.
  exact (proj1 (pgx_lookups_fail_when_empty recorder [] (fun st => ex_intro _ _ eq_refl)
                  (fun H => match H with eq_refl => I end))).
Defined.
