(* ===== verification/Backlink.v ===== *)
(** * The first link transaction and job helpers, as statements
    ([metabolism/backlink.go], [metabolism/jobs.go], [recovery.go])

    What [Consolidation] and [Recovery] say of these on the tables, here as the texts and
    arguments they send, for the driver name they are given: [AtomicT2T3Link] with its
    fence, the two ways of writing each statement, and the column codecs of the three
    packages that keep copies of them. *)

From S2P Require Import Prelude Types MemoryStore Jobs Sql Recovery.
From S2P Require StorageSqlite StoragePostgres.
From S2P Require Import Portability.

(** ** The texts *)

Definition is_postgres (driver : string) : bool := String.eqb driver "postgres".

Definition narrativeInsertSQL (driver : string) : string :=
  if is_postgres driver then
"INSERT INTO narrative_summaries
			(id, session_id, content, belief_meta, content_sources, aegis_meta, created_at)
			VALUES ($1, $2, $3, $4::jsonb, $5, $6, now())"
  else
"INSERT INTO narrative_summaries
		(id, session_id, content, belief_meta, content_sources, aegis_meta, created_at)
		VALUES (?, ?, ?, ?, ?, ?, CURRENT_TIMESTAMP)".

(** [t2BacklinkSQL]: the text and its arguments. *)
Definition dollar (i : nat) : string := "$" +:+ fmt_d (Z.of_nat i + 2).
Definition t2BacklinkSQL (driver narrativeID : string) (logIDs : list string) : string * list Value :=
  (if is_postgres driver
   then "UPDATE experiential_logs SET narrative_summary_id = $1 WHERE id IN (" +:+
        str_join (imap (fun i (_ : string) => dollar i) logIDs) ", " +:+ ")"
   else "UPDATE experiential_logs SET narrative_summary_id = ? WHERE id IN (" +:+
        str_join (map (fun _ : string => "?") logIDs) ", " +:+ ")",
   VText narrativeID :: map VText logIDs).

Definition fence_text : string := "SELECT claim_token FROM metabolism_jobs WHERE id = ?".

Definition commitJobSQL (driver : string) : string :=
  if is_postgres driver then
"INSERT INTO metabolism_jobs (id, session_id, status, job_type, created_at)
			VALUES ($1, $2, $3, $4, now())"
  else
"INSERT INTO metabolism_jobs (id, session_id, status, job_type, created_at)
		VALUES (?, ?, ?, ?, CURRENT_TIMESTAMP)".
Definition updateJobStatusSQL (driver : string) : string :=
  if is_postgres driver then "UPDATE metabolism_jobs SET status = $1, error_message = $2 WHERE id = $3"
  else "UPDATE metabolism_jobs SET status = ?, error_message = ? WHERE id = ?".
Definition completeJobSQL (driver : string) : string :=
  if is_postgres driver
  then "UPDATE metabolism_jobs SET status = 'completed', completed_at = now() WHERE id = $1"
  else "UPDATE metabolism_jobs SET status = 'completed', completed_at = CURRENT_TIMESTAMP WHERE id = ?".
Definition failJobSQL (driver : string) : string :=
  if is_postgres driver then
"UPDATE metabolism_jobs
			SET status = 'failed', error_message = $1, retry_count = retry_count + 1
			WHERE id = $2"
  else
"UPDATE metabolism_jobs
		SET status = 'failed', error_message = ?, retry_count = retry_count + 1
		WHERE id = ?".
Definition fetchIncompleteSQL (driver : string) : string :=
"SELECT id, session_id, status, job_type,
			started_at, completed_at, error_message,
			retry_count, created_at
		FROM metabolism_jobs
		WHERE status IN ('pending', 'running')
		ORDER BY created_at ASC".

(** ** The copied codecs *)

Section Codecs.
Context `{JsonText}.

(** The object all three copies of the belief codec marshal. *)
Definition beliefMetaJSON (b : option BeliefMeta) : string :=
  match b with
  | None => "{}"
  | Some b =>
      let m : gmap string Jv :=
        <["anchor_at" := JStr (fmt_RFC3339 (bm_AnchorAt b))]>
        (<["inference_distance" := JNum (f_of_Z (bm_InferenceDistance b))]>
        (<["verification_state" := JStr (bm_VerificationState b)]>
        (<["source" := JStr (bm_Source b)]> ∅))) in
      let m := if negb (str_empty (bm_EmotionalRegister b))
               then <["emotional_register" := JStr (bm_EmotionalRegister b)]> m else m in
      Marshal_object m
  end.

Definition narrativeContentSourcesJSON (sources : list string) : string :=
  if (length sources =? 0)%nat then "[]" else Marshal_strings sources.

Definition narrativeAegisMetaJSON (ann : option AegisAnnotation) : string :=
  match ann with
  | None => ""
  | Some a =>
      let m : gmap string Jv :=
        <["trust_score" := JNum (aa_TrustScore a)]>
        (<["source" := JStr (aa_Source a)]>
        (<["content_source" := JStr (aa_ContentSource a)]>
        (<["scan_passed" := JBool (aa_ScanPassed a)]>
        (<["sanitized" := JBool (aa_Sanitized a)]>
        (<["annotated_at" := JStr (fmt_RFC3339 (aa_AnnotatedAt a))]> ∅))))) in
      let m := if (0 <? length (aa_Flags a))%nat then <["flags" := JStrs (aa_Flags a)]> m else m in
      Marshal_object m
  end.
End Codecs.

(** The copies of [platform/db.go], which also reads the columns. *)
Module Platform.
Section Platform.
Context `{JsonText}.

Definition beliefMetaJSON (b : option BeliefMeta) : string :=
  match b with
  | None => "{}"
  | Some b =>
      let m : gmap string Jv :=
        <["source" := JStr (bm_Source b)]>
        (<["verification_state" := JStr (bm_VerificationState b)]>
        (<["inference_distance" := JNum (f_of_Z (bm_InferenceDistance b))]>
        (<["anchor_at" := JStr (fmt_RFC3339 (bm_AnchorAt b))]> ∅))) in
      Marshal_object
        (if str_empty (bm_EmotionalRegister b) then m
         else <["emotional_register" := JStr (bm_EmotionalRegister b)]> m)
  end.

Definition aegisMetaJSON (ann : option AegisAnnotation) : string :=
  match ann with
  | None => ""
  | Some a =>
      let m : gmap string Jv :=
        <["annotated_at" := JStr (fmt_RFC3339 (aa_AnnotatedAt a))]>
        (<["sanitized" := JBool (aa_Sanitized a)]>
        (<["scan_passed" := JBool (aa_ScanPassed a)]>
        (<["content_source" := JStr (aa_ContentSource a)]>
        (<["source" := JStr (aa_Source a)]>
        (<["trust_score" := JNum (aa_TrustScore a)]> ∅))))) in
      Marshal_object (if (0 <? length (aa_Flags a))%nat then <["flags" := JStrs (aa_Flags a)]> m else m)
  end.

(** Field by field, from the zero annotation, as the assignments go. *)
Definition decodeAegisMeta (s : string) : option AegisAnnotation :=
  if str_empty s then None else
  match Unmarshal_object s with
  | None => None
  | Some m =>
      let trust := match m !! "trust_score" with Some (JNum v) => v | _ => f_of_Z 0 end in
      let source := match m !! "source" with Some (JStr v) => v | _ => "" end in
      let content := match m !! "content_source" with Some (JStr v) => v | _ => "" end in
      let passed := match m !! "scan_passed" with Some (JBool v) => v | _ => false end in
      let sanitized := match m !! "sanitized" with Some (JBool v) => v | _ => false end in
      let at_ := match m !! "annotated_at" with
                 | Some (JStr v) => match time_Parse_RFC3339 v with Some t => t | None => time_zero end
                 | _ => time_zero end in
      let flags := match m !! "flags" with Some (JStrs v) => foldl (fun acc f => acc ++ [f]) [] v | _ => [] end in
      Some {| aa_TrustScore := trust; aa_Source := source; aa_ContentSource := content; aa_Flags := flags;
              aa_Sanitized := sanitized; aa_ScanPassed := passed; aa_AnnotatedAt := at_ |}
  end.

Definition contentSourcesJSON (sources : list string) : string :=
  if (length sources =? 0)%nat then "[]" else Marshal_strings sources.
Definition decodeContentSources (s : string) : list string :=
  if str_empty s then [] else if String.eqb s "[]" then []
  else match Unmarshal_strings s with Some l => l | None => [] end.
End Platform.
End Platform.

(** ** The operations *)

Section Operations.
Context {W : Type} `{JsonText} (db : DB W) (driverName : string).
Notation E := (db_engine db).

(** Step 0; the text has no PostgreSQL version. *)
Definition fence_check (fenceJobID fenceToken : string) : M W unit :=
  if negb (str_empty fenceJobID) && negb (str_empty fenceToken) then
    let! currentToken := wrapM "metabolism: fence check query"
      (QueryRowContext db fence_text [VText fenceJobID] (scan_col (nullable (e_string E)) scan_end)) in
    match currentToken with
    | Some t => if String.eqb t fenceToken then ret tt else fail (EWrap "metabolism" (ESentinel ErrClaimFenced))
    | None => fail (EWrap "metabolism" (ESentinel ErrClaimFenced))
    end
  else ret tt.

Definition link_body (n : NarrativeSummary) (sourceLogIDs : list string) (fenceJobID fenceToken : string) : M W unit :=
  let! _ := fence_check fenceJobID fenceToken in
  let! _ := wrapM ("metabolism: inserting T3 narrative " +:+ ns_ID n)
    (ExecContext db (narrativeInsertSQL driverName)
       [VText (ns_ID n); VText (ns_SessionID n); VText (ns_Content n); VText (beliefMetaJSON (ns_Belief n));
        VText (narrativeContentSourcesJSON (ns_ContentSources n));
        VText (narrativeAegisMetaJSON (ns_ExternalAnnotation n))]) in
  let '(updateQ, args) := t2BacklinkSQL driverName (ns_ID n) sourceLogIDs in
  let! _ := wrapM ("metabolism: updating T2 back-links for narrative " +:+ ns_ID n)
    (ExecContext db updateQ args) in
  wrapM "metabolism: committing T2-T3 link transaction" (e_commit E).

Definition AtomicT2T3Link (narrative : option NarrativeSummary) (sourceLogIDs : list string)
    (fenceJobID fenceToken : string) : M W unit :=
  match narrative with
  | None => fail (ENew "metabolism: narrative summary is nil")
  | Some n =>
      if (length sourceLogIDs =? 0)%nat then fail (ENew "metabolism: no source log IDs for T2 back-link")
      else if negb (e_transactions E)
      then fail (ENew "metabolism: database does not support transactions (platform.TxDB)")
      else
        let! _ := wrapM "metabolism: beginning transaction" (e_begin E) in
        try! r := link_body n sourceLogIDs fenceJobID fenceToken in
        try! _ := e_rollback E in
        lift r
  end.

Definition CommitJob (sessionID jobType : string) : M W MetabolismJob :=
  let! id := e_newID E in
  let! now := e_now E in
  let! _ := wrapM ("metabolism: committing job for session " +:+ sessionID)
    (ExecContext db (commitJobSQL driverName)
       [VText id; VText sessionID; VText JobStatusPending; VText jobType]) in
  ret {| mj_ID := id; mj_SessionID := sessionID; mj_Status := JobStatusPending; mj_JobType := jobType;
         mj_StartedAt := None; mj_CompletedAt := None; mj_ErrorMsg := ""; mj_RetryCount := 0;
         mj_CreatedAt := now |}.
Definition UpdateJobStatus (jobID status errMsg : string) : M W unit :=
  let! _ := wrapM ("metabolism: updating job " +:+ jobID +:+ " to " +:+ status)
    (ExecContext db (updateJobStatusSQL driverName) [VText status; VText errMsg; VText jobID]) in
  ret tt.
Definition CompleteJob (jobID : string) : M W unit :=
  let! _ := wrapM ("metabolism: completing job " +:+ jobID)
    (ExecContext db (completeJobSQL driverName) [VText jobID]) in
  ret tt.
Definition FailJob (jobID errMsg : string) : M W unit :=
  let! _ := wrapM ("metabolism: failing job " +:+ jobID)
    (ExecContext db (failJobSQL driverName) [VText errMsg; VText jobID]) in
  ret tt.

Definition scan_job : list Value -> result MetabolismJob :=
  scan_col (e_string E) (fun id => scan_col (e_string E) (fun sid => scan_col (e_string E) (fun status =>
  scan_col (e_string E) (fun jt => scan_col (nullable (e_time E)) (fun started =>
  scan_col (nullable (e_time E)) (fun completed => scan_col (nullable (e_string E)) (fun msg =>
  scan_col (e_int E) (fun retries => scan_col (e_time E) (fun created =>
  scan_end {| mj_ID := id; mj_SessionID := sid; mj_Status := status; mj_JobType := jt;
              mj_StartedAt := started; mj_CompletedAt := completed; mj_ErrorMsg := default "" msg;
              mj_RetryCount := retries; mj_CreatedAt := created |}))))))))).
Definition fetchIncompleteJobs : M W (list MetabolismJob) :=
  let! rows := wrapM "querying incomplete jobs" (QueryContext db (fetchIncompleteSQL driverName) []) in
  lift (let? l := scan_all "scanning job row" scan_job rows.1 in
        match rows.2 with Some e => Err (EWrap "iterating job rows" e) | None => Ok l end).
End Operations.

(** ** The two drivers *)

(** Texts compared without white space, time functions and casts. *)
Definition blank (x : Tok) : bool :=
  match x with Txt c => is_char " " c || is_char newline c || is_char (String (Ascii.ascii_of_nat 9) "") c | Hole _ => false end.
Definition squeeze (t : Template) : Template := List.filter (fun x => negb (blank x)) t.
Fixpoint drop_prefix (p t : list Tok) : option (list Tok) :=
  match p, t with
  | [], _ => Some t
  | Txt a :: p, Txt b :: t => if Ascii.eqb a b then drop_prefix p t else None
  | _, _ => None
  end.
Definition chars (s : string) : list Tok := map Txt (String.list_ascii_of_string s).
(** [CURRENT_TIMESTAMP] for [now()], and nothing for [::jsonb]. *)
Fixpoint neutral (fuel : nat) (t : Template) : Template :=
  match fuel, t with
  | S fuel, x :: rest =>
      match drop_prefix (chars "now()") t, drop_prefix (chars "::jsonb") t with
      | Some t', _ => chars "CURRENT_TIMESTAMP" ++ neutral fuel t'
      | _, Some t' => neutral fuel t'
      | None, None => x :: neutral fuel rest
      end
  | _, _ => t
  end.
Definition same_statement (f : string -> string) : Prop :=
  let pg := squeeze (template PostgreSQL (f "postgres")) in
  neutral (length pg) pg = squeeze (template SQLite (f "sqlite3")).

Lemma helper_texts_agree :
  same_statement narrativeInsertSQL /\ same_statement commitJobSQL /\ same_statement updateJobStatusSQL /\
  same_statement completeJobSQL /\ same_statement failJobSQL /\ same_statement fetchIncompleteSQL.
Proof. unfold same_statement. split_and!; vm_compute; reflexivity. Qed.

(** The back-link texts are those of the storage stores, so the two drivers send the
    same statement. *)
Lemma backlink_texts_agree nid ids : ids <> [] ->
  template SQLite (t2BacklinkSQL "sqlite3" nid ids).1 = template PostgreSQL (t2BacklinkSQL "postgres" nid ids).1 /\
  (t2BacklinkSQL "sqlite3" nid ids).2 = (t2BacklinkSQL "postgres" nid ids).2.
Proof. intros Hne. split; [exact (updateQ_same ids Hne)|reflexivity]. Qed.

(** The three copies of the codecs write the same columns, and the two readers read
    them alike: what [platform] writes [storage] and [metabolism] would have written. *)
Lemma codecs_agree `{JsonText} b srcs ann s :
  (beliefMetaJSON b = Sql.beliefMetaJSON b /\ Platform.beliefMetaJSON b = Sql.beliefMetaJSON b) /\
  (narrativeContentSourcesJSON srcs = contentSourcesJSON srcs /\ Platform.contentSourcesJSON srcs = contentSourcesJSON srcs) /\
  (narrativeAegisMetaJSON ann = aegisMetaJSON ann /\ Platform.aegisMetaJSON ann = aegisMetaJSON ann) /\
  Platform.decodeAegisMeta s = decodeAegisMeta s /\ Platform.decodeContentSources s = decodeContentSources s.
Proof.
  assert (Hfold : forall v acc : list string, foldl (fun acc f => acc ++ [f]) acc v = acc ++ v).
  { induction v as [|x v IH]; intros acc; simpl; [by rewrite app_nil_r|]. by rewrite IH, <- app_assoc. }
  split_and!.
  - destruct b as [b|]; [|done]. unfold beliefMetaJSON, Sql.beliefMetaJSON. by destruct (str_empty _).
  - destruct b as [b|]; [|done]. unfold Platform.beliefMetaJSON, Sql.beliefMetaJSON.
    assert (Hm : forall k1 k2 k3 k4 : Jv, <["source" := k4]> (<["verification_state" := k3]> (<["inference_distance" := k2]>
       (<["anchor_at" := k1]> (∅ : gmap string Jv)))) = <["anchor_at" := k1]> (<["inference_distance" := k2]>
       (<["verification_state" := k3]> (<["source" := k4]> ∅)))).
    { intros. apply map_eq. intros i. rewrite !lookup_insert. by repeat case_decide; subst. }
    by rewrite Hm.
  - by destruct srcs.
  - by destruct srcs.
  - destruct ann as [a|]; [|done]. unfold narrativeAegisMetaJSON, aegisMetaJSON. by destruct (aa_Flags a).
  - destruct ann as [a|]; [|done]. unfold Platform.aegisMetaJSON, aegisMetaJSON.
    assert (Hm : forall k1 k2 k3 k4 k5 k6 : Jv,
       <["annotated_at" := k6]> (<["sanitized" := k5]> (<["scan_passed" := k4]> (<["content_source" := k3]>
         (<["source" := k2]> (<["trust_score" := k1]> (∅ : gmap string Jv)))))) =
       <["trust_score" := k1]> (<["source" := k2]> (<["content_source" := k3]> (<["scan_passed" := k4]>
         (<["sanitized" := k5]> (<["annotated_at" := k6]> ∅)))))).
    { intros. apply map_eq. intros i. rewrite !lookup_insert. by repeat case_decide; subst. }
    rewrite Hm. by destruct (aa_Flags a).
  - unfold Platform.decodeAegisMeta, decodeAegisMeta, str_field, bool_field.
    destruct (str_empty s); [done|]. destruct (Unmarshal_object s) as [m|]; [|done].
    do 2 f_equal. destruct (m !! _) as [[]|]; try done; apply Hfold.
  - unfold Platform.decodeContentSources, decodeContentSources. destruct (str_empty s); [done|].
    simpl. destruct (String.eqb s "[]"); [done|]. by destruct (Unmarshal_strings s).
Qed.

(** A link that reports success on either driver began a transaction, read the worker's
    own token when it was given one, inserted the narrative, wrote the back-links of all
    its logs and committed, in this order; the deferred rollback came after the commit. *)
Lemma link_committed {W} `{JsonText} (db : DB W) driver n ids jid tok w w' :
  AtomicT2T3Link db driver (Some n) ids jid tok w = (w', Ok tt) ->
  exists w1 w2 w3 w4 w5 k1 k2,
    e_begin (db_engine db) w = (w1, Ok tt) /\
    fence_check db jid tok w1 = (w2, Ok tt) /\
    ExecContext db (narrativeInsertSQL driver)
      [VText (ns_ID n); VText (ns_SessionID n); VText (ns_Content n); VText (beliefMetaJSON (ns_Belief n));
       VText (narrativeContentSourcesJSON (ns_ContentSources n));
       VText (narrativeAegisMetaJSON (ns_ExternalAnnotation n))] w2 = (w3, Ok k1) /\
    ExecContext db (t2BacklinkSQL driver (ns_ID n) ids).1 (VText (ns_ID n) :: map VText ids) w3 = (w4, Ok k2) /\
    e_commit (db_engine db) w4 = (w5, Ok tt) /\ w' = (e_rollback (db_engine db) w5).1.
Proof.
  unfold AtomicT2T3Link. destruct (_ =? 0)%nat; [done|]. destruct (negb _); [done|]. intros E.
  apply bind_Ok in E as (w1 & [] & E1 & E). apply wrapM_Ok in E1. unfold attempt in E.
  destruct (link_body db driver n ids jid tok w1) as [w5 r] eqn:Eb. unfold lift in E.
  destruct (e_rollback (db_engine db) w5) as [w6 rr] eqn:Er. injection E as <- ->.
  unfold link_body in Eb. apply bind_Ok in Eb as (w2 & [] & E2 & Eb).
  apply bind_Ok in Eb as (w3 & k1 & E3 & Eb). apply wrapM_Ok in E3.
  unfold t2BacklinkSQL in Eb at 1. apply bind_Ok in Eb as (w4 & k2 & E4 & Eb). apply wrapM_Ok in E4, Eb.
  exists w1, w2, w3, w4, w5, k1, k2. by rewrite Er.
Qed.

(** With a fence, the link never succeeds on PostgreSQL: the text of the fence query
    names its parameter [?], which is no parameter there. Nothing is written. *)
Theorem postgres_fence_refuses {W} `{JsonText} (E : Engine W) driver n ids jid tok w w1 :
  ids <> [] -> jid <> "" -> tok <> "" -> e_transactions E = true -> e_begin E w = (w1, Ok tt) ->
  AtomicT2T3Link (WrapPgxPool E) driver (Some n) ids jid tok w
  = ((e_rollback E w1).1,
     Err (EWrap "metabolism: fence check query"
            (ENew "expected 0 arguments, got 1"))).
Proof.
  intros Hids Hj Ht Htx Hb. unfold AtomicT2T3Link. cbn [db_engine WrapPgxPool].
  destruct ids as [|i ids]; [done|]. cbn [length Nat.eqb]. rewrite Htx. cbn [negb].
  unfold bind at 1, wrapM at 1. rewrite Hb. cbn [wrap_err]. unfold attempt.
  assert (Hf : forall A msg (k : option string -> M W A), bind (wrapM msg (QueryRowContext (WrapPgxPool E) fence_text [VText jid]
             (scan_col (nullable (e_string E)) scan_end))) k w1
          = (w1, Err (EWrap msg (ENew "expected 0 arguments, got 1")))) by reflexivity.
  unfold link_body, fence_check. cbn [db_engine WrapPgxPool].
  destruct (str_empty jid) eqn:E1; [by apply str_empty_true in E1|].
  destruct (str_empty tok) eqn:E2; [by apply str_empty_true in E2|]. cbn [negb andb].
  unfold bind at 1. rewrite Hf. destruct (e_rollback E w1). reflexivity.
Qed.

#[local] Existing Instance no_json.
Lemma postgres_fence_refuses_witness :
  (AtomicT2T3Link (WrapPgxPool recorder) "postgres" (Some a_narrative) ["a"] "j" "t" []) =
  ([], Err (EWrap "metabolism: fence check query" (ENew "expected 0 arguments, got 1"))).
Proof.
  exact (postgres_fence_refuses recorder "postgres" a_narrative ["a"] "j" "t" [] []
           ltac:(discriminate) ltac:(discriminate) ltac:(discriminate) eq_refl eq_refl).
Defined.
(** Without one it is sent whole, and as on SQLite but for the cast and [now()]. *)
Example unfenced_link_is_sent :
  length (AtomicT2T3Link (WrapPgxPool recorder) "postgres" (Some a_narrative) ["a"; "b"] "" "" []).1 = 2%nat.
Proof. vm_compute. reflexivity. Qed.
