(* ===== verification/PlatformPg.v ===== *)
(** * The PostgreSQL memory store as it is written: [PostgresStore] of [platform/*.go]

    The statements' texts and arguments as the code builds them, on the pgx pool. The
    codecs of [db.go] are those of [Sql], which [storage.go] says it mirrors. *)

From S2P Require Import Prelude Types MemoryStore Memory MemoryTiers Settings Sql.

(** [''"verification_state":"stale"''], the quotes being double quotes. *)
Definition quoted_stale : string :=
  dquote +:+ "verification_state" +:+ dquote +:+ ":" +:+ dquote +:+ "stale" +:+ dquote.

(** ** The texts *)

Definition q_GetAnchor : string :=
"SELECT sha256_hash, COALESCE(amendment_id, '') FROM identity_anchors WHERE doc_name = $1".
Definition q_UpsertAnchor : string :=
"INSERT INTO identity_anchors (doc_name, sha256_hash, amendment_id, verified_at)
		 VALUES ($1, $2, $3, now())
		 ON CONFLICT(doc_name) DO UPDATE SET
			sha256_hash  = EXCLUDED.sha256_hash,
			amendment_id = EXCLUDED.amendment_id,
			verified_at  = now()".
Definition q_GetAmendmentByID : string :=
"SELECT id, doc_name, old_hash, new_hash, reason, co_signer, created_at
		 FROM identity_amendments WHERE id = $1".
Definition q_InsertAmendment : string :=
"INSERT INTO identity_amendments
			(id, doc_name, old_hash, new_hash, reason, co_signer, created_at)
		 VALUES ($1, $2, $3, $4, $5, $6, now())".
Definition q_ListAmendments : string :=
"SELECT id, doc_name, old_hash, new_hash, reason, co_signer, created_at
		 FROM identity_amendments WHERE doc_name = $1
		 ORDER BY created_at DESC".
Definition q_ListAnchoredDocs : string :=
"SELECT doc_name FROM identity_anchors".
Definition q_InsertSubstrateTransition : string :=
"INSERT INTO substrate_transitions
			(id, model_name, model_version, transition_date, continuity_letter_path, previous_entry_id, created_at)
		 VALUES ($1, $2, $3, $4, $5, $6, now())".
Definition q_GetLatestSubstrate : string :=
"SELECT id, model_name, model_version, transition_date,
			continuity_letter_path, COALESCE(previous_entry_id, ''), created_at
		 FROM substrate_transitions ORDER BY transition_date DESC LIMIT 1".
Definition q_ListSubstrateHistory : string :=
"SELECT id, model_name, model_version, transition_date,
			continuity_letter_path, COALESCE(previous_entry_id, ''), created_at
		 FROM substrate_transitions ORDER BY transition_date ASC".
Definition q_GetSetting : string :=
"SELECT name, value, default_value, bounds, owner, consent_required,
	description, last_changed, changed_by, reason FROM agent_settings WHERE name = $1".
Definition q_ListSettings : string :=
"SELECT name, value, default_value, bounds, owner, consent_required,
	description, last_changed, changed_by, reason FROM agent_settings ORDER BY name".
Definition q_ListSettings_1 : string :=
"SELECT name, value, default_value, bounds, owner, consent_required,
	description, last_changed, changed_by, reason FROM agent_settings WHERE owner = $1 ORDER BY name".
Definition q_UpsertSetting : string :=
"INSERT INTO agent_settings
			(name, value, default_value, bounds, owner, consent_required,
			 description, last_changed, changed_by, reason)
		 VALUES ($1, $2, $3, $4, $5, $6, $7, $8, $9, $10)
		 ON CONFLICT(name) DO UPDATE SET
			value            = EXCLUDED.value,
			bounds           = EXCLUDED.bounds,
			owner            = EXCLUDED.owner,
			consent_required = EXCLUDED.consent_required,
			description      = EXCLUDED.description,
			last_changed     = EXCLUDED.last_changed,
			changed_by       = EXCLUDED.changed_by,
			reason           = EXCLUDED.reason".
Definition q_applyOrProposePostgres : string :=
"UPDATE agent_settings SET value = $1, last_changed = $2, changed_by = $3, reason = $4
			 WHERE name = $5".
Definition q_applyOrProposePostgres_1 : string :=
"INSERT INTO operator_actions
				(id, action_type, actor, description, reason, created_at)
			 VALUES ($1, 'settings_change', $2, $3, $4, now())".
Definition q_applyOrProposePostgres_2 : string :=
"INSERT INTO operator_actions
				(id, action_type, actor, description, reason, created_at)
			 VALUES ($1, 'settings_proposal', $2, $3, $4, now())".
Definition q_GetTrust : string :=
"SELECT trust_score, interactions FROM trust_registry WHERE source = $1".
Definition q_UpdateTrust : string :=
"INSERT INTO trust_registry (source, trust_score, interactions, first_seen, last_seen)
		 VALUES ($1, $2, 0, now(), now())
		 ON CONFLICT(source) DO UPDATE SET
			trust_score = EXCLUDED.trust_score,
			last_seen   = now()".
Definition q_IncrementInteractions : string :=
"INSERT INTO trust_registry (source, trust_score, interactions, first_seen, last_seen)
		 VALUES ($1, 0.40, 1, now(), now())
		 ON CONFLICT(source) DO UPDATE SET
			interactions = trust_registry.interactions + 1,
			last_seen    = now()".
Definition q_AppendExperiential : string :=
"INSERT INTO experiential_logs
			(id, session_id, content, content_source, aegis_meta, embedding_pending, created_at)
		 VALUES ($1, $2, $3, $4, $5, TRUE, now())".
Definition q_SearchNarrative : string :=
"SELECT id, session_id, content, belief_meta::text, content_sources, aegis_meta
		 FROM narrative_summaries
		 ORDER BY created_at DESC LIMIT $1".
Definition q_InsertNarrative : string :=
"INSERT INTO narrative_summaries
			(id, session_id, content, belief_meta, content_sources, aegis_meta, created_at)
		 VALUES ($1, $2, $3, $4::jsonb, $5, $6, now())".
Definition q_InsertReflection : string :=
"INSERT INTO reflections
			(id, reflection_type, content, base_confidence, belief_meta, visibility, created_at)
		 VALUES ($1, $2, $3, $4, $5::jsonb, $6, now())".
Definition q_SearchReflections : string :=
"SELECT id, content, visibility, belief_meta::text, base_confidence
		 FROM reflections
		 ORDER BY created_at DESC LIMIT $1".
Definition q_GetReflectionByID : string :=
"SELECT id, content, visibility, belief_meta::text, base_confidence
		 FROM reflections WHERE id = $1".
Definition q_SearchEntities : string :=
"SELECT id, name, entity_type, summary, belief_meta::text
		 FROM kg_entities
		 WHERE (name ILIKE $1 OR summary ILIKE $1) AND t_expired IS NULL
		 ORDER BY t_created DESC LIMIT $2".
Definition q_UpsertEntity : string :=
"INSERT INTO kg_entities
			(id, name, entity_type, summary, aliases, belief_meta, t_created)
		 VALUES ($1, $2, $3, $4, $5, $6::jsonb, now())
		 ON CONFLICT(id) DO UPDATE SET
			name        = EXCLUDED.name,
			entity_type = EXCLUDED.entity_type,
			summary     = EXCLUDED.summary,
			belief_meta = EXCLUDED.belief_meta".
Definition q_GetProfile : string :=
"SELECT id, name, content FROM relational_profiles
		 WHERE name = $1 OR aliases::text ILIKE $2 LIMIT 1".
Definition q_ListProfiles : string :=
"SELECT id, name, content FROM relational_profiles ORDER BY name".
Definition q_QueryLogs : string :=
"SELECT id, session_id, content, content_source, aegis_meta, created_at
		 FROM experiential_logs
		 WHERE session_id = $1
		 ORDER BY created_at ASC
		 LIMIT $2".
Definition q_InvalidateEntity : string :=
"UPDATE kg_entities SET t_expired = $1 WHERE id = $2 AND t_expired IS NULL".
Definition q_InvalidateRelationship : string :=
"UPDATE kg_relationships SET t_expired = $1 WHERE id = $2 AND t_expired IS NULL".
Definition q_InsertSupersedgesEdge : string :=
"INSERT INTO memory_edges
			(id, from_id, from_tier, to_id, to_tier, edge_type, author, created_at)
		 VALUES ($1, $2, 5, $3, 5, 'supersedes', 'system', $4)".
Definition q_CreateEdge : string :=
"INSERT INTO memory_edges
			(id, from_id, from_tier, to_id, to_tier, edge_type, author, created_at)
		 VALUES ($1, $2, $3, $4, $5, $6, $7, $8)
		 ON CONFLICT (from_id, to_id, edge_type) DO NOTHING".
Definition q_GetEdges : string :=
"SELECT id, from_id, from_tier, to_id, to_tier, edge_type, author, created_at
				 FROM memory_edges WHERE from_id = $1 ORDER BY created_at ASC".
Definition q_GetEdges_1 : string :=
"SELECT id, from_id, from_tier, to_id, to_tier, edge_type, author, created_at
				 FROM memory_edges WHERE to_id = $1 ORDER BY created_at ASC".
Definition q_FetchDownstreamEdges : string :=
"SELECT from_id, from_tier FROM memory_edges
		 WHERE to_id = $1 AND edge_type = 'derived_from'".
Definition q_QueryEdgesForBFS : string :=
"SELECT to_id, to_tier FROM memory_edges
		 WHERE from_id = $1 AND edge_type = 'derived_from'".
Definition q_LoadBeliefRecords (table : string) : string :=
"SELECT id, belief_meta::text FROM " +:+ table +:+ "
			 WHERE belief_meta::text != '{}' AND belief_meta::text != ''
			   AND belief_meta::text NOT LIKE '%" +:+ quoted_stale +:+ "%'".
Definition q_LoadBeliefRecords_1 : string :=
"SELECT id, belief_meta::text, base_confidence FROM reflections
		 WHERE base_confidence IS NOT NULL
		   AND belief_meta::text != '{}' AND belief_meta::text != ''
		   AND belief_meta::text NOT LIKE '%" +:+ quoted_stale +:+ "%'".
Definition q_UpdateVerificationState (table : string) : string :=
"UPDATE " +:+ table +:+ " SET belief_meta = jsonb_set(belief_meta, '{verification_state}', to_jsonb($1::text)) WHERE id = $2".
Definition q_MarkNeedsReview (table : string) : string :=
"UPDATE " +:+ table +:+ " SET belief_meta = jsonb_set(belief_meta, '{verification_state}', to_jsonb($1::text)) WHERE id = $2".

(** ** The operations *)

Section Store.
Context {W : Type} `{JsonText} (E : Engine W).
Let pool : DB W := WrapPgxPool E.
Let newPlatformID : M W string := e_newID E.
Let str : Value -> result string := e_string E.
Let int : Value -> result Z := e_int E.
Let time : Value -> result Z := e_time E.

(** [errors.Is(err, pgx.ErrNoRows)] of an error of [Scan]. *)
Definition no_rows (e : error) : bool := bool_decide (e = e_no_rows E).
(** A row, or [nil] when there is none. *)
Definition row_or_nil {A} (wrap : error -> error) (m : M W A) : M W (option A) :=
  try! r := m in
  match r with
  | Ok a => ret (Some a)
  | Err e => if no_rows e then ret None else fail (wrap e)
  end.
Definition plain (e : error) : error := e.
(** [return err] after an [Exec] *)
Definition done_ (m : M W (result Z)) : M W unit := let! _ := m in ret tt.
(** pgx's [RowsAffected] has no error. *)
Definition affected (m : M W (result Z)) : M W Z :=
  let! n := m in ret (match n with Ok n => n | Err _ => 0 end).
Definition null_if_empty (s : string) : Value := if str_empty s then VNull else VText s.

(** ** Anchors and amendments ([identity.go]) *)

Definition GetAnchor (docName : string) : M W (string * string) :=
  let! r := row_or_nil (EWrap ("platform: getting anchor for " +:+ fmt_q docName))
    (QueryRowContext pool q_GetAnchor
       [VText docName]
       (scan_col str (fun hash => scan_col str (fun amendment => scan_end (hash, amendment))))) in
  ret (default ("", "") r).

Definition UpsertAnchor (docName hash amendmentID : string) : M W unit :=
  done_ (wrapM ("platform: upserting anchor for " +:+ fmt_q docName)
    (ExecContext pool q_UpsertAnchor
       [VText docName; VText hash; null_if_empty amendmentID])).

Definition scan_amendment : list Value -> result AmendmentRecord :=
  scan_col str (fun id => scan_col str (fun doc => scan_col str (fun old => scan_col str (fun new =>
  scan_col str (fun reason => scan_col str (fun signer => scan_col time (fun created =>
  scan_end {| am_ID := id; am_DocName := doc; am_OldHash := old; am_NewHash := new;
              am_Reason := reason; am_CoSigner := signer; am_CreatedAt := created |}))))))).

Definition GetAmendmentByID (id : string) : M W (option AmendmentRecord) :=
  row_or_nil (EWrap ("platform: getting amendment " +:+ fmt_q id))
    (QueryRowContext pool q_GetAmendmentByID
       [VText id] scan_amendment).

Definition InsertAmendment (rec : AmendmentRecord) : M W string :=
  let! id := if str_empty (am_ID rec) then newPlatformID else ret (am_ID rec) in
  let! _ := wrapM "platform: inserting amendment"
    (ExecContext pool q_InsertAmendment
       [VText id; VText (am_DocName rec); VText (am_OldHash rec); VText (am_NewHash rec);
        VText (am_Reason rec); VText (am_CoSigner rec)]) in
  ret id.

Definition ListAmendments (docName : string) : M W (list AmendmentRecord) :=
  let! rows := wrapM ("platform: listing amendments for " +:+ fmt_q docName)
    (QueryContext pool q_ListAmendments
       [VText docName]) in
  lift (collect "platform: scanning amendment row" scan_amendment rows).

Definition ListAnchoredDocs : M W (list string) :=
  let! rows := wrapM "platform: listing anchored docs"
    (QueryContext pool q_ListAnchoredDocs []) in
  lift (collect "platform: scanning anchored doc" (scan_col str (fun n => scan_end n)) rows).

(** ** Substrate *)

Definition InsertSubstrateTransition (entry : SubstrateTransition) : M W unit :=
  done_ (wrapM "platform: inserting substrate transition"
    (ExecContext pool q_InsertSubstrateTransition
       [VText (sb_ID entry); VText (sb_ModelName entry); VText (sb_ModelVersion entry);
        VTime (sb_TransitionDate entry); VText (sb_ContinuityLetterPath entry);
        null_if_empty (sb_PreviousEntryID entry)])).

Definition scan_substrate : list Value -> result SubstrateTransition :=
  scan_col str (fun id => scan_col str (fun model => scan_col str (fun version => scan_col time (fun at_ =>
  scan_col str (fun letter => scan_col str (fun previous => scan_col time (fun created =>
  scan_end {| sb_ID := id; sb_ModelName := model; sb_ModelVersion := version; sb_TransitionDate := at_;
              sb_ContinuityLetterPath := letter; sb_PreviousEntryID := previous;
              sb_CreatedAt := created |}))))))).

Definition GetLatestSubstrate : M W (option SubstrateTransition) :=
  row_or_nil (EWrap "platform: scanning substrate row")
    (QueryRowContext pool q_GetLatestSubstrate [] scan_substrate).

Definition ListSubstrateHistory : M W (list SubstrateTransition) :=
  let! rows := wrapM "platform: listing substrate history"
    (QueryContext pool q_ListSubstrateHistory []) in
  lift (collect "platform: scanning substrate row" scan_substrate rows).

(** ** Settings ([settings.go]) *)

Definition scanSettingsRow : list Value -> result SettingsEntry :=
  scan_col str (fun name => scan_col str (fun value => scan_col str (fun default_value =>
  scan_col str (fun bounds => scan_col str (fun owner => scan_col (e_bool E) (fun consent =>
  scan_col str (fun description => scan_col time (fun changed => scan_col str (fun by_ =>
  scan_col str (fun reason =>
  let '(min, max) := parseBounds bounds in
  scan_end {| se_Name := name; se_Value := value; se_DefaultValue := default_value; se_BoundsMin := min;
              se_BoundsMax := max; se_Owner := owner; se_ConsentRequired := consent;
              se_Description := description; se_LastChanged := changed; se_ChangedBy := by_;
              se_Reason := reason |})))))))))).

Definition GetSetting (name : string) : M W (option SettingsEntry) :=
  row_or_nil (EWrap ("platform: getting setting " +:+ fmt_q name))
    (QueryRowContext pool q_GetSetting
       [VText name] scanSettingsRow).

Definition ListSettings (ownerFilter : string) : M W (list SettingsEntry) :=
  let! rows := wrapM "platform: listing settings"
    (if str_empty ownerFilter
     then QueryContext pool q_ListSettings []
     else QueryContext pool q_ListSettings_1 [VText ownerFilter]) in
  lift (collect "platform: scanning settings row" scanSettingsRow rows).

Definition UpsertSetting (entry : SettingsEntry) : M W unit :=
  let! now := e_now E in
  done_ (wrapM ("platform: upserting setting " +:+ fmt_q (se_Name entry))
    (ExecContext pool q_UpsertSetting
       [VText (se_Name entry); VText (se_Value entry); VText (se_DefaultValue entry);
        VText (buildBoundsJSON (se_BoundsMin entry) (se_BoundsMax entry)); VText (se_Owner entry);
        VBool (se_ConsentRequired entry); VText (se_Description entry); VTime now;
        VText (se_ChangedBy entry); VText (se_Reason entry)])).

Definition applyOrProposePostgres (entry : SettingsEntry) (value reason proposedBy : string) : M W unit :=
  let name := se_Name entry in
  if String.eqb (se_Owner entry) "operator" then
    fail (ENew ("platform: setting " +:+ fmt_q name +:+ " is operator-only; agent cannot change it"))
  else if String.eqb (se_Owner entry) "agent" then
    let! now := e_now E in
    let! _ := wrapM ("platform: applying setting " +:+ fmt_q name)
      (ExecContext pool q_applyOrProposePostgres
         [VText value; VTime now; VText proposedBy; VText reason; VText name]) in
    let! id := newPlatformID in
    done_ (ExecContext pool q_applyOrProposePostgres_1
       [VText id; VText proposedBy; VText ("agent setting " +:+ fmt_q name +:+ " changed to " +:+ value);
        VText reason])
  else if String.eqb (se_Owner entry) "negotiated" then
    let! id := newPlatformID in
    done_ (ExecContext pool q_applyOrProposePostgres_2
       [VText id; VText proposedBy; VText ("proposal: change " +:+ fmt_q name +:+ " to " +:+ value);
        VText reason])
  else fail (ENew ("platform: unknown owner " +:+ fmt_q (se_Owner entry) +:+ " for setting " +:+ fmt_q name)).

Definition ProposeSetting (name value reason proposedBy : string) : M W unit :=
  let! existing := GetSetting name in
  match existing with
  | None => fail (ENew ("platform: setting " +:+ fmt_q name +:+ " not found"))
  | Some e => applyOrProposePostgres e value reason proposedBy
  end.

(** ** Trust ([trust.go]) *)

(** [fmt.Errorf("%w", pkg.ErrTrustNotFound)] *)
Definition GetTrust (source : string) : M W (float64 * Z) :=
  let! r := row_or_nil (EWrap ("platform: getting trust for " +:+ fmt_q source))
    (QueryRowContext pool q_GetTrust
       [VText source]
       (scan_col (e_float E) (fun score => scan_col int (fun n => scan_end (score, n))))) in
  match r with Some r => ret r | None => fail (ESentinel ErrTrustNotFound) end.

Definition UpdateTrust (source : string) (score : float64) : M W unit :=
  done_ (wrapM ("platform: updating trust for " +:+ fmt_q source)
    (ExecContext pool q_UpdateTrust
       [VText source; VFloat score])).

Definition IncrementInteractions (source : string) : M W unit :=
  done_ (wrapM ("platform: incrementing interactions for " +:+ fmt_q source)
    (ExecContext pool q_IncrementInteractions
       [VText source])).

(** ** The memory tiers ([memory.go]) *)

Definition AppendExperiential (entry : ExperientialLog) : M W unit :=
  done_ (ExecContext pool q_AppendExperiential
    [VText (el_ID entry); VText (el_SessionID entry); VText (el_Content entry);
     VText (el_ContentSource entry); VText (aegisMetaJSON (el_AegisAnnotation entry))]).

Definition scan_narrative : list Value -> result NarrativeSummary :=
  scan_col str (fun id => scan_col str (fun sid => scan_col str (fun content => scan_col str (fun meta =>
  scan_col str (fun sources => scan_col str (fun aegis =>
  scan_end {| ns_ID := id; ns_SessionID := sid; ns_Content := content;
              ns_Belief := Some (decodeBelief meta None); ns_Embedding := [];
              ns_ContentSources := decodeContentSources sources;
              ns_ExternalAnnotation := decodeAegisMeta aegis |})))))).
(** [return nil, err] on each error. *)
Definition collect_plain {A} (scan : list Value -> result A) (rows : Rows) : result (list A) :=
  let? l := foldr (fun r acc => let? a := scan r in let? l := acc in Ok (a :: l)) (Ok []) rows.1 in
  match rows.2 with Some e => Err e | None => Ok l end.

Definition SearchNarrative (limit : Z) : M W (list NarrativeSummary) :=
  let! rows := QueryContext pool q_SearchNarrative [VInt limit] in
  lift (collect_plain scan_narrative rows).

(** The belief a narrative or an entity is written with: a default one, or the given
    one dated now when it has no date. *)
Definition written_belief (b : option BeliefMeta) : M W BeliefMeta :=
  match b with
  | None =>
      let! now := e_now E in
      ret {| bm_BaseConfidence := f_of_Z 1; bm_AnchorAt := now; bm_InferenceDistance := 1;
             bm_VerificationState := "unverified"; bm_Source := ""; bm_EmotionalRegister := "" |}
  | Some b =>
      if time_IsZero (bm_AnchorAt b) then
        let! now := e_now E in
        ret {| bm_BaseConfidence := bm_BaseConfidence b; bm_AnchorAt := now;
               bm_InferenceDistance := bm_InferenceDistance b;
               bm_VerificationState := bm_VerificationState b; bm_Source := bm_Source b;
               bm_EmotionalRegister := bm_EmotionalRegister b |}
      else ret b
  end.

Definition InsertNarrative (summary : NarrativeSummary) : M W unit :=
  let! belief := written_belief (ns_Belief summary) in
  done_ (ExecContext pool q_InsertNarrative
    [VText (ns_ID summary); VText ""; VText (ns_Content summary);
     VText (beliefMetaJSON (Some belief));
     VText (contentSourcesJSON (ns_ContentSources summary));
     VText (aegisMetaJSON (ns_ExternalAnnotation summary))]).

(** [base_confidence]: NULL unless the agent dated its belief. *)
Definition base_conf_arg (b : option BeliefMeta) : Value :=
  match b with
  | Some b => if time_IsZero (bm_AnchorAt b) then VNull else VFloat (bm_BaseConfidence b)
  | None => VNull
  end.
Definition InsertReflection (ref : Reflection) : M W unit :=
  done_ (ExecContext pool q_InsertReflection
    [VText (rf_ID ref); VText (if str_empty (rf_Type ref) then "note" else rf_Type ref);
     VText (rf_Content ref); base_conf_arg (rf_Belief ref); VText (beliefMetaJSON (rf_Belief ref));
     VText (if str_empty (rf_Visibility ref) then VisibilityPrivate else rf_Visibility ref)]).

Definition scan_reflection : list Value -> result Reflection :=
  scan_col str (fun id => scan_col str (fun content => scan_col str (fun visibility =>
  scan_col str (fun meta => scan_col (nullable (e_float E)) (fun conf =>
  scan_end {| rf_ID := id; rf_Type := ""; rf_Content := content; rf_Visibility := visibility;
              rf_Belief := Some (decodeBelief meta conf); rf_Embedding := [] |}))))).

Definition SearchReflections (limit : Z) : M W (list Reflection) :=
  let! rows := QueryContext pool q_SearchReflections [VInt limit] in
  lift (collect_plain scan_reflection rows).

Definition GetReflectionByID (id : string) : M W (option Reflection) :=
  row_or_nil plain
    (QueryRowContext pool q_GetReflectionByID [VText id] scan_reflection).

Definition scan_entity : list Value -> result Entity :=
  scan_col str (fun id => scan_col str (fun name => scan_col str (fun type => scan_col str (fun content =>
  scan_col str (fun meta =>
  scan_end {| en_ID := id; en_Name := name; en_Type := type; en_Content := content;
              en_Belief := Some (decodeBelief meta None); en_Embedding := [] |}))))).
Definition SearchEntities (q : string) (limit : Z) : M W (list Entity) :=
  let! rows := QueryContext pool q_SearchEntities
    [VText (contains_pattern q); VInt limit] in
  lift (collect_plain scan_entity rows).

Definition UpsertEntity (entity : Entity) : M W unit :=
  let! belief := written_belief (en_Belief entity) in
  done_ (ExecContext pool q_UpsertEntity
    [VText (en_ID entity); VText (en_Name entity); VText (en_Type entity); VText (en_Content entity);
     VText (Marshal_strings []); VText (beliefMetaJSON (Some belief))]).

Definition scan_profile : list Value -> result RelationalProfile :=
  scan_col str (fun id => scan_col str (fun name => scan_col str (fun content =>
  scan_end {| rp_ID := id; rp_Name := name; rp_Aliases := []; rp_Content := content |}))).
Definition GetProfile (name : string) : M W (option RelationalProfile) :=
  row_or_nil plain
    (QueryRowContext pool q_GetProfile
       [VText name; VText (contains_pattern name)] scan_profile).
Definition ListProfiles : M W (list RelationalProfile) :=
  let! rows := QueryContext pool q_ListProfiles [] in
  lift (collect_plain scan_profile rows).

(** ** The graph and the beliefs ([edges.go]) *)

Definition scan_log : list Value -> result ExperientialLog :=
  scan_col str (fun id => scan_col str (fun sid => scan_col str (fun content => scan_col str (fun source =>
  scan_col str (fun aegis => scan_col time (fun created =>
  scan_end {| el_ID := id; el_SessionID := sid; el_Content := content; el_ContentSource := source;
              el_CreatedAt := created; el_AegisAnnotation := decodeAegisMeta aegis |})))))).
Definition QueryLogs (sessionID : string) (limit : Z) : M W (list ExperientialLog) :=
  let! rows := wrapM ("platform: querying logs for session " +:+ sessionID)
    (QueryContext pool q_QueryLogs
       [VText sessionID; VInt limit]) in
  lift (collect "platform: scanning log row" scan_log rows).

Definition InvalidateEntity (entityID : string) (now : Z) : M W Z :=
  affected (ExecContext pool q_InvalidateEntity
    [VTime now; VText entityID]).
Definition InvalidateRelationship (relID : string) (now : Z) : M W Z :=
  affected (ExecContext pool q_InvalidateRelationship
    [VTime now; VText relID]).
Definition InsertSupersedgesEdge (edgeID newEntityID oldID : string) (now : Z) : M W Z :=
  affected (ExecContext pool q_InsertSupersedgesEdge
    [VText edgeID; VText newEntityID; VText oldID; VTime now]).

Definition CreateEdge (fromID toID : string) (fromTier toTier : Z) (edgeType author : string) : M W unit :=
  let! id := newPlatformID in
  let! now := e_now E in
  done_ (wrapM ("platform: inserting edge from=" +:+ fromID +:+ " to=" +:+ toID +:+ " type=" +:+ edgeType)
    (ExecContext pool q_CreateEdge
       [VText id; VText fromID; VInt fromTier; VText toID; VInt toTier; VText edgeType; VText author;
        VTime now])).

Definition scan_edge : list Value -> result MemoryEdge :=
  scan_col str (fun id => scan_col str (fun from => scan_col int (fun from_tier => scan_col str (fun to =>
  scan_col int (fun to_tier => scan_col str (fun type => scan_col str (fun author =>
  scan_col time (fun created =>
  scan_end {| me_ID := id; me_FromID := from; me_FromTier := from_tier; me_ToID := to;
              me_ToTier := to_tier; me_EdgeType := type; me_Author := author;
              me_CreatedAt := created |})))))))).
Definition GetEdges (recordID direction : string) : M W (list MemoryEdge) :=
  let get text :=
    let! rows := wrapM ("platform: querying edges for " +:+ recordID +:+ " (direction=" +:+ direction +:+ ")")
                   (QueryContext pool text [VText recordID]) in
    lift (collect "platform: scanning edge row" scan_edge rows) in
  if String.eqb direction "from" then get q_GetEdges
  else if String.eqb direction "to" then get q_GetEdges_1
  else fail (ENew ("platform: direction must be 'from' or 'to', got " +:+ fmt_q direction)).

Definition scan_node : list Value -> result EdgeNode :=
  scan_col str (fun id => scan_col int (fun tier => scan_end {| edge_ID := id; edge_Tier := tier |})).
Definition FetchDownstreamEdges (id : string) : M W (list EdgeNode) :=
  let! rows := wrapM ("platform: querying downstream edges of " +:+ id)
    (QueryContext pool q_FetchDownstreamEdges
       [VText id]) in
  lift (collect "platform: scanning downstream edge" scan_node rows).
Definition QueryEdgesForBFS (id : string) : M W (list EdgeNode) :=
  let! rows := wrapM ("platform: querying BFS edges for " +:+ id)
    (QueryContext pool q_QueryEdgesForBFS
       [VText id]) in
  lift (collect "platform: scanning BFS edge" scan_node rows).

(** One table of [LoadBeliefRecords]; the error of [rows.Err] is wrapped here. *)
Definition collect_wrapped {A} (scanning iterating : string) (scan : list Value -> result A) (rows : Rows)
    : result (list A) :=
  let? l := scan_all scanning scan rows.1 in
  match rows.2 with Some e => Err (EWrap iterating e) | None => Ok l end.
Definition load_table (table : string) : M W (list BeliefRecord) :=
  let! rows := wrapM ("platform: querying " +:+ table)
    (QueryContext pool
( (q_LoadBeliefRecords table)) []) in
  lift (collect_wrapped ("platform: scanning " +:+ table +:+ " row") ("platform: iterating " +:+ table)
          (scan_col str (fun id => scan_col str (fun meta =>
           scan_end {| rec_ID := id; rec_Belief := Some (decodeBeliefMeta meta); rec_TableName := table |})))
          rows).
Definition with_confidence (c : float64) (b : BeliefMeta) : BeliefMeta :=
  {| bm_BaseConfidence := c; bm_AnchorAt := bm_AnchorAt b; bm_InferenceDistance := bm_InferenceDistance b;
     bm_VerificationState := bm_VerificationState b; bm_Source := bm_Source b;
     bm_EmotionalRegister := bm_EmotionalRegister b |}.
Definition load_reflections : M W (list BeliefRecord) :=
  let! rows := wrapM "platform: querying reflections"
    (QueryContext pool
( q_LoadBeliefRecords_1) []) in
  lift (collect_wrapped "platform: scanning reflections row" "platform: iterating reflections"
          (scan_col str (fun id => scan_col str (fun meta => scan_col (e_float E) (fun conf =>
           scan_end {| rec_ID := id; rec_Belief := Some (with_confidence conf (decodeBeliefMeta meta));
                       rec_TableName := "reflections" |}))))
          rows).
Definition LoadBeliefRecords : M W (list BeliefRecord) :=
  let! narratives := load_table "narrative_summaries" in
  let! entities := load_table "kg_entities" in
  let! reflections := load_reflections in
  ret (narratives ++ entities ++ reflections).

Definition UpdateVerificationState (table id state : string) : M W unit :=
  if one_of table validTierTables then
    done_ (ExecContext pool (q_UpdateVerificationState table) [VText state; VText id])
  else fail (ENew ("platform: invalid table name " +:+ fmt_q table +:+ " — not in tier allowlist")).
Definition MarkNeedsReview (id : string) (tier : Z) : M W unit :=
  match tierTableName tier with
  | Err e => fail e
  | Ok table =>
      if tier =? 2 then ret tt
      else done_ (wrapM ("platform: marking needs_review on " +:+ table +:+ "." +:+ id)
                    (ExecContext pool (q_MarkNeedsReview table) [VText "needs_review"; VText id]))
  end.
End Store.
