(* ===== verification/PgProps.v ===== *)
(** * What the PostgreSQL memory store may say to the database

    Each call of [PlatformPg] with the list of texts it may send. An engine that keeps
    what it is sent shows that nothing else is ever sent: arguments reach the database
    as values, and never as SQL. *)

From S2P Require Import Prelude Types MemoryStore Memory MemoryTiers Settings Sql.
From S2P Require PlatformPg.

(** ** Spying on an engine *)

(** The statements sent, and whether by [Exec]. *)
Definition Log : Type := list (bool * Stmt).

Section Spy.
Context {W : Type}.
Definition unseen {A} (m : M W A) : M (W * Log) A :=
  fun s => let '(w, r) := m s.1 in ((w, s.2), r).
Definition seen {A} (entry : bool * Stmt) (m : M W A) : M (W * Log) A :=
  fun s => let '(w, r) := m s.1 in ((w, s.2 ++ [entry]), r).
Definition spy (E : Engine W) : Engine (W * Log) :=
  {| e_exec := fun st => seen (true, st) (e_exec E st); e_query := fun st => seen (false, st) (e_query E st);
     e_transactions := e_transactions E; e_begin := unseen (e_begin E); e_commit := unseen (e_commit E);
     e_rollback := unseen (e_rollback E); e_no_rows := e_no_rows E; e_string := e_string E; e_int := e_int E;
     e_bool := e_bool E; e_time := e_time E; e_float := e_float E; e_newID := unseen (e_newID E);
     e_now := unseen (e_now E) |}.

(** The text of a statement, with the places of its values. *)
Definition text_part (st : Stmt) : list (option Ascii.ascii) :=
  map (fun x => match x with inl c => Some c | inr _ => None end) st.
Definition shape (t : Template) : list (option Ascii.ascii) :=
  map (fun x => match x with Txt c => Some c | Hole _ => None end) t.

Lemma fill_shape args t st : fill args t = Some st -> text_part st = shape t.
Proof.
  unfold fill. destruct (_ =? _)%nat; [|done]. revert st.
  induction t as [|x t IH]; intros st; cbn; [by intros [= <-]|].
  destruct (fill_tok args x) as [y|] eqn:Ey; [|done]. cbn.
  destruct (mapM (fill_tok args) t) as [l|]; [|done]. intros [= <-]. cbn. f_equal; [|by apply IH].
  destruct x as [c|[|n]]; [by injection Ey as <-|done|]. cbn in Ey.
  destruct (args !! n); [by injection Ey as <-|done].
Qed.

(** An entry of the log is one of the texts [T]. *)
Definition says (T : list (bool * string)) (x : bool * Stmt) : Prop :=
  exists text, (x.1, text) ∈ T /\ text_part x.2 = shape (template PostgreSQL text).
Definition sends {A} (T : list (bool * string)) (m : M (W * Log) A) : Prop :=
  forall w l, exists l', (m (w, l)).1.2 = l ++ l' /\ Forall (says T) l'.

Section Rules.
Context (T : list (bool * string)) (E : Engine W).

Lemma sends_ret {A} (a : A) : sends T (ret a).
Proof. intros w l. exists []. by rewrite app_nil_r. Qed.
Lemma sends_fail {A} e : sends T (fail (A := A) e).
Proof. intros w l. exists []. by rewrite app_nil_r. Qed.
Lemma sends_lift {A} (r : result A) : sends T (lift r).
Proof. intros w l. exists []. by rewrite app_nil_r. Qed.
Lemma sends_unseen {A} (m : M W A) : sends T (unseen m).
Proof. intros w l. exists []. unfold unseen. cbn. destruct (m w). by rewrite app_nil_r. Qed.
Lemma sends_bind {A B} (m : M (W * Log) A) (k : A -> M (W * Log) B) :
  sends T m -> (forall a, sends T (k a)) -> sends T (bind m k).
Proof.
  intros Hm Hk w l. unfold bind. destruct (Hm w l) as (l1 & E1 & F1).
  destruct (m (w, l)) as [[w1 s1] [a|e]]; cbn in E1; subst s1; [|by exists l1].
  destruct (Hk a w1 (l ++ l1)) as (l2 & E2 & F2). exists (l1 ++ l2).
  rewrite E2, app_assoc. split; [done|]. by apply Forall_app.
Qed.
Lemma sends_attempt {A B} (m : M (W * Log) A) (k : result A -> M (W * Log) B) :
  sends T m -> (forall a, sends T (k a)) -> sends T (attempt m k).
Proof.
  intros Hm Hk w l. unfold attempt. destruct (Hm w l) as (l1 & E1 & F1).
  destruct (m (w, l)) as [[w1 s1] r]; cbn in E1; subst s1.
  destruct (Hk r w1 (l ++ l1)) as (l2 & E2 & F2). exists (l1 ++ l2).
  rewrite E2, app_assoc. split; [done|]. by apply Forall_app.
Qed.
Lemma sends_wrapM {A} msg (m : M (W * Log) A) : sends T m -> sends T (wrapM msg m).
Proof.
  intros Hm w l. unfold wrapM. destruct (Hm w l) as (l1 & E1 & F1). exists l1.
  by destruct (m (w, l)).
Qed.
Lemma sends_seen {A} b st (m : M W A) : says T (b, st) -> sends T (seen (b, st) m).
Proof.
  intros Hs w l. exists [(b, st)]. unfold seen. cbn. destruct (m w). split; [done|]. by constructor.
Qed.
Lemma sends_exec text args :
  (true, text) ∈ T -> sends T (ExecContext (WrapPgxPool (spy E)) text args).
Proof.
  intros HT. unfold ExecContext, statement. cbn [db_dialect db_engine WrapPgxPool spy e_exec].
  destruct (fill args _) as [st|] eqn:Ef; [|apply sends_fail]. apply sends_seen.
  exists text. split; [done|]. by apply fill_shape in Ef.
Qed.
Lemma sends_query text args :
  (false, text) ∈ T -> sends T (QueryContext (WrapPgxPool (spy E)) text args).
Proof.
  intros HT. unfold QueryContext, statement. cbn [db_dialect db_engine WrapPgxPool spy e_query].
  destruct (fill args _) as [st|] eqn:Ef; [|apply sends_fail]. apply sends_seen.
  exists text. split; [done|]. by apply fill_shape in Ef.
Qed.
Lemma sends_query_row {A} text args (scan : list Value -> result A) :
  (false, text) ∈ T -> sends T (QueryRowContext (WrapPgxPool (spy E)) text args scan).
Proof.
  intros HT. unfold QueryRowContext. apply sends_bind; [by apply sends_query|].
  intros [[|r rows] [e|]]; apply sends_fail || apply sends_lift.
Qed.
Lemma sends_row_or_nil {A} wrap (m : M (W * Log) A) :
  sends T m -> sends T (PlatformPg.row_or_nil (spy E) wrap m).
Proof.
  intros Hm. unfold PlatformPg.row_or_nil. apply sends_attempt; [done|].
  intros [a|e]; [apply sends_ret|]. destruct (PlatformPg.no_rows _ _); [apply sends_ret|apply sends_fail].
Qed.
Lemma sends_done m : sends T m -> sends T (PlatformPg.done_ m).
Proof. intros Hm. apply sends_bind; [done|]. intros. apply sends_ret. Qed.
Lemma sends_affected m : sends T m -> sends T (PlatformPg.affected m).
Proof. intros Hm. apply sends_bind; [done|]. intros. apply sends_ret. Qed.
Lemma sends_belief b : sends T (PlatformPg.written_belief (spy E) b).
Proof.
  unfold PlatformPg.written_belief. destruct b as [b|]; [destruct (time_IsZero _)|];
    try (apply sends_bind; [apply sends_unseen|]; intros); apply sends_ret.
Qed.
End Rules.
End Spy.

Create HintDb sql.
#[export] Hint Resolve sends_ret sends_fail sends_lift sends_unseen sends_wrapM sends_exec sends_query
  sends_query_row sends_row_or_nil sends_done sends_affected sends_belief : sql.

(** ** The calls and their texts *)

Inductive PgCall :=
  | p_GetAnchor (docName : string) | p_UpsertAnchor (docName hash amendmentID : string)
  | p_GetAmendmentByID (id : string) | p_InsertAmendment (rec : AmendmentRecord)
  | p_ListAmendments (docName : string) | p_ListAnchoredDocs
  | p_InsertSubstrateTransition (entry : SubstrateTransition) | p_GetLatestSubstrate
  | p_ListSubstrateHistory
  | p_GetSetting (name : string) | p_ListSettings (ownerFilter : string) | p_UpsertSetting (entry : SettingsEntry)
  | p_ProposeSetting (name value reason proposedBy : string)
  | p_GetTrust (source : string) | p_UpdateTrust (source : string) (score : float64)
  | p_IncrementInteractions (source : string)
  | p_AppendExperiential (entry : ExperientialLog) | p_SearchNarrative (limit : Z)
  | p_InsertNarrative (summary : NarrativeSummary) | p_InsertReflection (ref : Reflection)
  | p_SearchReflections (limit : Z) | p_GetReflectionByID (id : string)
  | p_SearchEntities (query : string) (limit : Z) | p_UpsertEntity (entity : Entity)
  | p_GetProfile (name : string) | p_ListProfiles
  | p_QueryLogs (sessionID : string) (limit : Z)
  | p_InvalidateEntity (entityID : string) (now : Z) | p_InvalidateRelationship (relID : string) (now : Z)
  | p_InsertSupersedgesEdge (edgeID newEntityID oldID : string) (now : Z)
  | p_CreateEdge (fromID toID : string) (fromTier toTier : Z) (edgeType author : string)
  | p_GetEdges (recordID direction : string) | p_FetchDownstreamEdges (id : string)
  | p_LoadBeliefRecords | p_UpdateVerificationState (table id state : string)
  | p_QueryEdgesForBFS (id : string) | p_MarkNeedsReview (id : string) (tier : Z).

Section Calls.
Context {W : Type} `{JsonText} (E : Engine W).
Definition quiet {A} (m : M W A) : M W unit := let! _ := m in ret tt.

(** A call, its answer dropped. *)
Definition pg_call (c : PgCall) : M W unit :=
  match c with
  | p_GetAnchor d => quiet (PlatformPg.GetAnchor E d)
  | p_UpsertAnchor d h a => quiet (PlatformPg.UpsertAnchor E d h a)
  | p_GetAmendmentByID i => quiet (PlatformPg.GetAmendmentByID E i)
  | p_InsertAmendment r => quiet (PlatformPg.InsertAmendment E r)
  | p_ListAmendments d => quiet (PlatformPg.ListAmendments E d)
  | p_ListAnchoredDocs => quiet (PlatformPg.ListAnchoredDocs E)
  | p_InsertSubstrateTransition e => quiet (PlatformPg.InsertSubstrateTransition E e)
  | p_GetLatestSubstrate => quiet (PlatformPg.GetLatestSubstrate E)
  | p_ListSubstrateHistory => quiet (PlatformPg.ListSubstrateHistory E)
  | p_GetSetting n => quiet (PlatformPg.GetSetting E n)
  | p_ListSettings o => quiet (PlatformPg.ListSettings E o)
  | p_UpsertSetting e => quiet (PlatformPg.UpsertSetting E e)
  | p_ProposeSetting n v r b => quiet (PlatformPg.ProposeSetting E n v r b)
  | p_GetTrust s => quiet (PlatformPg.GetTrust E s)
  | p_UpdateTrust s f => quiet (PlatformPg.UpdateTrust E s f)
  | p_IncrementInteractions s => quiet (PlatformPg.IncrementInteractions E s)
  | p_AppendExperiential e => quiet (PlatformPg.AppendExperiential E e)
  | p_SearchNarrative n => quiet (PlatformPg.SearchNarrative E n)
  | p_InsertNarrative n => quiet (PlatformPg.InsertNarrative E n)
  | p_InsertReflection r => quiet (PlatformPg.InsertReflection E r)
  | p_SearchReflections n => quiet (PlatformPg.SearchReflections E n)
  | p_GetReflectionByID i => quiet (PlatformPg.GetReflectionByID E i)
  | p_SearchEntities q n => quiet (PlatformPg.SearchEntities E q n)
  | p_UpsertEntity e => quiet (PlatformPg.UpsertEntity E e)
  | p_GetProfile n => quiet (PlatformPg.GetProfile E n)
  | p_ListProfiles => quiet (PlatformPg.ListProfiles E)
  | p_QueryLogs s n => quiet (PlatformPg.QueryLogs E s n)
  | p_InvalidateEntity i t => quiet (PlatformPg.InvalidateEntity E i t)
  | p_InvalidateRelationship i t => quiet (PlatformPg.InvalidateRelationship E i t)
  | p_InsertSupersedgesEdge a b c t => quiet (PlatformPg.InsertSupersedgesEdge E a b c t)
  | p_CreateEdge a b i j k l => quiet (PlatformPg.CreateEdge E a b i j k l)
  | p_GetEdges r d => quiet (PlatformPg.GetEdges E r d)
  | p_FetchDownstreamEdges i => quiet (PlatformPg.FetchDownstreamEdges E i)
  | p_LoadBeliefRecords => quiet (PlatformPg.LoadBeliefRecords E)
  | p_UpdateVerificationState t i s => quiet (PlatformPg.UpdateVerificationState E t i s)
  | p_QueryEdgesForBFS i => quiet (PlatformPg.QueryEdgesForBFS E i)
  | p_MarkNeedsReview i t => quiet (PlatformPg.MarkNeedsReview E i t)
  end.
End Calls.

Definition reads (texts : list string) : list (bool * string) := map (fun t => (false, t)) texts.
Definition writes (texts : list string) : list (bool * string) := map (fun t => (true, t)) texts.

(** The texts each call may send: closed, whatever the arguments. *)
Definition pg_texts (c : PgCall) : list (bool * string) :=
  match c with
  | p_GetAnchor _ => reads [PlatformPg.q_GetAnchor]
  | p_UpsertAnchor _ _ _ => writes [PlatformPg.q_UpsertAnchor]
  | p_GetAmendmentByID _ => reads [PlatformPg.q_GetAmendmentByID]
  | p_InsertAmendment _ => writes [PlatformPg.q_InsertAmendment]
  | p_ListAmendments _ => reads [PlatformPg.q_ListAmendments]
  | p_ListAnchoredDocs => reads [PlatformPg.q_ListAnchoredDocs]
  | p_InsertSubstrateTransition _ => writes [PlatformPg.q_InsertSubstrateTransition]
  | p_GetLatestSubstrate => reads [PlatformPg.q_GetLatestSubstrate]
  | p_ListSubstrateHistory => reads [PlatformPg.q_ListSubstrateHistory]
  | p_GetSetting _ => reads [PlatformPg.q_GetSetting]
  | p_ListSettings _ => reads [PlatformPg.q_ListSettings; PlatformPg.q_ListSettings_1]
  | p_UpsertSetting _ => writes [PlatformPg.q_UpsertSetting]
  | p_ProposeSetting _ _ _ _ =>
      reads [PlatformPg.q_GetSetting] ++
      writes [PlatformPg.q_applyOrProposePostgres; PlatformPg.q_applyOrProposePostgres_1;
              PlatformPg.q_applyOrProposePostgres_2]
  | p_GetTrust _ => reads [PlatformPg.q_GetTrust]
  | p_UpdateTrust _ _ => writes [PlatformPg.q_UpdateTrust]
  | p_IncrementInteractions _ => writes [PlatformPg.q_IncrementInteractions]
  | p_AppendExperiential _ => writes [PlatformPg.q_AppendExperiential]
  | p_SearchNarrative _ => reads [PlatformPg.q_SearchNarrative]
  | p_InsertNarrative _ => writes [PlatformPg.q_InsertNarrative]
  | p_InsertReflection _ => writes [PlatformPg.q_InsertReflection]
  | p_SearchReflections _ => reads [PlatformPg.q_SearchReflections]
  | p_GetReflectionByID _ => reads [PlatformPg.q_GetReflectionByID]
  | p_SearchEntities _ _ => reads [PlatformPg.q_SearchEntities]
  | p_UpsertEntity _ => writes [PlatformPg.q_UpsertEntity]
  | p_GetProfile _ => reads [PlatformPg.q_GetProfile]
  | p_ListProfiles => reads [PlatformPg.q_ListProfiles]
  | p_QueryLogs _ _ => reads [PlatformPg.q_QueryLogs]
  | p_InvalidateEntity _ _ => writes [PlatformPg.q_InvalidateEntity]
  | p_InvalidateRelationship _ _ => writes [PlatformPg.q_InvalidateRelationship]
  | p_InsertSupersedgesEdge _ _ _ _ => writes [PlatformPg.q_InsertSupersedgesEdge]
  | p_CreateEdge _ _ _ _ _ _ => writes [PlatformPg.q_CreateEdge]
  | p_GetEdges _ _ => reads [PlatformPg.q_GetEdges; PlatformPg.q_GetEdges_1]
  | p_FetchDownstreamEdges _ => reads [PlatformPg.q_FetchDownstreamEdges]
  | p_LoadBeliefRecords =>
      reads [PlatformPg.q_LoadBeliefRecords "narrative_summaries"; PlatformPg.q_LoadBeliefRecords "kg_entities";
             PlatformPg.q_LoadBeliefRecords_1]
  | p_UpdateVerificationState _ _ _ => writes (map PlatformPg.q_UpdateVerificationState validTierTables)
  | p_QueryEdgesForBFS _ => reads [PlatformPg.q_QueryEdgesForBFS]
  | p_MarkNeedsReview _ _ =>
      writes (map PlatformPg.q_MarkNeedsReview ["narrative_summaries"; "reflections"; "kg_entities"])
  end.

(** A walk through an operation: binds, cases, and the leaves in the hint database. *)
Ltac here := apply list_elem_of_In; cbn; tauto.
Ltac walk :=
  cbv beta zeta;
  lazymatch goal with
  | |- sends _ (bind _ _) => apply sends_bind; [walk|intros; walk]
  | |- sends _ (attempt _ _) => apply sends_attempt; [walk|intros; walk]
  | |- sends _ (wrapM _ _) => apply sends_wrapM; walk
  | |- sends _ (PlatformPg.done_ _) => apply sends_done; walk
  | |- sends _ (PlatformPg.affected _) => apply sends_affected; walk
  | |- sends _ (PlatformPg.row_or_nil _ _ _) => apply sends_row_or_nil; walk
  | |- sends _ (ExecContext _ _ _) => apply sends_exec; here
  | |- sends _ (QueryContext _ _ _) => apply sends_query; here
  | |- sends _ (QueryRowContext _ _ _ _) => apply sends_query_row; here
  | |- sends _ (match ?x with _ => _ end) => destruct x; walk
  | |- _ => first [by auto with sql | apply sends_unseen]
  end.

Section Statements.
Context {W : Type} `{JsonText} (E : Engine W).

Lemma pg_call_sends c : sends (pg_texts c) (pg_call (spy E) c).
Proof.
  destruct c; cbn [pg_call]; unfold quiet; (apply sends_bind; [|intros; apply sends_ret]).
  - unfold PlatformPg.GetAnchor. walk.
  - unfold PlatformPg.UpsertAnchor. walk.
  - unfold PlatformPg.GetAmendmentByID. walk.
  - unfold PlatformPg.InsertAmendment. walk.
  - unfold PlatformPg.ListAmendments. walk.
  - unfold PlatformPg.ListAnchoredDocs. walk.
  - unfold PlatformPg.InsertSubstrateTransition. walk.
  - unfold PlatformPg.GetLatestSubstrate. walk.
  - unfold PlatformPg.ListSubstrateHistory. walk.
  - unfold PlatformPg.GetSetting. walk.
  - unfold PlatformPg.ListSettings. walk.
  - unfold PlatformPg.UpsertSetting. walk.
  - unfold PlatformPg.ProposeSetting, PlatformPg.GetSetting, PlatformPg.applyOrProposePostgres. walk.
  - unfold PlatformPg.GetTrust. walk.
  - unfold PlatformPg.UpdateTrust. walk.
  - unfold PlatformPg.IncrementInteractions. walk.
  - unfold PlatformPg.AppendExperiential. walk.
  - unfold PlatformPg.SearchNarrative. walk.
  - unfold PlatformPg.InsertNarrative. walk.
  - unfold PlatformPg.InsertReflection. walk.
  - unfold PlatformPg.SearchReflections. walk.
  - unfold PlatformPg.GetReflectionByID. walk.
  - unfold PlatformPg.SearchEntities. walk.
  - unfold PlatformPg.UpsertEntity. walk.
  - unfold PlatformPg.GetProfile. walk.
  - unfold PlatformPg.ListProfiles. walk.
  - unfold PlatformPg.QueryLogs. walk.
  - unfold PlatformPg.InvalidateEntity. walk.
  - unfold PlatformPg.InvalidateRelationship. walk.
  - unfold PlatformPg.InsertSupersedgesEdge. walk.
  - unfold PlatformPg.CreateEdge. walk.
  - unfold PlatformPg.GetEdges. walk.
  - unfold PlatformPg.FetchDownstreamEdges. walk.
  - unfold PlatformPg.LoadBeliefRecords, PlatformPg.load_table, PlatformPg.load_reflections. walk.
  - unfold PlatformPg.UpdateVerificationState. destruct (one_of table validTierTables) eqn:Et; [|walk].
    apply sends_done, sends_exec. unfold pg_texts, writes. apply list_elem_of_fmap.
    eexists. split; [done|]. apply list_elem_of_fmap. exists table. split; [done|]. by apply one_of_elem.
  - unfold PlatformPg.QueryEdgesForBFS. walk.
  - unfold PlatformPg.MarkNeedsReview, tierTableName.
    destruct (tier =? 2) eqn:E2; [walk|]. destruct (tier =? 3); [walk|]. destruct (tier =? 4); [walk|].
    destruct (tier =? 5); walk.
Qed.

(** Nothing is deleted, and only the insertion of a reflection writes its confidence. *)
Definition harmless (c : PgCall) (entry : bool * string) : bool :=
  let has := str_contains entry.2 in
  negb entry.1 ||
  (negb (has "DELETE") && negb (has "TRUNCATE") && negb (has "DROP") &&
   (negb (has "base_confidence") || match c with p_InsertReflection _ => true | _ => false end)).

Lemma texts_harmless c : forallb (harmless c) (pg_texts c) = true.
Proof. destruct c; vm_compute; reflexivity. Qed.

(** C24: Whatever its arguments and whatever the database answers, each statement a call
    of the PostgreSQL memory store sends has one of the call's fixed texts, with values
    only in the places of its placeholders: no argument, not even a table name, becomes
    SQL. None of the texts deletes anything, and only the one that inserts a reflection
    mentions [base_confidence] among the writes: the T4 consent boundary. *)
Theorem postgres_statements c w :
  Forall (fun x => exists text, (x.1, text) ∈ pg_texts c /\ harmless c (x.1, text) = true /\
                     text_part x.2 = shape (template PostgreSQL text))
    (pg_call (spy E) c (w, [])).1.2.
Proof.
  destruct (pg_call_sends c w []) as (l & El & Hl). refine (eq_ind_r (fun s => Forall _ s) _ El).
  eapply Forall_impl; [apply Hl|].
  intros x (text & Ht & Hs). exists text. split; [done|]. split; [|done].
  pose proof (texts_harmless c) as Hh. rewrite forallb_forall in Hh. by apply Hh, list_elem_of_In.
Qed.
End Statements.

(** ** What JSONB makes of the stale filter *)

(** PostgreSQL writes a JSONB value with a space after the colon. The pattern that is to
    leave the stale records out of [LoadBeliefRecords] never matches it, though it does
    match the text SQLite keeps. *)
Example jsonb_hides_stale :
  let pattern := "%" +:+ PlatformPg.quoted_stale +:+ "%" in
  let key := dquote +:+ "verification_state" +:+ dquote in
  let stale := dquote +:+ "stale" +:+ dquote in
  like pattern ("{" +:+ key +:+ ":" +:+ stale +:+ "}") = true /\
  like pattern ("{" +:+ key +:+ ": " +:+ stale +:+ "}") = false.
Proof. split; vm_compute; reflexivity. Qed.
