(* ===== verification/Channels.v ===== *)
(** * Channel adapters: [internal/channels/cli.go], [discord.go], [forums.go]

    What each adapter sends on its stream, tick by tick, and what it posts. The transport
    and JSON are parameters; a stream is the list of its events, in order, for the ticks
    before its context is cancelled. *)

From S2P Require Import Prelude Types Config Client MemoryStore Daemon.

Record OutboundMessage := {
  om_Channel : string; om_Content : string; om_ThreadID : string; om_ReplyTo : string;
  om_Files : list string }.
Record ChannelCaps := {
  cc_Attachments : bool; cc_Reactions : bool; cc_Threads : bool; cc_Edits : bool; cc_Push : bool }.

(** An answer of the transport, with its [Retry-After] header and what of its body is read. *)
Record Answer := { an_status : Z; an_retry_after : string; an_body : string }.

(** ** The command line *)

Definition CLI_Name : string := "cli".
Definition CLI_Capabilities : ChannelCaps :=
  {| cc_Attachments := false; cc_Reactions := false; cc_Threads := false; cc_Edits := false; cc_Push := true |}.

Definition cli_event (line : string) (now : Z) : InboundEvent :=
  {| ie_Channel := "cli"; ie_SenderID := "operator"; ie_SenderName := "operator"; ie_Content := line;
     ie_ContentType := "text"; ie_ThreadID := ""; ie_ReceivedAt := now; ie_WakeWorthy := true |}.

(** [bufio.MaxScanTokenSize]: a scanner without [Buffer] stops at a line of 64 KB. *)
Definition stdinTokenSize : Z := 65536.
Fixpoint scan_stdin (pieces : list string) : list string :=
  match pieces with
  | [] => []
  | l :: rest =>
      if stdinTokenSize <=? str_len l then []
      else match rest with
           | [] => if str_empty l then [] else [drop_cr l]
           | _ => drop_cr l :: scan_stdin rest
           end
  end.
(** The events of the lines of [stdin]; [now i] is the clock when the [i]th is sent. *)
Definition CLI_Start (stdin : string) (now : nat -> Z) : list InboundEvent :=
  imap (fun i line => cli_event line (now i)) (scan_stdin (split_newlines stdin)).

(** What is written on [stdout]. *)
Definition CLI_Send (msg : OutboundMessage) : string := om_Content msg +:+ newline.

(** ** Discord *)

Definition discordAPIBase : string := "https://discord.com/api/v10".
Record DiscordConfig := { dc_Token : string; dc_ChannelIDs : list string; dc_PollInterval : Z }.
Definition NewDiscordAdapter (cfg : DiscordConfig) : DiscordConfig :=
  {| dc_Token := dc_Token cfg; dc_ChannelIDs := dc_ChannelIDs cfg;
     dc_PollInterval := if dc_PollInterval cfg =? 0 then 30 * second else dc_PollInterval cfg |}.
Definition Discord_Name : string := "discord".
Definition Discord_Capabilities : ChannelCaps :=
  {| cc_Attachments := true; cc_Reactions := true; cc_Threads := true; cc_Edits := false; cc_Push := false |}.

Record discordMessage := {
  dg_ID : string; dg_Content : string; dg_Timestamp : string; dg_AuthorID : string; dg_Username : string }.

Definition discord_event (m : discordMessage) : InboundEvent :=
  {| ie_Channel := "discord"; ie_SenderID := dg_AuthorID m; ie_SenderName := dg_Username m;
     ie_Content := dg_Content m; ie_ContentType := "text"; ie_ThreadID := "";
     ie_ReceivedAt := default time_zero (time_Parse_RFC3339 (dg_Timestamp m)); ie_WakeWorthy := false |}.

(** [lastID] after a batch: the ID of its last message, if it has one. *)
Definition last_id (raw : list discordMessage) : string := from_option dg_ID "" (last raw).
Definition messages_url (channelID afterID : string) : string :=
  discordAPIBase +:+ "/channels/" +:+ channelID +:+ "/messages?limit=50" +:+
  (if str_empty afterID then "" else "&after=" +:+ afterID).
Definition retry_after (header : string) : Z :=
  if str_empty header then 5 else default 5 (Atoi header).

Section Discord.
Context {W : Type}.
Variable http_Get : string -> list (string * string) -> M W Answer.
Variable http_Post : string -> list (string * string) -> string -> M W Answer.
Variable check_url : string -> option error.
Variable parse_messages : string -> result (list discordMessage).
Variable content_json : string -> string.

(** The adapter's state beside the world: [lastID]. *)
Definition Poller : Type := W * gmap string string.
Definition on_world {A} (m : M W A) : M Poller A :=
  fun s => let '(w, r) := m s.1 in ((w, s.2), r).
Definition set_last (channelID newestID : string) : M Poller unit :=
  fun s => ((s.1, <[channelID := newestID]> s.2), Ok tt).

(** The events, and the seconds to wait when rate limited. *)
Definition fetchMessages (cfg : DiscordConfig) (channelID afterID : string)
    : M Poller (list InboundEvent * Z) :=
  let url := messages_url channelID afterID in
  match check_url url with
  | Some e => fail e
  | None =>
      let! resp := on_world (http_Get url [("Authorization", "Bot " +:+ dc_Token cfg)]) in
      if an_status resp =? 429 then ret ([], retry_after (an_retry_after resp))
      else if negb (an_status resp =? 200) then
        fail (ENew ("discord: HTTP " +:+ fmt_d (an_status resp) +:+ ": " +:+ an_body resp))
      else
        match parse_messages (an_body resp) with
        | Err e => fail (EWrap "discord: decode" e)
        | Ok raw =>
            let! _ := if str_empty (last_id raw) then ret tt else set_last channelID (last_id raw) in
            ret (map discord_event raw, 0)
        end
  end.

(** One tick of [pollChannel] and what it sends. *)
Definition poll_tick (cfg : DiscordConfig) (channelID : string) (s : Poller) : Poller * list InboundEvent :=
  let afterID := default "" (s.2 !! channelID) in
  match fetchMessages cfg channelID afterID s with
  | (s', Err _) => (s', [])
  | (s', Ok (msgs, retry)) => (s', if 0 <? retry then [] else msgs)
  end.
Fixpoint pollChannel (cfg : DiscordConfig) (channelID : string) (ticks : nat) (s : Poller)
    : Poller * list (list InboundEvent) :=
  match ticks with
  | O => (s, [])
  | S n => let '(s, msgs) := poll_tick cfg channelID s in
           let '(s, rest) := pollChannel cfg channelID n s in
           (s, msgs :: rest)
  end.

(** The channels a started adapter polls. *)
Definition Discord_Start (cfg : DiscordConfig) : result (list string) :=
  if str_empty (dc_Token cfg) then Err (ENew "discord: DISCORD_TOKEN is required")
  else match dc_ChannelIDs cfg with
       | [] => Err (ENew "discord: no channel IDs configured")
       | ids => Ok ids
       end.

Definition sent (who : string) (resp : Answer) : M W unit :=
  if (an_status resp =? 200) || (an_status resp =? 201) then ret tt
  else fail (ENew (who +:+ ": send HTTP " +:+ fmt_d (an_status resp) +:+ ": " +:+ an_body resp)).

Definition Discord_Send (cfg : DiscordConfig) (msg : OutboundMessage) : M W unit :=
  if str_empty (om_Channel msg)
  then fail (ENew "discord: Send requires OutboundMessage.Channel (channel ID)")
  else
    let url := discordAPIBase +:+ "/channels/" +:+ om_Channel msg +:+ "/messages" in
    match check_url url with
    | Some e => fail e
    | None =>
        let! resp := http_Post url [("Authorization", "Bot " +:+ dc_Token cfg);
                                    ("Content-Type", "application/json")] (content_json (om_Content msg)) in
        sent "discord" resp
    end.
End Discord.

(** ** Forums *)

Record ForumConfig := { fc_Name : string; fc_BaseURL : string; fc_APIKey : string; fc_PollInterval : Z }.
Record ForumAdapter := { fa_cfg : ForumConfig; fa_cursor : Zoned }.
Definition NewForumAdapter (cfg : ForumConfig) (now : Z) : ForumAdapter :=
  {| fa_cfg := {| fc_Name := fc_Name cfg; fc_BaseURL := fc_BaseURL cfg; fc_APIKey := fc_APIKey cfg;
                  fc_PollInterval := if fc_PollInterval cfg =? 0 then 60 * second else fc_PollInterval cfg |};
     fa_cursor := (now, 0) |}.
Definition Forum_Capabilities : ChannelCaps :=
  {| cc_Attachments := false; cc_Reactions := false; cc_Threads := true; cc_Edits := false; cc_Push := false |}.

Record forumPost := {
  fp_ID : string; fp_ThreadID : string; fp_AuthorID : string; fp_AuthorName : string;
  fp_Content : string; fp_CreatedAt : string }.
Definition post_time (p : forumPost) : Zoned := default (time_zero, 0) (time_Parse_zoned (fp_CreatedAt p)).
Definition forum_event (name : string) (p : forumPost) : InboundEvent :=
  {| ie_Channel := name; ie_SenderID := fp_AuthorID p; ie_SenderName := fp_AuthorName p;
     ie_Content := fp_Content p; ie_ContentType := "text"; ie_ThreadID := fp_ThreadID p;
     ie_ReceivedAt := (post_time p).1; ie_WakeWorthy := false |}.
Definition newest (raw : list forumPost) : Zoned :=
  fold_left (fun t p => if t.1 <? (post_time p).1 then post_time p else t) raw (time_zero, 0).
Definition posts_url (f : ForumAdapter) : string :=
  fc_BaseURL (fa_cfg f) +:+ "/api/posts?since=" +:+ fmt_zoned (fa_cursor f).

Section Forum.
Context {W : Type}.
Variable http_Get : string -> list (string * string) -> M W Answer.
Variable http_Post : string -> list (string * string) -> string -> M W Answer.
Variable check_url : string -> option error.
Variable parse_posts : string -> result (list forumPost).
Variable reply_json : string -> string -> string.

Definition who (f : ForumAdapter) : string := "forum(" +:+ fc_Name (fa_cfg f) +:+ ")".

Definition fetchPosts (f : ForumAdapter) (w : W) : W * result (ForumAdapter * list InboundEvent) :=
  let url := posts_url f in
  match check_url url with
  | Some e => (w, Err e)
  | None =>
      match http_Get url [("Authorization", "Bearer " +:+ fc_APIKey (fa_cfg f)); ("Accept", "application/json")] w with
      | (w, Err e) => (w, Err e)
      | (w, Ok resp) =>
          if negb (an_status resp =? 200) then
            (w, Err (ENew (who f +:+ ": HTTP " +:+ fmt_d (an_status resp) +:+ ": " +:+ an_body resp)))
          else
            match parse_posts (an_body resp) with
            | Err e => (w, Err (EWrap (who f +:+ ": decode") e))
            | Ok raw =>
                let t := newest raw in
                let f' := if time_IsZero t.1 then f
                          else {| fa_cfg := fa_cfg f; fa_cursor := (t.1 + second / 1000, t.2) |} in
                (w, Ok (f', map (forum_event (fc_Name (fa_cfg f))) raw))
            end
      end
  end.

Fixpoint poll (ticks : nat) (f : ForumAdapter) (w : W) : W * ForumAdapter * list (list InboundEvent) :=
  match ticks with
  | O => (w, f, [])
  | S n =>
      let '(w, f, posts) := match fetchPosts f w with
                            | (w, Ok (f', posts)) => (w, f', posts)
                            | (w, Err _) => (w, f, [])
                            end in
      let '(w, f, rest) := poll n f w in
      (w, f, posts :: rest)
  end.

Definition Forum_Start (f : ForumAdapter) : result unit :=
  if str_empty (fc_BaseURL (fa_cfg f)) then Err (ENew (who f +:+ ": BaseURL is required"))
  else if str_empty (fc_APIKey (fa_cfg f)) then Err (ENew (who f +:+ ": APIKey is required"))
  else Ok tt.

Definition Forum_Send (f : ForumAdapter) (msg : OutboundMessage) : M W unit :=
  if str_empty (om_ThreadID msg) then fail (ENew (who f +:+ ": Send requires OutboundMessage.ThreadID"))
  else
    let url := fc_BaseURL (fa_cfg f) +:+ "/api/posts" in
    match check_url url with
    | Some e => fail e
    | None =>
        let! resp := http_Post url [("Authorization", "Bearer " +:+ fc_APIKey (fa_cfg f));
                                    ("Content-Type", "application/json")]
                       (reply_json (om_ThreadID msg) (om_Content msg)) in
        sent (who f) resp
    end.
End Forum.

(** ** What polling delivers *)

(** Discord answers newest first and the cursor takes the last message of the answer, the
    oldest: a quiet channel is delivered again, one message shorter, at every tick. *)
Section Quiet.
Context {W : Type}.
Variable http_Get : string -> list (string * string) -> M W Answer.
Variable check_url : string -> option error.
Variable parse_messages : string -> result (list discordMessage).
Variable body : string -> string.
Variable cfg : DiscordConfig.
Variable channelID : string.
(** The channel's messages, oldest first. *)
Variable hist : list discordMessage.

Hypothesis urls_ok : forall url, check_url url = None.
Hypothesis get_ok : forall url hdr w,
  http_Get url hdr w = (w, Ok {| an_status := 200; an_retry_after := ""; an_body := body url |}).
(** [GET /channels/{id}/messages]: the latest messages, newest first; after an ID, the
    messages that follow it. The limit of 50 is not reached. *)
Hypothesis latest : parse_messages (body (messages_url channelID "")) = Ok (rev hist).
Hypothesis after : forall older m newer, hist = older ++ m :: newer ->
  parse_messages (body (messages_url channelID (dg_ID m))) = Ok (rev newer).
Hypothesis ids : Forall (fun m => str_empty (dg_ID m) = false) hist.

Local Notation tick := (poll_tick http_Get check_url parse_messages cfg channelID).
Local Notation stream := (pollChannel http_Get check_url parse_messages cfg channelID).

Lemma quiet_tick (w : W) L newer :
  parse_messages (body (messages_url channelID (default "" (L !! channelID)))) = Ok (rev newer) ->
  Forall (fun m => str_empty (dg_ID m) = false) newer ->
  tick (w, L) = ((w, match newer with [] => L | m :: _ => <[channelID := dg_ID m]> L end),
                 map discord_event (rev newer)).
Proof.
  intros Hp Hids. unfold poll_tick, fetchMessages, bind, on_world, set_last, ret. cbn -[messages_url].
  rewrite urls_ok, get_ok. cbn -[messages_url last_id rev]. rewrite Hp.
  destruct Hids as [|m newer' Hm _]; [reflexivity|].
  assert (Hl : last_id (rev (m :: newer')) = dg_ID m).
  { unfold last_id. simpl rev. by rewrite last_snoc. }
  rewrite Hl, Hm. reflexivity.
Qed.

Lemma quiet_stream (ticks : nat) (w : W) : forall L older newer,
  hist = older ++ newer ->
  parse_messages (body (messages_url channelID (default "" (L !! channelID)))) = Ok (rev newer) ->
  (stream ticks (w, L)).2 = map (fun k => map discord_event (rev (drop k newer))) (seq 0 ticks).
Proof.
  induction ticks as [|n IH]; intros L older newer Hh Hp; [reflexivity|].
  cbn [pollChannel]. rewrite (quiet_tick w L newer Hp).
  2: { revert ids. rewrite Hh, Forall_app. by intros []. }
  cbn [seq map]. rewrite <- seq_shift, map_map. destruct newer as [|m newer].
  - specialize (IH L older [] Hh Hp). destruct (stream n (w, L)) as [s' rest]. simpl in *.
    rewrite IH. f_equal. apply map_ext. intros k. by rewrite drop_nil.
  - specialize (IH (<[channelID := dg_ID m]> L) (older ++ [m]) newer).
    rewrite <- app_assoc, lookup_insert_eq in IH. specialize (IH Hh (after older m newer Hh)).
    destruct (stream n _) as [s' rest]. simpl in *. by rewrite IH.
Qed.

(** a Discord channel in which nobody writes is delivered over and over, because the
    service answers newest first and the adapter's cursor takes the last message of the
    answer, which is the oldest. From an empty cursor, tick number k sends the whole history
    but its k oldest messages, newest first: the i-th oldest message is delivered i times,
    the newest as often as there are messages, and every batch is in reverse order. *)
Theorem quiet_channel_redelivers (ticks : nat) (w : W) L :
  L !! channelID = None ->
  (stream ticks (w, L)).2 = map (fun k => map discord_event (rev (drop k hist))) (seq 0 ticks).
Proof. intros HL. apply (quiet_stream ticks w L []); [done|]. by rewrite HL. Qed.
End Quiet.

(** Three messages, oldest first; the service finds the cursor in the URL. *)
Definition demo_message (id : string) : discordMessage :=
  {| dg_ID := id; dg_Content := "hello " +:+ id; dg_Timestamp := "2026-01-01T00:00:00Z";
     dg_AuthorID := "u1"; dg_Username := "user" |}.
#[local] Notation quiet_hist := [demo_message "1"; demo_message "2"; demo_message "3"].
#[local] Notation quiet_cfg :=
  {| dc_Token := "t"; dc_ChannelIDs := ["c"]; dc_PollInterval := 30 * second |}.
#[local] Notation quiet_get := (fun (url : string) (_ : list (string * string)) (w : unit) =>
  (w, Ok {| an_status := 200; an_retry_after := ""; an_body := url |}) : unit * result Answer).
Definition quiet_parse (url : string) : result (list discordMessage) :=
  Ok (if String.eqb url (messages_url "c" "1") then [demo_message "3"; demo_message "2"]
      else if String.eqb url (messages_url "c" "2") then [demo_message "3"]
      else if String.eqb url (messages_url "c" "3") then []
      else [demo_message "3"; demo_message "2"; demo_message "1"]).
Lemma quiet_channel_redelivers_witness :
  map (map ie_Content)
    (pollChannel quiet_get (fun _ => None) quiet_parse quiet_cfg "c" 4 (tt, ∅)).2 =
  [["hello 3"; "hello 2"; "hello 1"]; ["hello 3"; "hello 2"]; ["hello 3"]; []].
Proof.
  rewrite (quiet_channel_redelivers quiet_get (fun _ => None) quiet_parse (fun url => url)
             quiet_cfg "c" quiet_hist); try reflexivity.
  - intros older m newer Hh.
    destruct older as [|? [|? [|? [|? ?]]]]; simplify_eq/=; reflexivity.
  - repeat constructor.
Defined.

(** Each delivery is an event to the daemon, and the wake condition of the Discord channel
    accepts any text: the newest of three messages starts three sessions. *)
Definition discord_daemon : Daemon nat :=
  {| dm_RunSession := dm_RunSession demo_daemon; dm_StartAll := dm_StartAll demo_daemon;
     dm_gateway := dm_gateway demo_daemon;
     dm_waker := Some (NewWakeScheduler (fun _ => Some (fun _ => true))
                   [{| wc_Channel := "discord"; wc_Pattern := ".*"; wc_Priority := 1 |}]);
     dm_InterruptStaleCheckpoints := None; dm_supervisor := None; dm_Now := dm_Now demo_daemon |}.
Example quiet_channel_wakes_again :
  let events := concat (pollChannel quiet_get (fun _ => None) quiet_parse quiet_cfg "c" 4 (tt, ∅)).2 in
  map st_InboundContent (Run (recorded discord_daemon) (map Event events) (0%nat, [])).1.2 =
  ["hello 3"; "hello 2"; "hello 1"; "hello 3"; "hello 2"; "hello 3"].
Proof. vm_compute. reflexivity. Qed.

(** The cursor of the forum adapter moves one millisecond past the newest post, but [since]
    is sent in whole seconds: unless the post is in its second's last millisecond, the
    request is the one that asks for the post again. *)
Lemma fmt_stamp_second sep tail (a b : Z) :
  a / second = b / second -> fmt_stamp sep tail a = fmt_stamp sep tail b.
Proof. unfold fmt_stamp. by intros ->. Qed.
Lemma seconds_floor (t d : Z) :
  0 <= d -> t mod second + d < second -> (t + d) / second = t / second.
Proof.
  unfold second. intros. pose proof (Z.div_mod t 1000000000 ltac:(lia)).
  pose proof (Z.mod_pos_bound t 1000000000 ltac:(lia)).
  symmetry. apply (Z.div_unique_pos _ _ _ (t mod 1000000000 + d)); lia.
Qed.
Theorem forum_cursor_keeps_its_second (f : ForumAdapter) (t off : Z) :
  t mod second + second / 1000 < second ->
  posts_url {| fa_cfg := fa_cfg f; fa_cursor := (t + second / 1000, off) |} =
  posts_url {| fa_cfg := fa_cfg f; fa_cursor := (t, off) |}.
Proof.
  intros H. pose proof (seconds_floor t (second / 1000) ltac:(done) H) as Hf.
  unfold posts_url. do 2 f_equal. simpl fa_cursor. unfold fmt_zoned, fmt_RFC3339, local_stamp. simpl.
  case_match; apply fmt_stamp_second; [done|].
  rewrite !Z.div_add by done. by rewrite Hf.
Qed.
