(* ===== verification/Phase1.v ===== *)
(** * The connectivity runner: [internal/app/phase1.go], [internal/engine/loop.go]

    One turn with a minimal context, gated by [PHASE1_MODE]. The session object and the
    token budget are local to the run; the model returns them beside its effects. *)

From S2P Require Import Prelude Frames Types Db Session Awareness Identity Assembly Engine SessionProps.

(** ** [loop.go] *)

Record ToolCallResult := { tcr_Name : string; tcr_Result : string }.
Record Turn := {
  tu_Index : Z; tu_Request : CompletionRequest; tu_Response : CompletionResponse;
  tu_ToolCall : option ToolCallResult }.
Record LoopConfig := {
  lc_MaxTurns : Z; lc_TokenBudget : Z; lc_DryRun : bool; lc_Rehearsal : bool }.
(** The registry of a [Loop] is read by no method of it. *)
Record Loop (W : Type) := {
  lo_client : CompletionRequest -> M W CompletionResponse; lo_hooks : HookPipeline W;
  lo_cfg : LoopConfig }.
Arguments lo_client {W} _. Arguments lo_hooks {W} _. Arguments lo_cfg {W} _.

Definition NewLoop {W} (client : CompletionRequest -> M W CompletionResponse) (hooks : HookPipeline W)
    (cfg : LoopConfig) : Loop W :=
  {| lo_client := client; lo_hooks := hooks;
     lo_cfg := {| lc_MaxTurns := if lc_MaxTurns cfg <=? 0 then 50 else lc_MaxTurns cfg;
                  lc_TokenBudget := lc_TokenBudget cfg; lc_DryRun := lc_DryRun cfg;
                  lc_Rehearsal := lc_Rehearsal cfg |} |}.
Definition RunOneTurn {W} (l : Loop W) (req : CompletionRequest) : M W Turn :=
  let! resp := wrapM "LLM completion" (lo_client l req) in
  ret {| tu_Index := 0; tu_Request := req; tu_Response := resp; tu_ToolCall := None |}.

(** ** [phase1.go] *)

Section Phase1.
Context `{Env} `{Process World} `{Host} `{FileStat} `{MapRange}.

(** The fields the runner reads of [Dependencies] and its [Config], and the assembler. *)
Record Phase1Runner := {
  p1_AgentName : string; p1_TokenBudget : Z; p1_HardFloorTokens : Z;
  p1_LLM : CompletionRequest -> M World CompletionResponse;
  p1_assembler : ContextAssembler World }.

Definition phase1_config (trigger : SessionTrigger) : AssembleConfig World :=
  let m := @MinimalAssembleConfig World in
  {| cfg_store := cfg_store m; cfg_edges := cfg_edges m; cfg_anchors := cfg_anchors m;
     cfg_provider := cfg_provider m; cfg_grounding := cfg_grounding m; cfg_bridge := cfg_bridge m;
     cfg_llmFn := cfg_llmFn m; cfg_contradictionProbability := cfg_contradictionProbability m;
     cfg_InbandNotes := st_InbandNotes trigger; cfg_AssemblyStore := cfg_AssemblyStore m;
     cfg_SkipWitnessCheck := cfg_SkipWitnessCheck m; cfg_Plan := cfg_Plan m;
     cfg_SessionID := cfg_SessionID m |}.
Definition phase1_request (assembled : AssembledContext) : CompletionRequest :=
  {| cr_System := ctx_SystemPrompt assembled;
     cr_Messages := [{| msg_Role := "user"; msg_Content := "Hello. This is a Phase 1 connectivity test.";
                        msg_Blocks := []; msg_ToolCallID := ""; msg_IsError := false |}];
     cr_Tools := []; cr_MaxTokens := 256; cr_Temperature := None |}.
Definition hook_turn (sess : Session) (resp : CompletionResponse) : TurnResult :=
  {| tn_SessionID := s_ID sess; tn_TurnNumber := s_turnCount sess; tn_Content := TextContent resp;
     tn_ToolCalls := []; tn_ToolResults := []; tn_PromptTokens := resp_PromptTokens resp;
     tn_CompletionTokens := resp_CompletionTokens resp; tn_ThinkingTokens := resp_ThinkingTokens resp;
     tn_TTFT := resp_TTFT resp; tn_TotalDuration := resp_TotalLatency resp |}.

(** The turn, its accounting, the (empty) hook pipeline and the end of the session. *)
Definition phase1_turn (r : Phase1Runner) (assembled : AssembledContext) (sess : Session)
    : M World (Session * TokenBudget) :=
  let budget := NewTokenBudget (p1_TokenBudget r) (p1_HardFloorTokens r) in
  let hooks : HookPipeline World := [] in
  let loop := NewLoop (p1_LLM r) hooks
                {| lc_MaxTurns := 1; lc_TokenBudget := p1_TokenBudget r; lc_DryRun := false;
                   lc_Rehearsal := false |} in
  let! turn := wrapM "running turn" (RunOneTurn loop (phase1_request assembled)) in
  let resp := tu_Response turn in
  let sess := RecordTurn (resp_PromptTokens resp) (resp_CompletionTokens resp) sess in
  let '(budget, _) := Add (resp_PromptTokens resp) (resp_CompletionTokens resp) budget in
  let! _ := wrapM "post-turn hooks" (RunAll hooks (hook_turn sess resp)) in
  let! now := draw time_Now in
  ret (End_ now sess, budget).

(** [None]: the assembly panics. *)
Definition RunSession (r : Phase1Runner) (trigger : SessionTrigger)
    : M World (option (Session * TokenBudget)) :=
  let! assembled := wrapM "assembling context" (Assemble (p1_assembler r) (phase1_config trigger)) in
  match assembled with
  | None => ret None
  | Some assembled =>
      let! now := draw time_Now in
      let! sess := NewSession (p1_AgentName r) (st_WakeReason trigger) now in
      let! out := phase1_turn r assembled sess in
      ret (Some out)
  end.

(** ** Properties *)

(** Whatever relation the process, the random source and the model keep, a connectivity
    session keeps: it has no store to write to, so it persists nothing. *)
Theorem phase1_frames (R : relation World) `{!PreOrder R} (r : Phase1Runner) (trigger : SessionTrigger) dir budget :
  frames_process R -> (forall w, R w (bump_rng w)) -> (forall req, frames R (p1_LLM r req)) ->
  p1_assembler r = NewContextAssembler dir budget ->
  frames R (RunSession r trigger).
Proof.
  intros Hp Hrng Hllm Ha. unfold RunSession. rewrite Ha.
  apply frames_bind; [done| |].
  { apply frames_wrapM, frames_Assemble; [done|]. by constructor. }
  intros [assembled|]; [|by apply frames_ret].
  apply frames_bind; [done|apply (fp_now R Hp)|]. intros now.
  apply frames_bind; [done|intros w; apply Hrng|]. intros sess.
  apply frames_bind; [done| |intros; by apply frames_ret].
  unfold phase1_turn, RunOneTurn. cbv zeta.
  apply frames_bind; [done|apply frames_wrapM, frames_bind; [done|apply frames_wrapM, Hllm|intros; by apply frames_ret]|].
  intros turn. destruct (Add _ _ _) as [b lvl].
  apply frames_bind; [done|apply frames_wrapM; by apply frames_ret|]. intros _.
  apply frames_bind; [done|apply (fp_now R Hp)|]. intros; by apply frames_ret.
Qed.

(** a connectivity session that succeeds made exactly one turn and ended: its session is
    completed after one turn, under the configured agent and wake reason, and the tokens
    the session counts are those the budget was charged. *)
Theorem phase1_one_turn (r : Phase1Runner) (trigger : SessionTrigger) w w' sess budget :
  RunSession r trigger w = (w', Ok (Some (sess, budget))) ->
  s_State sess = SessionStateCompleted /\ s_turnCount sess = 1 /\ is_Some (s_EndedAt sess) /\
  s_AgentName sess = p1_AgentName r /\ s_WakeReason sess = st_WakeReason trigger /\
  s_TokensUsed sess = tb_used budget /\ tb_total budget = p1_TokenBudget r.
Proof.
  unfold RunSession. intros Hr. apply bind_Ok in Hr as (w1 & [assembled|] & _ & Hr); [|done].
  apply bind_Ok in Hr as (w2 & now & _ & Hr). apply bind_Ok in Hr as (w3 & s0 & Hs & Hr).
  unfold NewSession in Hs. simplify_eq.
  apply bind_Ok in Hr as (w4 & [s1 b1] & Ht & Hr). unfold ret in Hr. simplify_eq.
  unfold phase1_turn, Add in Ht. cbv zeta in Ht. apply bind_Ok in Ht as (w5 & turn & _ & Ht).
  apply bind_Ok in Ht as (w6 & [] & _ & Ht). apply bind_Ok in Ht as (w7 & now' & _ & Ht).
  unfold ret in Ht. simplify_eq. split_and!; try reflexivity. by eexists.
Qed.
End Phase1.
